(** * MinesweeperLearning: the batched game engine, embedded and verified

    The development follows the Python sources:
    - [Np]      the fragments of numpy the engine relies on (boolean-mask
                indexing, padding, slicing, reductions), on nested lists;
    - [Utils]   [src/utils.py], [random_binary_matrices];
    - [Engine]  [src/game.py], class [Game] (the batched engine);
    - [Views]   [Game.__getitem__] on a store of array buffers, where the
                aliasing of numpy views is explicit;
    - [Legacy]  [game.py] at the repository root, the earlier [Game] with
                the recursive [open_zero].

    Cells are machine integers holding 0 or 1 (numpy [int8]); they are
    modelled in [Z], with the [int8] wrap-around written out where both
    operands are [int8] arrays of the engine. *)

From Stdlib Require Import ZArith List Bool Lia.
From stdpp Require Import base tactics option list gmap.

Local Open Scope Z_scope.

(** ** numpy fragments *)
Module Np.

(** An [(h, w)] array and an [(n, h, w)] array. *)
Abbreviation grid := (list (list Z)).
Abbreviation batch := (list (list (list Z))).

Definition zeros (h w : nat) : grid := replicate h (replicate w 0).

(** [np.zeros_like] on a batch. *)
Definition zeros_like (b : batch) : batch :=
  map (map (map (λ _, 0))) b.

Definition has_shape (h w : nat) (g : grid) : Prop :=
  length g = h ∧ Forall (λ r, length r = w) g.

Definition has_shapeb (h w : nat) (g : grid) : bool :=
  bool_decide (length g = h) && forallb (λ r, bool_decide (length r = w)) g.

Definition binary (g : grid) : Prop := Forall (Forall (λ x, x = 0 ∨ x = 1)) g.

Definition binaryb (g : grid) : bool :=
  forallb (forallb (λ x, bool_decide (x = 0) || bool_decide (x = 1))) g.

(** Elementwise binary operation on two arrays of one shape. *)
Definition map2 (f : Z → Z → Z) (a b : grid) : grid :=
  zip_with (zip_with f) a b.

(** [int8] wrap-around. *)
Definition wrap8 (z : Z) : Z := (z + 128) mod 256 - 128.
Definition add8 (a b : Z) : Z := wrap8 (a + b).

(** [np.any(_, axis=(1,2))] and [np.all(_, axis=(1,2))] on one board. *)
Definition any (g : grid) : bool := existsb (existsb (λ x, negb (x =? 0))) g.
Definition all (g : grid) : bool := forallb (forallb (λ x, negb (x =? 0))) g.

(** [_.sum(axis=(1,2))] on one board (numpy accumulates [int8] in [int64]). *)
Definition sum (g : grid) : Z := foldr (λ r acc, foldr Z.add 0 r + acc) 0 g.

(** [xs[mask]]: the entries under a true mask bit, in order. *)
Fixpoint gather {A} (mask : list bool) (xs : list A) : list A :=
  match mask, xs with
  | b :: m, x :: xs' => if b then x :: gather m xs' else gather m xs'
  | _, _ => []
  end.

(** [xs[mask] = vals]: the entries under a true mask bit are replaced by the
    successive elements of [vals]. *)
Fixpoint scatter {A} (mask : list bool) (vals xs : list A) : list A :=
  match mask, xs with
  | true :: m, x :: xs' =>
      match vals with
      | v :: vs => v :: scatter m vs xs'
      | [] => x :: scatter m [] xs'
      end
  | false :: m, x :: xs' => x :: scatter m vals xs'
  | _, _ => xs
  end.

(** Number of true bits, and the position among the true bits of index [i]:
    slot [i] of the batch is entry [rank mask i] of [xs[mask]]. *)
Definition count (mask : list bool) : nat := length (filter (λ b, b = true) mask).
Definition rank (mask : list bool) (i : nat) : nat := count (take i mask).

(** [np.pad(_, (1,1), constant_values=d)] along one axis, and the slice
    [a : a+len] along one axis. *)
Definition pad1 {A} (d : A) (l : list A) : list A := d :: l ++ [d].
Definition sub {A} (a len : nat) (l : list A) : list A := take len (drop a l).

(** [np.pad(g, [(1,1),(1,1)], constant_values=d)] on an [(h, w)] board. *)
Definition pad (w : nat) (d : Z) (g : grid) : grid :=
  pad1 (replicate (w + 2) d) (map (pad1 d) g).

(** [p[a : a+h, b : b+w]]. *)
Definition slice (a h b w : nat) (p : grid) : grid :=
  map (sub b w) (sub a h p).

(** The sum of the nine copies [p[1+i : h+1+i, 1+j : w+1+j]] of a padded
    board, accumulated into [acc] with the addition of the array's dtype. *)
Definition offsets : list Z := [-1; 0; 1].

Definition shifted (h w : nat) (p : grid) (i j : Z) : grid :=
  slice (Z.to_nat (1 + i)) h (Z.to_nat (1 + j)) w p.

Definition shift_sum (add : Z → Z → Z) (h w : nat) (p acc : grid) : grid :=
  foldl (λ acc i, foldl (λ acc j, map2 add acc (shifted h w p i j)) acc offsets)
        acc offsets.

(** [_.reshape(h, w)] of a flat row-major array, and [_.reshape(-1)]. *)
Fixpoint reshape (h w : nat) (l : list Z) : grid :=
  match h with
  | O => []
  | S h' => take w l :: reshape h' w (drop w l)
  end.
Definition flatten (g : grid) : list Z := concat g.

(** Cell of a board; [cellZ] reads 0 outside the board. *)
Definition cell (g : grid) (r c : nat) : option Z := g !! r ≫= (λ row, row !! c).

Definition getZ {A} (d : A) (l : list A) (z : Z) : A :=
  if bool_decide (0 ≤ z) then default d (l !! Z.to_nat z) else d.

Definition cellZ (g : grid) (r c : Z) : Z := getZ 0 (getZ [] g r) c.

(** An integer index on an axis of length [len]: negative indices count
    from the end, anything outside raises [IndexError]. *)
Definition py_index (len : nat) (z : Z) : option nat :=
  if z <? 0
  then (if - Z.of_nat len <=? z then Some (Z.to_nat (Z.of_nat len + z)) else None)
  else (if z <? Z.of_nat len then Some (Z.to_nat z) else None).

Definition at_index {A} (l : list A) (z : Z) : option A :=
  i ← py_index (length l) z; l !! i.

End Np.

(** ** [src/utils.py] *)
Module Utils.
Import Np.

(** The [ones] argument: a scalar, or one count per matrix. *)
Inductive ones_arg := Scalar (k : Z) | PerSlot (ks : list Z).

(** End of the slice [:k] on an axis of length [len], as Python resolves it:
    a negative [k] counts from the end, and both cases are clamped. *)
Definition slice_stop (len : nat) (k : Z) : nat :=
  Z.to_nat (if k <? 0 then Z.max (Z.of_nat len + k) 0 else Z.min k (Z.of_nat len)).

(** A zero row of length [len] after [row[:k] = 1]. *)
Definition prefix_ones (len : nat) (k : Z) : list Z :=
  replicate (slice_stop len k) 1 ++ replicate (len - slice_stop len k)%nat 0.

(** The matrix [m] before shuffling. With a per-matrix array of counts, an
    entry beyond the last row raises [IndexError]; rows without an entry stay
    zero. *)
Definition fill_rows (n len : nat) (ones : ones_arg) : option (list (list Z)) :=
  match ones with
  | Scalar k => Some (replicate n (prefix_ones len k))
  | PerSlot ks =>
      if decide (length ks ≤ n)%nat
      then Some (map (prefix_ones len) ks ++ replicate (n - length ks)%nat (replicate len 0))
      else None
  end.

Section Generator.
(** The outcome of [rng.permuted(m, axis=1, out=m)]: every row is shuffled
    on its own. *)
Variable permuted : list (list Z) → list (list Z).

(** For [n = 0] the code returns [np.zeros(shape)], an empty array of
    [float64]. Arrays carry no dtype here: it is the empty batch, which is
    also what an empty [int8] selection is. The two differ in the code only
    under the bitwise operations of [Game.move], which raise on [float64]. *)
Definition random_binary_matrices (n h w : nat) (ones : ones_arg) : option batch :=
  if decide (n = 0%nat) then Some []
  else
    m ← fill_rows n (h * w) ones;
    Some (map (reshape h w) (permuted m)).
End Generator.

(** What the generator may return: a rowwise permutation of its input. *)
Definition shuffles (permuted : list (list Z) → list (list Z)) : Prop :=
  ∀ m, Forall2 (≡ₚ) (permuted m) m.

End Utils.

(** ** [src/game.py]: the batched engine *)
Module Engine.
Import Np Utils.

Record Game := mkGame {
  n : nat;
  rows : nat;
  columns : nat;
  size : nat;
  mines_n : list Z;
  mines : batch;
  numbers : batch;
  open_cells : batch;
  flags : batch;
  active_games : list bool;
  won : list bool;
  last_opened : batch;
  last_flagged : batch
}.

(** [Game._compute_number_cells] on one board: the nine shifted copies of
    the zero-padded mine board are accumulated into an [int8] array, then
    the mine cells are overwritten with -1. *)
Definition number_cells (h w : nat) (m : grid) : grid :=
  let grids := shift_sum add8 h w (pad w 0 m) (map (map (λ _, 0)) m) in
  map2 (λ mine x, if mine =? 0 then x else -1) m grids.

Definition _compute_number_cells (h w : nat) (ms : batch) : batch :=
  map (number_cells h w) ms.

(** [Game.__init__]; [np.full(n, mines_n)] normalises a scalar count. *)
Definition init (permuted : list (list Z) → list (list Z))
    (rows columns : nat) (mines_n : ones_arg) (n : nat) : option Game :=
  ms ← random_binary_matrices permuted n rows columns mines_n;
  Some {| n := n; rows := rows; columns := columns; size := rows * columns;
          mines_n := match mines_n with Scalar k => replicate n k | PerSlot ks => ks end;
          mines := ms;
          numbers := _compute_number_cells rows columns ms;
          open_cells := zeros_like ms;
          flags := zeros_like ms;
          active_games := replicate n true;
          won := replicate n false;
          last_opened := zeros_like ms;
          last_flagged := zeros_like ms |}.

(** [Game.reset]: the board is kept, the episode state is cleared. *)
Definition reset (g : Game) : Game :=
  {| n := n g; rows := rows g; columns := columns g; size := size g;
     mines_n := mines_n g; mines := mines g; numbers := numbers g;
     open_cells := zeros_like (open_cells g);
     flags := zeros_like (flags g);
     active_games := map (λ _, true) (active_games g);
     won := map (λ _, false) (won g);
     last_opened := zeros_like (last_opened g);
     last_flagged := zeros_like (last_flagged g) |}.

(** A request array has one full board per active slot. A request of a
    single board is also taken when no slot is active: numpy broadcasts it
    onto the empty selection, and the empty boolean index [correct] selects
    nothing from it. Any other number of boards makes numpy raise in [move]
    (board shapes other than [rows × columns], which numpy may broadcast,
    are not part of the model). *)
Definition request_ok (g : Game) (req : batch) : bool :=
  (bool_decide (length req = count (active_games g))
   || bool_decide (count (active_games g) = 0%nat ∧ length req = 1%nat))
  && forallb (has_shapeb (rows g) (columns g)) req.

(** The two tests of [move] on one board: no cell of [to_open] on a mine,
    no cell of [to_flag] off a mine. *)
Definition correct_open (m o : grid) : bool := negb (any (map2 Z.mul m o)).
Definition correct_flag (m f : grid) : bool := negb (any (map2 (λ x y, (1 - x) * y) m f)).

(** [xs[act1] = np.bitwise_or(xs[act1], req[correct])]. *)
Definition merge (act1 correct : list bool) (xs req : batch) : batch :=
  scatter act1 (zip_with (map2 Z.lor) (gather act1 xs) (gather correct req)) xs.

(** [np.all(open_cells + mines, axis=(1,2))]. *)
Definition detect_won (opened ms : batch) : list bool :=
  map all (zip_with (map2 add8) opened ms).

(** [active_games[won] = False]. *)
Definition deactivate (act wn : list bool) : list bool :=
  zip_with (λ a w : bool, if w then false else a) act wn.

(** [Game.move]. *)
Definition move (to_open to_flag : option batch) (g : Game) : option (Game * list bool) :=
  let act := active_games g in
  let to_open := default (zeros_like (gather act (mines g))) to_open in
  let to_flag := default (zeros_like to_open) to_flag in
  if negb (request_ok g to_open && request_ok g to_flag) then None else
  let last_opened' := scatter act to_open (last_opened g) in
  let last_flagged' := scatter act to_flag (last_flagged g) in
  let am := gather act (mines g) in
  let correct :=
    zip_with andb (zip_with correct_open am to_open) (zip_with correct_flag am to_flag) in
  let act1 := scatter act correct act in
  let open' := merge act1 correct (open_cells g) to_open in
  let flags' := merge act1 correct (flags g) to_flag in
  let won' := detect_won open' (mines g) in
  let act2 := deactivate act1 won' in
  Some ({| n := n g; rows := rows g; columns := columns g; size := size g;
           mines_n := mines_n g; mines := mines g; numbers := numbers g;
           open_cells := open'; flags := flags';
           active_games := act2; won := won';
           last_opened := last_opened'; last_flagged := last_flagged' |},
        correct).

(** First index of the maximum ([argmax]) and the minimum of a flat array;
    both raise on an empty array. *)
Fixpoint argmax_from (best : Z) (besti i : nat) (l : list Z) : nat :=
  match l with
  | [] => besti
  | x :: l' => if best <? x then argmax_from x i (S i) l' else argmax_from best besti (S i) l'
  end.
Definition argmax (l : list Z) : option nat :=
  match l with
  | [] => None
  | x :: l' => Some (argmax_from x 0 1 l')
  end.
Definition minimum (l : list Z) : option Z :=
  match l with
  | [] => None
  | x :: l' => Some (foldl Z.min x l')
  end.

(** [to_open[i, h, w] = 1] on one board. *)
Definition set_cell (r c : nat) (v : Z) (b : grid) : grid :=
  alter (λ row, <[c := v]> row) r b.

(** The start cell [open_zero] selects on one board: the draws are masked by
    [numbers == mins] and the first largest is taken. [draw r c] is the
    value of [rng.random] at that cell, as a numerator over [2^53]. *)
Definition select_cell (w : nat) (draw : nat → nat → Z) (num mine : grid) : option (nat * nat) :=
  mins ← minimum (flatten (map2 (λ x m, add8 x (wrap8 (10 * m))) num mine));
  let weighted :=
    imap (λ r row, imap (λ c x, draw r c * (if x =? mins then 1 else 0)) row) num in
  k ← argmax (flatten weighted);
  Some ((k / w)%nat, (k mod w)%nat).

(** [to_open = np.zeros_like(mines); to_open[np.arange(n), h_ids, w_ids] = 1]. *)
Definition one_cell_request (cells : list (nat * nat)) (ms : batch) : batch :=
  zip_with (λ '(r, c) z, set_cell r c 1 z) cells (zeros_like ms).

(** [Game.open_zero]; [draws i] are the draws for slot [i]. The two
    [reshape] raise when [n] is not the number of slots, and [reshape(0, -1)]
    raises on a batch without slots. *)
Definition open_zero (draws : nat → nat → nat → Z) (g : Game) : option (Game * batch) :=
  if negb (bool_decide (length (mines g) = n g)) || bool_decide (n g = 0%nat)
  then None else
  cells ← mapM (λ '(i, (num, mine)), select_cell (columns g) (draws i) num mine)
               (imap (λ i x, (i, x)) (zip (numbers g) (mines g)));
  let to_open := one_cell_request cells (mines g) in
  '(g', _) ← move (Some to_open) None g;
  Some (g', to_open).

(** The result of numpy's true division of two integers: the quotient as an
    exact fraction when the divisor is not zero (the rounding to a double is
    not modelled), and the IEEE special values otherwise. *)
Inductive quotient := Ratio (num den : Z) | PosInf | NegInf | NaN.

Definition true_divide (a b : Z) : quotient :=
  if b =? 0 then (if a =? 0 then NaN else if 0 <? a then PosInf else NegInf)
  else Ratio a b.

(** Broadcasting of two one-dimensional arrays. *)
Definition broadcast2 {A B C} (f : A → B → C) (xs : list A) (ys : list B) : option (list C) :=
  if decide (length xs = length ys) then Some (zip_with f xs ys)
  else match xs, ys with
       | [x], _ => Some (map (f x) ys)
       | _, [y] => Some (map (λ x, f x y) xs)
       | _, _ => None
       end.

(** [Game.scores]. A boolean index of the wrong length raises, unless it is
    empty: an empty boolean index is taken on an axis of any length, and
    selects nothing. *)
Definition scores (final_only : bool) (g : Game) : option (list quotient) :=
  let mask := if final_only then map negb (active_games g) else replicate (n g) true in
  let to_open := map (λ k, Z.of_nat (size g) - k) (mines_n g) in
  if negb (bool_decide (length mask = length (open_cells g))
           || bool_decide (length mask = 0%nat))
  then None else
  broadcast2 true_divide (map sum (gather mask (open_cells g))) to_open.

(** The state invariant the engine maintains: every per-slot array has one
    entry per slot, and every board is a [rows × columns] array of 0/1. *)
Definition board_ok (g : Game) (b : grid) : Prop :=
  has_shape (rows g) (columns g) b ∧ binary b.

Record wf (g : Game) : Prop := {
  wf_mines : Forall (board_ok g) (mines g);
  wf_open : Forall (board_ok g) (open_cells g);
  wf_flags : Forall (board_ok g) (flags g);
  wf_numbers : Forall (has_shape (rows g) (columns g)) (numbers g);
  wf_len_numbers : length (numbers g) = length (mines g);
  wf_len_open : length (open_cells g) = length (mines g);
  wf_len_flags : length (flags g) = length (mines g);
  wf_len_active : length (active_games g) = length (mines g);
  wf_len_won : length (won g) = length (mines g);
  wf_len_last_opened : length (last_opened g) = length (mines g);
  wf_len_last_flagged : length (last_flagged g) = length (mines g)
}.

(** A request as the caller is to pass it: one [rows × columns] board of
    0/1 per active slot. *)
Definition request (g : Game) (req : batch) : Prop :=
  length req = count (active_games g) ∧ Forall (board_ok g) req.

(** The same two conditions as boolean tests. *)
Definition board_okb (g : Game) (b : grid) : bool :=
  has_shapeb (rows g) (columns g) b && binaryb b.

Definition wfb (g : Game) : bool :=
  forallb (board_okb g) (mines g) && forallb (board_okb g) (open_cells g)
  && forallb (board_okb g) (flags g)
  && forallb (has_shapeb (rows g) (columns g)) (numbers g)
  && bool_decide (length (numbers g) = length (mines g))
  && bool_decide (length (open_cells g) = length (mines g))
  && bool_decide (length (flags g) = length (mines g))
  && bool_decide (length (active_games g) = length (mines g))
  && bool_decide (length (won g) = length (mines g))
  && bool_decide (length (last_opened g) = length (mines g))
  && bool_decide (length (last_flagged g) = length (mines g)).

Definition requestb (g : Game) (req : batch) : bool :=
  bool_decide (length req = count (active_games g)) && forallb (board_okb g) req.

(** Cell [(r, c)] belongs to the set a 0/1 board stands for. *)
Definition on (b : grid) (r c : nat) : Prop := cell b r c = Some 1.

(** Every cell of the board is revealed or a mine. *)
Definition covered (g : Game) (o m : grid) : Prop :=
  ∀ r c, (r < rows g)%nat → (c < columns g)%nat → on o r c ∨ on m r c.

(** The win flags agree with the boards, and a won slot is inactive. *)
Definition win_detected (g : Game) : Prop :=
  ∀ i o m, open_cells g !! i = Some o → mines g !! i = Some m →
    ∃ w, won g !! i = Some w ∧ (w = true ↔ covered g o m) ∧
         (w = true → active_games g !! i = Some false).

(** Number of cells of a 0/1 board that are set: the mine count of a mine
    board, the revealed count of a revealed board. *)
Definition count_ones (b : grid) : nat :=
  length (filter (λ x, x = 1) (flatten b)).

(** Number of mines among the eight in-board neighbours of a cell. *)
Definition neighbours : list (Z * Z) :=
  [(-1, -1); (-1, 0); (-1, 1); (0, -1); (0, 1); (1, -1); (1, 0); (1, 1)].

Definition neighbour_mines (m : grid) (r c : nat) : Z :=
  foldr (λ '(i, j) acc, cellZ m (Z.of_nat r + i) (Z.of_nat c + j) + acc) 0 neighbours.

(** A small batch used to instantiate the theorems: two 2 × 2 slots, one
    mine each. *)
Definition demo : Game :=
  {| n := 2; rows := 2; columns := 2; size := 4; mines_n := [1; 1];
     mines := [[[1; 0]; [0; 0]]; [[0; 0]; [0; 1]]];
     numbers := [[[-1; 1]; [1; 1]]; [[1; 1]; [1; -1]]];
     open_cells := [[[0; 0]; [0; 0]]; [[0; 0]; [0; 0]]];
     flags := [[[0; 0]; [0; 0]]; [[0; 0]; [0; 0]]];
     active_games := [true; true]; won := [false; false];
     last_opened := [[[0; 0]; [0; 0]]; [[0; 0]; [0; 0]]];
     last_flagged := [[[0; 0]; [0; 0]]; [[0; 0]; [0; 0]]] |}.

Definition demo_open : batch := [[[0; 1]; [0; 0]]; [[0; 0]; [0; 1]]].
Definition demo_flag : batch := [[[1; 0]; [0; 0]]; [[0; 0]; [0; 0]]].

(** A generated batch, and a generated all-mine slot. *)
Definition demo_generated : Game :=
  {| n := 2; rows := 2; columns := 2; size := 4; mines_n := [1; 2];
     mines := [[[1; 0]; [0; 0]]; [[1; 1]; [0; 0]]];
     numbers := [[[-1; 1]; [1; 1]]; [[-1; -1]; [2; 2]]];
     open_cells := [[[0; 0]; [0; 0]]; [[0; 0]; [0; 0]]];
     flags := [[[0; 0]; [0; 0]]; [[0; 0]; [0; 0]]];
     active_games := [true; true]; won := [false; false];
     last_opened := [[[0; 0]; [0; 0]]; [[0; 0]; [0; 0]]];
     last_flagged := [[[0; 0]; [0; 0]]; [[0; 0]; [0; 0]]] |}.

Definition demo_mined : Game :=
  {| n := 1; rows := 2; columns := 2; size := 4; mines_n := [4];
     mines := [[[1; 1]; [1; 1]]];
     numbers := [[[-1; -1]; [-1; -1]]];
     open_cells := [[[0; 0]; [0; 0]]];
     flags := [[[0; 0]; [0; 0]]];
     active_games := [true]; won := [false];
     last_opened := [[[0; 0]; [0; 0]]];
     last_flagged := [[[0; 0]; [0; 0]]] |}.

End Engine.

(** ** [Game.__getitem__]: game objects in a store of array buffers *)
Module Views.
Import Np.

(** A numpy array is a window on a buffer: rows [start, start + len) of the
    buffer [base]. Basic slicing makes a new window on the same buffer;
    indexing with a list of integers copies the rows into a fresh buffer. *)
Record view := mkView { base : nat; start : nat; len : nat }.

Inductive buffer := Cells (b : batch) | Bools (b : list bool) | Ints (b : list Z).

Abbreviation store := (list buffer).

Definition rows_of {A} (v : view) (b : list A) : list A := sub (start v) (len v) b.

Definition put_rows {A} (v : view) (new b : list A) : list A :=
  take (start v) b ++ new ++ drop (start v + len v) b.

(** A window lies within its buffer. *)
Definition fits {A} (v : view) (b : list A) : Prop := (start v + len v ≤ length b)%nat.

Definition window {A} (v : view) (b : list A) : option (list A) :=
  if decide (start v + len v ≤ length b)%nat then Some (rows_of v b) else None.

Definition read_cells (h : store) (v : view) : option batch :=
  match h !! base v with Some (Cells b) => window v b | _ => None end.
Definition read_bools (h : store) (v : view) : option (list bool) :=
  match h !! base v with Some (Bools b) => window v b | _ => None end.
Definition read_ints (h : store) (v : view) : option (list Z) :=
  match h !! base v with Some (Ints b) => window v b | _ => None end.

(** In-place assignment through a window. *)
Definition write_cells (h : store) (v : view) (new : batch) : store :=
  match h !! base v with
  | Some (Cells b) => <[base v := Cells (put_rows v new b)]> h
  | _ => h
  end.
Definition write_bools (h : store) (v : view) (new : list bool) : store :=
  match h !! base v with
  | Some (Bools b) => <[base v := Bools (put_rows v new b)]> h
  | _ => h
  end.

(** A [Game] object: its attributes are references to arrays. *)
Record Game := mkGame {
  n : nat;
  rows : nat;
  columns : nat;
  size : nat;
  mines_n : view;
  mines : view;
  numbers : view;
  open_cells : view;
  flags : view;
  active_games : view;
  won : view;
  last_opened : view;
  last_flagged : view
}.

(** The value of an object in a store. *)
Definition load (h : store) (o : Game) : option Engine.Game :=
  mn ← read_ints h (mines_n o);
  ms ← read_cells h (mines o);
  nums ← read_cells h (numbers o);
  op ← read_cells h (open_cells o);
  fl ← read_cells h (flags o);
  act ← read_bools h (active_games o);
  wn ← read_bools h (won o);
  lo ← read_cells h (last_opened o);
  lf ← read_cells h (last_flagged o);
  Some {| Engine.n := n o; Engine.rows := rows o; Engine.columns := columns o;
          Engine.size := size o; Engine.mines_n := mn; Engine.mines := ms;
          Engine.numbers := nums; Engine.open_cells := op; Engine.flags := fl;
          Engine.active_games := act; Engine.won := wn;
          Engine.last_opened := lo; Engine.last_flagged := lf |}.

(** A freshly constructed game: every array in a buffer of its own. *)
Definition whole {A} (l : nat) (b : list A) : view := {| base := l; start := 0; len := length b |}.

Definition new (g : Engine.Game) (h : store) : Game * store :=
  let l := length h in
  ({| n := Engine.n g; rows := Engine.rows g; columns := Engine.columns g;
      size := Engine.size g;
      mines_n := whole l (Engine.mines_n g);
      mines := whole (l + 1) (Engine.mines g);
      numbers := whole (l + 2) (Engine.numbers g);
      open_cells := whole (l + 3) (Engine.open_cells g);
      flags := whole (l + 4) (Engine.flags g);
      active_games := whole (l + 5) (Engine.active_games g);
      won := whole (l + 6) (Engine.won g);
      last_opened := whole (l + 7) (Engine.last_opened g);
      last_flagged := whole (l + 8) (Engine.last_flagged g) |},
   h ++ [Ints (Engine.mines_n g); Cells (Engine.mines g); Cells (Engine.numbers g);
         Cells (Engine.open_cells g); Cells (Engine.flags g);
         Bools (Engine.active_games g); Bools (Engine.won g);
         Cells (Engine.last_opened g); Cells (Engine.last_flagged g)]).

(** The keys of [__getitem__]: an integer, a slice [lo:hi], a list of
    integers. *)
Inductive key := KInt (i : Z) | KSlice (lo hi : option Z) | KList (idx : list Z).

(** A slice bound on an axis of length [n], as Python resolves it. *)
Definition clamp (n : nat) (z : Z) : nat :=
  Z.to_nat (if z <? 0 then Z.max (z + Z.of_nat n) 0 else Z.min z (Z.of_nat n)).

Definition slice_lo (n : nat) (lo : option Z) : nat := from_option (clamp n) 0%nat lo.
Definition slice_hi (n : nat) (hi : option Z) : nat := from_option (clamp n) n hi.

(** [a[lo:hi]]: a window on the buffer of [a]. *)
Definition slice_view (lo hi : option Z) (v : view) : view :=
  {| base := base v;
     start := start v + slice_lo (len v) lo;
     len := slice_hi (len v) hi - slice_lo (len v) lo |}.

(** [a[idx]] for a list of integers: a copy, in a fresh buffer. *)
Definition copy_cells (idx : list Z) (v : view) (h : store) : option (view * store) :=
  b ← read_cells h v; rows ← mapM (at_index b) idx;
  Some (whole (length h) rows, h ++ [Cells rows]).
Definition copy_bools (idx : list Z) (v : view) (h : store) : option (view * store) :=
  b ← read_bools h v; rows ← mapM (at_index b) idx;
  Some (whole (length h) rows, h ++ [Bools rows]).
Definition copy_ints (idx : list Z) (v : view) (h : store) : option (view * store) :=
  b ← read_ints h v; rows ← mapM (at_index b) idx;
  Some (whole (length h) rows, h ++ [Ints rows]).

(** The object [__getitem__] returns for a slice [lo:hi]. It is built by
    [Game(rows, columns, 1, 0)], whose arrays are dropped as the attributes
    are rebound; [n] is read from the empty [mines] of that object before it
    is rebound, and stays 0. *)
Definition selection (lo hi : option Z) (o : Game) : Game :=
  {| n := 0; rows := rows o; columns := columns o; size := rows o * columns o;
     mines_n := slice_view lo hi (mines_n o);
     mines := slice_view lo hi (mines o);
     numbers := slice_view lo hi (numbers o);
     open_cells := slice_view lo hi (open_cells o);
     flags := slice_view lo hi (flags o);
     active_games := slice_view lo hi (active_games o);
     won := slice_view lo hi (won o);
     last_opened := slice_view lo hi (last_opened o);
     last_flagged := slice_view lo hi (last_flagged o) |}.

(** [Game.__getitem__]; an integer key [i] is turned into the slice
    [i:i+1]. *)
Definition getitem (k : key) (o : Game) (h : store) : option (Game * store) :=
  match k with
  | KInt i => Some (selection (Some i) (Some (i + 1)) o, h)
  | KSlice lo hi => Some (selection lo hi o, h)
  | KList idx =>
      '(mn, h) ← copy_ints idx (mines_n o) h;
      '(ms, h) ← copy_cells idx (mines o) h;
      '(nums, h) ← copy_cells idx (numbers o) h;
      '(op, h) ← copy_cells idx (open_cells o) h;
      '(fl, h) ← copy_cells idx (flags o) h;
      '(act, h) ← copy_bools idx (active_games o) h;
      '(wn, h) ← copy_bools idx (won o) h;
      '(lo, h) ← copy_cells idx (last_opened o) h;
      '(lf, h) ← copy_cells idx (last_flagged o) h;
      Some ({| n := 0; rows := rows o; columns := columns o; size := rows o * columns o;
               mines_n := mn; mines := ms; numbers := nums; open_cells := op;
               flags := fl; active_games := act; won := wn;
               last_opened := lo; last_flagged := lf |}, h)
  end.

(** [Game.move] on an object. [last_opened], [last_flagged],
    [active_games], [open_cells] and [flags] are assigned in place, through
    the windows of the object; [won] is rebound to a new array. *)
Definition move (to_open to_flag : option batch) (o : Game) (h : store)
    : option (Game * store * list bool) :=
  g ← load h o;
  '(g', correct) ← Engine.move to_open to_flag g;
  let h := write_cells h (last_opened o) (Engine.last_opened g') in
  let h := write_cells h (last_flagged o) (Engine.last_flagged g') in
  let h := write_bools h (active_games o) (Engine.active_games g') in
  let h := write_cells h (open_cells o) (Engine.open_cells g') in
  let h := write_cells h (flags o) (Engine.flags g') in
  Some ({| n := n o; rows := rows o; columns := columns o; size := size o;
           mines_n := mines_n o; mines := mines o; numbers := numbers o;
           open_cells := open_cells o; flags := flags o;
           active_games := active_games o;
           won := whole (length h) (Engine.won g');
           last_opened := last_opened o; last_flagged := last_flagged o |},
        h ++ [Bools (Engine.won g')], correct).

(** The arrays of an object lie in nine different buffers of the store. *)
Definition separate (o : Game) : Prop :=
  NoDup [base (mines_n o); base (mines o); base (numbers o);
         base (open_cells o); base (flags o); base (active_games o);
         base (won o); base (last_opened o); base (last_flagged o)].

(** The rows a slice [lo:hi] selects from an array of length [n]. *)
Definition selected {A} (lo hi : option Z) (l : list A) : list A :=
  sub (slice_lo (length l) lo) (slice_hi (length l) hi - slice_lo (length l) lo) l.

(** The object made from the [demo] batch in the empty store. *)
Definition demo_object : Game := (new Engine.demo []).1.
Definition demo_store : store := (new Engine.demo []).2.

End Views.

(** ** [game.py] at the repository root: the earlier engine *)
Module Legacy.
Import Np.

(** Boards are kept flat, as [(n, size)] arrays of [int64]. *)
Record Game := mkGame {
  n : nat;
  rows : nat;
  columns : nat;
  size : nat;
  mines : Z;
  fields : list (list Z);
  grids : list (list Z);
  states : list (list Z);
  visible_grids : list (list Z);
  scores : list Z;
  mines_scores : list Z;
  active_grids : list bool;
  won : list bool;
  last_opened : list Z
}.

(** [Game._compute_fields]; [choice i] is the outcome of
    [np.random.choice(size, mines, replace=False)] for slot [i], which
    raises when [mines] is negative or larger than [size]. *)
Definition _compute_fields (choice : nat → list nat) (n size : nat) (mines : Z)
    : option (list (list Z)) :=
  if decide (n = 0%nat) then Some []
  else if decide (0 ≤ mines ≤ Z.of_nat size)
  then Some (map (λ i, foldr (λ k row, <[k := 1]> row) (replicate size 0) (choice i))
                 (seq 0 n))
  else None.

(** [Game._compute_grids] on one slot. *)
Definition compute_grid (h w : nat) (field : list Z) : list Z :=
  let f := reshape h w field in
  let sums := shift_sum Z.add h w (pad w 0 f) (zeros h w) in
  zip_with (λ mine x, if mine =? 0 then x else -1) field (flatten sums).

(** [Game.reset] and [Game.__init__]. *)
Definition reset (choice : nat → list nat) (n_arg : option nat) (g : Game) : option Game :=
  let n' := default (n g) n_arg in
  fs ← _compute_fields choice n' (size g) (mines g);
  let zero := replicate n' (replicate (size g) 0) in
  Some {| n := n'; rows := rows g; columns := columns g; size := size g; mines := mines g;
          fields := fs;
          grids := map (compute_grid (rows g) (columns g)) fs;
          states := zero;
          visible_grids := zero;
          scores := replicate n' (Z.of_nat (size g) - mines g);
          mines_scores := replicate n' (mines g);
          active_grids := replicate n' true;
          won := replicate n' false;
          last_opened := replicate n' (-1) |}.

Definition init (choice : nat → list nat) (rows columns : nat) (mines : Z) (n : nat)
    : option Game :=
  reset choice None
    {| n := n; rows := rows; columns := columns; size := rows * columns; mines := mines;
       fields := []; grids := []; states := []; visible_grids := [];
       scores := []; mines_scores := []; active_grids := []; won := [];
       last_opened := [] |}.

(** [a[s, r, c]] and [a[s, r, c] = v] on an [(n, h, w)] array. *)
Definition get3 (a : batch) (t : Z * Z * Z) : option Z :=
  let '(s, r, c) := t in
  plane ← at_index a s; row ← at_index plane r; at_index row c.

Definition set3 (v : Z) (a : batch) (t : Z * Z * Z) : batch :=
  let '(s, r, c) := t in
  match py_index (length a) s with
  | Some i =>
      alter (λ plane,
        match py_index (length plane) r with
        | Some k =>
            alter (λ row,
              match py_index (length row) c with
              | Some l => <[l := v]> row
              | None => row
              end) k plane
        | None => plane
        end) i a
  | None => a
  end.

(** [scores[slots] -= 1]: the old values are read, decremented and written
    back, so a slot listed twice is decremented once. *)
Definition decrement (scores : list Z) (slots : list Z) : list Z :=
  foldl (λ sc s,
           match py_index (length scores) s with
           | Some i => <[i := default 0 (scores !! i) - 1]> sc
           | None => sc
           end) scores slots.

Definition shift (i j : Z) (t : Z * Z * Z) : Z * Z * Z :=
  let '(s, r, c) := t in (s, r + i, c + j).

Definition offsets9 : list (Z * Z) :=
  [(-1, -1); (-1, 0); (-1, 1); (0, -1); (0, 0); (0, 1); (1, -1); (1, 0); (1, 1)].

(** One pass of the double loop of [open_zero] for the offset [(i, j)]:
    the still hidden neighbours are opened, and those whose number is 0 are
    returned as the next frontier. *)
Definition step (pad_grid : batch) (i j : Z) (c : list (Z * Z * Z))
    (st : batch * list Z) : option (list (Z * Z * Z) * (batch * list Z)) :=
  let '(pad_state, scores) := st in
  let t := map (shift i j) c in
  vals ← mapM (get3 pad_state) t;
  let t1 := gather (map (λ v, v =? 0) vals) t in
  let pad_state' := foldl (set3 1) pad_state t1 in
  let scores' := decrement scores (map (λ t, t.1.1) t1) in
  gv ← mapM (get3 pad_grid) t1;
  let t2 := gather (map (λ v, v =? 0) gv) t1 in
  Some (t2, (pad_state', scores')).

(** The recursive calls of [open_zero] (those with [pad_grid] given). The
    recursion is not structural; [fuel] bounds its depth. *)
Fixpoint open_zero_rec (fuel : nat) (pad_grid : batch) (c : list (Z * Z * Z))
    (st : batch * list Z) : option (batch * list Z) :=
  match fuel with
  | O => None
  | S fuel' =>
      foldl (λ acc '(i, j),
               st ← acc;
               '(t2, st') ← step pad_grid i j c st;
               match t2 with
               | [] => Some st'
               | _ => open_zero_rec fuel' pad_grid t2 st'
               end)
            (Some st) offsets9
  end.

(** First index of the minimum ([argmin]); raises on an empty array. *)
Fixpoint argmin_from (best : Z) (besti i : nat) (l : list Z) : nat :=
  match l with
  | [] => besti
  | x :: l' => if x <? best then argmin_from x i (S i) l' else argmin_from best besti (S i) l'
  end.
Definition argmin (l : list Z) : option nat :=
  match l with
  | [] => None
  | x :: l' => Some (argmin_from x 0 1 l')
  end.

(** [p[1:-1, 1:-1]]. *)
Definition inner (p : grid) : grid :=
  map (λ row, sub 1 (length row - 2) row) (sub 1 (length p - 2) p).

(** The frontier of the first call: the cell of least absolute number of
    every slot where that number is 0, at
    [(c // rows + 1, c % columns + 1)] of the padded arrays. *)
Definition start_cells (g : Game) : option (list (Z * Z * Z)) :=
  cs ← mapM (λ row, argmin (map Z.abs row)) (grids g);
  let zeros := zip_with (λ row c, bool_decide (row !! c = Some 0)) (grids g) cs in
  let c0 := gather zeros (imap (λ i c, (i, c)) cs) in
  Some (map (λ '(i, c), (Z.of_nat i,
                         Z.of_nat (c / rows g) + 1,
                         Z.of_nat (c mod columns g) + 1)) c0).

Definition padded (g : Game) (a : list (list Z)) : batch :=
  map (λ row, pad (columns g) (-1) (reshape (rows g) (columns g) row)) a.

(** [Game.open_zero()], the call without arguments. *)
Definition open_zero (fuel : nat) (g : Game) : option Game :=
  c ← start_cells g;
  '(pad_state, scores') ← open_zero_rec fuel (padded g (grids g)) c
                              (padded g (states g), scores g);
  let states' := map (λ p, flatten (inner p)) pad_state in
  Some {| n := n g; rows := rows g; columns := columns g; size := size g;
          mines := mines g; fields := fields g; grids := grids g;
          states := states';
          visible_grids := zip_with (zip_with Z.mul) (grids g) states';
          scores := scores';
          mines_scores := mines_scores g;
          active_grids := map (λ s, 0 <? s) scores';
          won := map (λ s, s =? 0) scores';
          last_opened := last_opened g |}.

End Legacy.

(** ** The cascade of [game.py], in terms of the board *)
Module Cascade.
Import Np Legacy.

(** An [(n, h, w)] array, the index triples inside it, and those that are
    cells of the board inside an array padded by one cell on every side. *)
Definition shape3 (n h w : nat) (P : batch) : Prop :=
  length P = n ∧ Forall (has_shape h w) P.

Definition inside (n h w : nat) (t : Z * Z * Z) : Prop :=
  0 ≤ t.1.1 < Z.of_nat n ∧ 0 ≤ t.1.2 < Z.of_nat h ∧ 0 ≤ t.2 < Z.of_nat w.

Definition interior (n h w : nat) (t : Z * Z * Z) : Prop :=
  0 ≤ t.1.1 < Z.of_nat n ∧ 1 ≤ t.1.2 ≤ Z.of_nat h ∧ 1 ≤ t.2 ≤ Z.of_nat w.

Definition all_interior (n h w : nat) : list (Z * Z * Z) :=
  (λ x, (x.1, x.2.1, x.2.2)) <$>
    list_prod (seqZ 0 (Z.of_nat n)) (list_prod (seqZ 1 (Z.of_nat h)) (seqZ 1 (Z.of_nat w))).

(** A cell of the padded state array that is still closed. *)
Definition hidden (P : batch) (t : Z * Z * Z) : Prop := get3 P t = Some 0.

Section Recursion.
Context (n h w : nat) (G : batch) (R : Z * Z * Z → Prop).

(** The padded state array: board cells hold 0 or 1, the border holds -1. *)
Definition padinv (P : batch) : Prop :=
  shape3 n (h + 2) (w + 2) P ∧
  ∀ t v, inside n (h + 2) (w + 2) t → get3 P t = Some v →
         (interior n h w t → v = 0 ∨ v = 1) ∧ (¬ interior n h w t → v = -1).

(** Nothing is hidden again. *)
Definition ext (P P' : batch) : Prop :=
  ∀ t, inside n (h + 2) (w + 2) t → hidden P' t → hidden P t.

(** Whatever is opened is next to a cell of [R]. *)
Definition sound (P P' : batch) : Prop :=
  ∀ t, inside n (h + 2) (w + 2) t → hidden P t → get3 P' t = Some 1 →
       ∃ x i j, R x ∧ (i, j) ∈ offsets9 ∧ t = shift i j x.

(** Every opened zero cell outside [D] has its whole neighbourhood open. *)
Definition expanded (D : Z * Z * Z → Prop) (P : batch) : Prop :=
  ∀ z, interior n h w z → get3 P z = Some 1 → get3 G z = Some 0 → ¬ D z →
       ∀ i j, (i, j) ∈ offsets9 → ¬ hidden P (shift i j z).

(** The number of closed cells: it bounds the depth of the recursion. *)
Definition mu (P : batch) : nat :=
  length (filter (λ t, get3 P t = Some 0) (all_interior n h w)).

(** The body of the loop over the nine offsets, at recursion depth [f]. *)
Definition body (f : nat) (c : list (Z * Z * Z))
    (acc : option (batch * list Z)) (o : Z * Z) : option (batch * list Z) :=
  let '(i, j) := o in
  st ← acc;
  '(t2, st') ← step G i j c st;
  match t2 with
  | [] => Some st'
  | _ => open_zero_rec f G t2 st'
  end.

(** What a call of the recursion achieves for its frontier [c]. *)
Definition achieves (c : list (Z * Z * Z)) (os : list (Z * Z)) (P P' : batch) : Prop :=
  padinv P' ∧ ext P P' ∧ sound P P' ∧
  (∀ x i j, x ∈ c → (i, j) ∈ os → ¬ hidden P' (shift i j x)).

End Recursion.

(** Cell [(r, c)] of slot [s] of a flat per-slot array of the game. *)
Definition lcell (g : Game) (a : list (list Z)) (s r c : nat) : option Z :=
  a !! s ≫= (λ row, cell (reshape (rows g) (columns g) row) r c).

Definition zero (g : Game) (s r c : nat) : Prop := lcell g (grids g) s r c = Some 0.
Definition opened (g : Game) (s r c : nat) : Prop := lcell g (states g) s r c = Some 1.

(** Two cells are the same or touch, diagonals included. *)
Definition near (r c r' c' : nat) : Prop :=
  -1 ≤ Z.of_nat r' - Z.of_nat r ≤ 1 ∧ -1 ≤ Z.of_nat c' - Z.of_nat c ≤ 1.

(** The cell [open_zero] starts from in slot [s], if it has one. *)
Definition is_start (g : Game) (s r c : nat) : Prop :=
  ∃ cs, start_cells g = Some cs ∧ (Z.of_nat s, Z.of_nat r + 1, Z.of_nat c + 1) ∈ cs.

(** The zero cells connected to the start through zero cells. *)
Inductive reach (g : Game) (s : nat) : nat → nat → Prop :=
  | reach_start r c : is_start g s r c → reach g s r c
  | reach_step r c r' c' :
      reach g s r c → near r c r' c' → zero g s r' c' → reach g s r' c'.

(** A square game before any cell is opened. *)
Record fresh (g : Game) (k : nat) : Prop := {
  fresh_rows : rows g = k;
  fresh_columns : columns g = k;
  fresh_pos : (0 < k)%nat;
  fresh_grids : length (grids g) = n g;
  fresh_grid_rows : Forall (λ row, length row = (k * k)%nat) (grids g);
  fresh_states : states g = replicate (n g) (replicate (k * k) 0)
}.

(** Board cell [(r, c)] of slot [s] as an index of the padded arrays. *)
Definition at_board (s r c : nat) : Z * Z * Z := (Z.of_nat s, Z.of_nat r + 1, Z.of_nat c + 1).

Definition reached (g : Game) (t : Z * Z * Z) : Prop :=
  ∃ s r c, t = at_board s r c ∧ reach g s r c.

(** [Game(3, 3, 1)] with the mine in the last cell. *)
Definition demo_square : Game :=
  {| n := 1; rows := 3; columns := 3; size := 9; mines := 1;
     fields := [[0; 0; 0; 0; 0; 0; 0; 0; 1]];
     grids := [[0; 0; 0; 0; 1; 1; 0; 1; -1]];
     states := [[0; 0; 0; 0; 0; 0; 0; 0; 0]];
     visible_grids := [[0; 0; 0; 0; 0; 0; 0; 0; 0]];
     scores := [8]; mines_scores := [1];
     active_grids := [true]; won := [false]; last_opened := [-1] |}.

End Cascade.

(** ** [src/game.py]: what a game reports *)
Module Reports.
Import Np Utils Engine.

(** [int8] product and difference. *)
Definition mul8 (a b : Z) : Z := wrap8 (a * b).
Definition sub8 (a b : Z) : Z := wrap8 (a - b).

(** Elementwise operations on [(n, h, w)] arrays of one shape, and with a
    scalar. *)
Definition bmap (f : Z → Z) (a : batch) : batch := map (map (map f)) a.
Definition bmap2 (f : Z → Z → Z) (a b : batch) : batch := zip_with (map2 f) a b.

(** [Game.game_state]:
    [numbers*open_cells + 9*(1-open_cells) + flags], and its rows under
    [active_games] when [active_only] is set (a mask of another length
    raises, unless it is empty). *)
Definition game_state (active_only : bool) (g : Game) : option batch :=
  let state :=
    bmap2 add8 (bmap2 add8 (bmap2 mul8 (numbers g) (open_cells g))
                           (bmap (mul8 9) (bmap (sub8 1) (open_cells g))))
               (flags g) in
  if active_only
  then (if decide (length (active_games g) = length state ∨ active_games g = [])
        then Some (gather (active_games g) state) else None)
  else Some state.

(** [Game.as_dataset]:
    [numbers*open_cells + 9*(1 - open_cells - mines) - mines + 11*flags]. *)
Definition as_dataset (g : Game) : batch :=
  bmap2 add8
    (bmap2 sub8
       (bmap2 add8 (bmap2 mul8 (numbers g) (open_cells g))
                   (bmap (mul8 9) (bmap2 sub8 (bmap (sub8 1) (open_cells g)) (mines g))))
       (mines g))
    (bmap (mul8 11) (flags g)).

(** [Game.losing_moves]: [last_flagged*(1-mines) - last_opened*mines]. *)
Definition losing_moves (g : Game) : batch :=
  bmap2 sub8 (bmap2 mul8 (last_flagged g) (bmap (sub8 1) (mines g)))
             (bmap2 mul8 (last_opened g) (mines g)).

(** [Game.win_rate]: [won.sum()/(1-active_games).sum()]. *)
Definition win_rate (g : Game) : quotient :=
  true_divide (foldr (λ w acc, Z.b2z w + acc) 0 (won g))
              (foldr (λ a acc, (1 - Z.b2z a) + acc) 0 (active_games g)).

(** The games a game can become: any number of calls of [move] with
    requests of the documented shape. *)
Inductive played (g0 : Game) : Game → Prop :=
  | played_start : played g0 g0
  | played_move g to_open to_flag g' correct :
      played g0 g → request g to_open → request g to_flag →
      move (Some to_open) (Some to_flag) g = Some (g', correct) →
      played g0 g'.

(** No mine is revealed and no safe cell is flagged. *)
Definition sound_marks (g : Game) : Prop :=
  ∀ i m o f r c,
    mines g !! i = Some m → open_cells g !! i = Some o → flags g !! i = Some f →
    (on o r c → ¬ on m r c) ∧ (on f r c → on m r c).

(** What holds of every game built by [__init__] and played by [move]. *)
Record sane (g : Game) : Prop := {
  sane_wf : wf g;
  sane_marks : sound_marks g;
  sane_numbers : numbers g = _compute_number_cells (rows g) (columns g) (mines g);
  sane_n : n g = length (mines g);
  sane_size : size g = (rows g * columns g)%nat;
  sane_last_opened : Forall (has_shape (rows g) (columns g)) (last_opened g);
  sane_last_flagged : Forall (has_shape (rows g) (columns g)) (last_flagged g)
}.

(** A move on [demo_generated]: the first slot opens a safe cell and flags
    its mine, the second slot opens a mine and is lost. *)
Definition demo_move_open : batch := [[[0; 1]; [0; 0]]; [[1; 0]; [0; 0]]].
Definition demo_move_flag : batch := [[[1; 0]; [0; 0]]; [[0; 0]; [0; 0]]].

Definition demo_played : Game :=
  {| n := 2; rows := 2; columns := 2; size := 4; mines_n := [1; 2];
     mines := [[[1; 0]; [0; 0]]; [[1; 1]; [0; 0]]];
     numbers := [[[-1; 1]; [1; 1]]; [[-1; -1]; [2; 2]]];
     open_cells := [[[0; 1]; [0; 0]]; [[0; 0]; [0; 0]]];
     flags := [[[1; 0]; [0; 0]]; [[0; 0]; [0; 0]]];
     active_games := [true; false]; won := [false; false];
     last_opened := [[[0; 1]; [0; 0]]; [[1; 0]; [0; 0]]];
     last_flagged := [[[1; 0]; [0; 0]]; [[0; 0]; [0; 0]]] |}.



End Reports.

(** ** [src/utils.py]: how [pyplot_game] reads a state *)
Module Plot.
Import Np.

(** [open_cells = state < 9] and [flags = state == 10]. *)
Definition open_cells (state : grid) : list (list bool) := map (map (λ x, x <? 9)) state.
Definition flags (state : grid) : list (list bool) := map (map (λ x, x =? 10)) state.

End Plot.

(** ** [src/game.py]: the random openers *)
Module RandomMoves.
Import Np Engine Reports.

(** [rng.random() < rate] for a draw given as a numerator over [2^53] and a
    finite [rate] given as a fraction. *)
Definition below (draw : Z) (rate : Z * positive) : bool :=
  draw * Z.pos rate.2 <? rate.1 * 2 ^ 53.

(** [rng.random(mines.shape) < rate], as an array of 0 and 1. *)
Definition hits (draws : nat → nat → nat → Z) (rate : Z * positive) (ms : batch) : batch :=
  imap (λ i b, imap (λ r row, imap (λ c _, Z.b2z (below (draws i r c) rate)) row) b) ms.

(** [Game.random_open]. *)
Definition random_open (draws : nat → nat → nat → Z) (rate : Z * positive) (g : Game)
    : option (Game * batch) :=
  let to_open := bmap2 mul8 (hits draws rate (mines g)) (bmap (sub8 1) (mines g)) in
  '(g', _) ← move (Some to_open) None g;
  Some (g', to_open).

(** [Game.random_flags]. *)
Definition random_flags (draws : nat → nat → nat → Z) (rate : Z * positive) (g : Game)
    : option (Game * batch) :=
  let to_flag := bmap2 mul8 (hits draws rate (mines g)) (mines g) in
  '(g', _) ← move None (Some to_flag) g;
  Some (g', to_flag).

(** A game of one slot that was lost on its first move: [Game(2, 2, 1)] with
    the mine in the first cell, after that cell was asked to be opened. *)
Definition demo_lost : Game :=
  {| n := 1; rows := 2; columns := 2; size := 4; mines_n := [1];
     mines := [[[1; 0]; [0; 0]]];
     numbers := [[[-1; 1]; [1; 1]]];
     open_cells := [[[0; 0]; [0; 0]]];
     flags := [[[0; 0]; [0; 0]]];
     active_games := [false]; won := [false];
     last_opened := [[[1; 0]; [0; 0]]];
     last_flagged := [[[0; 0]; [0; 0]]] |}.

(** The boards and the active slots of [g'] are those of [g]. *)
Definition untouched (g g' : Game) : Prop :=
  open_cells g' = open_cells g ∧ flags g' = flags g ∧ active_games g' = active_games g.

End RandomMoves.

(** ** [Game.__getitem__] with a list of integers *)
Module Copies.

(** The object [demo_object[[1]]], a move on it, and the stores they leave. *)
Definition demo_list_selection : Views.Game * Views.store :=
  Eval vm_compute in
    default (Views.demo_object, [])
            (Views.getitem (Views.KList [1]) Views.demo_object Views.demo_store).

Definition demo_list_moved : Views.Game * Views.store * list bool :=
  Eval vm_compute in
    default (Views.demo_object, [], [])
            (Views.move (Some [[[1; 0]; [0; 0]]]) None
                        demo_list_selection.1 demo_list_selection.2).

End Copies.

(** ** [game.py]: [Game.open] *)
Module LegacyOpen.
Import Np Legacy.

(** The [flags] argument: a Python bool (the default is [False]) or an
    array of bools. *)
Inductive flags_arg := FScalar (b : bool) | FArray (l : list bool).

(** [row[c] = v] for a Python index [c]. *)
Definition set_at (v : Z) (row : list Z) (c : Z) : option (list Z) :=
  k ← py_index (length row) c; Some (<[k := v]> row).

(** [flags] as [np.logical_xor] sees it against [k] values. An array of
    another length than [k] passes only when it is [[False]], which
    broadcasts and is never indexed; the scalar [True] passes here and fails
    at [flags[correct]]. *)
Definition flag_values (flags : flags_arg) (k : nat) : option (list bool) :=
  match flags with
  | FScalar b => Some (replicate k b)
  | FArray l =>
      if decide (length l = k) then Some l
      else if decide (l = [false]) then Some (replicate k false)
      else None
  end.

(** [np.any(flags)]. *)
Definition any_flag (flags : flags_arg) : bool :=
  match flags with FScalar b => b | FArray l => existsb id l end.

(** [Game.open]: [c] holds one flat cell index per active slot. *)
Definition open (c : list Z) (flags : flags_arg) (g : Game) : option (Game * list Z) :=
  let act := active_grids g in
  let k := count act in
  if negb (bool_decide (length c = k)) then None else
  let last_opened' := scatter act c (last_opened g) in
  fv ← mapM (λ '(row, ci), at_index row ci) (zip (gather act (fields g)) c);
  fl ← flag_values flags k;
  let wrong := zip_with xorb fl (map (λ v, negb (v =? 0)) fv) in
  let correct := map negb wrong in
  let act1 := scatter act correct act in
  st ← mapM (λ '(row, (ci, ok)), if ok : bool then set_at 1 row ci else Some row)
            (zip (gather act (states g)) (zip c correct));
  let states' := scatter act st (states g) in
  gv ← mapM (λ '(row, ci), at_index row ci) (zip (gather act (grids g)) c);
  vis ← mapM (λ '(row, (ci, (v, w))), set_at (if w : bool then 0 else v) row ci)
             (zip (gather act (visible_grids g)) (zip c (zip gv wrong)));
  let visible' := scatter act vis (visible_grids g) in
  '(scores', mines_scores') ←
    (if any_flag flags
     then match flags with
          | FArray l =>
              let fc := gather correct l in
              Some (scatter act1
                      (zip_with (λ s (f : bool), s - (if f then 0 else 1))
                                (gather act1 (scores g)) fc)
                      (scores g),
                    scatter act1
                      (zip_with (λ s (f : bool), s - Z.b2z f)
                                (gather act1 (mines_scores g)) fc)
                      (mines_scores g))
          | FScalar _ => None
          end
     else Some (scatter act1 (map (λ s, s - 1) (gather act1 (scores g))) (scores g),
                mines_scores g));
  let won' := map (λ s, s =? 0) scores' in
  let act2 := zip_with (λ a w : bool, if w then false else a) act1 won' in
  Some ({| n := n g; rows := rows g; columns := columns g; size := size g;
           mines := mines g; fields := fields g; grids := grids g;
           states := states';
           visible_grids := visible';
           scores := scores';
           mines_scores := mines_scores';
           active_grids := act2;
           won := won';
           last_opened := last_opened' |},
        gv).

(** The arrays of a game have one entry per slot, and the boards one cell
    per cell. *)
Record shaped (g : Game) : Prop := {
  sh_fields : length (fields g) = n g;
  sh_grids : length (grids g) = n g;
  sh_states : length (states g) = n g;
  sh_visible : length (visible_grids g) = n g;
  sh_scores : length (scores g) = n g;
  sh_mines_scores : length (mines_scores g) = n g;
  sh_active : length (active_grids g) = n g;
  sh_last : length (last_opened g) = n g;
  sh_field_rows : Forall (λ row, length row = size g) (fields g);
  sh_grid_rows : Forall (λ row, length row = size g) (grids g);
  sh_state_rows : Forall (λ row, length row = size g) (states g);
  sh_visible_rows : Forall (λ row, length row = size g) (visible_grids g)
}.

(** [Game(2, 2, 1, n=2)] with the mines drawn at cells 0 and 3. *)
Definition demo_choice (i : nat) : list nat :=
  match i with O => [0%nat] | _ => [3%nat] end.

Definition demo_open_game : Game :=
  {| n := 2; rows := 2; columns := 2; size := 4; mines := 1;
     fields := [[1; 0; 0; 0]; [0; 0; 0; 1]];
     grids := [[-1; 1; 1; 1]; [1; 1; 1; -1]];
     states := [[0; 0; 0; 0]; [0; 0; 0; 0]];
     visible_grids := [[0; 0; 0; 0]; [0; 0; 0; 0]];
     scores := [3; 3]; mines_scores := [1; 1];
     active_grids := [true; true]; won := [false; false];
     last_opened := [-1; -1] |}.

End LegacyOpen.

(** ** [game.py]: the scores through the cascade *)
Module Tally.
Import Np Legacy Cascade.

(** The slot of an index triple. *)
Definition slot (t : Z * Z * Z) : Z := t.1.1.

(** The closed cells of slot [s] in a padded state array, counted along the
    flat board. *)
Definition closed_in (h w : nat) (P : batch) (s : nat) : nat :=
  length (filter (λ p, get3 P (at_board s (p / w) (p mod w)) = Some 0) (seq 0 (h * w))).

(** The score of every slot went down by the number of cells that were
    opened in it. *)
Definition kept (h w : nat) (P : batch) (sc : list Z) (P' : batch) (sc' : list Z) : Prop :=
  length sc' = length sc ∧
  ∀ s x, sc !! s = Some x →
    ∃ x', sc' !! s = Some x' ∧
      x - Z.of_nat (closed_in h w P s) = x' - Z.of_nat (closed_in h w P' s).

(** The safe cells of a flat board that are still closed. *)
Definition closed_safe (field st : list Z) : nat :=
  length (filter (λ p, st !! p = Some 0 ∧ field !! p = Some 0) (seq 0 (length st))).

End Tally.

(** * Facts about the numpy fragments *)
Module NpFacts.
Import Np.

Lemma wrap8_small z : -128 ≤ z < 128 → wrap8 z = z.
Proof. intros H. unfold wrap8. rewrite Z.mod_small; lia. Qed.

(** *** Cells *)

Lemma cell_map2 f a b r c :
  cell (map2 f a b) r c = x ← cell a r c; y ← cell b r c; Some (f x y).
Proof.
  unfold cell, map2. rewrite lookup_zip_with.
  destruct (a !! r) as [ra|]; simpl; [|done].
  destruct (b !! r) as [rb|]; simpl.
  - rewrite lookup_zip_with. done.
  - by destruct (ra !! c).
Qed.

Lemma cell_shape h w a r c :
  has_shape h w a → is_Some (cell a r c) ↔ (r < h ∧ c < w)%nat.
Proof.
  intros [Hh Hw]. unfold cell. split.
  - intros [x Hx]. destruct (a !! r) as [row|] eqn:Hr; simpl in Hx; [|done].
    split; [subst h; by eapply lookup_lt_Some|].
    eapply Forall_lookup_1 in Hw; [|exact Hr]. simpl in Hw. subst w.
    by eapply lookup_lt_Some.
  - intros [Hr Hc]. subst h. apply lookup_lt_is_Some_2 in Hr as [row Hrow].
    rewrite Hrow. simpl. apply lookup_lt_is_Some_2.
    eapply Forall_lookup_1 in Hw; [|exact Hrow]. simpl in Hw. lia.
Qed.

Lemma cell_binary a r c x : binary a → cell a r c = Some x → x = 0 ∨ x = 1.
Proof.
  unfold binary, cell. intros Hb Hx.
  destruct (a !! r) as [row|] eqn:Hr; simpl in Hx; [|done].
  eapply Forall_lookup_1 in Hb; [|exact Hr].
  eapply Forall_lookup_1 in Hb; [|exact Hx]. exact Hb.
Qed.

Lemma binary_cells a :
  (∀ r c x, cell a r c = Some x → x = 0 ∨ x = 1) → binary a.
Proof.
  intros H. unfold binary. apply Forall_lookup_2. intros r row Hr.
  apply Forall_lookup_2. intros c x Hx. apply (H r c). unfold cell. by rewrite Hr.
Qed.

Lemma any_true g : any g = true ↔ ∃ r c x, cell g r c = Some x ∧ x ≠ 0.
Proof.
  unfold any, cell. rewrite existsb_exists. split.
  - intros (row & Hin & Hrow). apply existsb_exists in Hrow as (x & Hx & Hnz).
    apply list_elem_of_In, list_elem_of_lookup_1 in Hin as [r Hr].
    apply list_elem_of_In, list_elem_of_lookup_1 in Hx as [c Hc].
    exists r, c, x. rewrite Hr. simpl. split; [done|].
    apply negb_true_iff, Z.eqb_neq in Hnz. done.
  - intros (r & c & x & Hx & Hnz).
    destruct (g !! r) as [row|] eqn:Hr; simpl in Hx; [|done].
    exists row. split.
    + apply list_elem_of_In. eapply list_elem_of_lookup_2; eauto.
    + apply existsb_exists. exists x. split.
      * apply list_elem_of_In. eapply list_elem_of_lookup_2; eauto.
      * apply negb_true_iff, Z.eqb_neq. done.
Qed.

Lemma any_false g : any g = false ↔ ∀ r c x, cell g r c = Some x → x = 0.
Proof.
  split.
  - intros H r c x Hx. destruct (decide (x = 0)) as [|Hnz]; [done|].
    assert (any g = true) as Ht by (apply any_true; eauto). congruence.
  - intros H. destruct (any g) eqn:E; [|done].
    apply any_true in E as (r & c & x & Hx & Hnz). by apply H in Hx.
Qed.

Lemma all_true g : all g = true ↔ ∀ r c x, cell g r c = Some x → x ≠ 0.
Proof.
  unfold all, cell. rewrite forallb_forall. split.
  - intros H r c x Hx.
    destruct (g !! r) as [row|] eqn:Hr; simpl in Hx; [|done].
    assert (In row g) as Hin
      by (apply list_elem_of_In; eapply list_elem_of_lookup_2; eauto).
    apply H in Hin. rewrite forallb_forall in Hin.
    assert (In x row) as Hinx
      by (apply list_elem_of_In; eapply list_elem_of_lookup_2; eauto).
    apply Hin in Hinx. apply negb_true_iff, Z.eqb_neq in Hinx. done.
  - intros H row Hin. apply forallb_forall. intros x Hx.
    apply list_elem_of_In, list_elem_of_lookup_1 in Hin as [r Hr].
    apply list_elem_of_In, list_elem_of_lookup_1 in Hx as [c Hc].
    apply negb_true_iff, Z.eqb_neq. apply (H r c). rewrite Hr. done.
Qed.

Lemma map2_shape f h w a b :
  has_shape h w a → has_shape h w b → has_shape h w (map2 f a b).
Proof.
  intros [Ha Hwa] [Hb Hwb]. unfold map2. split.
  - rewrite length_zip_with. lia.
  - apply Forall_lookup_2. intros r row Hr.
    apply lookup_zip_with_Some in Hr as (ra & rb & -> & Hra & Hrb).
    eapply Forall_lookup_1 in Hwa; [|exact Hra].
    eapply Forall_lookup_1 in Hwb; [|exact Hrb].
    rewrite length_zip_with. lia.
Qed.

(** Two boards of one shape with the same cells are equal. *)
Lemma grid_ext h w a b :
  has_shape h w a → has_shape h w b →
  (∀ r c, cell a r c = cell b r c) → a = b.
Proof.
  intros [Ha Hwa] [Hb Hwb] Hc. apply list_eq_same_length with h; [done..|].
  intros r ra rb Hr Hra Hrb.
  eapply Forall_lookup_1 in Hwa; [|exact Hra].
  eapply Forall_lookup_1 in Hwb; [|exact Hrb].
  apply list_eq_same_length with w; [done..|].
  intros c x y Hlt Hx Hy. specialize (Hc r c). unfold cell in Hc.
  rewrite Hra, Hrb in Hc. simpl in Hc. congruence.
Qed.

(** *** Boolean masks *)

Lemma count_nil : count [] = 0%nat.
Proof. done. Qed.

Lemma count_cons b m : count (b :: m) = ((if b then 1 else 0) + count m)%nat.
Proof. unfold count. rewrite filter_cons. by destruct b. Qed.

Lemma rank_0 m : rank m 0 = 0%nat.
Proof. done. Qed.

Lemma rank_S b m i : rank (b :: m) (S i) = ((if b then 1 else 0) + rank m i)%nat.
Proof. unfold rank. simpl. apply count_cons. Qed.

Lemma length_gather {A} mask (xs : list A) :
  length mask = length xs → length (gather mask xs) = count mask.
Proof.
  revert xs. induction mask as [|b m IH]; intros [|x xs] Hl; simplify_eq/=; [done|].
  rewrite count_cons. destruct b; simpl; rewrite IH; lia.
Qed.

Lemma length_scatter {A} mask (vals xs : list A) :
  length (scatter mask vals xs) = length xs.
Proof.
  revert vals xs. induction mask as [|b m IH]; intros vals xs; [done|].
  destruct b, xs as [|x xs], vals as [|v vals]; simpl; by rewrite ?IH.
Qed.

Lemma lookup_gather {A} mask (xs : list A) i :
  length mask = length xs → mask !! i = Some true →
  gather mask xs !! rank mask i = xs !! i.
Proof.
  revert xs i. induction mask as [|b m IH]; intros [|x xs] i Hl Hi; simplify_eq/=.
  destruct i as [|i]; simplify_eq/=; [done|].
  rewrite rank_S. destruct b; simpl; by apply IH.
Qed.

Lemma lookup_scatter_true {A} mask (vals xs : list A) i :
  length mask = length xs → length vals = count mask → mask !! i = Some true →
  scatter mask vals xs !! i = vals !! rank mask i.
Proof.
  revert vals xs i. induction mask as [|b m IH]; intros vals [|x xs] i Hl Hv Hi; simplify_eq/=.
  rewrite count_cons in Hv.
  destruct i as [|i]; simplify_eq/=.
  - destruct vals; simplify_eq/=. done.
  - rewrite rank_S. destruct b; simpl.
    + destruct vals; simplify_eq/=. by apply IH.
    + by apply IH.
Qed.

Lemma lookup_scatter_false {A} mask (vals xs : list A) i :
  mask !! i ≠ Some true → scatter mask vals xs !! i = xs !! i.
Proof.
  revert vals xs i. induction mask as [|b m IH]; intros vals xs i Hi; [done|].
  destruct b, xs as [|x xs], vals as [|v vals], i as [|i]; simpl in *;
    try done; by apply IH.
Qed.

Lemma rank_lt mask i : mask !! i = Some true → (rank mask i < count mask)%nat.
Proof.
  revert i. induction mask as [|b m IH]; intros [|i] Hi; simplify_eq/=.
  - rewrite rank_0, count_cons. lia.
  - rewrite rank_S, count_cons. apply IH in Hi. lia.
Qed.

(** The mask [act[act] = sub]: which slots stay set, and their rank. *)
Lemma scatter_mask_lookup act sub i :
  length sub = count act →
  scatter act sub act !! i = Some true ↔
  act !! i = Some true ∧ sub !! rank act i = Some true.
Proof.
  intros Hl. destruct (act !! i) as [[]|] eqn:Hi.
  - rewrite lookup_scatter_true by done. split; [by intros ?|by intros [_ ?]].
  - rewrite lookup_scatter_false by congruence. rewrite Hi.
    split; [done|by intros [? _]].
  - rewrite lookup_scatter_false by congruence. rewrite Hi.
    split; [done|by intros [? _]].
Qed.

Lemma scatter_mask_rank act sub i :
  length sub = count act →
  rank (scatter act sub act) i = rank sub (rank act i).
Proof.
  revert sub i. induction act as [|b m IH]; intros sub i Hl.
  - simpl. destruct i; simpl; unfold rank; by rewrite ?take_nil.
  - rewrite count_cons in Hl. destruct i as [|i]; [done|].
    destruct b; simpl.
    + destruct sub as [|s sub]; simplify_eq/=.
      rewrite (rank_S true m), (rank_S s), (rank_S s sub). rewrite IH by lia. done.
    + rewrite (rank_S false m), (rank_S false). simpl. apply IH. lia.
Qed.

Lemma count_scatter_mask act sub :
  length sub = count act → count (scatter act sub act) = count sub.
Proof.
  revert sub. induction act as [|b m IH]; intros sub Hl.
  - simpl in *. rewrite count_nil in Hl. by destruct sub.
  - rewrite count_cons in Hl. destruct b; simpl.
    + destruct sub as [|s sub]; simplify_eq/=. rewrite !count_cons, IH by lia. done.
    + rewrite count_cons. simpl. apply IH. lia.
Qed.

End NpFacts.

(** * The batched engine *)
Module EngineFacts.
Import Np Utils Engine NpFacts.

(** *** The two tests *)

Lemma correct_open_spec h w m o :
  has_shape h w m → has_shape h w o → binary m → binary o →
  correct_open m o = true ↔ ∀ r c, ¬ (on o r c ∧ on m r c).
Proof.
  intros Hm Ho Bm Bo. unfold correct_open, on.
  rewrite negb_true_iff, any_false. split.
  - intros H r c [Hor Hmr]. specialize (H r c 1). rewrite cell_map2, Hmr, Hor in H.
    simpl in H. by specialize (H eq_refl).
  - intros H r c x. rewrite cell_map2. intros Hx.
    destruct (cell m r c) as [xm|] eqn:Em; simpl in Hx; [|done].
    destruct (cell o r c) as [xo|] eqn:Eo; simplify_eq/=.
    destruct (cell_binary _ _ _ _ Bm Em), (cell_binary _ _ _ _ Bo Eo); subst; try done.
    exfalso. by apply (H r c).
Qed.

Lemma correct_flag_spec h w m f :
  has_shape h w m → has_shape h w f → binary m → binary f →
  correct_flag m f = true ↔ ∀ r c, on f r c → on m r c.
Proof.
  intros Hm Hf Bm Bf. unfold correct_flag, on.
  rewrite negb_true_iff, any_false. split.
  - intros H r c Hfr.
    assert (is_Some (cell m r c)) as [xm Em].
    { eapply cell_shape; [done|]. eapply (cell_shape _ _ f); [done|]. by eexists. }
    specialize (H r c ((1 - xm) * 1)). rewrite cell_map2, Em, Hfr in H.
    simpl in H. specialize (H eq_refl).
    destruct (cell_binary _ _ _ _ Bm Em); subst; [done|done].
  - intros H r c x. rewrite cell_map2. intros Hx.
    destruct (cell m r c) as [xm|] eqn:Em; simpl in Hx; [|done].
    destruct (cell f r c) as [xf|] eqn:Ef; simplify_eq/=.
    destruct (cell_binary _ _ _ _ Bm Em), (cell_binary _ _ _ _ Bf Ef); subst; try done.
    apply H in Ef. congruence.
Qed.

Lemma lor_binary a b : binary a → binary b → binary (map2 Z.lor a b).
Proof.
  intros Ba Bb. apply binary_cells. intros r c x. rewrite cell_map2. intros Hx.
  destruct (cell a r c) as [xa|] eqn:Ea; simpl in Hx; [|done].
  destruct (cell b r c) as [xb|] eqn:Eb; simplify_eq/=.
  destruct (cell_binary _ _ _ _ Ba Ea), (cell_binary _ _ _ _ Bb Eb); subst; auto.
Qed.

Lemma lor_on h w a b r c :
  has_shape h w a → has_shape h w b → binary a → binary b →
  on (map2 Z.lor a b) r c ↔ on a r c ∨ on b r c.
Proof.
  intros Ha Hb Ba Bb. unfold on. rewrite cell_map2. split.
  - intros Hx.
    destruct (cell a r c) as [xa|] eqn:Ea; simpl in Hx; [|done].
    destruct (cell b r c) as [xb|] eqn:Eb; simplify_eq/=.
    destruct (cell_binary _ _ _ _ Ba Ea), (cell_binary _ _ _ _ Bb Eb); subst; auto.
    done.
  - assert (is_Some (cell a r c) ↔ is_Some (cell b r c)) as Hab
      by (by rewrite !cell_shape).
    intros [Hx|Hx]; rewrite Hx in *.
    + destruct Hab as [[xb Eb] _]; [by eexists|]. rewrite Eb. simpl.
      destruct (cell_binary _ _ _ _ Bb Eb); by subst.
    + destruct Hab as [_ [xa Ea]]; [by eexists|]. rewrite Ea. simpl.
      destruct (cell_binary _ _ _ _ Ba Ea); by subst.
Qed.

(** *** Merging under the masks *)

Lemma lookup_judge (am to_open to_flag : batch) j m ro rf :
  am !! j = Some m → to_open !! j = Some ro → to_flag !! j = Some rf →
  zip_with andb (zip_with correct_open am to_open) (zip_with correct_flag am to_flag) !! j
  = Some (correct_open m ro && correct_flag m rf).
Proof.
  intros Hm Hro Hrf. rewrite !lookup_zip_with, Hm, Hro, Hrf. done.
Qed.

Lemma lookup_merge_active (act correct : list bool) (xs req : batch) i x r (ok : bool) :
  length act = length xs → length correct = count act → length req = count act →
  act !! i = Some true → xs !! i = Some x →
  req !! rank act i = Some r → correct !! rank act i = Some ok →
  merge (scatter act correct act) correct xs req !! i
  = Some (if ok then map2 Z.lor x r else x).
Proof.
  intros Hxs Hc Hreq Hi Hx Hr Hok. unfold merge.
  destruct ok.
  - assert (scatter act correct act !! i = Some true) as Hact1
      by (by apply scatter_mask_lookup).
    rewrite lookup_scatter_true; [| |  |done].
    + rewrite lookup_zip_with.
      rewrite lookup_gather by (by rewrite ?length_scatter). rewrite Hx. simpl.
      rewrite scatter_mask_rank by done.
      rewrite lookup_gather by (done || lia). by rewrite Hr.
    + by rewrite length_scatter.
    + rewrite length_zip_with, !length_gather by (rewrite ?length_scatter; lia).
      rewrite count_scatter_mask by done. lia.
  - rewrite lookup_scatter_false; [done|].
    rewrite scatter_mask_lookup by done. intros [_ ?]. congruence.
Qed.

Lemma lookup_merge_inactive (act correct : list bool) (xs req : batch) i :
  length correct = count act → act !! i ≠ Some true →
  merge (scatter act correct act) correct xs req !! i = xs !! i.
Proof.
  intros Hc Hi. unfold merge. rewrite lookup_scatter_false; [done|].
  rewrite scatter_mask_lookup by done. by intros [? _].
Qed.

Lemma lookup_detect_won (opened ms : batch) i o m :
  opened !! i = Some o → ms !! i = Some m →
  detect_won opened ms !! i = Some (all (map2 add8 o m)).
Proof.
  intros Ho Hm. unfold detect_won.
  rewrite list_lookup_fmap, lookup_zip_with, Ho, Hm. done.
Qed.

Lemma lookup_deactivate (act wn : list bool) i (a w : bool) :
  act !! i = Some a → wn !! i = Some w →
  deactivate act wn !! i = Some (if w then false else a).
Proof. intros Ha Hw. unfold deactivate. by rewrite lookup_zip_with, Ha, Hw. Qed.

Lemma won_spec h w o m :
  has_shape h w o → has_shape h w m → binary o → binary m →
  all (map2 add8 o m) = true ↔ ∀ r c, (r < h)%nat → (c < w)%nat → on o r c ∨ on m r c.
Proof.
  intros Ho Hm Bo Bm. rewrite all_true. unfold on. split.
  - intros H r c Hr Hc.
    destruct (proj2 (cell_shape h w o r c Ho)) as [xo Eo]; [done|].
    destruct (proj2 (cell_shape h w m r c Hm)) as [xm Em]; [done|].
    specialize (H r c (add8 xo xm)). rewrite cell_map2, Eo, Em in H.
    specialize (H eq_refl). rewrite Eo, Em.
    destruct (cell_binary _ _ _ _ Bo Eo), (cell_binary _ _ _ _ Bm Em); subst; auto.
    done.
  - intros H r c x. rewrite cell_map2. intros Hx.
    destruct (cell o r c) as [xo|] eqn:Eo; simpl in Hx; [|done].
    destruct (cell m r c) as [xm|] eqn:Em; simplify_eq/=.
    assert (r < h ∧ c < w)%nat as [Hr Hc] by (eapply cell_shape; [exact Ho|by eexists]).
    destruct (H r c Hr Hc) as [E|E]; rewrite E in *; simplify_eq.
    + destruct (cell_binary _ _ _ _ Bm Em); by subst.
    + destruct (cell_binary _ _ _ _ Bo Eo); by subst.
Qed.

(** *** [move], slot by slot *)

Lemma has_shapeb_true h w b : has_shapeb h w b = true ↔ has_shape h w b.
Proof.
  unfold has_shapeb, has_shape. rewrite andb_true_iff, bool_decide_eq_true.
  rewrite forallb_forall, Forall_forall.
  split; intros [? H]; (split; [done|]); intros x Hx.
  - apply list_elem_of_In, H in Hx. by apply bool_decide_eq_true in Hx.
  - apply bool_decide_eq_true, H. by apply list_elem_of_In.
Qed.

Lemma request_ok_true g req : request g req → request_ok g req = true.
Proof.
  intros [Hl Hb]. unfold request_ok. apply andb_true_iff.
  split; [by rewrite (bool_decide_eq_true_2 _ Hl)|]. apply forallb_forall. intros b Hin.
  apply has_shapeb_true. apply list_elem_of_In in Hin.
  rewrite Forall_forall in Hb. by apply Hb.
Qed.

Lemma move_Some g to_open to_flag :
  request g to_open → request g to_flag →
  ∃ g' correct, move (Some to_open) (Some to_flag) g = Some (g', correct).
Proof.
  intros Ho Hf. unfold move. simpl.
  rewrite !request_ok_true by done. simpl. eauto.
Qed.

Section MoveSlots.
Context (g g' : Game) (to_open to_flag : batch) (correct : list bool).
Hypothesis Hwf : wf g.
Hypothesis Hopen : request g to_open.
Hypothesis Hflag : request g to_flag.
Hypothesis Hmove : move (Some to_open) (Some to_flag) g = Some (g', correct).

Local Abbreviation act := (active_games g).

Lemma move_correct_eq :
  correct = zip_with andb (zip_with correct_open (gather act (mines g)) to_open)
                          (zip_with correct_flag (gather act (mines g)) to_flag).
Proof using Hmove Hopen Hflag.
  unfold move in Hmove. simpl in Hmove.
  rewrite !request_ok_true in Hmove by done. simpl in Hmove. by simplify_eq.
Qed.

Lemma move_length_correct : length correct = count act.
Proof using Hwf Hmove Hopen Hflag.
  rewrite move_correct_eq. destruct Hopen as [Ho _], Hflag as [Hf _].
  rewrite !length_zip_with, !length_gather by apply (wf_len_active g Hwf).
  lia.
Qed.

Lemma move_frame :
  n g' = n g ∧ rows g' = rows g ∧ columns g' = columns g ∧ size g' = size g ∧
  mines_n g' = mines_n g ∧ mines g' = mines g ∧ numbers g' = numbers g.
Proof using Hmove Hopen Hflag.
  unfold move in Hmove. simpl in Hmove.
  rewrite !request_ok_true in Hmove by done. simpl in Hmove. by simplify_eq.
Qed.

Lemma move_slot_active i m o f ro rf :
  act !! i = Some true →
  mines g !! i = Some m → open_cells g !! i = Some o → flags g !! i = Some f →
  to_open !! rank act i = Some ro → to_flag !! rank act i = Some rf →
  let ok := correct_open m ro && correct_flag m rf in
  let o' := if ok then map2 Z.lor o ro else o in
  correct !! rank act i = Some ok ∧
  open_cells g' !! i = Some o' ∧
  flags g' !! i = Some (if ok then map2 Z.lor f rf else f) ∧
  last_opened g' !! i = Some ro ∧
  last_flagged g' !! i = Some rf ∧
  won g' !! i = Some (all (map2 add8 o' m)) ∧
  active_games g' !! i = Some (ok && negb (all (map2 add8 o' m))).
Proof using Hwf Hmove Hopen Hflag.
  intros Hi Hm Ho Hf Hro Hrf ok o'.
  pose proof move_length_correct as Hlc.
  pose proof (wf_len_active g Hwf) as Hla.
  pose proof (wf_len_open g Hwf) as Hlop.
  pose proof (wf_len_flags g Hwf) as Hlfl.
  pose proof (wf_len_last_opened g Hwf) as Hllo.
  pose proof (wf_len_last_flagged g Hwf) as Hllf.
  assert (correct !! rank act i = Some ok) as Hok.
  { rewrite move_correct_eq. apply lookup_judge; [|done..].
    rewrite lookup_gather; [done| |done]. apply (wf_len_active g Hwf). }
  destruct Hopen as [Hlo _], Hflag as [Hlf _].
  unfold move in Hmove. simpl in Hmove.
  rewrite !request_ok_true in Hmove by done. simpl in Hmove.
  injection Hmove as <- Hc. simpl.
  rewrite Hc.
  assert (merge (scatter act correct act) correct (open_cells g) to_open !! i = Some o') as Ho'.
  { eapply lookup_merge_active; eauto. congruence. }
  assert (act !! i = Some true) as Hi' by done.
  split_and!; [done|done| | | | |].
  - eapply lookup_merge_active; eauto. congruence.
  - rewrite lookup_scatter_true; [done|congruence|done|done].
  - rewrite lookup_scatter_true; [done|congruence|done|done].
  - by apply lookup_detect_won.
  - erewrite lookup_deactivate; [| |by apply lookup_detect_won].
    2:{ rewrite lookup_scatter_true; [exact Hok|done|done|done]. }
    by destruct ok, (all (map2 add8 o' m)).
Qed.

Lemma move_slot_inactive i m o f :
  act !! i = Some false →
  mines g !! i = Some m → open_cells g !! i = Some o → flags g !! i = Some f →
  open_cells g' !! i = Some o ∧
  flags g' !! i = Some f ∧
  last_opened g' !! i = last_opened g !! i ∧
  last_flagged g' !! i = last_flagged g !! i ∧
  won g' !! i = Some (all (map2 add8 o m)) ∧
  active_games g' !! i = Some false.
Proof using Hwf Hmove Hopen Hflag.
  intros Hi Hm Ho Hf.
  pose proof move_length_correct as Hlc.
  unfold move in Hmove. simpl in Hmove.
  rewrite !request_ok_true in Hmove by done. simpl in Hmove.
  injection Hmove as <- Hc. simpl. rewrite Hc.
  assert (act !! i ≠ Some true) as Hne by congruence.
  assert (merge (scatter act correct act) correct (open_cells g) to_open !! i = Some o) as Ho'.
  { by rewrite lookup_merge_inactive. }
  split_and!; [done| | | | |].
  - by rewrite lookup_merge_inactive.
  - by rewrite lookup_scatter_false.
  - by rewrite lookup_scatter_false.
  - by apply lookup_detect_won.
  - erewrite lookup_deactivate; [| |by apply lookup_detect_won].
    2:{ rewrite lookup_scatter_false; [exact Hi|done]. }
    by destruct (all (map2 add8 o m)).
Qed.

(** Every slot has its boards, and every active slot its request. *)
Lemma slot_boards i :
  (i < length (mines g))%nat →
  ∃ m o f a, mines g !! i = Some m ∧ open_cells g !! i = Some o ∧
             flags g !! i = Some f ∧ act !! i = Some a ∧
             board_ok g m ∧ board_ok g o ∧ board_ok g f.
Proof using Hwf.
  intros Hi.
  destruct (lookup_lt_is_Some_2 (mines g) i) as [m Hm]; [done|].
  destruct (lookup_lt_is_Some_2 (open_cells g) i) as [o Ho];
    [by rewrite (wf_len_open g Hwf)|].
  destruct (lookup_lt_is_Some_2 (flags g) i) as [f Hf];
    [by rewrite (wf_len_flags g Hwf)|].
  destruct (lookup_lt_is_Some_2 act i) as [a Ha];
    [by rewrite (wf_len_active g Hwf)|].
  exists m, o, f, a. split_and!; try done.
  - eapply Forall_lookup_1; [apply (wf_mines g Hwf)|done].
  - eapply Forall_lookup_1; [apply (wf_open g Hwf)|done].
  - eapply Forall_lookup_1; [apply (wf_flags g Hwf)|done].
Qed.

Lemma slot_requests i :
  act !! i = Some true →
  ∃ ro rf, to_open !! rank act i = Some ro ∧ to_flag !! rank act i = Some rf ∧
           board_ok g ro ∧ board_ok g rf.
Proof using Hopen Hflag.
  intros Hi. apply rank_lt in Hi.
  destruct Hopen as [Hlo Hbo], Hflag as [Hlf Hbf].
  destruct (lookup_lt_is_Some_2 to_open (rank act i)) as [ro Hro]; [lia|].
  destruct (lookup_lt_is_Some_2 to_flag (rank act i)) as [rf Hrf]; [lia|].
  exists ro, rf. split_and!; try done.
  - eapply Forall_lookup_1; [apply Hbo|done].
  - eapply Forall_lookup_1; [apply Hbf|done].
Qed.

Lemma move_lengths :
  length (open_cells g') = length (mines g) ∧
  length (flags g') = length (mines g) ∧
  length (active_games g') = length (mines g) ∧
  length (won g') = length (mines g) ∧
  length (last_opened g') = length (mines g) ∧
  length (last_flagged g') = length (mines g).
Proof using Hwf Hmove Hopen Hflag.
  pose proof (wf_len_active g Hwf) as Hla.
  pose proof (wf_len_open g Hwf) as Hlop.
  pose proof (wf_len_flags g Hwf) as Hlfl.
  pose proof (wf_len_last_opened g Hwf) as Hllo.
  pose proof (wf_len_last_flagged g Hwf) as Hllf.
  unfold move in Hmove. simpl in Hmove.
  rewrite !request_ok_true in Hmove by done. simpl in Hmove.
  injection Hmove as <- Hc. simpl.
  unfold deactivate, detect_won, merge.
  rewrite ?length_zip_with, ?length_map, ?length_zip_with, ?length_scatter.
  lia.
Qed.

Lemma move_wf : wf g'.
Proof using Hwf Hmove Hopen Hflag.
  destruct move_frame as (_ & Hrows & Hcols & _ & _ & Hmines & Hnum).
  destruct move_lengths as (L1 & L2 & L3 & L4 & L5 & L6).
  assert (∀ b, board_ok g b → board_ok g' b) as Hok.
  { intros b. unfold board_ok. by rewrite Hrows, Hcols. }
  assert (∀ a b, board_ok g a → board_ok g b → board_ok g (map2 Z.lor a b)) as Hlor.
  { intros a b [Sa Ba] [Sb Bb]. split; [by apply map2_shape|by apply lor_binary]. }
  split; rewrite ?Hmines, ?Hnum, ?Hrows, ?Hcols; try done; try apply Hwf.
  - eapply Forall_impl; [apply (wf_mines g Hwf)|done].
  - apply Forall_lookup_2. intros i b Hb. apply Hok.
    destruct (slot_boards i) as (m & o & f & a & Hm & Ho & Hf & Ha & Bm & Bo & Bf).
    { apply lookup_lt_Some in Hb. lia. }
    destruct a.
    + destruct (slot_requests i Ha) as (ro & rf & Hro & Hrf & Bro & Brf).
      destruct (move_slot_active i m o f ro rf) as (_ & Ho' & _); [done..|].
      rewrite Ho' in Hb. simplify_eq. case_match; auto.
    + destruct (move_slot_inactive i m o f) as (Ho' & _); [done..|].
      rewrite Ho' in Hb. by simplify_eq.
  - apply Forall_lookup_2. intros i b Hb. apply Hok.
    destruct (slot_boards i) as (m & o & f & a & Hm & Ho & Hf & Ha & Bm & Bo & Bf).
    { apply lookup_lt_Some in Hb. lia. }
    destruct a.
    + destruct (slot_requests i Ha) as (ro & rf & Hro & Hrf & Bro & Brf).
      destruct (move_slot_active i m o f ro rf) as (_ & _ & Hf' & _); [done..|].
      rewrite Hf' in Hb. simplify_eq. case_match; auto.
    + destruct (move_slot_inactive i m o f) as (_ & Hf' & _); [done..|].
      rewrite Hf' in Hb. by simplify_eq.
Qed.

End MoveSlots.

Lemma wfb_wf g : wfb g = true → wf g.
Proof.
  unfold wfb. rewrite !andb_true_iff, !bool_decide_eq_true.
  intros ((((((((((H1 & H2) & H3) & H4) & H5) & H6) & H7) & H8) & H9) & H10) & H11).
  assert (∀ l, forallb (board_okb g) l = true → Forall (board_ok g) l) as Hb.
  { intros l Hl. apply Forall_forall. intros b Hin.
    rewrite forallb_forall in Hl. apply list_elem_of_In, Hl in Hin.
    unfold board_okb in Hin. apply andb_true_iff in Hin as [Hs Hbin].
    split; [by apply has_shapeb_true|].
    unfold binaryb in Hbin. unfold binary.
    apply Forall_forall. intros row Hrow. apply Forall_forall. intros x Hx.
    rewrite forallb_forall in Hbin. apply list_elem_of_In, Hbin in Hrow.
    rewrite forallb_forall in Hrow. apply list_elem_of_In, Hrow in Hx.
    apply orb_true_iff in Hx as [Hx|Hx]; apply bool_decide_eq_true in Hx; auto. }
  split; auto.
  apply Forall_forall. intros b Hin. rewrite forallb_forall in H4.
  apply has_shapeb_true, H4. by apply list_elem_of_In.
Qed.

Lemma requestb_request g req : requestb g req = true → request g req.
Proof.
  unfold requestb. rewrite andb_true_iff, bool_decide_eq_true. intros [Hl Hb].
  split; [done|]. apply Forall_forall. intros b Hin.
  rewrite forallb_forall in Hb. apply list_elem_of_In, Hb in Hin.
  unfold board_okb in Hin. apply andb_true_iff in Hin as [Hs Hbin].
  split; [by apply has_shapeb_true|].
  unfold binaryb in Hbin. unfold binary.
  apply Forall_forall. intros row Hrow. apply Forall_forall. intros x Hx.
  rewrite forallb_forall in Hbin. apply list_elem_of_In, Hbin in Hrow.
  rewrite forallb_forall in Hrow. apply list_elem_of_In, Hrow in Hx.
  apply orb_true_iff in Hx as [Hx|Hx]; apply bool_decide_eq_true in Hx; auto.
Qed.

(** C1: for every slot active when [move] is called, the slot is judged
    correct exactly when its reveal request holds no mine and its mark
    request holds only mines; a slot judged incorrect becomes inactive and
    keeps its revealed and marked boards; a slot judged correct has the
    reveal request united into the revealed board and the mark request into
    the marked board. *)
Theorem move_judges_and_merges g to_open to_flag :
  wf g → request g to_open → request g to_flag →
  ∃ g' correct, move (Some to_open) (Some to_flag) g = Some (g', correct) ∧
  ∀ i m o f ro rf,
    active_games g !! i = Some true →
    mines g !! i = Some m → open_cells g !! i = Some o → flags g !! i = Some f →
    to_open !! rank (active_games g) i = Some ro →
    to_flag !! rank (active_games g) i = Some rf →
    ∃ ok, correct !! rank (active_games g) i = Some ok ∧
      (ok = true ↔ (∀ r c, ¬ (on ro r c ∧ on m r c)) ∧ (∀ r c, on rf r c → on m r c)) ∧
      (ok = false →
         active_games g' !! i = Some false ∧
         open_cells g' !! i = Some o ∧ flags g' !! i = Some f) ∧
      (ok = true →
         ∃ o' f', open_cells g' !! i = Some o' ∧ flags g' !! i = Some f' ∧
           ∀ r c, (on o' r c ↔ on o r c ∨ on ro r c) ∧
                  (on f' r c ↔ on f r c ∨ on rf r c)).
Proof.
  intros Hwf Hopen Hflag.
  destruct (move_Some g to_open to_flag Hopen Hflag) as (g' & correct & Hmove).
  exists g', correct. split; [done|].
  intros i m o f ro rf Hi Hm Ho Hf Hro Hrf.
  destruct (move_slot_active g g' to_open to_flag correct Hwf Hopen Hflag Hmove
              i m o f ro rf) as (Hok & Ho' & Hf' & _ & _ & _ & Hact); [done..|].
  destruct (slot_boards g Hwf i) as (m0 & o0 & f0 & a0 & ? & ? & ? & ? & [Sm Bm] & [So Bo] & [Sf Bf]).
  { by eapply lookup_lt_Some. }
  destruct (slot_requests g to_open to_flag Hopen Hflag i Hi)
    as (ro0 & rf0 & ? & ? & [Sro Bro] & [Srf Brf]).
  simplify_eq.
  exists (correct_open m ro && correct_flag m rf). split; [done|]. split_and!.
  - rewrite andb_true_iff.
    rewrite (correct_open_spec (rows g) (columns g)) by done.
    by rewrite (correct_flag_spec (rows g) (columns g)) by done.
  - intros E. rewrite E in *. done.
  - intros E. rewrite E in *. eexists _, _. split_and!; [done..|].
    intros r c. split; by eapply lor_on.
Qed.

Lemma move_judges_and_merges_witness :
  wf demo ∧ request demo demo_open ∧ request demo demo_flag ∧
  ∃ g' correct, move (Some demo_open) (Some demo_flag) demo = Some (g', correct) ∧
  ∀ i m o f ro rf,
    active_games demo !! i = Some true →
    mines demo !! i = Some m → open_cells demo !! i = Some o → flags demo !! i = Some f →
    demo_open !! rank (active_games demo) i = Some ro →
    demo_flag !! rank (active_games demo) i = Some rf →
    ∃ ok, correct !! rank (active_games demo) i = Some ok ∧
      (ok = true ↔ (∀ r c, ¬ (on ro r c ∧ on m r c)) ∧ (∀ r c, on rf r c → on m r c)) ∧
      (ok = false →
         active_games g' !! i = Some false ∧
         open_cells g' !! i = Some o ∧ flags g' !! i = Some f) ∧
      (ok = true →
         ∃ o' f', open_cells g' !! i = Some o' ∧ flags g' !! i = Some f' ∧
           ∀ r c, (on o' r c ↔ on o r c ∨ on ro r c) ∧
                  (on f' r c ↔ on f r c ∨ on rf r c)).
Proof.
  assert (wf demo) as Hwf by (apply wfb_wf; vm_compute; reflexivity).
  assert (request demo demo_open) as Ho by (apply requestb_request; vm_compute; reflexivity).
  assert (request demo demo_flag) as Hf by (apply requestb_request; vm_compute; reflexivity).
  split_and!; [done..|].
  exact (move_judges_and_merges demo demo_open demo_flag Hwf Ho Hf).
Defined.

(** *** Win detection *)

Lemma move_win_detected g to_open to_flag g' correct :
  wf g → request g to_open → request g to_flag →
  move (Some to_open) (Some to_flag) g = Some (g', correct) →
  win_detected g'.
Proof.
  intros Hwf Hopen Hflag Hmove i o' m Ho' Hm.
  pose proof (move_wf g g' to_open to_flag correct Hwf Hopen Hflag Hmove) as Hwf'.
  destruct (move_frame g g' to_open to_flag correct Hopen Hflag Hmove)
    as (_ & Hrows & Hcols & _ & _ & Hmines & _).
  destruct (slot_boards g' Hwf' i) as (m1 & o1 & f1 & a1 & ? & ? & _ & _ & [Sm Bm] & [So Bo] & _).
  { by eapply lookup_lt_Some. }
  simplify_eq. rewrite Hmines in Hm.
  destruct (slot_boards g Hwf i) as (m0 & o & f & a & ? & Ho & Hf & Ha & _).
  { by eapply lookup_lt_Some. }
  simplify_eq.
  assert (won g' !! i = Some (all (map2 add8 o' m)) ∧
          (all (map2 add8 o' m) = true → active_games g' !! i = Some false)) as [Hw Hact].
  { destruct a.
    - destruct (slot_requests g to_open to_flag Hopen Hflag i Ha)
        as (ro & rf & Hro & Hrf & _).
      destruct (move_slot_active g g' to_open to_flag correct Hwf Hopen Hflag Hmove
                  i m o f ro rf) as (_ & Ho1 & _ & _ & _ & Hw & Hact); [done..|].
      rewrite Ho1 in Ho'. injection Ho' as Ho'. rewrite Ho' in Hw, Hact.
      split; [done|]. intros E. rewrite Hact, E. by rewrite andb_false_r.
    - destruct (move_slot_inactive g g' to_open to_flag correct Hwf Hopen Hflag Hmove
                  i m o f) as (Ho1 & _ & _ & _ & Hw & Hact); [done..|].
      rewrite Ho1 in Ho'. injection Ho' as Ho'. rewrite Ho' in Hw. done. }
  exists (all (map2 add8 o' m)). split_and!; [done| |done].
  rewrite (won_spec (rows g') (columns g')) by done. done.
Qed.

(** *** What a move reveals *)

(** In every slot the revealed board after a move is the old one, or the
    old one united with a request that holds no mine. *)
Lemma move_reveals g to_open to_flag g' correct i m o o' :
  wf g → request g to_open → request g to_flag →
  move (Some to_open) (Some to_flag) g = Some (g', correct) →
  mines g !! i = Some m → open_cells g !! i = Some o → open_cells g' !! i = Some o' →
  o' = o ∨
  ∃ ro, active_games g !! i = Some true ∧
        to_open !! rank (active_games g) i = Some ro ∧
        correct !! rank (active_games g) i = Some true ∧
        correct_open m ro = true ∧ o' = map2 Z.lor o ro.
Proof.
  intros Hwf Hopen Hflag Hmove Hm Ho Ho'.
  destruct (slot_boards g Hwf i) as (m0 & o0 & f & a & ? & ? & Hf & Ha & _).
  { by eapply lookup_lt_Some. }
  simplify_eq. destruct a.
  - destruct (slot_requests g to_open to_flag Hopen Hflag i Ha)
      as (ro & rf & Hro & Hrf & _).
    destruct (move_slot_active g g' to_open to_flag correct Hwf Hopen Hflag Hmove
                i m o f ro rf) as (Hok & Ho1 & _); [done..|].
    rewrite Ho1 in Ho'. injection Ho' as <-.
    destruct (correct_open m ro) eqn:E1, (correct_flag m rf) eqn:E2; simpl in *; auto.
    right. exists ro. done.
  - destruct (move_slot_inactive g g' to_open to_flag correct Hwf Hopen Hflag Hmove
                i m o f) as (Ho1 & _); [done..|].
    rewrite Ho1 in Ho'. injection Ho' as <-. by left.
Qed.

(** No move reveals a mine. *)
Lemma move_safe g to_open to_flag g' correct i m o o' r c :
  wf g → request g to_open → request g to_flag →
  move (Some to_open) (Some to_flag) g = Some (g', correct) →
  mines g !! i = Some m → open_cells g !! i = Some o → open_cells g' !! i = Some o' →
  on o' r c → on o r c ∨ ¬ on m r c.
Proof.
  intros Hwf Hopen Hflag Hmove Hm Ho Ho' Hon.
  destruct (move_reveals g to_open to_flag g' correct i m o o') as [->|Hro]; [done..|by left|].
  destruct Hro as (ro & Ha & Hro & _ & Hok & ->).
  destruct (slot_boards g Hwf i) as (m0 & o0 & f0 & a0 & ? & ? & ? & ? & [Sm Bm] & [So Bo] & _).
  { by eapply lookup_lt_Some. }
  destruct (slot_requests g to_open to_flag Hopen Hflag i Ha)
    as (ro0 & rf0 & ? & ? & [Sro Bro] & _).
  simplify_eq.
  rewrite (lor_on (rows g) (columns g)) in Hon by done.
  destruct Hon as [?|Hr]; [by left|].
  right. intros Hmine.
  rewrite (correct_open_spec (rows g) (columns g)) in Hok by done.
  by apply (Hok r c).
Qed.

(** *** [open_zero] *)

Lemma cell_set_cell r c v b r' c' :
  cell (set_cell r c v b) r' c'
  = if decide (r = r' ∧ c = c') then cell b r c ≫= (λ _, Some v) else cell b r' c'.
Proof.
  unfold set_cell, cell. destruct (decide (r = r')) as [<-|Hr].
  - rewrite list_lookup_alter_eq. destruct (b !! r) as [row|]; simpl.
    + destruct (decide (c = c')) as [<-|Hc].
      * rewrite decide_True by done.
        destruct (row !! c) eqn:E; simpl.
        -- apply list_lookup_insert_eq. by eapply lookup_lt_Some.
        -- rewrite list_insert_ge; [done|]. by apply lookup_ge_None.
      * rewrite decide_False by (by intros [_ ?]). by apply list_lookup_insert_ne.
    + by case_decide.
  - rewrite list_lookup_alter_ne by done. by rewrite decide_False by (by intros [? _]).
Qed.

Lemma zeros_like_lookup (b : batch) i : zeros_like b !! i = map (map (λ _, 0)) <$> b !! i.
Proof. unfold zeros_like. apply list_lookup_fmap. Qed.

Lemma cell_zero_board (m : grid) r c : cell (map (map (λ _, 0)) m) r c = cell m r c ≫= (λ _, Some 0).
Proof.
  unfold cell. rewrite list_lookup_fmap. destruct (m !! r) as [row|]; simpl; [|done].
  rewrite list_lookup_fmap. by destruct (row !! c).
Qed.

Lemma zero_board_ok g m : has_shape (rows g) (columns g) m → board_ok g (map (map (λ _, 0)) m).
Proof.
  intros [Hh Hw]. split.
  - split; [by rewrite length_map|].
    apply Forall_lookup_2. intros r row Hr.
    apply list_lookup_fmap_Some in Hr as (row0 & -> & Hr).
    rewrite length_map. by eapply (Forall_lookup_1 _ _ _ _ Hw).
  - apply binary_cells. intros r c x. rewrite cell_zero_board.
    destruct (cell m r c); simpl; intros; simplify_eq; auto.
Qed.

Lemma set_cell_ok g r c b : board_ok g b → board_ok g (set_cell r c 1 b).
Proof.
  intros [[Hh Hw] Hb]. split.
  - split; [unfold set_cell; by rewrite length_alter|].
    apply Forall_lookup_2. intros r' row Hr. unfold set_cell in Hr.
    destruct (decide (r = r')) as [<-|Hne].
    + rewrite list_lookup_alter_eq in Hr.
      destruct (b !! r) as [row0|] eqn:E; simplify_eq/=.
      rewrite length_insert. by eapply (Forall_lookup_1 _ _ _ _ Hw).
    + rewrite list_lookup_alter_ne in Hr by done.
      by eapply (Forall_lookup_1 _ _ _ _ Hw).
  - apply binary_cells. intros r' c' x. rewrite cell_set_cell.
    case_decide.
    + destruct (cell b r c); simpl; intros; simplify_eq; auto.
    + by apply cell_binary.
Qed.

Lemma zeros_like_request g (t : batch) : request g t → request g (zeros_like t).
Proof.
  intros [Hl Hb]. split; [unfold zeros_like; by rewrite length_map|].
  apply Forall_lookup_2. intros i b Hi. rewrite zeros_like_lookup in Hi.
  destruct (t !! i) as [b0|] eqn:E; simplify_eq/=.
  apply zero_board_ok. by eapply (Forall_lookup_1 _ _ _ _ Hb).
Qed.

Lemma one_cell_request_ok g cells :
  wf g → Forall (board_ok g) (one_cell_request cells (mines g)).
Proof.
  intros Hwf. apply Forall_lookup_2. intros i b Hi. unfold one_cell_request in Hi.
  apply lookup_zip_with_Some in Hi as ([r c] & z & -> & _ & Hz).
  apply set_cell_ok. rewrite zeros_like_lookup in Hz.
  destruct (mines g !! i) as [m|] eqn:E; simplify_eq/=.
  apply zero_board_ok. by eapply (Forall_lookup_1 _ _ _ _ (wf_mines g Hwf)).
Qed.

Lemma count_zero_gather {A} mask (xs : list A) : count mask = 0%nat → gather mask xs = [].
Proof.
  revert xs. induction mask as [|b m IH]; intros [|x xs] H; try done.
  rewrite count_cons in H. destruct b; [lia|]. simpl. apply IH. lia.
Qed.

Lemma count_zero_scatter {A} mask (vals xs : list A) :
  count mask = 0%nat → scatter mask vals xs = xs.
Proof.
  revert xs. induction mask as [|b m IH]; intros [|x xs] H; try done.
  - by destruct b.
  - rewrite count_cons in H. destruct b; [lia|]. simpl. f_equal. apply IH. lia.
Qed.

Lemma request_nil g : count (active_games g) = 0%nat → request g [].
Proof. intros H. split; [by rewrite H|constructor]. Qed.

(** With no active slot the requests are not looked at: a request of one
    board does what the empty request does. *)
Lemma move_broadcast g t f :
  count (active_games g) = 0%nat → request_ok g t = true → request_ok g f = true →
  move (Some t) (Some f) g = move (Some []) (Some []) g.
Proof.
  intros H0 Ht Hf. unfold move. cbn [default from_option id].
  rewrite Ht, Hf, !(request_ok_true g []) by (by apply request_nil).
  cbn [andb negb].
  rewrite !(count_zero_scatter (active_games g)) by done.
  by rewrite !(count_zero_gather (active_games g)) by done.
Qed.

(** A request that [move] takes is one board per active slot, or a single
    board when no slot is active. *)
Lemma request_ok_inv g req :
  request_ok g req = true →
  length req = count (active_games g) ∨
  count (active_games g) = 0%nat ∧ length req = 1%nat.
Proof.
  unfold request_ok. intros [E _]%andb_true_iff.
  apply orb_true_iff in E as [E|E]; apply bool_decide_eq_true in E; auto.
Qed.

Lemma open_zero_inv draws g g' t :
  wf g → open_zero draws g = Some (g', t) →
  ∃ cells t0 correct,
    t = one_cell_request cells (mines g) ∧ length cells = length (mines g) ∧
    n g = length (mines g) ∧ n g ≠ 0%nat ∧
    request g t0 ∧ request g (zeros_like t0) ∧
    move (Some t0) (Some (zeros_like t0)) g = Some (g', correct) ∧
    (t0 = t ∨ count (active_games g) = 0%nat ∧ t0 = []).
Proof.
  intros Hwf H. unfold open_zero in H.
  destruct (bool_decide (length (mines g) = n g)) eqn:En; simpl in H; [|done].
  destruct (bool_decide (n g = 0%nat)) eqn:E0; simpl in H; [done|].
  apply bool_decide_eq_true in En. apply bool_decide_eq_false in E0.
  destruct (mapM _ _) as [cells|] eqn:Hcells; simpl in H; [|done].
  destruct (move _ None g) as [[g1 correct]|] eqn:Hmove; simpl in H; [|done].
  injection H as -> <-.
  change (move (Some (one_cell_request cells (mines g))) None g)
    with (move (Some (one_cell_request cells (mines g)))
               (Some (zeros_like (one_cell_request cells (mines g)))) g) in Hmove.
  assert (length cells = length (mines g)) as Hlc.
  { apply length_mapM in Hcells. rewrite length_imap, length_zip in Hcells.
    rewrite (wf_len_numbers g Hwf) in Hcells. lia. }
  assert (request_ok g (one_cell_request cells (mines g)) = true
          ∧ request_ok g (zeros_like (one_cell_request cells (mines g))) = true)
    as [Ho Hz].
  { unfold move in Hmove. cbn [default from_option id] in Hmove.
    destruct (request_ok g (one_cell_request cells (mines g))); [|done].
    by destruct (request_ok g (zeros_like (one_cell_request cells (mines g)))). }
  destruct (request_ok_inv _ _ Ho) as [Hl|[H0 _]].
  - assert (request g (one_cell_request cells (mines g))) as Hreq
      by (split; [done|by apply one_cell_request_ok]).
    exists cells, (one_cell_request cells (mines g)), correct.
    split_and!; [done..|by apply zeros_like_request|exact Hmove|by left].
  - rewrite (move_broadcast g _ _ H0 Ho Hz) in Hmove.
    exists cells, [], correct.
    split_and!; [done..|by apply request_nil|by apply request_nil|exact Hmove|by right].
Qed.

Lemma minimum_is_Some l : l ≠ [] → is_Some (minimum l).
Proof. destruct l; [done|]. intros _. by eexists. Qed.

Lemma argmax_is_Some l : l ≠ [] → is_Some (argmax l).
Proof. destruct l; [done|]. intros _. by eexists. Qed.

Lemma flatten_nonempty h w (b : grid) :
  has_shape h w b → (0 < h)%nat → (0 < w)%nat → flatten b ≠ [].
Proof.
  intros [Hh Hw] H0h H0w. destruct b as [|row b]; simpl in *; [lia|].
  apply Forall_cons in Hw as [Hrow _]. destruct row; simpl in *; [lia|done].
Qed.

Lemma select_cell_is_Some w draw h (num mine : grid) :
  has_shape h w num → has_shape h w mine → (0 < h)%nat → (0 < w)%nat →
  is_Some (select_cell w draw num mine).
Proof.
  intros Hn Hm H0h H0w. unfold select_cell.
  destruct (minimum_is_Some (flatten (map2 (λ x m, add8 x (wrap8 (10 * m))) num mine)))
    as [mins ->].
  { eapply flatten_nonempty; [by apply map2_shape|done..]. }
  simpl.
  match goal with |- context [argmax ?l] => destruct (argmax_is_Some l) as [k ->] end.
  - destruct Hn as [Hh Hw]. destruct num as [|row num]; simpl in *; [lia|].
    apply Forall_cons in Hw as [Hrow _]. destruct row; simpl in *; [lia|done].
  - by eexists.
Qed.

Lemma count_all_true mask : Forall (λ b, b = true) mask → count mask = length mask.
Proof.
  induction 1 as [|b m -> _ IH]; [done|]. rewrite count_cons. simpl. lia.
Qed.

(** [open_zero] returns when the batch has a slot, every slot is active and
    the board is not empty. *)
Lemma open_zero_Some draws g :
  wf g → n g = length (mines g) → mines g ≠ [] →
  Forall (λ b, b = true) (active_games g) →
  (0 < rows g)%nat → (0 < columns g)%nat →
  ∃ g' t, open_zero draws g = Some (g', t).
Proof.
  intros Hwf Hn Hne Hact Hr Hc. unfold open_zero.
  rewrite bool_decide_eq_true_2 by done.
  rewrite bool_decide_eq_false_2 by (rewrite Hn; by destruct (mines g)). simpl.
  match goal with |- context [mapM ?f ?l] => destruct (mapM_is_Some_2 f l) as [cells Hcells] end.
  { apply Forall_lookup_2. intros i [j [num mine]] Hi.
    apply list_lookup_imap_Some in Hi as ([num' mine'] & Hz & ?). simplify_eq.
    apply lookup_zip_with_Some in Hz as (? & ? & ? & Hnum & Hmine). simplify_eq.
    simpl. eapply (select_cell_is_Some (columns g) _ (rows g)); [|  |done..].
    - by eapply (Forall_lookup_1 _ _ _ _ (wf_numbers g Hwf)).
    - by eapply (Forall_lookup_1 _ _ _ _ (wf_mines g Hwf)). }
  rewrite Hcells. simpl.
  assert (request g (one_cell_request cells (mines g))) as Hreq.
  { split; [|by apply one_cell_request_ok].
    apply length_mapM in Hcells. rewrite length_imap, length_zip in Hcells.
    unfold one_cell_request, zeros_like. rewrite length_zip_with, length_map.
    rewrite count_all_true by done.
    rewrite (wf_len_active g Hwf). rewrite (wf_len_numbers g Hwf) in Hcells. lia. }
  destruct (move_Some g _ _ Hreq (zeros_like_request g _ Hreq)) as (g' & correct & Hmove).
  change (move (Some (one_cell_request cells (mines g))) None g)
    with (move (Some (one_cell_request cells (mines g)))
               (Some (zeros_like (one_cell_request cells (mines g)))) g).
  rewrite Hmove. simpl. eauto.
Qed.

(** [open_zero] reveals no mine, and leaves the win flags exact. *)
Lemma open_zero_safe draws g g' t i m o o' r c :
  wf g → open_zero draws g = Some (g', t) →
  mines g !! i = Some m → open_cells g !! i = Some o → open_cells g' !! i = Some o' →
  on o' r c → on o r c ∨ ¬ on m r c.
Proof.
  intros Hwf H Hm Ho Ho' Hon.
  destruct (open_zero_inv draws g g' t Hwf H)
    as (cells & t0 & correct & _ & _ & _ & _ & Hreq & Hz & Hmove & _).
  by eapply (move_safe g t0 (zeros_like t0) g' correct).
Qed.

Lemma open_zero_win_detected draws g g' t :
  wf g → open_zero draws g = Some (g', t) → win_detected g'.
Proof.
  intros Hwf H.
  destruct (open_zero_inv draws g g' t Hwf H)
    as (cells & t0 & correct & _ & _ & _ & _ & Hreq & Hz & Hmove & _).
  by eapply (move_win_detected g t0 (zeros_like t0) g' correct).
Qed.

(** C2: after every move, and after [open_zero], the win flag of every slot
    of the batch is true exactly when every cell of the slot is revealed or a
    mine, and every slot whose win flag is true is inactive. [open_zero]
    returns at the start of a game on a batch that has a slot. *)
Theorem won_exactly_when_covered g to_open to_flag draws :
  wf g → request g to_open → request g to_flag →
  (∃ g' correct, move (Some to_open) (Some to_flag) g = Some (g', correct) ∧
                 win_detected g') ∧
  (∀ g' t, open_zero draws g = Some (g', t) → win_detected g') ∧
  (n g = length (mines g) → mines g ≠ [] →
   Forall (λ b, b = true) (active_games g) →
   (0 < rows g)%nat → (0 < columns g)%nat →
   ∃ g' t, open_zero draws g = Some (g', t) ∧ win_detected g').
Proof.
  intros Hwf Hopen Hflag. split_and!.
  - destruct (move_Some g to_open to_flag Hopen Hflag) as (g' & correct & Hmove).
    exists g', correct. split; [done|].
    by eapply (move_win_detected g to_open to_flag g' correct).
  - intros g' t H. by eapply (open_zero_win_detected draws g g' t).
  - intros Hn Hne Hact Hr Hc.
    destruct (open_zero_Some draws g Hwf Hn Hne Hact Hr Hc) as (g' & t & H).
    exists g', t. split; [done|]. by eapply (open_zero_win_detected draws g g' t).
Qed.

Lemma won_exactly_when_covered_witness :
  wf demo ∧ request demo demo_open ∧ request demo demo_flag ∧
  n demo = length (mines demo) ∧ mines demo ≠ [] ∧
  Forall (λ b, b = true) (active_games demo) ∧
  (0 < rows demo)%nat ∧ (0 < columns demo)%nat ∧
  (∃ g' correct, move (Some demo_open) (Some demo_flag) demo = Some (g', correct) ∧
                 win_detected g') ∧
  (∀ g' t, open_zero (λ _ _ _, 1) demo = Some (g', t) → win_detected g') ∧
  (∃ g' t, open_zero (λ _ _ _, 1) demo = Some (g', t) ∧ win_detected g').
Proof.
  assert (wf demo) as Hwf by (apply wfb_wf; vm_compute; reflexivity).
  assert (request demo demo_open) as Ho by (apply requestb_request; vm_compute; reflexivity).
  assert (request demo demo_flag) as Hf by (apply requestb_request; vm_compute; reflexivity).
  assert (Forall (λ b, b = true) (active_games demo)) as Hact by (repeat constructor).
  split; [done|]. split; [done|]. split; [done|]. split; [reflexivity|]. split; [done|].
  split; [done|]. split; [cbn; lia|]. split; [cbn; lia|].
  destruct (won_exactly_when_covered demo demo_open demo_flag (λ _ _ _, 1) Hwf Ho Hf)
    as (Hm & Hz & Hret).
  split; [exact Hm|]. split; [exact Hz|].
  apply Hret; [reflexivity|done|done|cbn; lia|cbn; lia].
Defined.

(** *** Repeating a move *)

Lemma gather_sub_rank (mask sub : list bool) i :
  length mask = length sub →
  (∀ j, sub !! j = Some true → mask !! j = Some true) →
  sub !! i = Some true →
  gather mask sub !! rank mask i = Some true ∧
  rank (gather mask sub) (rank mask i) = rank sub i.
Proof.
  revert sub i. induction mask as [|b m IH]; intros [|s sub] i Hl Hsub Hi; simplify_eq/=.
  destruct i as [|i]; simplify_eq/=.
  - pose proof (Hsub 0%nat eq_refl) as Hb. simplify_eq/=. done.
  - assert (∀ j, sub !! j = Some true → m !! j = Some true) as Hsub'
      by (intros j Hj; apply (Hsub (S j) Hj)).
    destruct (IH sub i Hl Hsub' Hi) as [IH1 IH2].
    rewrite (rank_S b m), (rank_S s sub). destruct b; simpl.
    + split; [done|]. rewrite (rank_S s). by rewrite IH2.
    + destruct s; [by pose proof (Hsub 0%nat eq_refl)|]. done.
Qed.

Lemma count_gather_sub (mask sub : list bool) :
  length mask = length sub →
  (∀ j, sub !! j = Some true → mask !! j = Some true) →
  count (gather mask sub) = count sub.
Proof.
  revert sub. induction mask as [|b m IH]; intros [|s sub] Hl Hsub; simplify_eq/=; [done|].
  assert (∀ j, sub !! j = Some true → m !! j = Some true) as Hsub'
    by (intros j Hj; apply (Hsub (S j) Hj)).
  rewrite (count_cons s). destruct b; simpl.
  - rewrite count_cons. by rewrite IH.
  - destruct s; [by pose proof (Hsub 0%nat eq_refl)|]. by rewrite IH.
Qed.

Lemma rank_select mask j :
  (j < count mask)%nat → ∃ i, mask !! i = Some true ∧ rank mask i = j.
Proof.
  revert j. induction mask as [|b m IH]; intros j Hj.
  - rewrite count_nil in Hj. lia.
  - rewrite count_cons in Hj. destruct b.
    + destruct j as [|j]; [by exists 0%nat|].
      destruct (IH j) as (i & Hi & Hr); [simpl in Hj; lia|].
      exists (S i). split; [done|]. rewrite rank_S. simpl. by rewrite Hr.
    + destruct (IH j) as (i & Hi & Hr); [simpl in Hj; lia|].
      exists (S i). split; [done|]. rewrite rank_S. simpl. by rewrite Hr.
Qed.

Lemma gather_Forall {A} (P : A → Prop) mask xs :
  Forall P xs → Forall P (gather mask xs).
Proof.
  revert xs. induction mask as [|b m IH]; intros xs H; [by destruct xs|].
  destruct H as [|x xs Hx Hxs]; simpl; [done|].
  destruct b; [constructor|]; auto.
Qed.

Lemma lor_idem (a b : grid) : map2 Z.lor (map2 Z.lor a b) b = map2 Z.lor a b.
Proof.
  unfold map2. revert b. induction a as [|ra a IH]; intros [|rb b]; simpl; [done..|].
  f_equal; [|apply IH].
  clear. revert rb. induction ra as [|x ra IH]; intros [|y rb]; simpl; [done..|].
  f_equal; [|apply IH].
  rewrite <- Z.lor_assoc. by rewrite Z.lor_diag.
Qed.

Lemma board_ok_frame g g' b :
  rows g' = rows g → columns g' = columns g → board_ok g b → board_ok g' b.
Proof. unfold board_ok. by intros -> ->. Qed.

(** The slots active after a move were active before it. *)
Lemma move_active_sub g to_open to_flag g' correct j :
  wf g → request g to_open → request g to_flag →
  move (Some to_open) (Some to_flag) g = Some (g', correct) →
  active_games g' !! j = Some true → active_games g !! j = Some true.
Proof.
  intros Hwf Hopen Hflag Hmove Hj.
  destruct (move_lengths g g' to_open to_flag correct Hwf Hopen Hflag Hmove)
    as (_ & _ & L & _).
  destruct (slot_boards g Hwf j) as (m & o & f & a & Hm & Ho & Hf & Ha & _).
  { apply lookup_lt_Some in Hj. lia. }
  destruct a; [done|].
  destruct (move_slot_inactive g g' to_open to_flag correct Hwf Hopen Hflag Hmove
              j m o f) as (_ & _ & _ & _ & _ & Hact); [done..|]. congruence.
Qed.

(** C9: when [move] is called again with the requests a first call has
    applied, restricted to the slots that are still active, the revealed and
    marked boards stay as they are and every slot is judged correct. *)
Theorem move_again_unchanged g to_open to_flag g1 c1 :
  wf g → request g to_open → request g to_flag →
  move (Some to_open) (Some to_flag) g = Some (g1, c1) →
  let still := gather (active_games g) (active_games g1) in
  ∃ g2 c2,
    move (Some (gather still to_open)) (Some (gather still to_flag)) g1 = Some (g2, c2) ∧
    open_cells g2 = open_cells g1 ∧ flags g2 = flags g1 ∧
    Forall (λ b, b = true) c2.
Proof.
  intros Hwf Hopen Hflag Hmove still.
  pose proof (move_wf g g1 to_open to_flag c1 Hwf Hopen Hflag Hmove) as Hwf1.
  destruct (move_frame g g1 to_open to_flag c1 Hopen Hflag Hmove)
    as (_ & Hrows & Hcols & _ & _ & Hmines & _).
  destruct (move_lengths g g1 to_open to_flag c1 Hwf Hopen Hflag Hmove)
    as (_ & _ & Lact & _).
  pose proof (wf_len_active g Hwf) as Hla.
  assert (length (active_games g) = length (active_games g1)) as Hlen by lia.
  assert (∀ j, active_games g1 !! j = Some true → active_games g !! j = Some true) as Hsub.
  { intros j. by apply (move_active_sub g to_open to_flag g1 c1). }
  assert (length still = count (active_games g)) as Hlstill
    by (unfold still; by rewrite length_gather).
  assert (count still = count (active_games g1)) as Hcstill
    by (unfold still; by apply count_gather_sub).
  assert (∀ req, request g req → request g1 (gather still req)) as Hreq.
  { intros req [Hl Hb]. split.
    - rewrite length_gather by lia. done.
    - apply gather_Forall. eapply Forall_impl; [exact Hb|].
      intros b. by apply board_ok_frame. }
  pose proof (Hreq _ Hopen) as Hopen2. pose proof (Hreq _ Hflag) as Hflag2.
  destruct (move_Some g1 _ _ Hopen2 Hflag2) as (g2 & c2 & Hmove2).
  exists g2, c2. split; [done|].
  destruct (move_lengths g1 g2 _ _ c2 Hwf1 Hopen2 Hflag2 Hmove2) as (Lo2 & Lf2 & _).
  (* what the second call does in a slot that is still active *)
  assert (∀ i, active_games g1 !! i = Some true →
            c2 !! rank (active_games g1) i = Some true ∧
            open_cells g2 !! i = open_cells g1 !! i ∧
            flags g2 !! i = flags g1 !! i) as Hslot.
  { intros i Hi1. pose proof (Hsub i Hi1) as Hi.
    destruct (slot_boards g Hwf i) as (m & o & f & a & Hm & Ho & Hf & ? & _).
    { apply lookup_lt_Some in Hi. lia. }
    destruct (slot_requests g to_open to_flag Hopen Hflag i Hi)
      as (ro & rf & Hro & Hrf & _).
    destruct (move_slot_active g g1 to_open to_flag c1 Hwf Hopen Hflag Hmove
                i m o f ro rf) as (_ & Ho1 & Hf1 & _ & _ & _ & Hact1); [done..|].
    rewrite Hi1 in Hact1. injection Hact1 as Hact1. symmetry in Hact1.
    apply andb_true_iff in Hact1 as [Hok _]. rewrite Hok in Ho1, Hf1.
    destruct (gather_sub_rank (active_games g) (active_games g1) i Hlen Hsub Hi1)
      as [Hs Hr]. fold still in Hs, Hr.
    assert (∀ (req : batch) x, length req = count (active_games g) →
              req !! rank (active_games g) i = Some x →
              gather still req !! rank (active_games g1) i = Some x) as Hg.
    { intros req x Hl Hx. rewrite <- Hr. rewrite lookup_gather; [done|lia|done]. }
    destruct (move_slot_active g1 g2 _ _ c2 Hwf1 Hopen2 Hflag2 Hmove2
                i m (map2 Z.lor o ro) (map2 Z.lor f rf) ro rf)
      as (Hok2 & Ho2 & Hf2 & _); try done.
    - by rewrite Hmines.
    - apply Hg; [apply Hopen|done].
    - apply Hg; [apply Hflag|done].
    - rewrite Hok in Hok2, Ho2, Hf2. rewrite lor_idem in Ho2, Hf2.
      rewrite Ho1, Hf1. done. }
  split_and!.
  - apply list_eq. intros i.
    destruct (decide (i < length (mines g1))%nat) as [Hlt|Hge].
    + destruct (slot_boards g1 Hwf1 i Hlt) as (m & o & f & a & Hm & Ho & Hf & Ha & _).
      destruct a; [by apply Hslot|].
      destruct (move_slot_inactive g1 g2 _ _ c2 Hwf1 Hopen2 Hflag2 Hmove2 i m o f)
        as (Ho2 & _); [done..|]. congruence.
    + rewrite !lookup_ge_None_2; [done|..]; rewrite ?(wf_len_open g1 Hwf1); lia.
  - apply list_eq. intros i.
    destruct (decide (i < length (mines g1))%nat) as [Hlt|Hge].
    + destruct (slot_boards g1 Hwf1 i Hlt) as (m & o & f & a & Hm & Ho & Hf & Ha & _).
      destruct a; [by apply Hslot|].
      destruct (move_slot_inactive g1 g2 _ _ c2 Hwf1 Hopen2 Hflag2 Hmove2 i m o f)
        as (_ & Hf2 & _); [done..|]. congruence.
    + rewrite !lookup_ge_None_2; [done|..]; rewrite ?(wf_len_flags g1 Hwf1); lia.
  - apply Forall_lookup_2. intros j b Hj.
    pose proof (move_length_correct g1 g2 _ _ c2 Hwf1 Hopen2 Hflag2 Hmove2) as Hlc.
    destruct (rank_select (active_games g1) j) as (i & Hi & Hr).
    { apply lookup_lt_Some in Hj. lia. }
    destruct (Hslot i Hi) as (Hc2 & _). rewrite Hr in Hc2. congruence.
Qed.

Lemma move_again_unchanged_witness :
  wf demo ∧ request demo demo_open ∧ request demo demo_flag ∧
  ∃ g1 c1, move (Some demo_open) (Some demo_flag) demo = Some (g1, c1) ∧
    let still := gather (active_games demo) (active_games g1) in
    ∃ g2 c2,
      move (Some (gather still demo_open)) (Some (gather still demo_flag)) g1 = Some (g2, c2) ∧
      open_cells g2 = open_cells g1 ∧ flags g2 = flags g1 ∧
      Forall (λ b, b = true) c2.
Proof.
  assert (wf demo) as Hwf by (apply wfb_wf; vm_compute; reflexivity).
  assert (request demo demo_open) as Ho by (apply requestb_request; vm_compute; reflexivity).
  assert (request demo demo_flag) as Hf by (apply requestb_request; vm_compute; reflexivity).
  split_and!; [done..|].
  eexists _, _. split; [vm_compute; reflexivity|].
  eapply (move_again_unchanged demo demo_open demo_flag _ _ Hwf Ho Hf).
  vm_compute; reflexivity.
Defined.

End EngineFacts.

(** * Board generation and scores *)
Module GeneratorFacts.
Import Np Utils Engine NpFacts EngineFacts.

(** *** Padding and slicing *)

Lemma lookup_pad1 {A} (d : A) l (z : Z) :
  -1 ≤ z ≤ Z.of_nat (length l) →
  pad1 d l !! Z.to_nat (1 + z) = Some (getZ d l z).
Proof.
  intros Hz. unfold pad1, getZ. case_bool_decide as H0.
  - replace (Z.to_nat (1 + z)) with (S (Z.to_nat z)) by lia. simpl.
    destruct (l !! Z.to_nat z) as [x|] eqn:E.
    + by rewrite lookup_app_l, E by (by eapply lookup_lt_Some).
    + apply lookup_ge_None in E.
      rewrite lookup_app_r by done.
      replace (Z.to_nat z - length l)%nat with 0%nat by lia. done.
  - replace (Z.to_nat (1 + z)) with 0%nat by lia. done.
Qed.

Lemma lookup_sub {A} (a len : nat) (l : list A) k :
  (k < len)%nat → sub a len l !! k = l !! (a + k)%nat.
Proof. intros Hk. unfold sub. by rewrite lookup_take_lt, lookup_drop. Qed.

Lemma length_sub {A} (a len : nat) (l : list A) :
  (a + len ≤ length l)%nat → length (sub a len l) = len.
Proof. intros H. unfold sub. rewrite length_take, length_drop. lia. Qed.

Lemma offset_index (k : nat) (i : Z) :
  -1 ≤ i → (Z.to_nat (1 + i) + k)%nat = Z.to_nat (1 + (Z.of_nat k + i)).
Proof. lia. Qed.

Lemma getZ_lookup {A} (d : A) l (k : nat) x : l !! k = Some x → getZ d l (Z.of_nat k) = x.
Proof.
  intros H. unfold getZ. rewrite bool_decide_eq_true_2 by lia.
  by rewrite Nat2Z.id, H.
Qed.

Lemma getZ_outside {A} (d : A) l z : ¬ (0 ≤ z < Z.of_nat (length l)) → getZ d l z = d.
Proof.
  intros H. unfold getZ. case_bool_decide; [|done].
  rewrite lookup_ge_None_2; [done|lia].
Qed.

Lemma cellZ_cell m (r c : nat) x : cell m r c = Some x → cellZ m (Z.of_nat r) (Z.of_nat c) = x.
Proof.
  unfold cell, cellZ. intros H.
  destruct (m !! r) as [row|] eqn:E; simplify_eq/=.
  rewrite (getZ_lookup _ _ _ _ E). by apply getZ_lookup.
Qed.

Lemma getZ_Forall {A} (P : A → Prop) d l z : P d → Forall P l → P (getZ d l z).
Proof.
  intros Hd Hl. unfold getZ. case_bool_decide; [|done].
  destruct (l !! Z.to_nat z) as [x|] eqn:E; simpl; [|done].
  by eapply (Forall_lookup_1 _ _ _ _ Hl).
Qed.

Lemma cellZ_binary m r c : binary m → cellZ m r c = 0 ∨ cellZ m r c = 1.
Proof.
  intros Hb. unfold cellZ.
  apply (getZ_Forall (λ x, x = 0 ∨ x = 1)); [by left|].
  by apply (getZ_Forall (Forall (λ x, x = 0 ∨ x = 1))).
Qed.

(** A cell of a shifted copy of the padded board is the cell of the board
    at the shifted position, 0 outside the board. *)
Lemma cell_shifted h w m (r c : nat) (i j : Z) :
  has_shape h w m → (r < h)%nat → (c < w)%nat → -1 ≤ i ≤ 1 → -1 ≤ j ≤ 1 →
  cell (shifted h w (pad w 0 m) i j) r c
  = Some (cellZ m (Z.of_nat r + i) (Z.of_nat c + j)).
Proof.
  intros [Hh Hw] Hr Hc Hi Hj. unfold cell, shifted, slice, pad.
  rewrite list_lookup_fmap, lookup_sub by done.
  rewrite offset_index by lia.
  rewrite lookup_pad1 by (rewrite length_map; lia). simpl.
  rewrite lookup_sub by done. rewrite offset_index by lia.
  unfold cellZ.
  destruct (decide (0 ≤ Z.of_nat r + i < Z.of_nat (length m))) as [Hin|Hout].
  - destruct (lookup_lt_is_Some_2 m (Z.to_nat (Z.of_nat r + i))) as [row Hrow]; [lia|].
    assert (length row = w) as Hlen by (by eapply (Forall_lookup_1 _ _ _ _ Hw)).
    replace (Z.of_nat r + i) with (Z.of_nat (Z.to_nat (Z.of_nat r + i))) at 1 2 by lia.
    rewrite (getZ_lookup _ (map (pad1 0) m) _ (pad1 0 row))
      by (by rewrite list_lookup_fmap, Hrow).
    rewrite (getZ_lookup _ m _ row) by done.
    apply lookup_pad1. lia.
  - rewrite (getZ_outside _ (map (pad1 0) m)) by (by rewrite length_map).
    rewrite (getZ_outside _ m) by done.
    rewrite lookup_replicate_2 by lia.
    f_equal. unfold getZ. case_bool_decide; [|done]. by rewrite lookup_nil.
Qed.

Lemma shifted_shape h w m (i j : Z) :
  has_shape h w m → -1 ≤ i ≤ 1 → -1 ≤ j ≤ 1 →
  has_shape h w (shifted h w (pad w 0 m) i j).
Proof.
  intros [Hh Hw] Hi Hj. unfold shifted, slice, pad. split.
  - rewrite length_map, length_sub; [done|]. unfold pad1. simpl.
    rewrite length_app, length_map. simpl. lia.
  - apply Forall_lookup_2. intros r row Hrow.
    apply list_lookup_fmap_Some in Hrow as (prow & -> & Hprow).
    apply length_sub.
    unfold sub in Hprow. apply lookup_take_Some in Hprow as [Hprow _].
    rewrite lookup_drop in Hprow.
    assert (Forall (λ x : list Z, length x = (w + 2)%nat)
                   (pad1 (replicate (w + 2) 0) (map (pad1 0) m))) as Hall.
    { unfold pad1. constructor; [by rewrite length_replicate|].
      apply Forall_app. split.
      - apply Forall_fmap. eapply Forall_impl; [exact Hw|].
        intros x Hx. unfold compose, pad1. cbn in *. rewrite length_app. cbn. lia.
      - constructor; [by rewrite length_replicate|constructor]. }
    rewrite (Forall_lookup_1 _ _ _ _ Hall Hprow). lia.
Qed.

(** *** The neighbour counts *)

Lemma add8_small a b : -128 ≤ a + b < 128 → add8 a b = a + b.
Proof. apply wrap8_small. Qed.

Lemma cell_number_cells h w m (r c : nat) :
  has_shape h w m → binary m → (r < h)%nat → (c < w)%nat →
  cell (number_cells h w m) r c
  = Some (if cellZ m (Z.of_nat r) (Z.of_nat c) =? 0 then neighbour_mines m r c else -1).
Proof.
  intros Hs Hb Hr Hc.
  destruct (proj2 (cell_shape h w m r c Hs)) as [x Hx]; [done|].
  pose proof (cellZ_cell m r c x Hx) as Hxz.
  unfold number_cells, shift_sum, offsets. cbn [foldl].
  rewrite !cell_map2, Hx. cbn [mbind option_bind].
  rewrite !cell_shifted by (done || lia).
  rewrite cell_zero_board, Hx. cbn [mbind option_bind].
  f_equal. rewrite Hxz.
  unfold neighbour_mines, neighbours. cbn [foldr].
  pose proof (cellZ_binary m (Z.of_nat r + -1) (Z.of_nat c + -1) Hb).
  pose proof (cellZ_binary m (Z.of_nat r + -1) (Z.of_nat c + 0) Hb).
  pose proof (cellZ_binary m (Z.of_nat r + -1) (Z.of_nat c + 1) Hb).
  pose proof (cellZ_binary m (Z.of_nat r + 0) (Z.of_nat c + -1) Hb).
  pose proof (cellZ_binary m (Z.of_nat r + 0) (Z.of_nat c + 1) Hb).
  pose proof (cellZ_binary m (Z.of_nat r + 1) (Z.of_nat c + -1) Hb).
  pose proof (cellZ_binary m (Z.of_nat r + 1) (Z.of_nat c + 0) Hb).
  pose proof (cellZ_binary m (Z.of_nat r + 1) (Z.of_nat c + 1) Hb).
  destruct (x =? 0) eqn:E; [|done]. apply Z.eqb_eq in E. subst x.
  replace (cellZ m (Z.of_nat r + 0) (Z.of_nat c + 0)) with 0
    by (by rewrite !Z.add_0_r).
  repeat match goal with H : _ = 0 ∨ _ = 1 |- _ => destruct H as [->| ->] end;
    reflexivity.
Qed.

Lemma number_cells_shape h w m :
  has_shape h w m → has_shape h w (number_cells h w m).
Proof.
  intros Hs. unfold number_cells, shift_sum, offsets. cbn [foldl].
  assert (has_shape h w (map (map (λ _, 0)) m)) as Hz.
  { destruct Hs as [Hh Hw]. split; [by rewrite length_map|].
    apply Forall_fmap. eapply Forall_impl; [exact Hw|].
    intros x Hx. cbn in *. by rewrite length_map. }
  repeat apply map2_shape; try done; apply shifted_shape; (done || lia).
Qed.

(** *** [random_binary_matrices] *)

Lemma reshape_shape h w l : length l = (h * w)%nat → has_shape h w (reshape h w l).
Proof.
  revert l. induction h as [|h IH]; intros l Hl; [by split|].
  rewrite Nat.mul_succ_l in Hl.
  destruct (IH (drop w l)) as [IH1 IH2]; [rewrite length_drop; lia|].
  split; simpl; [by rewrite IH1|].
  constructor; [|done]. cbn. rewrite length_take. apply Nat.min_l. rewrite Hl. lia.
Qed.

Lemma flatten_reshape h w l : length l = (h * w)%nat → flatten (reshape h w l) = l.
Proof.
  revert l. induction h as [|h IH]; intros l Hl.
  - by destruct l.
  - rewrite Nat.mul_succ_l in Hl.
    unfold flatten in *. simpl. rewrite IH by (rewrite length_drop; lia).
    apply take_drop.
Qed.

Lemma reshape_Forall (P : Z → Prop) h w l : Forall P l → Forall (Forall P) (reshape h w l).
Proof.
  revert l. induction h as [|h IH]; intros l Hl; simpl; [done|].
  constructor; [by apply Forall_take|]. apply IH. by apply Forall_drop.
Qed.

Lemma slice_stop_le len k : (slice_stop len k ≤ len)%nat.
Proof. unfold slice_stop. destruct (Z.ltb_spec k 0); lia. Qed.

Lemma length_prefix_ones len k : length (prefix_ones len k) = len.
Proof.
  unfold prefix_ones. rewrite length_app, !length_replicate.
  pose proof (slice_stop_le len k). lia.
Qed.

Lemma prefix_ones_binary len k : Forall (λ x, x = 0 ∨ x = 1) (prefix_ones len k).
Proof.
  unfold prefix_ones. apply Forall_app. split; apply Forall_replicate; auto.
Qed.

Lemma filter_replicate_same a : filter (λ x, x = 1) (replicate a 1) = replicate a 1.
Proof. induction a as [|a IH]; [done|]. simpl. rewrite filter_cons_True by done. by rewrite IH. Qed.

Lemma filter_replicate_other a : filter (λ x, x = 1) (replicate a 0) = [].
Proof. induction a as [|a IH]; [done|]. simpl. by rewrite filter_cons_False by done. Qed.

Lemma ones_of_prefix_ones len k :
  length (filter (λ x, x = 1) (prefix_ones len k)) = slice_stop len k.
Proof.
  unfold prefix_ones. rewrite filter_app, filter_replicate_same, filter_replicate_other.
  by rewrite app_nil_r, length_replicate.
Qed.

Lemma fill_rows_ok n len ones fm :
  fill_rows n len ones = Some fm →
  length fm = n ∧ Forall (λ row, length row = len ∧ Forall (λ x, x = 0 ∨ x = 1) row) fm.
Proof.
  unfold fill_rows. destruct ones as [k|ks].
  - intros [= <-]. split; [by rewrite length_replicate|].
    apply Forall_replicate. split; [apply length_prefix_ones|apply prefix_ones_binary].
  - case_decide; [|done]. intros [= <-]. split.
    + rewrite length_app, length_map, length_replicate. lia.
    + apply Forall_app. split.
      * apply Forall_fmap, Forall_true. intros k. cbn.
        split; [apply length_prefix_ones|apply prefix_ones_binary].
      * apply Forall_replicate. split; [by rewrite length_replicate|].
        apply Forall_replicate. by left.
Qed.

Lemma fill_rows_lookup n len ones fm i k :
  fill_rows n len ones = Some fm →
  match ones with Scalar k0 => replicate n k0 | PerSlot ks => ks end !! i = Some k →
  fm !! i = Some (prefix_ones len k).
Proof.
  unfold fill_rows. destruct ones as [k0|ks].
  - intros [= <-] Hk. apply lookup_replicate in Hk as [-> Hi].
    by apply lookup_replicate_2.
  - case_decide; [|done]. intros [= <-] Hk.
    rewrite lookup_app_l by (rewrite length_map; by eapply lookup_lt_Some).
    by rewrite list_lookup_fmap, Hk.
Qed.

(** The fields of a freshly constructed game. *)
Lemma init_inv permuted rws cols mn nn g :
  init permuted rws cols mn nn = Some g →
  ∃ ms, random_binary_matrices permuted nn rws cols mn = Some ms ∧
    g = {| n := nn; rows := rws; columns := cols; size := rws * cols;
           mines_n := match mn with Scalar k => replicate nn k | PerSlot ks => ks end;
           mines := ms; numbers := _compute_number_cells rws cols ms;
           open_cells := zeros_like ms; flags := zeros_like ms;
           active_games := replicate nn true; won := replicate nn false;
           last_opened := zeros_like ms; last_flagged := zeros_like ms |}.
Proof.
  unfold init. destruct (random_binary_matrices _ _ _ _ _) as [ms|]; simpl; [|done].
  intros [= <-]. by exists ms.
Qed.

(** Every generated board is the reshaped shuffle of a row of the filled
    matrix. *)
Lemma generated_rows permuted nn h w mn ms :
  shuffles permuted →
  random_binary_matrices permuted nn h w mn = Some ms →
  length ms = nn ∧
  ∀ i m, ms !! i = Some m →
    ∃ fm row0 row, fill_rows nn (h * w) mn = Some fm ∧ fm !! i = Some row0 ∧
                   row ≡ₚ row0 ∧ m = reshape h w row.
Proof.
  intros Hsh. unfold random_binary_matrices. case_decide as Hn.
  - intros [= <-]. split; [done|]. intros i m Hi. by rewrite lookup_nil in Hi.
  - destruct (fill_rows nn (h * w) mn) as [fm|] eqn:Hfm; simpl; [|done].
    intros [= <-]. pose proof (Hsh fm) as Hp.
    destruct (fill_rows_ok _ _ _ _ Hfm) as [Hlen _]. split.
    + rewrite length_map. apply Forall2_length in Hp. lia.
    + intros i m Hi. apply list_lookup_fmap_Some in Hi as (row & -> & Hrow).
      destruct (Forall2_lookup_l _ _ _ _ _ Hp Hrow) as (row0 & Hrow0 & Hperm).
      by exists fm, row0, row.
Qed.

Lemma generated_board_ok permuted nn h w mn ms i m :
  shuffles permuted →
  random_binary_matrices permuted nn h w mn = Some ms →
  ms !! i = Some m → has_shape h w m ∧ binary m.
Proof.
  intros Hsh Hms Hi.
  destruct (generated_rows _ _ _ _ _ _ Hsh Hms) as [_ Hrows].
  destruct (Hrows i m Hi) as (fm & row0 & row & Hfm & Hrow0 & Hperm & ->).
  destruct (fill_rows_ok _ _ _ _ Hfm) as [_ Hok].
  destruct (Forall_lookup_1 _ _ _ _ Hok Hrow0) as [Hl Hb]. split.
  - apply reshape_shape. by rewrite Hperm.
  - apply reshape_Forall. by rewrite Hperm.
Qed.

Lemma init_wf permuted rws cols mn nn g :
  shuffles permuted → init permuted rws cols mn nn = Some g → wf g.
Proof.
  intros Hsh Hinit. destruct (init_inv _ _ _ _ _ _ Hinit) as (ms & Hms & ->).
  destruct (generated_rows _ _ _ _ _ _ Hsh Hms) as [Hlen _].
  assert (Forall (λ m, has_shape rws cols m ∧ binary m) ms) as Hok.
  { apply Forall_lookup_2. intros i m Hi. by eapply generated_board_ok. }
  assert (Forall (λ m, has_shape rws cols m ∧ binary m) (zeros_like ms)) as Hz.
  { apply Forall_lookup_2. intros i b Hi. rewrite zeros_like_lookup in Hi.
    destruct (ms !! i) as [m|] eqn:E; simplify_eq/=.
    destruct (Forall_lookup_1 _ _ _ _ Hok E) as [Hs _].
    apply (zero_board_ok {| n := 0; rows := rws; columns := cols; size := 0; mines_n := [];
                            mines := []; numbers := []; open_cells := []; flags := [];
                            active_games := []; won := []; last_opened := [];
                            last_flagged := [] |}). done. }
  split; simpl; try done;
    unfold zeros_like, _compute_number_cells;
    rewrite ?length_map, ?length_replicate; try done.
  apply Forall_fmap. eapply Forall_impl; [exact Hok|].
  intros m [Hs _]. cbn. by apply number_cells_shape.
Qed.

Lemma generated_slot permuted rws cols mn nn g i m k :
  shuffles permuted → init permuted rws cols mn nn = Some g →
  mines g !! i = Some m → mines_n g !! i = Some k →
  ∃ row, row ≡ₚ prefix_ones (rws * cols) k ∧ m = reshape rws cols row.
Proof.
  intros Hsh Hinit Hm Hk. destruct (init_inv _ _ _ _ _ _ Hinit) as (ms & Hms & ->).
  simpl in *.
  destruct (generated_rows _ _ _ _ _ _ Hsh Hms) as [_ Hrows].
  destruct (Hrows i m Hm) as (fm & row0 & row & Hfm & Hrow0 & Hperm & ->).
  rewrite (fill_rows_lookup _ _ _ _ _ _ Hfm Hk) in Hrow0. simplify_eq.
  by exists row.
Qed.

(** The number of mines of a generated slot is where the slice [:k] ends. *)
Lemma generated_count permuted rws cols mn nn g i m k :
  shuffles permuted → init permuted rws cols mn nn = Some g →
  mines g !! i = Some m → mines_n g !! i = Some k →
  count_ones m = slice_stop (rws * cols) k.
Proof.
  intros Hsh Hinit Hm Hk.
  destruct (generated_slot _ _ _ _ _ _ _ _ _ Hsh Hinit Hm Hk) as (row & Hperm & ->).
  unfold count_ones. rewrite flatten_reshape by (by rewrite Hperm, length_prefix_ones).
  rewrite Hperm. apply ones_of_prefix_ones.
Qed.

Lemma shuffles_id : shuffles id.
Proof. intros m. simpl. apply Forall2_lookup. intros i. destruct (m !! i); by constructor. Qed.

(** C5: in every generated batch each slot holds exactly its requested
    number of mines (a count within the board size), the neighbour count is
    -1 at every mine, and at every other cell it is the number of mines among
    the eight neighbours, cells outside the board counting for 0. *)
Theorem generated_boards permuted rws cols mn nn g :
  shuffles permuted → init permuted rws cols mn nn = Some g →
  ∀ i m num, mines g !! i = Some m → numbers g !! i = Some num →
    (∀ k, mines_n g !! i = Some k → 0 ≤ k ≤ Z.of_nat (rws * cols) →
          Z.of_nat (count_ones m) = k) ∧
    ∀ r c, (r < rws)%nat → (c < cols)%nat →
      (on m r c → cell num r c = Some (-1)) ∧
      (¬ on m r c → cell num r c = Some (neighbour_mines m r c)).
Proof.
  intros Hsh Hinit i m num Hm Hnum. split.
  - intros k Hk Hrange.
    rewrite (generated_count _ _ _ _ _ _ _ _ _ Hsh Hinit Hm Hk).
    unfold slice_stop. destruct (Z.ltb_spec k 0); lia.
  - destruct (init_inv _ _ _ _ _ _ Hinit) as (ms & Hms & ->). simpl in *.
    destruct (generated_board_ok _ _ _ _ _ _ _ _ Hsh Hms Hm) as [Hs Hb].
    unfold _compute_number_cells in Hnum. rewrite list_lookup_fmap, Hm in Hnum.
    injection Hnum as <-. intros r c Hr Hc.
    rewrite (cell_number_cells rws cols) by done.
    destruct (proj2 (cell_shape rws cols m r c Hs)) as [x Hx]; [done|].
    rewrite (cellZ_cell m r c x Hx). unfold on. rewrite Hx. split.
    + by intros [= ->].
    + intros Hne. destruct (cell_binary m r c x Hb Hx) as [->| ->]; [done|].
      by destruct Hne.
Qed.

Lemma generated_boards_witness :
  shuffles id ∧
  init id 2 2 (PerSlot [1; 2]) 2 = Some demo_generated ∧
  ∀ i m num,
    mines demo_generated !! i = Some m → numbers demo_generated !! i = Some num →
    (∀ k, mines_n demo_generated !! i = Some k → 0 ≤ k ≤ Z.of_nat (2 * 2) →
          Z.of_nat (count_ones m) = k) ∧
    ∀ r c, (r < 2)%nat → (c < 2)%nat →
      (on m r c → cell num r c = Some (-1)) ∧
      (¬ on m r c → cell num r c = Some (neighbour_mines m r c)).
Proof.
  assert (init id 2 2 (PerSlot [1; 2]) 2 = Some demo_generated) as Hinit
    by (vm_compute; reflexivity).
  split; [apply shuffles_id|]. split; [exact Hinit|].
  exact (generated_boards id 2 2 (PerSlot [1; 2]) 2 demo_generated shuffles_id Hinit).
Defined.

(** *** Counts outside the board size *)

Lemma init_Some permuted rws cols mn nn :
  (∀ ks, mn = PerSlot ks → (length ks ≤ nn)%nat) →
  ∃ g, init permuted rws cols mn nn = Some g.
Proof.
  intros Hks. unfold init, random_binary_matrices, fill_rows.
  case_decide; [by eexists|].
  destruct mn as [k|ks]; simpl; [by eexists|].
  rewrite decide_True by (by apply Hks). by eexists.
Qed.

(** C7, on the code: a mine count above the board size or below zero is
    accepted. [Game(1, 1, 5)] is a board with one mine and [Game(2, 2, -1)]
    a board with three, and [mines_n] keeps the count that was asked for. *)
Lemma out_of_range_count_accepted :
  (∃ g, init id 1 1 (Scalar 5) 1 = Some g ∧ mines g = [[[1]]] ∧ mines_n g = [5]) ∧
  (∃ g, init id 2 2 (Scalar (-1)) 1 = Some g ∧ mines g = [[[1; 1]; [1; 0]]] ∧
        mines_n g = [-1]).
Proof. split; eexists; (split; [vm_compute; reflexivity|]); by split. Qed.

(** C7 as the code has it: construction does not fail on the mine count.
    The count is used as the end of a slice, so a slot gets
    [min(k, rows*columns)] mines for [k ≥ 0] and [max(rows*columns + k, 0)]
    mines for [k < 0]. *)
Theorem init_clamps_count permuted rws cols mn nn :
  shuffles permuted →
  (∀ ks, mn = PerSlot ks → (length ks ≤ nn)%nat) →
  ∃ g, init permuted rws cols mn nn = Some g ∧
    ∀ i m k, mines g !! i = Some m → mines_n g !! i = Some k →
      (0 ≤ k → Z.of_nat (count_ones m) = Z.min k (Z.of_nat (rws * cols))) ∧
      (k < 0 → Z.of_nat (count_ones m) = Z.max (Z.of_nat (rws * cols) + k) 0).
Proof.
  intros Hsh Hks. destruct (init_Some permuted rws cols mn nn Hks) as [g Hinit].
  exists g. split; [done|]. intros i m k Hm Hk.
  rewrite (generated_count _ _ _ _ _ _ _ _ _ Hsh Hinit Hm Hk).
  unfold slice_stop. destruct (Z.ltb_spec k 0); split; lia.
Qed.

Lemma init_clamps_count_witness :
  shuffles id ∧ (∀ ks, Scalar 5 = PerSlot ks → (length ks ≤ 1)%nat) ∧
  ∃ g, init id 1 1 (Scalar 5) 1 = Some g ∧
    ∀ i m k, mines g !! i = Some m → mines_n g !! i = Some k →
      (0 ≤ k → Z.of_nat (count_ones m) = Z.min k (Z.of_nat (1 * 1))) ∧
      (k < 0 → Z.of_nat (count_ones m) = Z.max (Z.of_nat (1 * 1) + k) 0).
Proof.
  assert (∀ ks, Scalar 5 = PerSlot ks → (length ks ≤ 1)%nat) as Hks by (intros ks [=]).
  split; [apply shuffles_id|]. split; [exact Hks|].
  exact (init_clamps_count id 1 1 (Scalar 5) 1 shuffles_id Hks).
Defined.

(** *** The all-mine slot *)

Lemma default_request g :
  wf g → request g (zeros_like (gather (active_games g) (mines g))).
Proof.
  intros Hwf. split.
  - unfold zeros_like. rewrite length_map.
    apply length_gather, (wf_len_active g Hwf).
  - apply Forall_lookup_2. intros i b Hi. rewrite zeros_like_lookup in Hi.
    destruct (gather (active_games g) (mines g) !! i) as [m|] eqn:E; simplify_eq/=.
    apply zero_board_ok.
    pose proof (gather_Forall (board_ok g) (active_games g) (mines g) (wf_mines g Hwf)) as HF.
    by destruct (Forall_lookup_1 _ _ _ _ HF E).
Qed.

Lemma move_default g :
  move None None g
  = move (Some (zeros_like (gather (active_games g) (mines g))))
         (Some (zeros_like (zeros_like (gather (active_games g) (mines g))))) g.
Proof. done. Qed.

Lemma all_ones_covered g o m :
  has_shape (rows g) (columns g) m → Forall (Forall (λ x, x = 1)) m → covered g o m.
Proof.
  intros Hs Hall r c Hr Hc. right. unfold on.
  destruct (proj2 (cell_shape _ _ m r c Hs)) as [x Hx]; [done|].
  rewrite Hx. f_equal. unfold cell in Hx.
  destruct (m !! r) as [row|] eqn:E; simplify_eq/=.
  pose proof (Forall_lookup_1 _ _ _ _ Hall E) as Hrow.
  by apply (Forall_lookup_1 _ _ _ _ Hrow Hx).
Qed.

(** C10: a slot generated with as many mines as the board has cells starts
    with [won] false and [active] true although every cell is a mine; after
    the first call to [move], whatever the requests (the default empty ones
    included), its [won] is true and its [active] is false. *)
Theorem all_mine_slot permuted rws cols mn nn g i m :
  shuffles permuted → init permuted rws cols mn nn = Some g →
  mines g !! i = Some m → mines_n g !! i = Some (Z.of_nat (rws * cols)) →
  (∀ o, covered g o m) ∧
  won g !! i = Some false ∧ active_games g !! i = Some true ∧
  (∀ to_open to_flag, request g to_open → request g to_flag →
     ∃ g' correct, move (Some to_open) (Some to_flag) g = Some (g', correct) ∧
                   won g' !! i = Some true ∧ active_games g' !! i = Some false) ∧
  (∃ g' correct, move None None g = Some (g', correct) ∧
                 won g' !! i = Some true ∧ active_games g' !! i = Some false).
Proof.
  intros Hsh Hinit Hm Hk.
  pose proof (init_wf _ _ _ _ _ _ Hsh Hinit) as Hwf.
  assert (∀ o, covered g o m) as Hcov.
  { intros o.
    destruct (generated_slot _ _ _ _ _ _ _ _ _ Hsh Hinit Hm Hk) as (row & Hperm & ->).
    destruct (init_inv _ _ _ _ _ _ Hinit) as (ms & Hms & Hg).
    assert (rows g = rws ∧ columns g = cols) as [Hr Hc] by (by rewrite Hg).
    apply all_ones_covered.
    - rewrite Hr, Hc. apply reshape_shape. by rewrite Hperm, length_prefix_ones.
    - apply reshape_Forall. rewrite Hperm. unfold prefix_ones, slice_stop.
      replace (Z.of_nat (rws * cols) <? 0) with false by (symmetry; apply Z.ltb_ge; lia).
      rewrite Z.min_id, Nat2Z.id, Nat.sub_diag. simpl. rewrite app_nil_r.
      by apply Forall_replicate. }
  assert (∀ to_open to_flag, request g to_open → request g to_flag →
     ∃ g' correct, move (Some to_open) (Some to_flag) g = Some (g', correct) ∧
                   won g' !! i = Some true ∧ active_games g' !! i = Some false) as Hmv.
  { intros to_open to_flag Hopen Hflag.
    destruct (move_Some g to_open to_flag Hopen Hflag) as (g' & correct & Hmove).
    exists g', correct. split; [done|].
    pose proof (move_win_detected g to_open to_flag g' correct Hwf Hopen Hflag Hmove) as Hwd.
    pose proof (move_wf g g' to_open to_flag correct Hwf Hopen Hflag Hmove) as Hwf'.
    destruct (move_frame g g' to_open to_flag correct Hopen Hflag Hmove)
      as (_ & Hrows & Hcols & _ & _ & Hmines & _).
    destruct (slot_boards g' Hwf' i) as (m' & o' & _ & _ & Hm' & Ho' & _).
    { rewrite Hmines. by eapply lookup_lt_Some. }
    rewrite Hmines, Hm in Hm'. injection Hm' as <-.
    destruct (Hwd i o' m Ho') as (w & Hw & Hiff & Hact); [by rewrite Hmines|].
    assert (w = true) as ->.
    { apply Hiff. intros r c Hr Hc. apply Hcov; congruence. }
    auto. }
  split_and!; [done| | |done|].
  - destruct (init_inv _ _ _ _ _ _ Hinit) as (ms & Hms & ->). simpl in *.
    apply lookup_replicate_2.
    destruct (generated_rows _ _ _ _ _ _ Hsh Hms) as [<- _]. by eapply lookup_lt_Some.
  - destruct (init_inv _ _ _ _ _ _ Hinit) as (ms & Hms & ->). simpl in *.
    apply lookup_replicate_2.
    destruct (generated_rows _ _ _ _ _ _ Hsh Hms) as [<- _]. by eapply lookup_lt_Some.
  - rewrite move_default. apply Hmv.
    + by apply default_request.
    + by apply zeros_like_request, default_request.
Qed.

Lemma all_mine_slot_witness :
  shuffles id ∧ init id 2 2 (Scalar 4) 1 = Some demo_mined ∧
  mines demo_mined !! 0%nat = Some [[1; 1]; [1; 1]] ∧
  mines_n demo_mined !! 0%nat = Some (Z.of_nat (2 * 2)) ∧
  (∀ o, covered demo_mined o [[1; 1]; [1; 1]]) ∧
  won demo_mined !! 0%nat = Some false ∧ active_games demo_mined !! 0%nat = Some true ∧
  (∀ to_open to_flag, request demo_mined to_open → request demo_mined to_flag →
     ∃ g' correct, move (Some to_open) (Some to_flag) demo_mined = Some (g', correct) ∧
                   won g' !! 0%nat = Some true ∧ active_games g' !! 0%nat = Some false) ∧
  (∃ g' correct, move None None demo_mined = Some (g', correct) ∧
                 won g' !! 0%nat = Some true ∧ active_games g' !! 0%nat = Some false).
Proof.
  assert (init id 2 2 (Scalar 4) 1 = Some demo_mined) as Hinit by (vm_compute; reflexivity).
  split; [apply shuffles_id|]. split; [exact Hinit|].
  split; [reflexivity|]. split; [reflexivity|].
  exact (all_mine_slot id 2 2 (Scalar 4) 1 demo_mined 0 [[1; 1]; [1; 1]]
           shuffles_id Hinit eq_refl eq_refl).
Defined.

(** *** Scores *)

Lemma sum_binary b : binary b → sum b = Z.of_nat (count_ones b).
Proof.
  unfold sum, count_ones, flatten, binary.
  induction 1 as [|row b Hrow _ IH]; [done|].
  simpl. rewrite filter_app, length_app, Nat2Z.inj_add, <- IH. f_equal.
  clear -Hrow. induction Hrow as [|x row [->| ->] _ IH]; [done|..].
  - rewrite filter_cons_False by done. simpl. lia.
  - rewrite filter_cons_True by done. simpl length. rewrite Nat2Z.inj_succ.
    simpl foldr. lia.
Qed.

Lemma gather_all {A} (xs : list A) : gather (replicate (length xs) true) xs = xs.
Proof. induction xs as [|x xs IH]; [done|]. simpl. by rewrite IH. Qed.

(** C6, on the code: the all-mine slot of the batch with mine counts
    [0, 1, 9] on a 3 × 3 board scores NaN (0/0), not 1. *)
Lemma all_mine_score_is_nan :
  init id 3 3 (PerSlot [0; 1; 9]) 3 ≫= scores false
  = Some [Ratio 0 9; Ratio 0 8; NaN].
Proof. vm_compute. reflexivity. Qed.

(** C6 as the code has it: the score of a slot is the number of revealed
    cells divided by [size - mines_n]; when the slot has as many mines as
    cells the division by zero is carried out, and the score is NaN when no
    cell is revealed (infinite otherwise). *)
Theorem scores_divide_unguarded g :
  wf g → n g = length (mines g) → length (mines_n g) = length (mines g) →
  ∃ qs, scores false g = Some qs ∧
    ∀ i o k, open_cells g !! i = Some o → mines_n g !! i = Some k →
      (k ≠ Z.of_nat (size g) →
         qs !! i = Some (Ratio (Z.of_nat (count_ones o)) (Z.of_nat (size g) - k))) ∧
      (k = Z.of_nat (size g) →
         qs !! i = Some (if decide (count_ones o = 0%nat) then NaN else PosInf)).
Proof.
  intros Hwf Hn Hlen. unfold scores.
  pose proof (wf_len_open g Hwf) as Hlo.
  rewrite length_replicate, bool_decide_eq_true_2 by lia. simpl.
  replace (n g) with (length (open_cells g)) by lia. rewrite gather_all.
  unfold broadcast2. rewrite decide_True by (rewrite !length_map; lia).
  eexists. split; [done|]. intros i o k Ho Hk.
  rewrite lookup_zip_with, !list_lookup_fmap, Ho, Hk. simpl.
  assert (binary o) as Hb by (by destruct (Forall_lookup_1 _ _ _ _ (wf_open g Hwf) Ho)).
  rewrite (sum_binary o Hb). unfold true_divide. split.
  - intros Hne. by rewrite (proj2 (Z.eqb_neq _ _)) by lia.
  - intros ->. rewrite Z.sub_diag. simpl. case_decide as Hc.
    + by rewrite Hc.
    + destruct (count_ones o); [done|]. done.
Qed.

Lemma scores_divide_unguarded_witness :
  wf demo_mined ∧ n demo_mined = length (mines demo_mined) ∧
  length (mines_n demo_mined) = length (mines demo_mined) ∧
  ∃ qs, scores false demo_mined = Some qs ∧
    ∀ i o k, open_cells demo_mined !! i = Some o → mines_n demo_mined !! i = Some k →
      (k ≠ Z.of_nat (size demo_mined) →
         qs !! i = Some (Ratio (Z.of_nat (count_ones o)) (Z.of_nat (size demo_mined) - k))) ∧
      (k = Z.of_nat (size demo_mined) →
         qs !! i = Some (if decide (count_ones o = 0%nat) then NaN else PosInf)).
Proof.
  assert (wf demo_mined) as Hwf by (apply wfb_wf; vm_compute; reflexivity).
  split; [exact Hwf|]. split; [reflexivity|]. split; [reflexivity|].
  exact (scores_divide_unguarded demo_mined Hwf eq_refl eq_refl).
Defined.

End GeneratorFacts.

(** * [open_zero] *)
Module OpenZeroFacts.
Import Np Utils Engine NpFacts EngineFacts GeneratorFacts.

(** *** [open_zero] of the batched engine opens one cell *)

Lemma count_le_length mask : (count mask ≤ length mask)%nat.
Proof.
  induction mask as [|b m IH]; [done|]. rewrite count_cons. destruct b; simpl; lia.
Qed.

Lemma count_full mask : count mask = length mask → Forall (λ b, b = true) mask.
Proof.
  induction mask as [|b m IH]; [done|]. rewrite count_cons.
  pose proof (count_le_length m) as Hle. destruct b; simpl; intros Hc; [|lia].
  constructor; [done|]. apply IH. lia.
Qed.

Lemma rank_full mask i : Forall (λ b, b = true) mask → (i ≤ length mask)%nat → rank mask i = i.
Proof.
  intros H. revert i. induction H as [|b m -> _ IH]; intros i Hi.
  - simpl in Hi. by replace i with 0%nat by lia.
  - destruct i as [|i]; [done|]. rewrite rank_S. simpl in *. rewrite IH; lia.
Qed.

Lemma on_set_cell_zero (m : grid) r c r' c' :
  on (set_cell r c 1 (map (map (λ _, 0)) m)) r' c' → r' = r ∧ c' = c.
Proof.
  unfold on. rewrite cell_set_cell. case_decide as H; [by destruct H|].
  rewrite cell_zero_board. by destruct (cell m r' c').
Qed.




End OpenZeroFacts.

Module LegacyFacts.
Import Np Legacy NpFacts.

(** C3, on the code of [game.py]: on the 3 × 1 board whose mine is the
    first cell, [open_zero] finds the zero at flat index 2 and, dividing by
    [rows] where the row is [c // columns], starts at the mine: the mine and
    the cell below it are opened, the zero stays hidden and the slot is
    reported won. *)
Theorem legacy_open_zero_reveals_mine :
  ∃ g g',
    init (λ _, [0%nat]) 3 1 1 1 = Some g ∧
    fields g = [[1; 0; 0]] ∧ grids g = [[-1; 1; 0]] ∧
    start_cells g = Some [(0, 1, 1)] ∧
    open_zero 4 g = Some g' ∧
    states g' = [[1; 1; 0]] ∧ won g' = [true].
Proof.
  eexists _, _. split; [vm_compute; reflexivity|].
  split; [reflexivity|]. split; [reflexivity|].
  split; [vm_compute; reflexivity|]. split; [vm_compute; reflexivity|].
  split; reflexivity.
Qed.

End LegacyFacts.

(** * The cascade of [game.py] *)
Module CascadeFacts.
Import Np Legacy Cascade NpFacts GeneratorFacts.

(** *** Indexing *)

Lemma py_index_inside len z :
  0 ≤ z < Z.of_nat len → py_index len z = Some (Z.to_nat z).
Proof.
  intros H. unfold py_index.
  destruct (Z.ltb_spec z 0); [lia|]. destruct (Z.ltb_spec z (Z.of_nat len)); [done|lia].
Qed.

Lemma get3_inside n h w P s r c :
  shape3 n h w P → inside n h w (s, r, c) →
  get3 P (s, r, c)
  = P !! Z.to_nat s ≫= (λ plane, plane !! Z.to_nat r ≫= (λ row, row !! Z.to_nat c)).
Proof.
  intros [Hn Hs] (Hs1 & Hr1 & Hc1). simpl in *. unfold get3, at_index.
  rewrite py_index_inside by lia. simpl.
  destruct (P !! Z.to_nat s) as [plane|] eqn:Epl; simpl; [|done].
  destruct (Forall_lookup_1 _ _ _ _ Hs Epl) as [Hh Hw].
  rewrite py_index_inside by lia. simpl.
  destruct (plane !! Z.to_nat r) as [row|] eqn:Erow; simpl; [|done].
  pose proof (Forall_lookup_1 _ _ _ _ Hw Erow) as Hlen. simpl in Hlen.
  by rewrite py_index_inside by lia.
Qed.

Lemma get3_is_Some n h w P t :
  shape3 n h w P → inside n h w t → is_Some (get3 P t).
Proof.
  destruct t as [[s r] c]. intros HP Hin. rewrite (get3_inside n h w) by done.
  destruct HP as [Hn Hs]. destruct Hin as (Hs1 & Hr1 & Hc1). simpl in *.
  destruct (lookup_lt_is_Some_2 P (Z.to_nat s)) as [plane Epl]; [lia|].
  destruct (Forall_lookup_1 _ _ _ _ Hs Epl) as [Hh Hw].
  destruct (lookup_lt_is_Some_2 plane (Z.to_nat r)) as [row Erow]; [lia|].
  pose proof (Forall_lookup_1 _ _ _ _ Hw Erow) as Hlen. simpl in Hlen.
  rewrite Epl. simpl. rewrite Erow. simpl. apply lookup_lt_is_Some_2. lia.
Qed.

Lemma set3_shape n h w v P t : shape3 n h w P → shape3 n h w (set3 v P t).
Proof.
  destruct t as [[s r] c]. intros [Hn Hs]. unfold set3.
  destruct (py_index (length P) s) as [i|]; [|by split].
  split; [by rewrite length_alter|].
  apply Forall_lookup_2. intros j plane Hj.
  rewrite list_lookup_alter in Hj. case_decide; [|by eapply Forall_lookup_1].
  subst j. destruct (P !! i) as [plane0|] eqn:E; simplify_eq/=.
  destruct (Forall_lookup_1 _ _ _ _ Hs E) as [Hh Hw].
  destruct (py_index (length plane0) r) as [k|]; [|by split].
  split; [by rewrite length_alter|].
  apply Forall_lookup_2. intros l row Hl.
  rewrite list_lookup_alter in Hl. case_decide; [|by eapply (Forall_lookup_1 _ _ _ _ Hw)].
  subst l. destruct (plane0 !! k) as [row0|] eqn:E2; simplify_eq/=.
  pose proof (Forall_lookup_1 _ _ _ _ Hw E2) as Hlen. simpl in Hlen.
  destruct (py_index (length row0) c); [by rewrite length_insert|done].
Qed.

Lemma get3_set3 n h w v P t t' :
  shape3 n h w P → inside n h w t → inside n h w t' →
  get3 (set3 v P t) t' = if decide (t = t') then Some v else get3 P t'.
Proof.
  intros HP Hin Hin'.
  pose proof (set3_shape n h w v P t HP) as HP'.
  destruct t as [[s r] c], t' as [[s' r'] c'].
  rewrite (get3_inside n h w) by done. rewrite (get3_inside n h w P) by done.
  destruct HP as [Hn Hs]. destruct Hin as (Hs1 & Hr1 & Hc1), Hin' as (Hs2 & Hr2 & Hc2).
  simpl in *. unfold set3.
  rewrite py_index_inside by lia.
  destruct (lookup_lt_is_Some_2 P (Z.to_nat s)) as [plane Epl]; [lia|].
  destruct (Forall_lookup_1 _ _ _ _ Hs Epl) as [Hh Hw].
  destruct (lookup_lt_is_Some_2 plane (Z.to_nat r)) as [row Erow]; [lia|].
  pose proof (Forall_lookup_1 _ _ _ _ Hw Erow) as Hlen. simpl in Hlen.
  rewrite list_lookup_alter.
  destruct (decide (Z.to_nat s = Z.to_nat s')) as [Es|Es].
  - rewrite Epl. simpl. rewrite py_index_inside by lia.
    rewrite list_lookup_alter.
    destruct (decide (Z.to_nat r = Z.to_nat r')) as [Er|Er].
    + rewrite Erow. simpl. rewrite py_index_inside by lia.
      rewrite list_lookup_insert.
      destruct (decide (Z.to_nat c = Z.to_nat c' ∧ (Z.to_nat c < length row)%nat))
        as [[Ec _]|Ec].
      * rewrite decide_True; [done|]. f_equal; [f_equal|]; lia.
      * rewrite decide_False; [|intros [= -> -> ->]; lia].
        rewrite <- Es, Epl. simpl. by rewrite <- Er, Erow.
    + rewrite decide_False; [|intros [= -> -> ->]; lia].
      rewrite <- Es, Epl. done.
  - rewrite decide_False; [done|]. intros [= -> -> ->]. lia.
Qed.

Lemma foldl_set3_shape n h w v P l :
  shape3 n h w P → shape3 n h w (foldl (set3 v) P l).
Proof.
  revert P. induction l as [|t l IH]; intros P HP; simpl; [done|].
  apply IH. by apply set3_shape.
Qed.

Lemma get3_foldl_set3 n h w v P l t' :
  shape3 n h w P → Forall (inside n h w) l → inside n h w t' →
  get3 (foldl (set3 v) P l) t' = if decide (t' ∈ l) then Some v else get3 P t'.
Proof.
  revert P. induction l as [|t l IH]; intros P HP Hl Hin'.
  - by destruct (decide (t' ∈ [])) as [H%elem_of_nil|].
  - apply Forall_cons in Hl as [Ht Hl]. cbn [foldl].
    rewrite IH by (done || by apply set3_shape).
    rewrite (get3_set3 n h w) by done.
    destruct (decide (t' ∈ l)) as [Hel|Hel].
    + rewrite decide_True; [done|]. by right.
    + destruct (decide (t = t')) as [->|Hne].
      * rewrite decide_True; [done|]. by left.
      * rewrite decide_False; [done|]. intros [->|?]%elem_of_cons; done.
Qed.

(** *** Selecting under a mask computed from looked-up values *)

Lemma gather_lookups {A B} (g : A → option B) (f : B → bool) (t : list A) vals :
  mapM g t = Some vals →
  ∀ x, x ∈ gather (map f vals) t ↔ x ∈ t ∧ ∃ v, g x = Some v ∧ f v = true.
Proof.
  intros H. apply mapM_Some in H. induction H as [|y v t vals Hy _ IH]; intros x.
  - simpl. split; [by intros ?%elem_of_nil|by intros [?%elem_of_nil _]].
  - simpl. destruct (f v) eqn:Ef.
    + rewrite !elem_of_cons, IH. split.
      * intros [->|[? ?]]; [|by auto]. split; [by left|]. by exists v.
      * intros [[->|?] Hv]; [by left|right; auto].
    + rewrite IH, elem_of_cons. split.
      * intros [? ?]. auto.
      * intros [[->|?] (v' & Hv' & Hf)]; [congruence|]. split; [done|]. by exists v'.
Qed.

Lemma mapM_get3_Some n h w P (t : list (Z * Z * Z)) :
  shape3 n h w P → Forall (inside n h w) t → is_Some (mapM (get3 P) t).
Proof.
  intros HP Ht. apply mapM_is_Some. eapply Forall_impl; [exact Ht|].
  intros x Hx. by eapply get3_is_Some.
Qed.

(** *** The cells of the board inside the padded arrays *)

Lemma elem_of_all_interior n h w t : interior n h w t → t ∈ all_interior n h w.
Proof.
  destruct t as [[s r] c]. intros (Hs & Hr & Hc). simpl in *.
  unfold all_interior. apply list_elem_of_fmap. exists (s, (r, c)). split; [done|].
  apply list_elem_of_In, in_prod; [|apply in_prod]; apply list_elem_of_In, elem_of_seqZ; lia.
Qed.

Lemma length_all_interior n h w : length (all_interior n h w) = (n * (h * w))%nat.
Proof.
  unfold all_interior. rewrite length_fmap, !length_prod, !length_seqZ. lia.
Qed.

Lemma interior_inside n h w t : interior n h w t → inside n (h + 2) (w + 2) t.
Proof. unfold interior, inside. lia. Qed.

Lemma shift_inside n h w i j t :
  interior n h w t → (i, j) ∈ offsets9 → inside n (h + 2) (w + 2) (shift i j t).
Proof.
  destruct t as [[s r] c]. unfold interior, inside, shift, offsets9. simpl.
  intros H Ho. repeat (apply elem_of_cons in Ho as [[= -> ->]|Ho]); try lia.
  by apply elem_of_nil in Ho.
Qed.

Lemma filter_length_le {A} (P Q : A → Prop) `{∀ x, Decision (P x)} `{∀ x, Decision (Q x)} l :
  (∀ x, x ∈ l → Q x → P x) → (length (filter Q l) ≤ length (filter P l))%nat.
Proof.
  induction l as [|x l IH]; intros HPQ; [done|].
  assert (length (filter Q l) ≤ length (filter P l))%nat as IH'.
  { apply IH. intros y Hy. apply HPQ. by right. }
  rewrite !filter_cons. destruct (decide (Q x)) as [HQ|HQ].
  - rewrite decide_True by (apply HPQ; [by left|done]). simpl. lia.
  - destruct (decide (P x)); simpl; lia.
Qed.

Lemma filter_length_lt {A} (P Q : A → Prop) `{∀ x, Decision (P x)} `{∀ x, Decision (Q x)} l y :
  (∀ x, x ∈ l → Q x → P x) → y ∈ l → P y → ¬ Q y →
  (length (filter Q l) < length (filter P l))%nat.
Proof.
  induction l as [|x l IH]; intros HPQ Hy HP HQ; [by apply elem_of_nil in Hy|].
  assert (∀ x, x ∈ l → Q x → P x) as HPQ' by (intros z Hz; apply HPQ; by right).
  pose proof (filter_length_le P Q l HPQ') as Hle.
  rewrite !filter_cons. apply elem_of_cons in Hy as [->|Hy].
  - destruct (decide (Q x)); [done|]. destruct (decide (P x)); [|done]. simpl. lia.
  - specialize (IH HPQ' Hy HP HQ). destruct (decide (Q x)) as [HQx|HQx].
    + rewrite decide_True by (apply HPQ; [by left|done]). simpl. lia.
    + destruct (decide (P x)); simpl; lia.
Qed.

Section Recursion.
Context (n h w : nat) (G : batch).
Hypothesis HG : shape3 n (h + 2) (w + 2) G.

(** [R] stands for the zero cells the cascade is to reach: it is closed under
    stepping from a cell of [R] to a neighbouring zero cell of the board. *)
Context (R : Z * Z * Z → Prop).
Hypothesis R_closed :
  ∀ x i j, R x → (i, j) ∈ offsets9 → interior n h w (shift i j x) →
           get3 G (shift i j x) = Some 0 → R (shift i j x).

Local Abbreviation inside' := (inside n (h + 2) (w + 2)).
Local Abbreviation interior' := (interior n h w).
Local Abbreviation padinv := (Cascade.padinv n h w).
Local Abbreviation ext := (Cascade.ext n h w).
Local Abbreviation sound := (Cascade.sound n h w R).
Local Abbreviation expanded := (Cascade.expanded n h w G).
Local Abbreviation mu := (Cascade.mu n h w).
Local Abbreviation body := (Cascade.body G).
Local Abbreviation achieves := (Cascade.achieves n h w R).

Lemma hidden_interior P t : padinv P → inside' t → hidden P t → interior' t.
Proof.
  intros [_ HP] Hin Hh. destruct (HP t 0 Hin Hh) as [_ Hb].
  destruct (decide (interior' t)) as [|Hn]; [done|]. by specialize (Hb Hn).
Qed.

Lemma interior_dec t : Decision (interior' t).
Proof. unfold interior. apply _. Qed.

Lemma not_hidden_open P t : padinv P → interior' t → ¬ hidden P t → get3 P t = Some 1.
Proof.
  intros [HS HP] Hi Hh. pose proof (interior_inside _ _ _ _ Hi) as Hin.
  destruct (get3_is_Some _ _ _ P t HS Hin) as [v Hv].
  destruct (HP t v Hin Hv) as [[->| ->] _]; done.
Qed.

Lemma mu_le P P' : ext P P' → (mu P' ≤ mu P)%nat.
Proof.
  intros He. unfold Cascade.mu.
  apply (filter_length_le (λ t, get3 P t = Some 0) (λ t, get3 P' t = Some 0)).
  intros x Hx. apply He.
  unfold all_interior in Hx. apply list_elem_of_fmap in Hx as ([s [r c]] & -> & Hx).
  apply list_elem_of_In, in_prod_iff in Hx as [Hs Hx]. apply in_prod_iff in Hx as [Hr Hc].
  apply list_elem_of_In, elem_of_seqZ in Hs. apply list_elem_of_In, elem_of_seqZ in Hr.
  apply list_elem_of_In, elem_of_seqZ in Hc. unfold inside. simpl. lia.
Qed.

Lemma mu_lt P P' t : ext P P' → interior' t → hidden P t → ¬ hidden P' t → (mu P' < mu P)%nat.
Proof.
  intros He Hi Hh Hn. unfold Cascade.mu.
  apply (filter_length_lt (λ t, get3 P t = Some 0) (λ t, get3 P' t = Some 0) _ t);
    [|by apply elem_of_all_interior|done..].
  intros x Hx. apply He.
  unfold all_interior in Hx. apply list_elem_of_fmap in Hx as ([s [r c]] & -> & Hx).
  apply list_elem_of_In, in_prod_iff in Hx as [Hs Hx]. apply in_prod_iff in Hx as [Hr Hc].
  apply list_elem_of_In, elem_of_seqZ in Hs. apply list_elem_of_In, elem_of_seqZ in Hr.
  apply list_elem_of_In, elem_of_seqZ in Hc. unfold inside. simpl. lia.
Qed.

Lemma mu_bound P : (mu P ≤ n * (h * w))%nat.
Proof. unfold Cascade.mu. rewrite <- length_all_interior. apply length_filter. Qed.

(** *** One offset of the double loop *)

Lemma step_spec i j c P sc :
  padinv P → (i, j) ∈ offsets9 → Forall interior' c →
  ∃ t2 P1 sc1,
    step G i j c (P, sc) = Some (t2, (P1, sc1)) ∧
    shape3 n (h + 2) (w + 2) P1 ∧
    (∀ y, inside' y →
          get3 P1 y = if decide (y ∈ map (shift i j) c ∧ get3 P y = Some 0)
                      then Some 1 else get3 P y) ∧
    (∀ y, y ∈ t2 ↔ y ∈ map (shift i j) c ∧ get3 P y = Some 0 ∧ get3 G y = Some 0).
Proof using HG.
  intros [HS HP] Ho Hc. unfold step.
  set (t := map (shift i j) c).
  assert (Forall inside' t) as Ht.
  { apply Forall_fmap. eapply Forall_impl; [exact Hc|]. intros x Hx. by apply shift_inside. }
  destruct (mapM_get3_Some _ _ _ P t HS Ht) as [vals Hvals]. rewrite Hvals. simpl.
  set (t1 := gather (map (λ v, v =? 0) vals) t).
  assert (∀ y, y ∈ t1 ↔ y ∈ t ∧ get3 P y = Some 0) as Ht1.
  { intros y. unfold t1. rewrite (gather_lookups _ _ _ _ Hvals). split.
    - intros [? (v & Hv & E)]. apply Z.eqb_eq in E. by subst.
    - intros [? ?]. split; [done|]. by exists 0. }
  assert (Forall inside' t1) as Hin1.
  { apply Forall_forall. intros y Hy. apply Ht1 in Hy as [Hy _].
    rewrite Forall_forall in Ht. by apply Ht. }
  destruct (mapM_get3_Some _ _ _ G t1 HG Hin1) as [gv Hgv]. rewrite Hgv. simpl.
  eexists _, _, _. split; [done|]. split_and!.
  - by apply foldl_set3_shape.
  - intros y Hy. rewrite (get3_foldl_set3 n (h + 2) (w + 2)) by done.
    destruct (decide (y ∈ t1)) as [H1|H1]; rewrite Ht1 in H1.
    + by rewrite decide_True.
    + by rewrite decide_False.
  - intros y. rewrite (gather_lookups _ _ _ _ Hgv), Ht1. split.
    + intros [[? ?] (v & Hv & E)]. apply Z.eqb_eq in E. by subst.
    + intros (? & ? & ?). split; [done|]. by exists 0.
Qed.

(** What one offset does to the state. *)
Lemma step_facts i j c P sc :
  padinv P → (i, j) ∈ offsets9 → Forall (λ x, interior' x ∧ R x) c →
  ∃ t2 P1 sc1,
    step G i j c (P, sc) = Some (t2, (P1, sc1)) ∧
    padinv P1 ∧ ext P P1 ∧ sound P P1 ∧
    (∀ x, x ∈ c → ¬ hidden P1 (shift i j x)) ∧
    Forall (λ x, interior' x ∧ R x) t2 ∧
    (t2 ≠ [] → (mu P1 < mu P)%nat) ∧
    (∀ D, expanded D P → expanded (λ z, D z ∨ z ∈ t2) P1).
Proof using HG R_closed.
  intros HPI Ho Hc.
  assert (Forall interior' c) as Hci by (eapply Forall_impl; [exact Hc|]; by intros x [? ?]).
  destruct (step_spec i j c P sc HPI Ho Hci) as (t2 & P1 & sc1 & Hstep & HS1 & Hget & Ht2).
  exists t2, P1, sc1. split; [done|].
  pose proof HPI as [HS HP].
  assert (ext P P1) as Hext.
  { intros y Hy Hh. unfold hidden in *. rewrite Hget in Hh by done.
    by case_decide. }
  assert (padinv P1) as HPI1.
  { split; [done|]. intros y v Hy Hv. rewrite Hget in Hv by done.
    case_decide as Hd; [|by apply HP].
    destruct Hd as [_ Hh]. injection Hv as <-.
    pose proof (hidden_interior P y HPI Hy Hh). split; [auto|done]. }
  assert (∀ y, y ∈ map (shift i j) c → ∃ x, x ∈ c ∧ interior' x ∧ R x ∧ y = shift i j x) as Hmap.
  { intros y Hy. apply list_elem_of_fmap in Hy as (x & -> & Hx).
    rewrite Forall_forall in Hc. destruct (Hc x Hx). by exists x. }
  split_and!; try done.
  - intros y Hy Hh H1. rewrite Hget in H1 by done.
    case_decide as Hd; [|unfold hidden in Hh; congruence].
    destruct Hd as [Hy' _]. destruct (Hmap y Hy') as (x & _ & _ & HR & ->).
    by exists x, i, j.
  - intros x Hx Hh. unfold hidden in Hh.
    rewrite Forall_forall in Hci.
    rewrite Hget in Hh by (apply shift_inside; auto).
    case_decide as Hd; [done|]. apply Hd. split; [|done].
    by apply list_elem_of_fmap_2.
  - apply Forall_forall. intros y Hy. apply Ht2 in Hy as (Hy & Hh & Hz).
    destruct (Hmap y Hy) as (x & Hx & Hxi & HR & ->).
    assert (interior' (shift i j x)) as Hi.
    { apply (hidden_interior P); [done| |done]. by apply shift_inside. }
    split; [done|]. by apply R_closed.
  - intros Hne. destruct t2 as [|y t2']; [done|].
    assert (y ∈ y :: t2') as Hy by (by left).
    apply Ht2 in Hy as (Hy & Hh & Hz).
    destruct (Hmap y Hy) as (x & Hx & Hxi & HR & ->).
    assert (inside' (shift i j x)) as Hin by (by apply shift_inside).
    apply (mu_lt P P1 (shift i j x)); [done| |done|].
    + by apply (hidden_interior P).
    + unfold hidden. rewrite Hget by done. by rewrite decide_True.
  - intros D Hexp z Hzi Hz1 Hz0 HD i' j' Ho' Hh.
    pose proof (interior_inside _ _ _ _ Hzi) as Hzin.
    rewrite Hget in Hz1 by done. case_decide as Hd.
    + apply HD. right. apply Ht2. by destruct Hd.
    + apply (Hexp z Hzi Hz1 Hz0) with i' j'; [by intros ?; apply HD; left|done|].
      apply Hext; [by apply shift_inside|done].
Qed.

Lemma ext_trans P1 P2 P3 : ext P1 P2 → ext P2 P3 → ext P1 P3.
Proof. intros H12 H23 t Ht Hh. apply H12; [done|]. by apply H23. Qed.

Lemma sound_trans P1 P2 P3 :
  padinv P1 → padinv P2 → sound P1 P2 → sound P2 P3 → sound P1 P3.
Proof.
  intros HPI1 [HS2 HP2] H12 H23 t Ht Hh H3.
  pose proof (hidden_interior P1 t HPI1 Ht Hh) as Hi.
  destruct (get3_is_Some _ _ _ P2 t HS2 Ht) as [v Hv].
  destruct (HP2 t v Ht Hv) as [[->| ->] _]; [done| |].
  - by apply H23.
  - by apply H12.
Qed.

Lemma expanded_mono (D D' : Z * Z * Z → Prop) P :
  (∀ z, D' z → D z) → expanded D' P → expanded D P.
Proof. intros HD He z Hzi H1 H0 Hn. apply He; auto. Qed.

Lemma not_hidden_ext P P' t : ext P P' → inside' t → ¬ hidden P t → ¬ hidden P' t.
Proof. intros He Ht Hn Hh. apply Hn. by apply He. Qed.

(** *** The recursion *)

Lemma open_zero_rec_S f c st :
  open_zero_rec (S f) G c st = foldl (body f c) (Some st) offsets9.
Proof. done. Qed.

Lemma loop_spec f c :
  Forall (λ x, interior' x ∧ R x) c →
  (∀ c' P sc, padinv P → Forall (λ x, interior' x ∧ R x) c' → (mu P < f)%nat →
     ∃ P' sc', open_zero_rec f G c' (P, sc) = Some (P', sc') ∧
       achieves c' offsets9 P P' ∧
       (∀ D, expanded (λ z, D z ∨ z ∈ c') P → expanded D P')) →
  ∀ os P sc, os ⊆ offsets9 → padinv P → (mu P ≤ f)%nat →
    ∃ P' sc', foldl (body f c) (Some (P, sc)) os = Some (P', sc') ∧
      achieves c os P P' ∧
      (∀ D, expanded (λ z, D z ∨ z ∈ c) P → expanded (λ z, D z ∨ z ∈ c) P').
Proof using HG R_closed.
  intros Hc IH os. induction os as [|[i j] os IHos]; intros P sc Hos HPI Hmu.
  - exists P, sc. split; [done|]. split; [|done].
    split_and!; [done|by intros ? ? ?|by intros t Ht Hh; unfold hidden in *; congruence|].
    intros x i j _ Ho. by apply elem_of_nil in Ho.
  - assert ((i, j) ∈ offsets9) as Ho by (apply Hos; by left).
    assert (os ⊆ offsets9) as Hos' by (intros o Hin; apply Hos; by right).
    destruct (step_facts i j c P sc HPI Ho Hc)
      as (t2 & P1 & sc1 & Hstep & HPI1 & Hext1 & Hsnd1 & Hopen1 & Ht2 & Hlt & Hexp1).
    assert (Forall inside' (map (shift i j) c)) as Hshift.
    { apply Forall_fmap. eapply Forall_impl; [exact Hc|]. intros x [Hx _].
      by apply shift_inside. }
    (* the state after the offset and, if any, the recursive call *)
    assert (∃ P2 sc2,
              body f c (Some (P, sc)) (i, j) = Some (P2, sc2) ∧
              padinv P2 ∧ ext P P2 ∧ sound P P2 ∧
              (∀ x, x ∈ c → ¬ hidden P2 (shift i j x)) ∧
              (∀ D, expanded (λ z, D z ∨ z ∈ c) P → expanded (λ z, D z ∨ z ∈ c) P2))
      as (P2 & sc2 & Hbody & HPI2 & Hext2 & Hsnd2 & Hopen2 & Hexp2).
    { unfold Cascade.body. cbn [mbind option_bind]. rewrite Hstep. cbn [mbind option_bind].
      destruct t2 as [|y t2'].
      - exists P1, sc1. split_and!; try done.
        intros D HD. eapply expanded_mono; [|apply (Hexp1 _ HD)].
        intros z [?|Hz]; [done|]. by apply elem_of_nil in Hz.
      - destruct (IH (y :: t2') P1 sc1 HPI1 Ht2) as (P2 & sc2 & Hrec & Hach & Hexp).
        { specialize (Hlt ltac:(done)). lia. }
        destruct Hach as (HPI2 & Hext12 & Hsnd12 & _).
        exists P2, sc2. split_and!; try done.
        + by apply (ext_trans P P1 P2).
        + by apply (sound_trans P P1 P2).
        + intros x Hx. apply (not_hidden_ext P1 P2); [done| |by apply Hopen1].
          rewrite Forall_forall in Hshift. apply Hshift. by apply list_elem_of_fmap_2.
        + intros D HD. apply Hexp. apply (Hexp1 _ HD). }
    destruct (IHos P2 sc2 Hos' HPI2) as (P' & sc' & Hfold & Hach & Hexp).
    { pose proof (mu_le P P2 Hext2). lia. }
    destruct Hach as (HPI' & Hext' & Hsnd' & Hopen').
    exists P', sc'. split; [cbn [foldl]; by rewrite Hbody|]. split.
    + split_and!; [done|by apply (ext_trans P P2 P')|by apply (sound_trans P P2 P')|].
      intros x i' j' Hx [[= -> ->]|Hin]%elem_of_cons; [|by apply Hopen'].
      apply (not_hidden_ext P2 P'); [done| |by apply Hopen2].
      rewrite Forall_forall in Hshift. apply Hshift. by apply list_elem_of_fmap_2.
    + intros D HD. by apply Hexp, Hexp2.
Qed.

Lemma rec_spec fuel : ∀ c P sc,
  padinv P → Forall (λ x, interior' x ∧ R x) c → (mu P < fuel)%nat →
  ∃ P' sc', open_zero_rec fuel G c (P, sc) = Some (P', sc') ∧
    achieves c offsets9 P P' ∧
    (∀ D, expanded (λ z, D z ∨ z ∈ c) P → expanded D P').
Proof using HG R_closed.
  induction fuel as [|f IH]; intros c P sc HPI Hc Hmu; [lia|].
  rewrite open_zero_rec_S.
  destruct (loop_spec f c Hc IH offsets9 P sc) as (P' & sc' & Hfold & Hach & Hexp);
    [done|done|lia|].
  exists P', sc'. split; [done|]. split; [done|].
  intros D HD z Hzi H1 H0 HnD i j Ho.
  destruct (decide (z ∈ c)) as [Hzc|Hzc].
  - destruct Hach as (_ & _ & _ & Hopen). by apply Hopen.
  - apply (Hexp D HD z Hzi H1 H0); [|done]. by intros [?|?].
Qed.

End Recursion.

(** *** Padded boards, flat boards *)

Lemma pad_shape h w d (b : grid) : has_shape h w b → has_shape (h + 2) (w + 2) (pad w d b).
Proof.
  intros [Hh Hw]. unfold pad, pad1. split.
  - simpl. rewrite length_app, length_map. simpl. lia.
  - constructor; [by rewrite length_replicate|].
    apply Forall_app. split.
    + apply Forall_fmap. eapply Forall_impl; [exact Hw|].
      intros x Hx. cbn in *. rewrite length_app. cbn. lia.
    + constructor; [by rewrite length_replicate|constructor].
Qed.

Lemma cell_pad h w d (b : grid) (r c : nat) :
  has_shape h w b → (r < h + 2)%nat → (c < w + 2)%nat →
  cell (pad w d b) r c
  = Some (if decide ((1 ≤ r ≤ h)%nat ∧ (1 ≤ c ≤ w)%nat)
          then default d (cell b (r - 1) (c - 1)) else d).
Proof.
  intros [Hh Hw] Hr Hc. unfold pad, pad1.
  destruct (decide ((1 ≤ r ≤ h)%nat ∧ (1 ≤ c ≤ w)%nat)) as [[Hr1 Hc1]|Hd].
  - destruct r as [|r]; [lia|]. destruct c as [|c]; [lia|].
    replace (S r - 1)%nat with r by lia. replace (S c - 1)%nat with c by lia.
    unfold cell. rewrite lookup_cons.
    rewrite lookup_app_l by (rewrite length_map; lia).
    rewrite list_lookup_fmap.
    destruct (lookup_lt_is_Some_2 b r) as [row Hrow]; [lia|].
    pose proof (Forall_lookup_1 _ _ _ _ Hw Hrow) as Hlen. cbn in Hlen.
    rewrite Hrow. cbn [fmap option_fmap option_map mbind option_bind].
    rewrite lookup_cons, lookup_app_l by lia.
    destruct (lookup_lt_is_Some_2 row c) as [x Hx]; [lia|]. by rewrite Hx.
  - unfold cell. destruct r as [|r].
    { rewrite lookup_cons. cbn [mbind option_bind]. by rewrite lookup_replicate_2 by lia. }
    rewrite lookup_cons.
    destruct (decide (r < h)%nat) as [Hrh|Hrh].
    + rewrite lookup_app_l by (rewrite length_map; lia).
      rewrite list_lookup_fmap.
      destruct (lookup_lt_is_Some_2 b r) as [row Hrow]; [lia|].
      pose proof (Forall_lookup_1 _ _ _ _ Hw Hrow) as Hlen. cbn in Hlen.
      rewrite Hrow. cbn [fmap option_fmap option_map mbind option_bind].
      destruct c as [|c]; [done|]. rewrite lookup_cons.
      rewrite lookup_app_r by lia. replace (c - length row)%nat with 0%nat by lia. done.
    + rewrite lookup_app_r by (rewrite length_map; lia).
      rewrite length_map. replace (r - length b)%nat with 0%nat by lia.
      cbn [lookup list_lookup mbind option_bind]. by rewrite lookup_replicate_2 by lia.
Qed.

Lemma cell_reshape h w l (r c : nat) :
  (r < h)%nat → (c < w)%nat → cell (reshape h w l) r c = l !! (r * w + c)%nat.
Proof.
  revert l r. induction h as [|h IH]; intros l r Hr Hc; [lia|].
  destruct r as [|r]; simpl.
  - unfold cell. simpl. by rewrite lookup_take_lt.
  - unfold cell in *. simpl. rewrite IH by lia. rewrite lookup_drop. f_equal. lia.
Qed.

Lemma reshape_flatten h w (b : grid) : has_shape h w b → reshape h w (flatten b) = b.
Proof.
  intros [Hh Hw]. subst h. induction Hw as [|row b Hrow _ IH]; [done|].
  simpl. unfold flatten in *. simpl.
  rewrite take_app_length' by done. rewrite drop_app_length' by done. by rewrite IH.
Qed.

Lemma inner_shape h w (p : grid) : has_shape (h + 2) (w + 2) p → has_shape h w (inner p).
Proof.
  intros [Hh Hw]. unfold inner. split.
  - rewrite length_map, length_sub; lia.
  - apply Forall_lookup_2. intros r row Hr.
    apply list_lookup_fmap_Some in Hr as (prow & -> & Hprow).
    unfold sub in Hprow. apply lookup_take_Some in Hprow as [Hprow _].
    rewrite lookup_drop in Hprow.
    pose proof (Forall_lookup_1 _ _ _ _ Hw Hprow) as Hlen. simpl in Hlen.
    rewrite length_sub; lia.
Qed.

Lemma cell_inner h w (p : grid) (r c : nat) :
  has_shape (h + 2) (w + 2) p → (r < h)%nat → (c < w)%nat →
  cell (inner p) r c = cell p (S r) (S c).
Proof.
  intros [Hh Hw] Hr Hc. unfold inner, cell.
  rewrite list_lookup_fmap, lookup_sub by lia. simpl.
  destruct (lookup_lt_is_Some_2 p (S r)) as [row Hrow]; [lia|].
  pose proof (Forall_lookup_1 _ _ _ _ Hw Hrow) as Hlen. simpl in Hlen.
  rewrite Hrow. simpl. rewrite lookup_sub by lia. done.
Qed.

Lemma elem_of_gather {A} (mask : list bool) (xs : list A) x :
  x ∈ gather mask xs ↔ ∃ i, mask !! i = Some true ∧ xs !! i = Some x.
Proof.
  revert xs. induction mask as [|b m IH]; intros xs.
  - simpl. split; [by intros ?%elem_of_nil|]. by intros (i & ? & _).
  - destruct xs as [|y xs]; simpl.
    { split; [by intros ?%elem_of_nil|]. by intros (i & _ & ?). }
    destruct b.
    + rewrite elem_of_cons, IH. split.
      * intros [->|(i & ? & ?)]; [by exists 0%nat|by exists (S i)].
      * intros ([|i] & ? & ?); simplify_eq/=; [by left|right; by exists i].
    + rewrite IH. split.
      * intros (i & ? & ?). by exists (S i).
      * intros ([|i] & ? & ?); simplify_eq/=. by exists i.
Qed.

(** *** The first call *)

Lemma padded_shape g (a : list (list Z)) m k :
  rows g = k → columns g = k → length a = m → Forall (λ row, length row = (k * k)%nat) a →
  shape3 m (k + 2) (k + 2) (padded g a).
Proof.
  intros Hr Hc Hm Ha. unfold padded. rewrite Hr, Hc. split; [by rewrite length_map|].
  apply Forall_fmap. eapply Forall_impl; [exact Ha|]. intros row Hrow. cbn in *.
  by apply pad_shape, reshape_shape.
Qed.

Lemma get3_padded g (a : list (list Z)) m k s r c :
  rows g = k → columns g = k → length a = m → Forall (λ row, length row = (k * k)%nat) a →
  inside m (k + 2) (k + 2) (s, r, c) →
  get3 (padded g a) (s, r, c)
  = Some (if decide (interior m k k (s, r, c))
          then default (-1) (lcell g a (Z.to_nat s) (Z.to_nat r - 1) (Z.to_nat c - 1))
          else -1).
Proof.
  intros Hr Hc Hm Ha Hin.
  rewrite (get3_inside m (k + 2) (k + 2)) by (done || by apply padded_shape).
  destruct Hin as (Hs1 & Hr1 & Hc1). simpl in *.
  destruct (lookup_lt_is_Some_2 a (Z.to_nat s)) as [row Hrow]; [lia|].
  pose proof (Forall_lookup_1 _ _ _ _ Ha Hrow) as Hlen. cbn in Hlen.
  unfold padded, lcell. rewrite list_lookup_fmap, Hrow, Hr, Hc.
  cbn [fmap option_fmap option_map mbind option_bind].
  pose proof (cell_pad k k (-1) (reshape k k row) (Z.to_nat r) (Z.to_nat c)
                (reshape_shape k k row Hlen)) as Hcell.
  unfold cell in Hcell at 1. rewrite Hcell by lia. f_equal.
  unfold interior. simpl.
  destruct (decide ((1 ≤ Z.to_nat r ≤ k)%nat ∧ (1 ≤ Z.to_nat c ≤ k)%nat)) as [Hd|Hd].
  - by rewrite decide_True by lia.
  - by rewrite decide_False by lia.
Qed.

Lemma argmin_is_Some l : l ≠ [] → is_Some (argmin l).
Proof. destruct l; [done|]. intros _. by eexists. Qed.

Lemma start_cells_spec g k :
  fresh g k →
  ∃ cs, start_cells g = Some cs ∧
    ∀ x, x ∈ cs → ∃ s r c, x = (Z.of_nat s, Z.of_nat r + 1, Z.of_nat c + 1) ∧
                            (s < n g)%nat ∧ (r < k)%nat ∧ (c < k)%nat ∧ zero g s r c.
Proof.
  intros [Hr Hc Hk Hn Hrows _]. unfold start_cells.
  destruct (mapM_is_Some_2 (λ row, argmin (map Z.abs row)) (grids g)) as [cs0 Hcs0].
  { eapply Forall_impl; [exact Hrows|]. intros row Hrow. cbn in *.
    apply argmin_is_Some. intros E. apply (f_equal length) in E.
    rewrite length_map, Hrow in E. simpl in E. nia. }
  rewrite Hcs0. cbn [mbind option_bind]. eexists. split; [done|].
  intros x Hx. apply list_elem_of_fmap in Hx as ([i ci] & -> & Hx).
  apply elem_of_gather in Hx as (idx & Hz & Hi).
  rewrite list_lookup_imap in Hi.
  destruct (cs0 !! idx) as [ci0|] eqn:Eci; [|done].
  injection Hi as -> ->.
  apply lookup_zip_with_Some in Hz as (row & ci1 & Hb & Hrow & Hci).
  rewrite Eci in Hci. injection Hci as <-.
  symmetry in Hb. apply bool_decide_eq_true in Hb.
  pose proof (Forall_lookup_1 _ _ _ _ Hrows Hrow) as Hlen. cbn in Hlen.
  assert (ci < k * k)%nat as Hlt by (apply lookup_lt_Some in Hb; lia).
  exists i, (ci / k)%nat, (ci mod k)%nat. rewrite Hr, Hc.
  split_and!; [done| | | |].
  - apply lookup_lt_Some in Hrow. lia.
  - apply Nat.Div0.div_lt_upper_bound. lia.
  - apply Nat.mod_upper_bound. lia.
  - unfold zero, lcell. rewrite Hrow, Hr, Hc. cbn [mbind option_bind].
    rewrite cell_reshape.
    + rewrite <- Hb. f_equal. pose proof (Nat.div_mod_eq ci k). lia.
    + apply Nat.Div0.div_lt_upper_bound. lia.
    + apply Nat.mod_upper_bound. lia.
Qed.

Lemma offsets9_bounds i j : (i, j) ∈ offsets9 ↔ (-1 ≤ i ≤ 1 ∧ -1 ≤ j ≤ 1).
Proof.
  unfold offsets9. split.
  - intros Ho. repeat (apply elem_of_cons in Ho as [[= -> ->]|Ho]); try lia.
    by apply elem_of_nil in Ho.
  - intros [Hi Hj].
    assert (i = -1 ∨ i = 0 ∨ i = 1) as [->|[->| ->]] by lia;
    assert (j = -1 ∨ j = 0 ∨ j = 1) as [->|[->| ->]] by lia;
    repeat ((by left) || right).
Qed.

Lemma shift_at_board s r c r' c' :
  shift (Z.of_nat r' - Z.of_nat r) (Z.of_nat c' - Z.of_nat c) (at_board s r c)
  = at_board s r' c'.
Proof. unfold shift, at_board. f_equal; [f_equal|]; lia. Qed.

Lemma at_board_interior m k s r c :
  (s < m)%nat → (r < k)%nat → (c < k)%nat → interior m k k (at_board s r c).
Proof. unfold interior, at_board. simpl. lia. Qed.

Lemma lcell_Some g k (a : list (list Z)) s r c v :
  rows g = k → columns g = k → Forall (λ row, length row = (k * k)%nat) a →
  lcell g a s r c = Some v → (s < length a)%nat ∧ (r < k)%nat ∧ (c < k)%nat.
Proof.
  intros Hr Hc Ha Hv. unfold lcell in Hv. rewrite Hr, Hc in Hv.
  destruct (a !! s) as [row|] eqn:Erow; [|done]. cbn in Hv.
  split; [by eapply lookup_lt_Some|].
  pose proof (Forall_lookup_1 _ _ _ _ Ha Erow) as Hlen. cbn in Hlen.
  apply (cell_shape k k (reshape k k row)); [by apply reshape_shape|by eexists].
Qed.

Lemma get3_padded_board g (a : list (list Z)) m k s r c :
  rows g = k → columns g = k → length a = m → Forall (λ row, length row = (k * k)%nat) a →
  (s < m)%nat → (r < k)%nat → (c < k)%nat →
  get3 (padded g a) (at_board s r c) = lcell g a s r c.
Proof.
  intros Hr Hc Hm Ha Hs Hrk Hck.
  pose proof (at_board_interior m k s r c Hs Hrk Hck) as Hi.
  unfold at_board in *.
  rewrite (get3_padded g a m k) by (done || by apply interior_inside).
  rewrite decide_True by done.
  replace (Z.to_nat (Z.of_nat s)) with s by lia.
  replace (Z.to_nat (Z.of_nat r + 1) - 1)%nat with r by lia.
  replace (Z.to_nat (Z.of_nat c + 1) - 1)%nat with c by lia.
  destruct (lookup_lt_is_Some_2 a s) as [row Hrow]; [lia|].
  pose proof (Forall_lookup_1 _ _ _ _ Ha Hrow) as Hlen. cbn in Hlen.
  unfold lcell. rewrite Hrow, Hr, Hc. cbn [mbind option_bind].
  destruct (proj2 (cell_shape k k (reshape k k row) r c (reshape_shape k k row Hlen)))
    as [x Hx]; [done|]. by rewrite Hx.
Qed.

Lemma interior_at_board m k t :
  interior m k k t →
  ∃ s r c, t = at_board s r c ∧ (s < m)%nat ∧ (r < k)%nat ∧ (c < k)%nat.
Proof.
  destruct t as [[s r] c]. unfold interior, at_board. simpl. intros (Hs & Hr & Hc).
  exists (Z.to_nat s), (Z.to_nat (r - 1)), (Z.to_nat (c - 1)).
  split; [f_equal; [f_equal|]; lia|lia].
Qed.

Lemma at_board_inj s r c s' r' c' :
  at_board s r c = at_board s' r' c' → s = s' ∧ r = r' ∧ c = c'.
Proof. unfold at_board. intros [= ? ? ?]. lia. Qed.

(** *** Where the cascade starts *)








Section FirstCall.
Context (g : Game) (k : nat).
Hypothesis Hfresh : fresh g k.

Local Abbreviation G := (padded g (grids g)).
Local Abbreviation P0 := (padded g (states g)).
Local Abbreviation m := (n g).
Local Abbreviation reached := (Cascade.reached g).

Lemma states_rows : length (states g) = m ∧ Forall (λ row, length row = (k * k)%nat) (states g).
Proof using Hfresh.
  rewrite (fresh_states g k Hfresh). split; [by rewrite length_replicate|].
  apply Forall_replicate. by rewrite length_replicate.
Qed.

Lemma G_shape : shape3 m (k + 2) (k + 2) G.
Proof using Hfresh.
  apply padded_shape; [apply Hfresh..].
Qed.

Lemma G_board s r c :
  (s < m)%nat → (r < k)%nat → (c < k)%nat →
  get3 G (at_board s r c) = lcell g (grids g) s r c.
Proof using Hfresh. apply get3_padded_board; apply Hfresh. Qed.

Lemma lcell_fresh s r c :
  (s < m)%nat → (r < k)%nat → (c < k)%nat → lcell g (states g) s r c = Some 0.
Proof using Hfresh.
  intros Hs Hr Hc. unfold lcell.
  rewrite (fresh_states g k Hfresh), (fresh_rows g k Hfresh), (fresh_columns g k Hfresh).
  rewrite lookup_replicate_2 by done. cbn [mbind option_bind].
  rewrite cell_reshape by done. apply lookup_replicate_2. nia.
Qed.

Lemma P0_padinv : padinv m k k P0.
Proof using Hfresh.
  destruct states_rows as [Hl Hrows]. split.
  - apply padded_shape; [apply Hfresh..|done|done].
  - intros [[s r] c] v Hin Hv.
    rewrite (get3_padded g _ m k) in Hv by (done || apply Hfresh).
    injection Hv as <-. case_decide as Hi; [|done]. split; [|done]. intros _.
    destruct (interior_at_board _ _ _ Hi) as (s' & r' & c' & [= -> -> ->] & Hs & Hr & Hc).
    left. replace (Z.to_nat (Z.of_nat s')) with s' by lia.
    replace (Z.to_nat (Z.of_nat r' + 1) - 1)%nat with r' by lia.
    replace (Z.to_nat (Z.of_nat c' + 1) - 1)%nat with c' by lia.
    by rewrite lcell_fresh.
Qed.

Lemma P0_hidden t : interior m k k t → hidden P0 t.
Proof using Hfresh.
  intros Hi. destruct (interior_at_board _ _ _ Hi) as (s & r & c & -> & Hs & Hr & Hc).
  destruct states_rows as [Hl Hrows]. unfold hidden.
  rewrite (get3_padded_board g _ m k) by (done || apply Hfresh).
  by apply lcell_fresh.
Qed.

Lemma reach_zero s r c :
  reach g s r c → (s < m)%nat ∧ (r < k)%nat ∧ (c < k)%nat ∧ zero g s r c.
Proof using Hfresh.
  intros H. destruct H as [r c Hst|r c r' c' _ _ Hz].
  - destruct Hst as (cs & Hcs & Hin).
    destruct (start_cells_spec g k Hfresh) as (cs' & Hcs' & Hspec).
    rewrite Hcs in Hcs'. injection Hcs' as <-.
    destruct (Hspec _ Hin) as (s' & r' & c' & E & ? & ? & ? & ?).
    apply (at_board_inj s r c s' r' c') in E as (-> & -> & ->). done.
  - destruct (lcell_Some g k (grids g) s r' c' 0) as (? & ? & ?);
      [apply Hfresh..|done|].
    rewrite (fresh_grids g k Hfresh) in *. done.
Qed.

Lemma reached_closed x i j :
  reached x → (i, j) ∈ offsets9 → interior m k k (shift i j x) →
  get3 G (shift i j x) = Some 0 → reached (shift i j x).
Proof using Hfresh.
  intros (s & r & c & -> & Hreach) Ho Hi Hz.
  destruct (interior_at_board _ _ _ Hi) as (s' & r' & c' & E & Hs & Hr & Hc).
  assert (s' = s ∧ Z.of_nat r' = Z.of_nat r + i ∧ Z.of_nat c' = Z.of_nat c + j)
    as (-> & Hr' & Hc').
  { unfold shift, at_board in E. injection E as ? ? ?. lia. }
  rewrite E in Hz |- *. exists s, r', c'. split; [done|].
  apply (reach_step g s r c r' c'); [done| |].
  - apply offsets9_bounds in Ho. unfold near. lia.
  - unfold zero. by rewrite <- G_board.
Qed.

(** The opened board cells after the first call. *)
Lemma lcell_states_result (P' : batch) g' s r c :
  shape3 m (k + 2) (k + 2) P' →
  rows g' = k → columns g' = k →
  states g' = map (λ p, flatten (inner p)) P' →
  (s < m)%nat → (r < k)%nat → (c < k)%nat →
  lcell g' (states g') s r c = get3 P' (at_board s r c).
Proof.
  intros HS Hr Hc Hst Hs Hrk Hck.
  pose proof (interior_inside _ _ _ _ (at_board_interior m k s r c Hs Hrk Hck)) as Hin.
  unfold at_board in *.
  rewrite (get3_inside m (k + 2) (k + 2)) by done.
  destruct HS as [Hlen Hall].
  destruct (lookup_lt_is_Some_2 P' s) as [p Hp]; [lia|].
  pose proof (Forall_lookup_1 _ _ _ _ Hall Hp) as Hshape.
  unfold lcell. rewrite Hst, list_lookup_fmap, Hr, Hc.
  replace (Z.to_nat (Z.of_nat s)) with s by lia. rewrite Hp.
  cbn [fmap option_fmap option_map mbind option_bind].
  rewrite reshape_flatten by (by apply inner_shape).
  rewrite (cell_inner k k) by done. unfold cell.
  replace (Z.to_nat (Z.of_nat r + 1)) with (S r) by lia.
  by replace (Z.to_nat (Z.of_nat c + 1)) with (S c) by lia.
Qed.

Lemma open_zero_unfold fuel cs (P' : batch) sc' :
  start_cells g = Some cs →
  open_zero_rec fuel G cs (P0, scores g) = Some (P', sc') →
  ∃ g', open_zero fuel g = Some g' ∧
    rows g' = rows g ∧ columns g' = columns g ∧ grids g' = grids g ∧
    fields g' = fields g ∧ states g' = map (λ p, flatten (inner p)) P'.
Proof.
  intros H1 H2. unfold open_zero. rewrite H1. cbn [mbind option_bind].
  rewrite H2. cbn [mbind option_bind]. eexists. by split_and!.
Qed.

Lemma open_zero_cascade fuel :
  (m * (k * k) < fuel)%nat →
  ∃ g', open_zero fuel g = Some g' ∧
    rows g' = k ∧ columns g' = k ∧ grids g' = grids g ∧ fields g' = fields g ∧
    ∀ s r c, (s < m)%nat → (r < k)%nat → (c < k)%nat →
      (opened g' s r c ↔ ∃ zr zc, reach g s zr zc ∧ near zr zc r c) ∧
      (opened g' s r c ∨ lcell g' (states g') s r c = Some 0).
Proof using Hfresh.
  intros Hfuel.
  destruct (start_cells_spec g k Hfresh) as (cs & Hcs & Hspec).
  pose proof P0_padinv as HP0. pose proof G_shape as HG.
  assert (Forall (λ x, interior m k k x ∧ reached x) cs) as Hfront.
  { apply Forall_forall. intros x Hx.
    destruct (Hspec x Hx) as (s & r & c & -> & Hs & Hr & Hc & Hz). split.
    - by apply at_board_interior.
    - exists s, r, c. split; [done|]. apply reach_start. by exists cs. }
  destruct (rec_spec m k k G HG reached reached_closed fuel cs P0 (scores g) HP0 Hfront)
    as (P' & sc' & Hrec & (HP' & Hext & Hsound & Hopen) & Hexp).
  { pose proof (mu_bound m k k P0). lia. }
  assert (expanded m k k G (λ _, False) P') as Hexpanded.
  { apply Hexp. intros z Hzi H1 _ _. pose proof (P0_hidden z Hzi) as Hh.
    unfold hidden in Hh. congruence. }
  (* every reached cell is open *)
  assert (∀ s r c, reach g s r c → get3 P' (at_board s r c) = Some 1) as Hreach.
  { intros s r c H. induction H as [r c (cs' & Hcs' & Hin)|r c r' c' H IH Hnear Hz].
    - rewrite Hcs in Hcs'. injection Hcs' as <-.
      destruct (Hspec _ Hin) as (s' & r' & c' & E & Hs & Hr & Hc & _).
      apply at_board_inj in E as (<- & <- & <-).
      apply (not_hidden_open m k k); [done|by apply at_board_interior|].
      rewrite <- (shift_at_board s r c r c). rewrite !Z.sub_diag.
      apply Hopen; [done|]. by apply offsets9_bounds.
    - destruct (reach_zero s r c H) as (Hs & Hr & Hc & Hz0).
      destruct (lcell_Some g k (grids g) s r' c' 0) as (_ & Hr' & Hc');
        [apply Hfresh..|done|].
      apply (not_hidden_open m k k); [done|by apply at_board_interior|].
      rewrite <- (shift_at_board s r c r' c').
      apply (Hexpanded (at_board s r c)); [by apply at_board_interior|done| |tauto|].
      + by rewrite G_board.
      + apply offsets9_bounds. unfold near in Hnear. lia. }
  destruct (open_zero_unfold fuel cs P' sc' Hcs Hrec)
    as (g' & Hg' & Hrows & Hcols & Hgrids & Hfields & Hstates).
  rewrite (fresh_rows g k Hfresh) in Hrows. rewrite (fresh_columns g k Hfresh) in Hcols.
  exists g'. split_and!; [done..|].
  intros s r c Hs Hr Hc.
  pose proof (at_board_interior m k s r c Hs Hr Hc) as Hi.
  pose proof (interior_inside _ _ _ _ Hi) as Hin.
  unfold opened.
  rewrite (lcell_states_result P') by (done || apply HP').
  split.
  - split.
    + intros H1.
      destruct (Hsound (at_board s r c) Hin (P0_hidden _ Hi) H1)
        as (x & i & j & (s' & zr & zc & -> & Hre) & Ho & E).
      exists zr, zc. apply offsets9_bounds in Ho.
      unfold shift, at_board in E. injection E as ? ? ?.
      assert (s' = s) as -> by lia. split; [done|]. unfold near. lia.
    + intros (zr & zc & Hre & Hnear).
      destruct (reach_zero s zr zc Hre) as (_ & Hzr & Hzc & Hz0).
      apply (not_hidden_open m k k); [done..|].
      rewrite <- (shift_at_board s zr zc r c).
      apply (Hexpanded (at_board s zr zc));
        [by apply at_board_interior|by apply Hreach| |tauto|].
      * by rewrite G_board.
      * apply offsets9_bounds. unfold near in Hnear. lia.
  - destruct HP' as [HS' HV'].
    destruct (get3_is_Some _ _ _ P' _ HS' Hin) as [v Hv].
    destruct (HV' _ v Hin Hv) as [[->| ->] _]; auto.
Qed.

End FirstCall.

(** *** Constructed games *)

Lemma length_flatten h w (b : grid) : has_shape h w b → length (flatten b) = (h * w)%nat.
Proof.
  intros [Hh Hw]. subst h. unfold flatten.
  induction Hw as [|row b Hrow _ IH]; [done|].
  simpl. rewrite length_app, IH, Hrow. lia.
Qed.

Lemma zeros_shape h w : has_shape h w (zeros h w).
Proof.
  unfold zeros. split; [by rewrite length_replicate|].
  apply Forall_replicate. by rewrite length_replicate.
Qed.

Lemma shift_sum_shape add h w (b acc : grid) :
  has_shape h w b → has_shape h w acc →
  has_shape h w (shift_sum add h w (pad w 0 b) acc).
Proof.
  intros Hb Hacc. unfold shift_sum, offsets. cbn [foldl].
  repeat apply map2_shape; try done; apply shifted_shape; (done || lia).
Qed.

Lemma length_compute_grid h w field :
  length field = (h * w)%nat → length (compute_grid h w field) = (h * w)%nat.
Proof.
  intros Hlen. unfold compute_grid. rewrite length_zip_with.
  rewrite (length_flatten h w).
  - lia.
  - apply shift_sum_shape; [by apply reshape_shape|apply zeros_shape].
Qed.

Lemma length_set_ones (l : list nat) (row : list Z) :
  length (foldr (λ k row, <[k := 1]> row) row l) = length row.
Proof. induction l as [|k l IH]; [done|]. simpl. by rewrite length_insert. Qed.

Lemma init_fresh choice k mines0 n0 g :
  (0 < k)%nat → init choice k k mines0 n0 = Some g → n g = n0 ∧ fresh g k.
Proof.
  intros Hk. unfold init, reset. simpl.
  destruct (_compute_fields choice n0 (k * k) mines0) as [fs|] eqn:Hfs; simpl; [|done].
  intros [= <-]. split; [done|].
  assert (length fs = n0 ∧ Forall (λ row, length row = (k * k)%nat) fs) as [Hlen Hrows].
  { unfold _compute_fields in Hfs. case_decide; [simplify_eq; by split|].
    case_decide; [|done]. injection Hfs as <-.
    split; [by rewrite length_map, length_seq|].
    apply Forall_fmap, Forall_true. intros i. cbn.
    by rewrite length_set_ones, length_replicate. }
  split; simpl; try done.
  - by rewrite length_map.
  - apply Forall_fmap. eapply Forall_impl; [exact Hrows|].
    intros row Hrow. cbn in *. by apply length_compute_grid.
Qed.

(** *** No mine is opened on a square board *)

Lemma set_ones_binary (l : list nat) (row : list Z) :
  Forall (λ x, x = 0 ∨ x = 1) row →
  Forall (λ x, x = 0 ∨ x = 1) (foldr (λ k row, <[k := 1]> row) row l).
Proof.
  intros Hrow. induction l as [|k l IH]; [done|]. simpl.
  apply Forall_insert; auto.
Qed.

Lemma flatten_lookup h w (b : grid) (r c : nat) :
  has_shape h w b → (r < h)%nat → (c < w)%nat →
  flatten b !! (r * w + c)%nat = cell b r c.
Proof.
  intros Hb Hr Hc. rewrite <- (cell_reshape h w) by done.
  by rewrite reshape_flatten.
Qed.

(** A zero of [compute_grid] has no mine on it or next to it. *)
Lemma compute_grid_zero h w field (r c : nat) (i j : Z) :
  length field = (h * w)%nat → Forall (λ x, x = 0 ∨ x = 1) field →
  (r < h)%nat → (c < w)%nat →
  compute_grid h w field !! (r * w + c)%nat = Some 0 →
  -1 ≤ i ≤ 1 → -1 ≤ j ≤ 1 →
  cellZ (reshape h w field) (Z.of_nat r + i) (Z.of_nat c + j) = 0.
Proof.
  intros Hlen Hbin Hr Hc Hz Hi Hj.
  pose proof (reshape_shape h w field Hlen) as Hs.
  assert (binary (reshape h w field)) as Hb by (by apply reshape_Forall).
  unfold compute_grid in Hz. apply lookup_zip_with_Some in Hz as (x & y & Hxy & Hx & Hy).
  pose proof (shift_sum_shape Z.add h w _ _ Hs (zeros_shape h w)) as Hsum.
  rewrite (flatten_lookup h w) in Hy by done.
  destruct (x =? 0) eqn:E; [|done]. apply Z.eqb_eq in E. subst x y.
  rewrite <- (cell_reshape h w) in Hx by done.
  pose proof (cellZ_cell _ r c 0 Hx) as Hx0.
  unfold shift_sum, offsets in Hy. cbn [foldl] in Hy.
  rewrite !cell_map2 in Hy.
  rewrite !cell_shifted in Hy by (done || lia).
  assert (cell (zeros h w) r c = Some 0) as Hzero.
  { unfold cell, zeros. rewrite lookup_replicate_2 by done. simpl.
    by rewrite lookup_replicate_2. }
  rewrite Hzero in Hy. cbn [mbind option_bind] in Hy. injection Hy as Hy.
  pose proof (cellZ_binary (reshape h w field) (Z.of_nat r + -1) (Z.of_nat c + -1) Hb).
  pose proof (cellZ_binary (reshape h w field) (Z.of_nat r + -1) (Z.of_nat c + 0) Hb).
  pose proof (cellZ_binary (reshape h w field) (Z.of_nat r + -1) (Z.of_nat c + 1) Hb).
  pose proof (cellZ_binary (reshape h w field) (Z.of_nat r + 0) (Z.of_nat c + -1) Hb).
  pose proof (cellZ_binary (reshape h w field) (Z.of_nat r + 0) (Z.of_nat c + 0) Hb).
  pose proof (cellZ_binary (reshape h w field) (Z.of_nat r + 0) (Z.of_nat c + 1) Hb).
  pose proof (cellZ_binary (reshape h w field) (Z.of_nat r + 1) (Z.of_nat c + -1) Hb).
  pose proof (cellZ_binary (reshape h w field) (Z.of_nat r + 1) (Z.of_nat c + 0) Hb).
  pose proof (cellZ_binary (reshape h w field) (Z.of_nat r + 1) (Z.of_nat c + 1) Hb).
  assert (i = -1 ∨ i = 0 ∨ i = 1) as [->|[->| ->]] by lia;
  assert (j = -1 ∨ j = 0 ∨ j = 1) as [->|[->| ->]] by lia; lia.
Qed.

Lemma square_cascade_safe choice k mines0 n0 g fuel g' s r c :
  (0 < k)%nat → init choice k k mines0 n0 = Some g →
  (n0 * (k * k) < fuel)%nat → open_zero fuel g = Some g' →
  (s < n0)%nat → (r < k)%nat → (c < k)%nat →
  opened g' s r c → lcell g (fields g) s r c = Some 0.
Proof.
  intros Hk Hinit Hfuel Hopen Hs Hr Hc Hop.
  destruct (init_fresh choice k mines0 n0 g Hk Hinit) as [Hn Hfresh].
  destruct (open_zero_cascade g k Hfresh fuel) as (g'' & Hopen' & _ & _ & _ & _ & Hspec);
    [by rewrite Hn|].
  rewrite Hopen in Hopen'. injection Hopen' as <-.
  destruct (Hspec s r c) as [[Hreach _] _]; [by rewrite Hn|done..|].
  destruct (Hreach Hop) as (zr & zc & Hre & Hnear).
  destruct (reach_zero g k Hfresh s zr zc Hre) as (_ & Hzr & Hzc & Hz).
  (* the fields and grids of the constructed game *)
  unfold init, reset in Hinit. simpl in Hinit.
  destruct (_compute_fields choice n0 (k * k) mines0) as [fs|] eqn:Hfs; simpl in Hinit; [|done].
  injection Hinit as <-. unfold zero, lcell in *. simpl in *.
  rewrite list_lookup_fmap in Hz.
  destruct (fs !! s) as [field|] eqn:Hfield; [|done]. cbn in Hz |- *.
  assert (length field = (k * k)%nat ∧ Forall (λ x, x = 0 ∨ x = 1) field) as [Hlen Hbin].
  { unfold _compute_fields in Hfs. case_decide; [by simplify_eq|].
    case_decide; [|done]. injection Hfs as <-.
    apply list_lookup_fmap_Some in Hfield as (i & -> & _). split.
    - by rewrite length_set_ones, length_replicate.
    - apply set_ones_binary, Forall_replicate. by left. }
  rewrite cell_reshape in Hz by (done || by rewrite length_compute_grid).
  pose proof (compute_grid_zero k k field zr zc
                (Z.of_nat r - Z.of_nat zr) (Z.of_nat c - Z.of_nat zc)
                Hlen Hbin Hzr Hzc Hz) as Hcell.
  unfold near in Hnear.
  replace (Z.of_nat zr + (Z.of_nat r - Z.of_nat zr)) with (Z.of_nat r) in Hcell by lia.
  replace (Z.of_nat zc + (Z.of_nat c - Z.of_nat zc)) with (Z.of_nat c) in Hcell by lia.
  destruct (proj2 (cell_shape k k (reshape k k field) r c (reshape_shape k k field Hlen)))
    as [x Hx]; [done|].
  rewrite Hx. f_equal. rewrite <- Hcell by lia. symmetry. by apply cellZ_cell.
Qed.

(** [demo_square] is the game [__init__] builds when the mine is drawn at
    flat index 8, and its cascade opens every cell but the mine. *)
Lemma demo_square_init : init (λ _, [8%nat]) 3 3 1 1 = Some demo_square.
Proof. vm_compute. reflexivity. Qed.

Lemma demo_square_cascade :
  states <$> open_zero 10 demo_square = Some [[1; 1; 1; 1; 1; 1; 1; 1; 0]].
Proof. vm_compute. reflexivity. Qed.

(** *** The two [open_zero] side by side *)



End CascadeFacts.

(** * Selections *)
Module ViewsFacts.
Import Np Views NpFacts.

Lemma length_rows_of {A} v (b : list A) : fits v b → length (rows_of v b) = len v.
Proof.
  unfold fits, rows_of, sub. intros H. rewrite length_take, length_drop. lia.
Qed.

Lemma length_put_rows {A} v (new b : list A) :
  fits v b → length new = len v → length (put_rows v new b) = length b.
Proof.
  unfold fits, put_rows. intros H Hn.
  rewrite !length_app, length_take, length_drop. lia.
Qed.

Lemma rows_of_put_rows {A} v (new b : list A) :
  fits v b → length new = len v → rows_of v (put_rows v new b) = new.
Proof.
  unfold fits, rows_of, put_rows, sub. intros H Hn.
  rewrite drop_app_length' by (rewrite length_take; lia).
  by rewrite take_app_length' by done.
Qed.

Lemma clamp_le n z : (clamp n z ≤ n)%nat.
Proof. unfold clamp. destruct (Z.ltb_spec z 0); lia. Qed.

Lemma slice_lo_le n lo : (slice_lo n lo ≤ n)%nat.
Proof. destruct lo; simpl; [apply clamp_le|lia]. Qed.

Lemma slice_hi_le n hi : (slice_hi n hi ≤ n)%nat.
Proof. destruct hi; simpl; [apply clamp_le|lia]. Qed.

Lemma window_Some {A} v (b bo : list A) :
  window v b = Some bo ↔ fits v b ∧ bo = rows_of v b.
Proof.
  unfold window, fits. case_decide; split.
  - by intros [= <-].
  - by intros [_ ->].
  - done.
  - by intros [? _].
Qed.

(** A slice of a window is the window of the slice. *)
Lemma window_slice_view {A} lo hi v (b bo : list A) :
  window v b = Some bo → window (slice_view lo hi v) b = Some (selected lo hi bo).
Proof.
  rewrite !window_Some. intros [Hfit ->].
  pose proof (slice_lo_le (len v) lo) as Hlo.
  pose proof (slice_hi_le (len v) hi) as Hhi.
  unfold selected. rewrite (length_rows_of v b Hfit).
  split; [unfold fits in *; simpl; lia|].
  unfold rows_of, sub. simpl. apply list_eq. intros i.
  rewrite !lookup_take. case_decide as Hi; [|done].
  rewrite !lookup_drop, lookup_take_lt by lia. rewrite lookup_drop. f_equal. lia.
Qed.

Lemma read_cells_slice h lo hi v b :
  read_cells h v = Some b → read_cells h (slice_view lo hi v) = Some (selected lo hi b).
Proof.
  unfold read_cells. simpl. destruct (h !! base v) as [[buf| |]|]; try done.
  apply window_slice_view.
Qed.

Lemma read_bools_slice h lo hi v b :
  read_bools h v = Some b → read_bools h (slice_view lo hi v) = Some (selected lo hi b).
Proof.
  unfold read_bools. simpl. destruct (h !! base v) as [[|buf|]|]; try done.
  apply window_slice_view.
Qed.

(** *** Reading after writing *)

Lemma read_cells_write_other h v new v' :
  base v ≠ base v' → read_cells (write_cells h v new) v' = read_cells h v'.
Proof.
  intros Hne. unfold read_cells, write_cells.
  destruct (h !! base v) as [[b| |]|]; try done.
  by rewrite list_lookup_insert_ne.
Qed.

Lemma read_cells_write_bools h v new v' :
  read_cells (write_bools h v new) v' = read_cells h v'.
Proof.
  unfold read_cells, write_bools.
  destruct (h !! base v) as [[|b|]|] eqn:E; try done.
  destruct (decide (base v = base v')) as [Heq|Hne].
  - rewrite <- Heq, E. rewrite list_lookup_insert_eq; [done|]. by eapply lookup_lt_Some.
  - by rewrite list_lookup_insert_ne.
Qed.

Lemma read_cells_app h x v b : read_cells h v = Some b → read_cells (h ++ x) v = Some b.
Proof.
  unfold read_cells. destruct (h !! base v) as [buf|] eqn:E; [|done].
  rewrite lookup_app_l by (by eapply lookup_lt_Some). by rewrite E.
Qed.

Lemma read_cells_write_same h v new old :
  read_cells h v = Some old → length new = length old →
  read_cells (write_cells h v new) v = Some new.
Proof.
  unfold read_cells, write_cells.
  destruct (h !! base v) as [[b| |]|] eqn:E; try done.
  rewrite window_Some. intros [Hfit ->] Hlen. rewrite length_rows_of in Hlen by done.
  rewrite list_lookup_insert_eq by (by eapply lookup_lt_Some).
  apply window_Some. split.
  - unfold fits. rewrite length_put_rows by done. exact Hfit.
  - by rewrite rows_of_put_rows.
Qed.

(** Writing through a window keeps every window on that buffer readable. *)
Lemma read_cells_write_alias h v new old v' :
  read_cells h v = Some old → length new = length old →
  is_Some (read_cells h v') → is_Some (read_cells (write_cells h v new) v').
Proof.
  intros Hv Hlen [b' Hv'].
  destruct (decide (base v = base v')) as [Heq|Hne];
    [|rewrite read_cells_write_other by done; by eexists].
  unfold read_cells, write_cells in *. rewrite <- Heq in *.
  destruct (h !! base v) as [[b| |]|] eqn:E; try done.
  apply window_Some in Hv as [Hfit ->]. apply window_Some in Hv' as [Hfit' ->].
  rewrite length_rows_of in Hlen by done.
  rewrite list_lookup_insert_eq by (by eapply lookup_lt_Some).
  eexists. apply window_Some. split; [|done].
  unfold fits. rewrite length_put_rows by done. exact Hfit'.
Qed.

(** *** A move on a selection *)

Lemma engine_move_lengths to_open to_flag eg eg' correct :
  Engine.move to_open to_flag eg = Some (eg', correct) →
  length (Engine.open_cells eg') = length (Engine.open_cells eg) ∧
  length (Engine.flags eg') = length (Engine.flags eg) ∧
  length (Engine.last_opened eg') = length (Engine.last_opened eg) ∧
  length (Engine.last_flagged eg') = length (Engine.last_flagged eg).
Proof.
  unfold Engine.move. case_match; [done|]. intros [= <- _]. simpl.
  unfold Engine.merge. by rewrite !length_scatter.
Qed.

Lemma separate_bases o :
  separate o →
  base (last_opened o) ≠ base (last_flagged o) ∧
  base (last_opened o) ≠ base (open_cells o) ∧
  base (last_opened o) ≠ base (flags o) ∧
  base (last_flagged o) ≠ base (open_cells o) ∧
  base (last_flagged o) ≠ base (flags o) ∧
  base (open_cells o) ≠ base (flags o).
Proof.
  unfold separate. rewrite !NoDup_cons, !not_elem_of_cons.
  intros H. split_and!; intros E; rewrite E in H; tauto.
Qed.

Lemma load_Some h o eg :
  load h o = Some eg →
  read_cells h (open_cells o) = Some (Engine.open_cells eg) ∧
  read_cells h (flags o) = Some (Engine.flags eg) ∧
  read_cells h (last_opened o) = Some (Engine.last_opened eg) ∧
  read_cells h (last_flagged o) = Some (Engine.last_flagged eg).
Proof.
  unfold load. intros H.
  repeat match type of H with
  | (match ?x with _ => _ end) = _ => destruct x eqn:?; simpl in H; [|done]
  | context [mbind _ ?x] => destruct x eqn:?; simpl in H; [|done]
  end.
  by simplify_eq.
Qed.

Section Selection.
Context (h : store) (o : Game) (lo hi : option Z).

Local Abbreviation selection := (selection lo hi o).

Hypothesis Hsep : separate o.
Hypothesis Hload : is_Some (load h o).

Lemma move_selection_writes_through to_open to_flag g' h' correct :
  move to_open to_flag selection h = Some (g', h', correct) →
  ∃ eg eg',
    load h selection = Some eg ∧
    Engine.move to_open to_flag eg = Some (eg', correct) ∧
    (∃ b, read_cells h' (open_cells o) = Some b ∧
          selected lo hi b = Engine.open_cells eg') ∧
    (∃ b, read_cells h' (flags o) = Some b ∧
          selected lo hi b = Engine.flags eg') ∧
    (∃ b, read_cells h' (last_opened o) = Some b ∧
          selected lo hi b = Engine.last_opened eg') ∧
    (∃ b, read_cells h' (last_flagged o) = Some b ∧
          selected lo hi b = Engine.last_flagged eg').
Proof using Hsep Hload.
  unfold move. destruct (load h selection) as [eg|] eqn:Hg; simpl; [|done].
  destruct (Engine.move to_open to_flag eg) as [[eg' c]|] eqn:Hmove; simpl; [|done].
  intros [= <- <- <-]. exists eg, eg'. split; [done|]. split; [done|].
  destruct Hload as [eo Ho].
  destruct (load_Some h o eo Ho) as (Ro & Rf & Rlo & Rlf).
  destruct (load_Some h selection eg Hg) as (So & Sf & Slo & Slf). simpl in *.
  destruct (engine_move_lengths _ _ _ _ _ Hmove) as (Lo & Lf & Llo & Llf).
  destruct (separate_bases o Hsep) as (N1 & N2 & N3 & N4 & N5 & N6).
  set (v1 := slice_view lo hi (last_opened o)) in *.
  set (v2 := slice_view lo hi (last_flagged o)) in *.
  set (v3 := slice_view lo hi (active_games o)) in *.
  set (v4 := slice_view lo hi (open_cells o)) in *.
  set (v5 := slice_view lo hi (flags o)) in *.
  set (h1 := write_cells h v1 (Engine.last_opened eg')).
  set (h2 := write_cells h1 v2 (Engine.last_flagged eg')).
  set (h3 := write_bools h2 v3 (Engine.active_games eg')).
  set (h4 := write_cells h3 v4 (Engine.open_cells eg')).
  set (h5 := write_cells h4 v5 (Engine.flags eg')).
  (* the windows of the selection after the writes *)
  assert (read_cells h5 v1 = Some (Engine.last_opened eg')) as W1.
  { unfold h5, h4, h3, h2, h1.
    rewrite !read_cells_write_other, read_cells_write_bools,
      read_cells_write_other by (simpl; congruence).
    by eapply read_cells_write_same. }
  assert (read_cells h5 v2 = Some (Engine.last_flagged eg')) as W2.
  { unfold h5, h4, h3, h2.
    rewrite !read_cells_write_other, read_cells_write_bools by (simpl; congruence).
    eapply read_cells_write_same; [|done].
    unfold h1. by rewrite read_cells_write_other by (simpl; congruence). }
  assert (read_cells h5 v4 = Some (Engine.open_cells eg')) as W4.
  { unfold h5. rewrite read_cells_write_other by (simpl; congruence).
    eapply read_cells_write_same; [|done].
    unfold h3, h2, h1.
    by rewrite read_cells_write_bools, !read_cells_write_other by (simpl; congruence). }
  assert (read_cells h5 v5 = Some (Engine.flags eg')) as W5.
  { eapply read_cells_write_same; [|done].
    unfold h4, h3, h2, h1.
    by rewrite read_cells_write_other, read_cells_write_bools,
      !read_cells_write_other by (simpl; congruence). }
  (* the windows of the original stay readable, and show the same rows *)
  assert (∀ v b0, read_cells h v = Some b0 → is_Some (read_cells h5 v)) as Hkeep.
  { intros v b0 Hv. unfold h5, h4, h3, h2, h1.
    eapply read_cells_write_alias; [|done|].
    { unfold h4, h3, h2, h1.
      by rewrite read_cells_write_other, read_cells_write_bools,
        !read_cells_write_other by (simpl; congruence). }
    eapply read_cells_write_alias; [|done|].
    { unfold h3, h2, h1.
      by rewrite read_cells_write_bools, !read_cells_write_other by (simpl; congruence). }
    rewrite read_cells_write_bools.
    eapply read_cells_write_alias; [|done|].
    { unfold h1. by rewrite read_cells_write_other by (simpl; congruence). }
    eapply read_cells_write_alias; [done|done|]. by eexists. }
  assert (∀ v new b0, read_cells h v = Some b0 →
            read_cells h5 (slice_view lo hi v) = Some new →
            ∃ b, read_cells (h5 ++ [Bools (Engine.won eg')]) v = Some b ∧
                 selected lo hi b = new) as Hshare.
  { intros v new b0 Hv Hnew. destruct (Hkeep v b0 Hv) as [b Hb].
    exists b. split; [by apply read_cells_app|].
    apply (read_cells_slice _ lo hi) in Hb. congruence. }
  split_and!; eapply Hshare; eauto.
Qed.

End Selection.

(** C8, on the code: [g = G[1]] followed by a move on [g] that reveals a
    cell changes the revealed array of [G]. *)
Lemma selection_move_changes_original :
  ∃ g g' h' correct,
    getitem (KInt 1) demo_object demo_store = Some (g, demo_store) ∧
    move (Some [[[1; 0]; [0; 0]]]) None g demo_store = Some (g', h', correct) ∧
    read_cells demo_store (open_cells demo_object)
      = Some [[[0; 0]; [0; 0]]; [[0; 0]; [0; 0]]] ∧
    read_cells h' (open_cells demo_object)
      = Some [[[0; 0]; [0; 0]]; [[1; 0]; [0; 0]]].
Proof.
  eexists _, _, _, _. split; [reflexivity|].
  split; [vm_compute; reflexivity|]. split; vm_compute; reflexivity.
Qed.

Lemma getitem_int i o h :
  getitem (KInt i) o h = getitem (KSlice (Some i) (Some (i + 1))) o h.
Proof. done. Qed.

(** C8 as the code has it: for a slice key (an integer key [i] is the slice
    [i:i+1]) the per-cell arrays of the returned object are windows on the
    buffers of the original: in every store they show the selected rows of
    the original's arrays, and after a move on the returned object the
    original's revealed, marked, last-revealed and last-marked arrays hold,
    in the selected rows, what the move has written. *)
Theorem selection_shares_buffers h o lo hi :
  separate o → is_Some (load h o) →
  getitem (KSlice lo hi) o h = Some (selection lo hi o, h) ∧
  (∀ h' f b,
     f ∈ [mines; numbers; open_cells; flags; last_opened; last_flagged] →
     read_cells h' (f o) = Some b →
     read_cells h' (f (selection lo hi o)) = Some (selected lo hi b)) ∧
  (∀ to_open to_flag g' h' correct,
     move to_open to_flag (selection lo hi o) h = Some (g', h', correct) →
     ∃ eg eg',
       load h (selection lo hi o) = Some eg ∧
       Engine.move to_open to_flag eg = Some (eg', correct) ∧
       (∃ b, read_cells h' (open_cells o) = Some b ∧
             selected lo hi b = Engine.open_cells eg') ∧
       (∃ b, read_cells h' (flags o) = Some b ∧
             selected lo hi b = Engine.flags eg') ∧
       (∃ b, read_cells h' (last_opened o) = Some b ∧
             selected lo hi b = Engine.last_opened eg') ∧
       (∃ b, read_cells h' (last_flagged o) = Some b ∧
             selected lo hi b = Engine.last_flagged eg')).
Proof.
  intros Hsep Hload. split_and!.
  - done.
  - intros h' f b Hf Hb.
    repeat (apply elem_of_cons in Hf as [->|Hf]); try (by apply read_cells_slice).
    by apply elem_of_nil in Hf.
  - intros to_open to_flag g' h' correct.
    by apply move_selection_writes_through.
Qed.

Lemma selection_shares_buffers_witness :
  separate demo_object ∧ is_Some (load demo_store demo_object) ∧
  getitem (KSlice (Some 1) (Some 2)) demo_object demo_store
    = Some (selection (Some 1) (Some 2) demo_object, demo_store) ∧
  (∀ h' f b,
     f ∈ [mines; numbers; open_cells; flags; last_opened; last_flagged] →
     read_cells h' (f demo_object) = Some b →
     read_cells h' (f (selection (Some 1) (Some 2) demo_object))
       = Some (selected (Some 1) (Some 2) b)) ∧
  (∀ to_open to_flag g' h' correct,
     move to_open to_flag (selection (Some 1) (Some 2) demo_object) demo_store
       = Some (g', h', correct) →
     ∃ eg eg',
       load demo_store (selection (Some 1) (Some 2) demo_object) = Some eg ∧
       Engine.move to_open to_flag eg = Some (eg', correct) ∧
       (∃ b, read_cells h' (open_cells demo_object) = Some b ∧
             selected (Some 1) (Some 2) b = Engine.open_cells eg') ∧
       (∃ b, read_cells h' (flags demo_object) = Some b ∧
             selected (Some 1) (Some 2) b = Engine.flags eg') ∧
       (∃ b, read_cells h' (last_opened demo_object) = Some b ∧
             selected (Some 1) (Some 2) b = Engine.last_opened eg') ∧
       (∃ b, read_cells h' (last_flagged demo_object) = Some b ∧
             selected (Some 1) (Some 2) b = Engine.last_flagged eg')).
Proof.
  assert (separate demo_object) as Hsep.
  { unfold separate. apply (@bool_decide_unpack _ (NoDup_dec _)). vm_compute. reflexivity. }
  assert (is_Some (load demo_store demo_object)) as Hload.
  { eexists. vm_compute. reflexivity. }
  split; [exact Hsep|]. split; [exact Hload|].
  exact (selection_shares_buffers demo_store demo_object (Some 1) (Some 2) Hsep Hload).
Defined.

End ViewsFacts.

(** * What a game reports *)
Module ReportsFacts.
Import Np Utils Engine Reports NpFacts EngineFacts GeneratorFacts.

Lemma cell_map (f : Z → Z) (a : grid) r c : cell (map (map f) a) r c = f <$> cell a r c.
Proof.
  unfold cell. rewrite list_lookup_fmap. destruct (a !! r) as [row|]; [|done].
  simpl. by rewrite list_lookup_fmap.
Qed.

Lemma lookup_bmap f (a : batch) i : bmap f a !! i = map (map f) <$> a !! i.
Proof. unfold bmap. apply list_lookup_fmap. Qed.

Lemma lookup_bmap2 f (a b : batch) i x y :
  a !! i = Some x → b !! i = Some y → bmap2 f a b !! i = Some (map2 f x y).
Proof. intros Ha Hb. unfold bmap2. by rewrite lookup_zip_with, Ha, Hb. Qed.

Lemma length_bmap2 f (a b : batch) : length a = length b → length (bmap2 f a b) = length a.
Proof. intros H. unfold bmap2. rewrite length_zip_with. lia. Qed.

Lemma length_bmap f (a : batch) : length (bmap f a) = length a.
Proof. unfold bmap. by rewrite length_map. Qed.

Lemma on_dec (b : grid) r c : Decision (on b r c).
Proof. unfold on. apply _. Qed.

(** *** The invariant *)

Lemma neighbour_mines_range m r c : binary m → 0 ≤ neighbour_mines m r c ≤ 8.
Proof.
  intros Hb. unfold neighbour_mines, neighbours. cbn [foldr].
  pose proof (cellZ_binary m (Z.of_nat r + -1) (Z.of_nat c + -1) Hb).
  pose proof (cellZ_binary m (Z.of_nat r + -1) (Z.of_nat c + 0) Hb).
  pose proof (cellZ_binary m (Z.of_nat r + -1) (Z.of_nat c + 1) Hb).
  pose proof (cellZ_binary m (Z.of_nat r + 0) (Z.of_nat c + -1) Hb).
  pose proof (cellZ_binary m (Z.of_nat r + 0) (Z.of_nat c + 1) Hb).
  pose proof (cellZ_binary m (Z.of_nat r + 1) (Z.of_nat c + -1) Hb).
  pose proof (cellZ_binary m (Z.of_nat r + 1) (Z.of_nat c + 0) Hb).
  pose proof (cellZ_binary m (Z.of_nat r + 1) (Z.of_nat c + 1) Hb).
  lia.
Qed.

Lemma on_zero_board (m : grid) r c : ¬ on (map (map (λ _, 0)) m) r c.
Proof.
  unfold on. rewrite cell_zero_board. destruct (cell m r c); by simpl.
Qed.

Lemma scatter_Forall {A} (P : A → Prop) mask vals xs :
  Forall P vals → Forall P xs → Forall P (scatter mask vals xs).
Proof.
  intros Hv Hx. revert mask vals Hv.
  induction Hx as [|x xs Hx Hxs IH]; intros mask vals Hv.
  - by destruct mask as [|[] ?].
  - destruct mask as [|[] mask]; [by constructor| |].
    + destruct Hv as [|v vs Hv Hvs]; simpl; constructor; auto.
    + simpl. constructor; auto.
Qed.

Lemma zeros_like_shapes h w (b : batch) :
  Forall (has_shape h w) b → zeros_like b = replicate (length b) (zeros h w).
Proof.
  induction 1 as [|x b [Hh Hw] _ IH]; [done|]. unfold zeros_like in *. cbn. f_equal; [|done].
  unfold zeros. rewrite <- Hh. clear Hh IH.
  induction Hw as [|row x Hrow _ IH]; [done|]. cbn. f_equal; [|done].
  rewrite <- Hrow. clear. induction row; [done|]. cbn. by f_equal.
Qed.

Lemma zeros_shapes h w k : Forall (has_shape h w) (replicate k (zeros h w)).
Proof.
  apply Forall_replicate, CascadeFacts.zeros_shape.
Qed.

Lemma init_sane permuted rws cols mn nn g :
  shuffles permuted → init permuted rws cols mn nn = Some g → sane g.
Proof.
  intros Hsh Hinit. pose proof (init_wf _ _ _ _ _ _ Hsh Hinit) as Hwf.
  destruct (init_inv _ _ _ _ _ _ Hinit) as (ms & Hms & ->).
  split; try done.
  - intros i m o f r c _ Ho Hf. cbn in Ho, Hf.
    rewrite zeros_like_lookup in Ho, Hf.
    destruct (ms !! i) as [m'|]; simplify_eq/=.
    split; intros H; by apply on_zero_board in H.
  - cbn. by destruct (generated_rows _ _ _ _ _ _ Hsh Hms) as [-> _].
  - cbn. rewrite (zeros_like_shapes rws cols); [apply zeros_shapes|].
    apply Forall_lookup. intros i m Hm. by eapply generated_board_ok.
  - cbn. rewrite (zeros_like_shapes rws cols); [apply zeros_shapes|].
    apply Forall_lookup. intros i m Hm. by eapply generated_board_ok.
Qed.

Lemma move_sound_marks g to_open to_flag g' correct :
  wf g → sound_marks g → request g to_open → request g to_flag →
  move (Some to_open) (Some to_flag) g = Some (g', correct) →
  sound_marks g'.
Proof.
  intros Hwf Hm Hopen Hflag Hmove i m o' f' r c Hmi Ho' Hf'.
  destruct (move_frame g g' to_open to_flag correct Hopen Hflag Hmove)
    as (_ & _ & _ & _ & _ & Hmines & _).
  rewrite Hmines in Hmi.
  destruct (slot_boards g Hwf i) as (m0 & o & f & a & ? & Ho & Hf & Ha & [Sm Bm] & [So Bo] & [Sf Bf]).
  { by eapply lookup_lt_Some. }
  simplify_eq. destruct (Hm i m o f r c) as [H1 H2]; [done..|].
  destruct a.
  - destruct (slot_requests g to_open to_flag Hopen Hflag i Ha)
      as (ro & rf & Hro & Hrf & [Sro Bro] & [Srf Brf]).
    destruct (move_slot_active g g' to_open to_flag correct Hwf Hopen Hflag Hmove
                i m o f ro rf) as (_ & Ho1 & Hf1 & _); [done..|].
    rewrite Ho1 in Ho'. rewrite Hf1 in Hf'. simplify_eq.
    destruct (correct_open m ro) eqn:E1, (correct_flag m rf) eqn:E2; simpl; try done.
    rewrite (correct_open_spec (rows g) (columns g)) in E1 by done.
    rewrite (correct_flag_spec (rows g) (columns g)) in E2 by done.
    rewrite !(lor_on (rows g) (columns g)) by done.
    split; intros [?|?]; auto. intros ?. by apply (E1 r c).
  - destruct (move_slot_inactive g g' to_open to_flag correct Hwf Hopen Hflag Hmove
                i m o f) as (Ho1 & Hf1 & _); [done..|].
    rewrite Ho1 in Ho'. rewrite Hf1 in Hf'. by simplify_eq.
Qed.

Lemma move_sane g to_open to_flag g' correct :
  sane g → request g to_open → request g to_flag →
  move (Some to_open) (Some to_flag) g = Some (g', correct) →
  sane g'.
Proof.
  intros [Hwf Hm Hnum Hn Hsz Hlo Hlf] Hopen Hflag Hmove.
  destruct (move_frame g g' to_open to_flag correct Hopen Hflag Hmove)
    as (En & Er & Ec & Es & _ & Emines & Enum).
  split.
  - by apply (move_wf g g' to_open to_flag correct).
  - by apply (move_sound_marks g to_open to_flag g' correct).
  - by rewrite Enum, Er, Ec, Emines.
  - by rewrite En, Emines.
  - by rewrite Es, Er, Ec.
  - rewrite Er, Ec. unfold move in Hmove. rewrite !request_ok_true in Hmove by done.
    injection Hmove as <- _. cbn. apply scatter_Forall; [|done].
    eapply Forall_impl; [exact (proj2 Hopen)|]. by intros ? [? _].
  - rewrite Er, Ec. unfold move in Hmove. rewrite !request_ok_true in Hmove by done.
    injection Hmove as <- _. cbn. apply scatter_Forall; [|done].
    eapply Forall_impl; [exact (proj2 Hflag)|]. by intros ? [? _].
Qed.

Lemma played_sane g0 g : sane g0 → played g0 g → sane g.
Proof. intros H0 Hp. induction Hp as [|g to_open to_flag g' correct _ IH Ho Hf Hmove]; [done|].
  by apply (move_sane g to_open to_flag g' correct). Qed.

Lemma played_frame g0 g :
  played g0 g →
  n g = n g0 ∧ rows g = rows g0 ∧ columns g = columns g0 ∧ size g = size g0 ∧
  mines_n g = mines_n g0 ∧ mines g = mines g0 ∧ numbers g = numbers g0.
Proof.
  intros Hp. induction Hp as [|g to_open to_flag g' correct _ IH Ho Hf Hmove]; [done|].
  destruct (move_frame g g' to_open to_flag correct Ho Hf Hmove)
    as (-> & -> & -> & -> & -> & -> & ->).
  done.
Qed.

Lemma demo_played_ok : played demo_generated demo_played.
Proof.
  apply (played_move _ demo_generated demo_move_open demo_move_flag demo_played [true; false]).
  - apply played_start.
  - apply requestb_request. vm_compute. reflexivity.
  - apply requestb_request. vm_compute. reflexivity.
  - vm_compute. reflexivity.
Qed.

(** Innermost [int8] operations first: none of them wraps on the values a
    game holds. *)
Ltac no_wrap :=
  unfold add8, mul8, sub8;
  repeat match goal with
         | |- context [wrap8 ?z] =>
             lazymatch z with
             | context [wrap8 _] => fail
             | _ => rewrite (wrap8_small z) by lia
             end
         end.

Lemma on_binary (b : grid) r c x : cell b r c = Some x → x = 0 ∨ x = 1 → (on b r c ↔ x = 1).
Proof. intros H _. unfold on. rewrite H. split; [by intros [= ->]|by intros ->]. Qed.

(** The cells of one slot of a sane game. *)
Lemma slot_cells g i m o f (r c : nat) :
  sane g → mines g !! i = Some m → open_cells g !! i = Some o → flags g !! i = Some f →
  (r < rows g)%nat → (c < columns g)%nat →
  ∃ num z x y,
    numbers g !! i = Some num ∧
    cell m r c = Some z ∧ cell o r c = Some x ∧ cell f r c = Some y ∧
    cell num r c = Some (if z =? 0 then neighbour_mines m r c else -1) ∧
    (z = 0 ∨ z = 1) ∧ (x = 0 ∨ x = 1) ∧ (y = 0 ∨ y = 1) ∧
    (x = 1 → z = 0) ∧ (y = 1 → z = 1) ∧
    0 ≤ neighbour_mines m r c ≤ 8.
Proof.
  intros [Hwf Hmarks Hnum _ _ _ _] Hm Ho Hf Hr Hc.
  destruct (slot_boards g Hwf i) as (m0 & o0 & f0 & a & ? & ? & ? & _ & [Sm Bm] & [So Bo] & [Sf Bf]).
  { by eapply lookup_lt_Some. }
  simplify_eq.
  destruct (proj2 (cell_shape _ _ m r c Sm)) as [z Hz]; [done|].
  destruct (proj2 (cell_shape _ _ o r c So)) as [x Hx]; [done|].
  destruct (proj2 (cell_shape _ _ f r c Sf)) as [y Hy]; [done|].
  pose proof (cell_binary _ _ _ _ Bm Hz) as Bz.
  pose proof (cell_binary _ _ _ _ Bo Hx) as Bx.
  pose proof (cell_binary _ _ _ _ Bf Hy) as By.
  destruct (Hmarks i m o f r c) as [H1 H2]; [done..|].
  rewrite (on_binary o r c x) in H1 by done.
  rewrite (on_binary f r c y) in H2 by done.
  rewrite (on_binary m r c z) in H1, H2 by done.
  exists (number_cells (rows g) (columns g) m), z, x, y. split_and!; try done.
  - rewrite Hnum. unfold _compute_number_cells. by rewrite list_lookup_fmap, Hm.
  - rewrite cell_number_cells by done. by rewrite (cellZ_cell m r c z).
  - intros ->. destruct Bz as [->| ->]; [done|]. by destruct H1.
  - by apply neighbour_mines_range.
  - by apply neighbour_mines_range.
Qed.

(** *** [game_state] *)

Lemma game_state_lookup g i num o f :
  numbers g !! i = Some num → open_cells g !! i = Some o → flags g !! i = Some f →
  ∃ st, game_state false g = Some st ∧
    st !! i = Some (map2 add8 (map2 add8 (map2 mul8 num o)
                                          (map (map (mul8 9)) (map (map (sub8 1)) o))) f).
Proof.
  intros Hn Ho Hf. eexists. split; [done|].
  erewrite lookup_bmap2; [done| |done].
  erewrite lookup_bmap2; [done| |].
  - by erewrite lookup_bmap2.
  - by rewrite !lookup_bmap, Ho.
Qed.

Lemma game_state_cell g i m o f s (r c : nat) :
  sane g → mines g !! i = Some m → open_cells g !! i = Some o → flags g !! i = Some f →
  (r < rows g)%nat → (c < columns g)%nat →
  ∀ st, game_state false g = Some st → st !! i = Some s →
  ∃ v, cell s r c = Some v ∧
    (on f r c → v = 10) ∧
    (on o r c → v = neighbour_mines m r c) ∧
    (¬ on f r c → ¬ on o r c → v = 9) ∧
    0 ≤ v ≤ 10.
Proof.
  intros Hs Hm Ho Hf Hr Hc st Hst Hsi.
  destruct (slot_cells g i m o f r c) as
    (num & z & x & y & Hnum & Hz & Hx & Hy & Hv & Bz & Bx & By & Hxz & Hyz & Hrange); [done..|].
  destruct (game_state_lookup g i num o f) as (st' & Hst' & Hsi'); [done..|].
  rewrite Hst in Hst'. injection Hst' as <-. rewrite Hsi in Hsi'. injection Hsi' as ->.
  rewrite !cell_map2, !cell_map, Hv, Hx, Hy. cbn [mbind option_bind fmap option_fmap option_map].
  eexists. split; [reflexivity|].
  rewrite (on_binary f r c y), (on_binary o r c x) by done.
  destruct Bz as [->| ->], Bx as [->| ->], By as [->| ->]; simpl;
    try (exfalso; lia); no_wrap; lia.
Qed.

Lemma played_init permuted rws cols mn nn g0 g :
  shuffles permuted → init permuted rws cols mn nn = Some g0 → played g0 g →
  sane g ∧ rows g = rws ∧ columns g = cols ∧ length (mines g) = nn ∧
  mines_n g = match mn with Scalar k => replicate nn k | PerSlot ks => ks end.
Proof.
  intros Hsh Hinit Hp.
  pose proof (played_sane g0 g (init_sane _ _ _ _ _ _ Hsh Hinit) Hp) as Hs.
  destruct (played_frame g0 g Hp) as (_ & -> & -> & _ & -> & -> & _).
  destruct (init_inv _ _ _ _ _ _ Hinit) as (ms & Hms & ->). cbn.
  by destruct (generated_rows _ _ _ _ _ _ Hsh Hms) as [-> _].
Qed.

Lemma sane_slot g i m :
  sane g → mines g !! i = Some m →
  ∃ num o f, numbers g !! i = Some num ∧ open_cells g !! i = Some o ∧ flags g !! i = Some f.
Proof.
  intros Hs Hm.
  destruct (slot_boards g (sane_wf g Hs) i) as (m0 & o0 & f0 & a & ? & ? & ? & _).
  { by eapply lookup_lt_Some. }
  destruct (lookup_lt_is_Some_2 (numbers g) i) as [num Hnum].
  { rewrite (wf_len_numbers g (sane_wf g Hs)). by eapply lookup_lt_Some. }
  eauto 10.
Qed.

(** X2: [game_state] is the documented encoding on every game that was
    built by [__init__] and played by [move]: an open cell shows its number
    (0 to 8), a flagged cell 10, any other cell 9. *)
Theorem game_state_encodes permuted rws cols mn nn g0 g :
  shuffles permuted → init permuted rws cols mn nn = Some g0 → played g0 g →
  ∃ st, game_state false g = Some st ∧
    ∀ i m o f,
      mines g !! i = Some m → open_cells g !! i = Some o → flags g !! i = Some f →
      ∃ s, st !! i = Some s ∧
        ∀ r c, (r < rws)%nat → (c < cols)%nat →
          ∃ v, cell s r c = Some v ∧
            (on f r c → v = 10) ∧
            (on o r c → v = neighbour_mines m r c ∧ 0 ≤ v ≤ 8) ∧
            (¬ on f r c → ¬ on o r c → v = 9).
Proof.
  intros Hsh Hinit Hp.
  destruct (played_init _ _ _ _ _ _ _ Hsh Hinit Hp) as (Hs & Hr & Hc & _).
  eexists. split; [done|]. intros i m o f Hm Ho Hf.
  destruct (sane_slot g i m Hs Hm) as (num & o' & f' & Hnum & ? & ?). simplify_eq.
  destruct (game_state_lookup g i num o f) as (st & Hst & Hsi); [done..|].
  injection Hst as <-. eexists. split; [exact Hsi|].
  intros r c Hr' Hc'.
  destruct (slot_cells g i m o f r c) as
    (_ & z & x & y & _ & Hz & Hx & Hy & _ & Bz & Bx & By & Hxz & Hyz & Hrange); [done..|].
  destruct (game_state_cell g i m o f _ r c Hs Hm Ho Hf Hr' Hc' _ eq_refl Hsi)
    as (v & Hv & H1 & H2 & H3 & _).
  exists v. split_and!; [done|done| |done].
  intros Hon. pose proof (H2 Hon). lia.
Qed.

Lemma game_state_encodes_witness :
  shuffles id ∧ init id 2 2 (PerSlot [1; 2]) 2 = Some demo_generated ∧
  played demo_generated demo_played ∧
  ∃ st, game_state false demo_played = Some st ∧
    ∀ i m o f,
      mines demo_played !! i = Some m → open_cells demo_played !! i = Some o →
      flags demo_played !! i = Some f →
      ∃ s, st !! i = Some s ∧
        ∀ r c, (r < 2)%nat → (c < 2)%nat →
          ∃ v, cell s r c = Some v ∧
            (on f r c → v = 10) ∧
            (on o r c → v = neighbour_mines m r c ∧ 0 ≤ v ≤ 8) ∧
            (¬ on f r c → ¬ on o r c → v = 9).
Proof.
  split; [apply shuffles_id|]. split; [vm_compute; reflexivity|]. split; [apply demo_played_ok|].
  apply (game_state_encodes id 2 2 (PerSlot [1; 2]) 2 demo_generated demo_played);
    [apply shuffles_id|vm_compute; reflexivity|apply demo_played_ok].
Defined.

(** X3: the two tests by which [pyplot_game] reads a state give back the
    revealed and the flagged cells. *)
Theorem plot_reads_state permuted rws cols mn nn g0 g :
  shuffles permuted → init permuted rws cols mn nn = Some g0 → played g0 g →
  ∃ st, game_state false g = Some st ∧
    ∀ i m o f,
      mines g !! i = Some m → open_cells g !! i = Some o → flags g !! i = Some f →
      ∃ s, st !! i = Some s ∧
        ∀ r c, (r < rws)%nat → (c < cols)%nat →
          ∃ bo bf,
            Plot.open_cells s !! r ≫= (λ row, row !! c) = Some bo ∧
            Plot.flags s !! r ≫= (λ row, row !! c) = Some bf ∧
            (bo = true ↔ on o r c) ∧ (bf = true ↔ on f r c).
Proof.
  intros Hsh Hinit Hp.
  destruct (played_init _ _ _ _ _ _ _ Hsh Hinit Hp) as (Hs & Hr & Hc & _).
  eexists. split; [done|]. intros i m o f Hm Ho Hf.
  destruct (sane_slot g i m Hs Hm) as (num & o' & f' & Hnum & ? & ?). simplify_eq.
  destruct (game_state_lookup g i num o f) as (st & Hst & Hsi); [done..|].
  injection Hst as <-. eexists. split; [exact Hsi|].
  intros r c Hr' Hc'.
  destruct (game_state_cell g i m o f _ r c Hs Hm Ho Hf Hr' Hc' _ eq_refl Hsi)
    as (v & Hv & H1 & H2 & H3 & _).
  destruct (slot_cells g i m o f r c) as
    (_ & z & x & y & _ & Hz & Hx & Hy & _ & Bz & Bx & By & Hxz & Hyz & Hrange); [done..|].
  exists (v <? 9), (v =? 10).
  unfold Plot.open_cells, Plot.flags. rewrite !list_lookup_fmap.
  unfold cell in Hv. destruct (_ !! r) as [row|] eqn:Erow; [|done].
  cbn in Hv |- *. rewrite !list_lookup_fmap, Hv. cbn.
  split_and!; [done..| |].
  - destruct (on_dec o r c) as [Hon|Hoff].
    + pose proof (H2 Hon). split; [done|]. intros _. apply Z.ltb_lt. lia.
    + split; [|done]. intros E%Z.ltb_lt. destruct (on_dec f r c) as [Hf1|Hf0].
      * pose proof (H1 Hf1). lia.
      * pose proof (H3 Hf0 Hoff). lia.
  - destruct (on_dec f r c) as [Hf1|Hf0].
    + split; [done|]. intros _. apply Z.eqb_eq. auto.
    + split; [|done]. intros E%Z.eqb_eq. destruct (on_dec o r c) as [Hon|Hoff].
      * pose proof (H2 Hon). lia.
      * pose proof (H3 Hf0 Hoff). lia.
Qed.

Lemma plot_reads_state_witness :
  shuffles id ∧ init id 2 2 (PerSlot [1; 2]) 2 = Some demo_generated ∧
  played demo_generated demo_played ∧
  ∃ st, game_state false demo_played = Some st ∧
    ∀ i m o f,
      mines demo_played !! i = Some m → open_cells demo_played !! i = Some o →
      flags demo_played !! i = Some f →
      ∃ s, st !! i = Some s ∧
        ∀ r c, (r < 2)%nat → (c < 2)%nat →
          ∃ bo bf,
            Plot.open_cells s !! r ≫= (λ row, row !! c) = Some bo ∧
            Plot.flags s !! r ≫= (λ row, row !! c) = Some bf ∧
            (bo = true ↔ on o r c) ∧ (bf = true ↔ on f r c).
Proof.
  split; [apply shuffles_id|]. split; [vm_compute; reflexivity|]. split; [apply demo_played_ok|].
  apply (plot_reads_state id 2 2 (PerSlot [1; 2]) 2 demo_generated demo_played);
    [apply shuffles_id|vm_compute; reflexivity|apply demo_played_ok].
Defined.

(** *** [as_dataset] *)

Lemma as_dataset_lookup g i num o f m :
  numbers g !! i = Some num → open_cells g !! i = Some o → flags g !! i = Some f →
  mines g !! i = Some m →
  as_dataset g !! i
  = Some (map2 add8
            (map2 sub8
               (map2 add8 (map2 mul8 num o)
                  (map (map (mul8 9)) (map2 sub8 (map (map (sub8 1)) o) m)))
               m)
            (map (map (mul8 11)) f)).
Proof.
  intros Hn Ho Hf Hm. unfold as_dataset.
  erewrite lookup_bmap2; [done| |by rewrite lookup_bmap, Hf].
  erewrite lookup_bmap2; [done| |done].
  erewrite lookup_bmap2; [done|by erewrite lookup_bmap2|].
  rewrite lookup_bmap. erewrite lookup_bmap2; [done| |done].
  by rewrite lookup_bmap, Ho.
Qed.

(** X4: [as_dataset] is the documented encoding on every game built by
    [__init__] and played by [move]: a mine that is not flagged is -1, a
    flagged cell 10, an open cell its number, any other cell 9. *)
Theorem as_dataset_encodes permuted rws cols mn nn g0 g :
  shuffles permuted → init permuted rws cols mn nn = Some g0 → played g0 g →
  ∀ i m o f,
    mines g !! i = Some m → open_cells g !! i = Some o → flags g !! i = Some f →
    ∃ s, as_dataset g !! i = Some s ∧
      ∀ r c, (r < rws)%nat → (c < cols)%nat →
        ∃ v, cell s r c = Some v ∧
          (on f r c → v = 10) ∧
          (on m r c → ¬ on f r c → v = -1) ∧
          (on o r c → v = neighbour_mines m r c ∧ 0 ≤ v ≤ 8) ∧
          (¬ on m r c → ¬ on o r c → v = 9).
Proof.
  intros Hsh Hinit Hp.
  destruct (played_init _ _ _ _ _ _ _ Hsh Hinit Hp) as (Hs & Hr & Hc & _).
  intros i m o f Hm Ho Hf.
  destruct (sane_slot g i m Hs Hm) as (num & o' & f' & Hnum & ? & ?). simplify_eq.
  rewrite (as_dataset_lookup g i num o f m) by done.
  eexists. split; [done|]. intros r c Hr' Hc'.
  destruct (slot_cells g i m o f r c) as
    (num' & z & x & y & ? & Hz & Hx & Hy & Hv & Bz & Bx & By & Hxz & Hyz & Hrange); [done..|].
  simplify_eq.
  rewrite !cell_map2, !cell_map, !cell_map2, !cell_map, Hv, Hx, Hy, Hz.
  cbn [mbind option_bind fmap option_fmap option_map].
  eexists. split; [reflexivity|].
  rewrite (on_binary f r c y), (on_binary o r c x), (on_binary m r c z) by done.
  destruct Bz as [->| ->], Bx as [->| ->], By as [->| ->]; simpl;
    try (exfalso; lia); no_wrap; lia.
Qed.

Lemma as_dataset_encodes_witness :
  shuffles id ∧ init id 2 2 (PerSlot [1; 2]) 2 = Some demo_generated ∧
  played demo_generated demo_played ∧
  ∀ i m o f,
    mines demo_played !! i = Some m → open_cells demo_played !! i = Some o →
    flags demo_played !! i = Some f →
    ∃ s, as_dataset demo_played !! i = Some s ∧
      ∀ r c, (r < 2)%nat → (c < 2)%nat →
        ∃ v, cell s r c = Some v ∧
          (on f r c → v = 10) ∧
          (on m r c → ¬ on f r c → v = -1) ∧
          (on o r c → v = neighbour_mines m r c ∧ 0 ≤ v ≤ 8) ∧
          (¬ on m r c → ¬ on o r c → v = 9).
Proof.
  split; [apply shuffles_id|]. split; [vm_compute; reflexivity|]. split; [apply demo_played_ok|].
  apply (as_dataset_encodes id 2 2 (PerSlot [1; 2]) 2 demo_generated demo_played);
    [apply shuffles_id|vm_compute; reflexivity|apply demo_played_ok].
Defined.

(** X1: no play reveals a mine or flags a safe cell, and none changes the
    mines or the numbers: this holds of every game built by [__init__] and
    played by [move]. *)
Theorem marks_stay_sound permuted rws cols mn nn g0 g :
  shuffles permuted → init permuted rws cols mn nn = Some g0 → played g0 g →
  mines g = mines g0 ∧ numbers g = numbers g0 ∧
  ∀ i m o f r c,
    mines g !! i = Some m → open_cells g !! i = Some o → flags g !! i = Some f →
    (on o r c → ¬ on m r c) ∧ (on f r c → on m r c).
Proof.
  intros Hsh Hinit Hp.
  destruct (played_init _ _ _ _ _ _ _ Hsh Hinit Hp) as (Hs & _).
  destruct (played_frame g0 g Hp) as (_ & _ & _ & _ & _ & Hm & Hn).
  split_and!; [done..|]. apply (sane_marks g Hs).
Qed.

Lemma marks_stay_sound_witness :
  shuffles id ∧ init id 2 2 (PerSlot [1; 2]) 2 = Some demo_generated ∧
  played demo_generated demo_played ∧
  mines demo_played = mines demo_generated ∧ numbers demo_played = numbers demo_generated ∧
  ∀ i m o f r c,
    mines demo_played !! i = Some m → open_cells demo_played !! i = Some o →
    flags demo_played !! i = Some f →
    (on o r c → ¬ on m r c) ∧ (on f r c → on m r c).
Proof.
  split; [apply shuffles_id|]. split; [vm_compute; reflexivity|]. split; [apply demo_played_ok|].
  apply (marks_stay_sound id 2 2 (PerSlot [1; 2]) 2 demo_generated demo_played);
    [apply shuffles_id|vm_compute; reflexivity|apply demo_played_ok].
Defined.

(** *** [losing_moves] *)

(** X5: after a move, [losing_moves] holds -1 exactly on the mines the move
    asked to open and 1 exactly on the safe cells it asked to flag, and the
    move was judged correct for a slot exactly when the slot's board of
    [losing_moves] is all 0. *)
Theorem losing_moves_marks_errors g to_open to_flag g' correct :
  wf g → request g to_open → request g to_flag →
  move (Some to_open) (Some to_flag) g = Some (g', correct) →
  ∀ i m ro rf,
    active_games g !! i = Some true → mines g !! i = Some m →
    to_open !! rank (active_games g) i = Some ro →
    to_flag !! rank (active_games g) i = Some rf →
    ∃ l ok,
      losing_moves g' !! i = Some l ∧ correct !! rank (active_games g) i = Some ok ∧
      (∀ r c, (r < rows g)%nat → (c < columns g)%nat →
         ∃ v, cell l r c = Some v ∧
           (v = -1 ↔ on ro r c ∧ on m r c) ∧
           (v = 1 ↔ on rf r c ∧ ¬ on m r c) ∧
           (v = -1 ∨ v = 0 ∨ v = 1)) ∧
      (ok = true ↔
       ∀ r c, (r < rows g)%nat → (c < columns g)%nat → cell l r c = Some 0).
Proof.
  intros Hwf Hopen Hflag Hmove i m ro rf Ha Hm Hro Hrf.
  destruct (move_frame g g' to_open to_flag correct Hopen Hflag Hmove)
    as (_ & _ & _ & _ & _ & Hmines & _).
  destruct (slot_boards g Hwf i) as (m0 & o & f & a & ? & Ho & Hf & _ & [Sm Bm] & _).
  { by eapply lookup_lt_Some. }
  destruct (slot_requests g to_open to_flag Hopen Hflag i Ha)
    as (ro0 & rf0 & ? & ? & [Sro Bro] & [Srf Brf]).
  simplify_eq.
  destruct (move_slot_active g g' to_open to_flag correct Hwf Hopen Hflag Hmove
              i m o f ro rf) as (Hok & _ & _ & Hlo & Hlf & _); [done..|].
  exists (map2 sub8 (map2 mul8 rf (map (map (sub8 1)) m)) (map2 mul8 ro m)),
         (correct_open m ro && correct_flag m rf).
  assert (∀ r c, (r < rows g)%nat → (c < columns g)%nat →
            ∃ z x y, cell m r c = Some z ∧ cell ro r c = Some x ∧ cell rf r c = Some y ∧
              (z = 0 ∨ z = 1) ∧ (x = 0 ∨ x = 1) ∧ (y = 0 ∨ y = 1) ∧
              cell (map2 sub8 (map2 mul8 rf (map (map (sub8 1)) m)) (map2 mul8 ro m)) r c
              = Some (if z =? 0 then y else - x)) as Hcell.
  { intros r c Hr Hc.
    destruct (proj2 (cell_shape _ _ m r c Sm)) as [z Hz]; [done|].
    destruct (proj2 (cell_shape _ _ ro r c Sro)) as [x Hx]; [done|].
    destruct (proj2 (cell_shape _ _ rf r c Srf)) as [y Hy]; [done|].
    pose proof (cell_binary _ _ _ _ Bm Hz) as Bz.
    pose proof (cell_binary _ _ _ _ Bro Hx) as Bx.
    pose proof (cell_binary _ _ _ _ Brf Hy) as By.
    exists z, x, y. split_and!; try done.
    rewrite !cell_map2, !cell_map, Hz, Hx, Hy.
    cbn [mbind option_bind fmap option_fmap option_map]. f_equal.
    destruct Bz as [->| ->], Bx as [->| ->], By as [->| ->]; reflexivity. }
  split_and!.
  - unfold losing_moves. rewrite Hmines.
    erewrite lookup_bmap2; [done| |by erewrite lookup_bmap2].
    erewrite lookup_bmap2; [done|done|]. by rewrite lookup_bmap, Hm.
  - done.
  - intros r c Hr Hc.
    destruct (Hcell r c Hr Hc) as (z & x & y & Hz & Hx & Hy & Bz & Bx & By & ->).
    eexists. split; [done|].
    rewrite (on_binary ro r c x), (on_binary rf r c y), (on_binary m r c z) by done.
    destruct Bz as [->| ->], Bx as [->| ->], By as [->| ->]; simpl; lia.
  - rewrite andb_true_iff.
    rewrite (correct_open_spec (rows g) (columns g)),
            (correct_flag_spec (rows g) (columns g)) by done.
    split.
    + intros [H1 H2] r c Hr Hc.
      destruct (Hcell r c Hr Hc) as (z & x & y & Hz & Hx & Hy & Bz & Bx & By & ->).
      f_equal. specialize (H1 r c). specialize (H2 r c).
      rewrite (on_binary ro r c x), (on_binary m r c z) in H1 by done.
      rewrite (on_binary rf r c y), (on_binary m r c z) in H2 by done.
      destruct Bz as [->| ->], Bx as [->| ->], By as [->| ->]; simpl; lia.
    + intros H. split; intros r c.
      * intros [Hx1 Hz1].
        assert ((r < rows g)%nat ∧ (c < columns g)%nat) as [Hr Hc].
        { apply (cell_shape _ _ m r c Sm). unfold on in Hz1. by rewrite Hz1. }
        destruct (Hcell r c Hr Hc) as (z & x & y & Hz & Hx & Hy & Bz & Bx & By & E).
        rewrite (H r c Hr Hc) in E. unfold on in Hx1, Hz1. simplify_eq/=.
      * intros Hy1.
        assert ((r < rows g)%nat ∧ (c < columns g)%nat) as [Hr Hc].
        { apply (cell_shape _ _ rf r c Srf). unfold on in Hy1. by rewrite Hy1. }
        destruct (Hcell r c Hr Hc) as (z & x & y & Hz & Hx & Hy & Bz & Bx & By & E).
        rewrite (H r c Hr Hc) in E. unfold on in Hy1 |- *. rewrite Hz. simplify_eq/=.
        destruct Bz as [->| ->]; [|done]. simpl in E. by simplify_eq.
Qed.

Lemma losing_moves_marks_errors_witness :
  wf demo_generated ∧ request demo_generated demo_move_open ∧
  request demo_generated demo_move_flag ∧
  move (Some demo_move_open) (Some demo_move_flag) demo_generated
    = Some (demo_played, [true; false]) ∧
  ∀ i m ro rf,
    active_games demo_generated !! i = Some true → mines demo_generated !! i = Some m →
    demo_move_open !! rank (active_games demo_generated) i = Some ro →
    demo_move_flag !! rank (active_games demo_generated) i = Some rf →
    ∃ l ok,
      losing_moves demo_played !! i = Some l ∧
      [true; false] !! rank (active_games demo_generated) i = Some ok ∧
      (∀ r c, (r < rows demo_generated)%nat → (c < columns demo_generated)%nat →
         ∃ v, cell l r c = Some v ∧
           (v = -1 ↔ on ro r c ∧ on m r c) ∧
           (v = 1 ↔ on rf r c ∧ ¬ on m r c) ∧
           (v = -1 ∨ v = 0 ∨ v = 1)) ∧
      (ok = true ↔
       ∀ r c, (r < rows demo_generated)%nat → (c < columns demo_generated)%nat →
              cell l r c = Some 0).
Proof.
  split; [apply wfb_wf; vm_compute; reflexivity|]. split; [apply requestb_request; vm_compute; reflexivity|]. split; [apply requestb_request; vm_compute; reflexivity|]. split; [vm_compute; reflexivity|].
  apply (losing_moves_marks_errors demo_generated demo_move_open demo_move_flag
           demo_played [true; false]);
    [apply wfb_wf; vm_compute; reflexivity
    |apply requestb_request; vm_compute; reflexivity
    |apply requestb_request; vm_compute; reflexivity
    |vm_compute; reflexivity].
Defined.

(** *** [win_rate] *)

Lemma sum_won l : foldr (λ w acc, Z.b2z w + acc) 0 l = Z.of_nat (count l).
Proof.
  induction l as [|b l IH]; [done|]. rewrite count_cons. cbn [foldr]. rewrite IH.
  destruct b; simpl; lia.
Qed.

Lemma sum_finished l :
  foldr (λ a acc, 1 - Z.b2z a + acc) 0 l = Z.of_nat (count (map negb l)).
Proof.
  induction l as [|b l IH]; [done|]. cbn [map]. rewrite count_cons. cbn [foldr]. rewrite IH.
  destruct b; simpl; lia.
Qed.

Lemma win_rate_eq g :
  win_rate g = true_divide (Z.of_nat (count (won g)))
                           (Z.of_nat (count (map negb (active_games g)))).
Proof. unfold win_rate. by rewrite sum_won, sum_finished. Qed.

Lemma count_won_le (wn act : list bool) :
  length wn = length act →
  (∀ i, wn !! i = Some true → act !! i = Some false) →
  (count wn ≤ count (map negb act))%nat.
Proof.
  revert act. induction wn as [|w wn IH]; intros [|a act] Hl H; simplify_eq/=.
  - done.
  - rewrite !count_cons.
    assert (count wn ≤ count (map negb act))%nat as Hle.
    { apply IH; [done|]. intros i. apply (H (S i)). }
    destruct w; simpl; [|lia].
    pose proof (H 0%nat eq_refl) as E. simpl in E. injection E as ->. simpl. lia.
Qed.

(** X6: after a move, [win_rate] is the number of won slots over the number
    of finished slots, the first never larger than the second; while no
    slot is finished it is NaN (0/0). *)
Theorem win_rate_after_move g to_open to_flag g' correct :
  wf g → request g to_open → request g to_flag →
  move (Some to_open) (Some to_flag) g = Some (g', correct) →
  let w := count (won g') in
  let d := count (map negb (active_games g')) in
  (w ≤ d)%nat ∧
  win_rate g' = if decide (d = 0%nat) then NaN else Ratio (Z.of_nat w) (Z.of_nat d).
Proof.
  intros Hwf Hopen Hflag Hmove w d.
  pose proof (move_wf g g' to_open to_flag correct Hwf Hopen Hflag Hmove) as Hwf'.
  pose proof (move_win_detected g to_open to_flag g' correct Hwf Hopen Hflag Hmove) as Hwd.
  assert (w ≤ d)%nat as Hle.
  { apply count_won_le.
    - by rewrite (wf_len_won g' Hwf'), (wf_len_active g' Hwf').
    - intros i Hi.
      destruct (slot_boards g' Hwf' i) as (m & o & f & a & Hm & Ho & _).
      { rewrite <- (wf_len_won g' Hwf'). by eapply lookup_lt_Some. }
      destruct (Hwd i o m Ho Hm) as (b & Hb & _ & Hact). simplify_eq. by apply Hact. }
  split; [done|]. rewrite win_rate_eq. fold w d. unfold true_divide.
  destruct (decide (d = 0%nat)) as [E|E].
  - rewrite E. assert (w = 0%nat) as -> by lia. done.
  - destruct (Z.eqb_spec (Z.of_nat d) 0); [lia|done].
Qed.

Lemma win_rate_after_move_witness :
  wf demo_generated ∧ request demo_generated demo_move_open ∧
  request demo_generated demo_move_flag ∧
  move (Some demo_move_open) (Some demo_move_flag) demo_generated
    = Some (demo_played, [true; false]) ∧
  let w := count (won demo_played) in
  let d := count (map negb (active_games demo_played)) in
  (w ≤ d)%nat ∧
  win_rate demo_played
  = if decide (d = 0%nat) then NaN else Ratio (Z.of_nat w) (Z.of_nat d).
Proof.
  split; [apply wfb_wf; vm_compute; reflexivity|]. split; [apply requestb_request; vm_compute; reflexivity|]. split; [apply requestb_request; vm_compute; reflexivity|]. split; [vm_compute; reflexivity|].
  apply (win_rate_after_move demo_generated demo_move_open demo_move_flag
           demo_played [true; false]);
    [apply wfb_wf; vm_compute; reflexivity
    |apply requestb_request; vm_compute; reflexivity
    |apply requestb_request; vm_compute; reflexivity
    |vm_compute; reflexivity].
Defined.

(** X7: on a game just built by [__init__], and after [reset], no slot is
    finished and [win_rate] is NaN. *)
Theorem win_rate_at_start permuted rws cols mn nn g :
  init permuted rws cols mn nn = Some g →
  win_rate g = NaN ∧ ∀ g', win_rate (reset g') = NaN.
Proof.
  intros Hinit. destruct (init_inv _ _ _ _ _ _ Hinit) as (ms & _ & ->).
  assert (∀ k, count (replicate k false) = 0%nat) as Hf.
  { induction k as [|k IH]; [done|]. cbn [replicate]. by rewrite count_cons, IH. }
  split.
  - rewrite win_rate_eq. cbn [won active_games]. rewrite Hf.
    replace (map negb (replicate nn true)) with (replicate nn false); [by rewrite Hf|].
    clear. induction nn as [|k IH]; [done|]. cbn. by f_equal.
  - intros g'. rewrite win_rate_eq. unfold reset. cbn [won active_games]. rewrite !map_map.
    assert (∀ {A} (l : list A), map (λ _, false) l = replicate (length l) false) as Hm.
    { intros A l. induction l as [|x l IH]; [done|]. cbn. by f_equal. }
    by rewrite !Hm, !Hf.
Qed.

Lemma win_rate_at_start_witness :
  init id 2 2 (PerSlot [1; 2]) 2 = Some demo_generated ∧
  win_rate demo_generated = NaN ∧ ∀ g', win_rate (reset g') = NaN.
Proof.
  split; [vm_compute; reflexivity|].
  apply (win_rate_at_start id 2 2 (PerSlot [1; 2]) 2 demo_generated).
  vm_compute. reflexivity.
Defined.

(** *** [reset] *)

Lemma map_const {A B} (b : B) (l : list A) : map (λ _, b) l = replicate (length l) b.
Proof. induction l as [|x l IH]; [done|]. cbn. by f_equal. Qed.

(** X8: [reset] after any play gives back the game [__init__] built. *)
Theorem reset_restores permuted rws cols mn nn g0 g :
  shuffles permuted → init permuted rws cols mn nn = Some g0 → played g0 g →
  reset g = g0.
Proof.
  intros Hsh Hinit Hp.
  destruct (played_init _ _ _ _ _ _ _ Hsh Hinit Hp) as (Hs & Hr & Hc & Hlen & _).
  destruct (played_frame g0 g Hp) as (En & Er & Ec & Es & Emn & Em & Enum).
  destruct Hs as [Hwf _ _ _ _ Hlo Hlf].
  destruct (init_inv _ _ _ _ _ _ Hinit) as (ms & Hms & E0).
  assert (Forall (has_shape rws cols) ms) as Hshape.
  { apply Forall_lookup. intros i m Hm. by eapply generated_board_ok. }
  assert (length ms = nn) as Hms_len by (by destruct (generated_rows _ _ _ _ _ _ Hsh Hms)).
  assert (mines g = ms) as Emines by (rewrite Em, E0; done).
  rewrite Emines in *.
  assert (∀ b, length b = nn → Forall (has_shape rws cols) b → zeros_like b = zeros_like ms) as Hz.
  { intros b Hb Hsb. rewrite (zeros_like_shapes rws cols b), (zeros_like_shapes rws cols ms) by done.
    by rewrite Hb, Hms_len. }
  unfold reset. rewrite E0 in En, Er, Ec, Es, Emn, Enum |- *. cbn in En, Er, Ec, Es, Emn, Enum.
  rewrite En, Es, Emn, Enum, Emines. rewrite Hr, Hc in *.
  rewrite !map_const.
  rewrite (wf_len_active g Hwf), (wf_len_won g Hwf), Emines, Hms_len.
  f_equal; apply Hz; try done.
  - by rewrite (wf_len_open g Hwf), Emines.
  - eapply Forall_impl; [exact (wf_open g Hwf)|]. intros b [Hb _]. by rewrite Hr, Hc in Hb.
  - by rewrite (wf_len_flags g Hwf), Emines.
  - eapply Forall_impl; [exact (wf_flags g Hwf)|]. intros b [Hb _]. by rewrite Hr, Hc in Hb.
  - by rewrite (wf_len_last_opened g Hwf), Emines.
  - by rewrite (wf_len_last_flagged g Hwf), Emines.
Qed.

Lemma reset_restores_witness :
  shuffles id ∧ init id 2 2 (PerSlot [1; 2]) 2 = Some demo_generated ∧
  played demo_generated demo_played ∧
  reset demo_played = demo_generated.
Proof.
  split; [apply shuffles_id|]. split; [vm_compute; reflexivity|]. split; [apply demo_played_ok|].
  apply (reset_restores id 2 2 (PerSlot [1; 2]) 2 demo_generated demo_played);
    [apply shuffles_id|vm_compute; reflexivity|apply demo_played_ok].
Defined.

End ReportsFacts.

(** * The random openers *)
Module RandomFacts.
Import Np Utils Engine Reports RandomMoves.
Import NpFacts EngineFacts GeneratorFacts OpenZeroFacts ReportsFacts.

Lemma cell_hits draws rate (ms : batch) i m r c :
  ms !! i = Some m →
  ∃ hm, hits draws rate ms !! i = Some hm ∧
    cell hm r c = cell m r c ≫= (λ _, Some (Z.b2z (below (draws i r c) rate))).
Proof.
  intros Hm. unfold hits. rewrite list_lookup_imap, Hm. eexists. split; [done|].
  unfold cell. rewrite list_lookup_imap. destruct (m !! r) as [row|]; [|done]. cbn.
  rewrite list_lookup_imap. by destruct (row !! c).
Qed.

Lemma length_hits draws rate ms : length (hits draws rate ms) = length ms.
Proof. unfold hits. by rewrite length_imap. Qed.

Lemma hits_shape draws rate h w (ms : batch) i m hm :
  ms !! i = Some m → hits draws rate ms !! i = Some hm → has_shape h w m → has_shape h w hm.
Proof.
  intros Hm Hh [Hl Hw]. unfold hits in Hh. rewrite list_lookup_imap, Hm in Hh.
  injection Hh as <-. split; [by rewrite length_imap|].
  apply Forall_lookup. intros r row Hrow. rewrite list_lookup_imap in Hrow.
  destruct (m !! r) as [row0|] eqn:E; [|done]. injection Hrow as <-.
  rewrite length_imap. by apply (Forall_lookup_1 _ _ _ _ Hw E).
Qed.

Lemma mul8_binary a b :
  (a = 0 ∨ a = 1) → (b = 0 ∨ b = 1) →
  (mul8 a b = 0 ∨ mul8 a b = 1) ∧ (mul8 a b = 1 ↔ a = 1 ∧ b = 1).
Proof. intros [->| ->] [->| ->]; vm_compute; intuition congruence. Qed.

(** The masked draws of one slot: a board of 0 and 1 that is set where the
    draw is below the rate and the mine board allows it. *)
Lemma masked_hits g draws rate (keep : Z → Z) i m :
  wf g → mines g !! i = Some m →
  (keep 0 = 0 ∨ keep 0 = 1) → (keep 1 = 0 ∨ keep 1 = 1) →
  ∃ t, bmap2 mul8 (hits draws rate (mines g)) (bmap keep (mines g)) !! i = Some t ∧
    board_ok g t ∧
    ∀ r c z, cell m r c = Some z →
      (on t r c ↔ below (draws i r c) rate = true ∧ keep z = 1).
Proof.
  intros Hwf Hm K0 K1.
  destruct (Forall_lookup_1 _ _ _ _ (wf_mines g Hwf) Hm) as [Sm Bm].
  destruct (cell_hits draws rate (mines g) i m 0 0 Hm) as (hm & Hhm & _).
  pose proof (hits_shape draws rate _ _ _ i m hm Hm Hhm Sm) as Shm.
  exists (map2 mul8 hm (map (map keep) m)).
  assert (∀ r c z, cell m r c = Some z →
            cell (map2 mul8 hm (map (map keep) m)) r c
            = Some (mul8 (Z.b2z (below (draws i r c) rate)) (keep z))) as Hcell.
  { intros r c z Hz. rewrite cell_map2, cell_map, Hz.
    destruct (cell_hits draws rate (mines g) i m r c Hm) as (hm' & ? & E). simplify_eq.
    by rewrite E, Hz. }
  assert (has_shape (rows g) (columns g) (map2 mul8 hm (map (map keep) m))) as St.
  { apply map2_shape; [done|]. destruct Sm as [Hl Hw]. split; [by rewrite length_map|].
    apply Forall_fmap. eapply Forall_impl; [exact Hw|]. intros row Hrow. cbn.
    by rewrite length_map. }
  split_and!.
  - erewrite lookup_bmap2; [done|done|]. by rewrite lookup_bmap, Hm.
  - split; [done|]. apply binary_cells. intros r c x Hx.
    assert (is_Some (cell m r c)) as [z Hz].
    { apply (cell_shape _ _ m r c Sm). apply (cell_shape _ _ _ r c St). by eexists. }
    rewrite (Hcell r c z Hz) in Hx. injection Hx as <-.
    apply mul8_binary; [by destruct (below _ _); auto|].
    by pose proof (cell_binary _ _ _ _ Bm Hz) as [->| ->].
  - intros r c z Hz. unfold on. rewrite (Hcell r c z Hz).
    assert (keep z = 0 ∨ keep z = 1) as Kz
      by (by pose proof (cell_binary _ _ _ _ Bm Hz) as [->| ->]).
    destruct (mul8_binary (Z.b2z (below (draws i r c) rate)) (keep z)) as [_ Hiff];
      [by destruct (below _ _); auto|done|].
    split.
    + intros [= E]. apply Hiff in E as [E1 E2]. split; [|done]. by destruct (below _ _).
    + intros [E1 E2]. f_equal. apply Hiff. by rewrite E1.
Qed.

Lemma masked_request g draws rate keep :
  wf g → Forall (λ b, b = true) (active_games g) →
  (keep 0 = 0 ∨ keep 0 = 1) → (keep 1 = 0 ∨ keep 1 = 1) →
  request g (bmap2 mul8 (hits draws rate (mines g)) (bmap keep (mines g))).
Proof.
  intros Hwf Hact K0 K1. split.
  - rewrite length_bmap2, length_hits by (by rewrite length_hits, length_bmap).
    rewrite count_all_true by done. by rewrite (wf_len_active g Hwf).
  - apply Forall_lookup. intros i t Ht.
    assert (is_Some (mines g !! i)) as [m Hm].
    { apply lookup_lt_is_Some. apply lookup_lt_Some in Ht.
      rewrite length_bmap2, length_hits in Ht by (by rewrite length_hits, length_bmap). done. }
    destruct (masked_hits g draws rate keep i m Hwf Hm K0 K1) as (t' & Ht' & Hok & _).
    by simplify_eq.
Qed.

Lemma keep_safe : (sub8 1 0 = 0 ∨ sub8 1 0 = 1) ∧ (sub8 1 1 = 0 ∨ sub8 1 1 = 1).
Proof. split; vm_compute; auto. Qed.

Lemma lor_zero_board h w (f z : grid) :
  has_shape h w f → has_shape h w z → (∀ r c, ¬ on z r c) → binary f → binary z →
  map2 Z.lor f z = f.
Proof.
  intros Sf Sz Hz Bf Bz. apply (grid_ext h w); [by apply map2_shape|done|].
  intros r c. rewrite cell_map2.
  destruct (cell f r c) as [x|] eqn:Ex; [|done]. cbn.
  assert (is_Some (cell z r c)) as [y Ey].
  { apply (cell_shape _ _ z r c Sz). apply (cell_shape _ _ f r c Sf). by eexists. }
  rewrite Ey. cbn. f_equal.
  destruct (cell_binary _ _ _ _ Bz Ey) as [->| ->]; [apply Z.lor_0_r|].
  by destruct (Hz r c).
Qed.

(** What a call of [move] with one request per slot does at the start of a
    game, when the request of every slot passes both tests. *)
Lemma move_all_correct g to_open to_flag :
  wf g → Forall (λ b, b = true) (active_games g) →
  request g to_open → request g to_flag →
  (∀ i m ro rf, mines g !! i = Some m → to_open !! i = Some ro → to_flag !! i = Some rf →
     correct_open m ro = true ∧ correct_flag m rf = true) →
  ∃ g' correct, move (Some to_open) (Some to_flag) g = Some (g', correct) ∧
    wf g' ∧ win_detected g' ∧
    ∀ i m o f, mines g !! i = Some m → open_cells g !! i = Some o → flags g !! i = Some f →
      ∃ ro rf w, to_open !! i = Some ro ∧ to_flag !! i = Some rf ∧
        board_ok g ro ∧ board_ok g rf ∧
        open_cells g' !! i = Some (map2 Z.lor o ro) ∧
        flags g' !! i = Some (map2 Z.lor f rf) ∧
        won g' !! i = Some w ∧ active_games g' !! i = Some (negb w).
Proof.
  intros Hwf Hact Hopen Hflag Hok.
  destruct (move_Some g to_open to_flag Hopen Hflag) as (g' & correct & Hmove).
  exists g', correct. split; [done|].
  split; [by apply (move_wf g g' to_open to_flag correct)|].
  split; [by apply (move_win_detected g to_open to_flag g' correct)|].
  intros i m o f Hm Ho Hf.
  assert (active_games g !! i = Some true) as Ha.
  { destruct (lookup_lt_is_Some_2 (active_games g) i) as [a Ha].
    - rewrite (wf_len_active g Hwf). by eapply lookup_lt_Some.
    - by rewrite (Forall_lookup_1 _ _ _ _ Hact Ha) in Ha. }
  assert (rank (active_games g) i = i) as Hrank.
  { apply rank_full; [done|]. apply lookup_lt_Some in Ha. lia. }
  destruct (slot_requests g to_open to_flag Hopen Hflag i Ha)
    as (ro & rf & Hro & Hrf & Bro & Brf).
  destruct (move_slot_active g g' to_open to_flag correct Hwf Hopen Hflag Hmove
              i m o f ro rf) as (_ & Ho1 & Hf1 & _ & _ & Hw & Hact'); [done..|].
  rewrite Hrank in Hro, Hrf.
  destruct (Hok i m ro rf Hm Hro Hrf) as [E1 E2]. rewrite E1, E2 in *. cbn in *.
  exists ro, rf, (all (map2 add8 (map2 Z.lor o ro) m)). by split_and!.
Qed.

Lemma correct_zero_board h w (m z : grid) :
  has_shape h w m → has_shape h w z → binary m → binary z → (∀ r c, ¬ on z r c) →
  correct_open m z = true ∧ correct_flag m z = true.
Proof.
  intros Sm Sz Bm Bz Hz. split.
  - rewrite (correct_open_spec h w) by done. intros r c [H _]. by apply (Hz r c).
  - rewrite (correct_flag_spec h w) by done. intros r c H. by destruct (Hz r c).
Qed.

Lemma zeros_like_off (t : batch) i z r c : zeros_like t !! i = Some z → ¬ on z r c.
Proof.
  rewrite zeros_like_lookup. destruct (t !! i); [|done]. intros [= <-]. apply on_zero_board.
Qed.

Lemma random_open_slots draws rate g :
  wf g → Forall (λ b, b = true) (active_games g) →
  ∃ g' t, random_open draws rate g = Some (g', t) ∧
    wf g' ∧ win_detected g' ∧
    rows g' = rows g ∧ columns g' = columns g ∧ mines g' = mines g ∧
    ∀ i m o f, mines g !! i = Some m → open_cells g !! i = Some o → flags g !! i = Some f →
      ∃ o' w, open_cells g' !! i = Some o' ∧ flags g' !! i = Some f ∧
        (∀ r c, on o' r c ↔
                on o r c ∨ (below (draws i r c) rate = true ∧ cell m r c = Some 0)) ∧
        won g' !! i = Some w ∧ active_games g' !! i = Some (negb w).
Proof.
  intros Hwf Hact. destruct keep_safe as [K0 K1].
  set (to_open := bmap2 mul8 (hits draws rate (mines g)) (bmap (sub8 1) (mines g))).
  pose proof (masked_request g draws rate (sub8 1) Hwf Hact K0 K1) as Hreq. fold to_open in Hreq.
  pose proof (zeros_like_request g to_open Hreq) as Hreq0.
  destruct (move_all_correct g to_open (zeros_like to_open) Hwf Hact Hreq Hreq0)
    as (g' & correct & Hmove & Hwf' & Hwd & Hslots).
  { intros i m ro rf Hm Hro Hrf.
    destruct (Forall_lookup_1 _ _ _ _ (wf_mines g Hwf) Hm) as [Sm Bm].
    destruct (Forall_lookup_1 _ _ _ _ (proj2 Hreq) Hro) as [Sro Bro].
    destruct (Forall_lookup_1 _ _ _ _ (proj2 Hreq0) Hrf) as [Srf Brf].
    split; [|apply (correct_zero_board (rows g) (columns g) m rf); try done;
              intros r c; by eapply zeros_like_off].
    rewrite (correct_open_spec (rows g) (columns g)) by done. intros r c [H1 H2].
    destruct (masked_hits g draws rate (sub8 1) i m Hwf Hm K0 K1) as (t & Ht & _ & Hon).
    unfold to_open in Hro. simplify_eq. unfold on in H2.
    destruct (proj1 (Hon r c 1 H2) H1) as [_ H1']. by vm_compute in H1'. }
  exists g', to_open. split.
  { unfold random_open. fold to_open.
    change (move (Some to_open) None g) with (move (Some to_open) (Some (zeros_like to_open)) g).
    by rewrite Hmove. }
  destruct (move_frame g g' to_open (zeros_like to_open) correct Hreq Hreq0 Hmove)
    as (_ & Er & Ec & _ & _ & Em & _).
  split_and!; [done..|].
  intros i m o f Hm Ho Hf.
  destruct (Hslots i m o f Hm Ho Hf) as (ro & rf & w & Hro & Hrf & [Sro Bro] & [Srf Brf] & Ho' & Hf' & Hw & Ha').
  destruct (slot_boards g Hwf i) as (m0 & o0 & f0 & a & ? & ? & ? & _ & [Sm Bm] & [So Bo] & [Sf Bf]).
  { by eapply lookup_lt_Some. }
  simplify_eq.
  exists (map2 Z.lor o ro), w. split_and!; [done| | |done..].
  - rewrite Hf'. f_equal. apply (lor_zero_board (rows g) (columns g)); try done.
    intros r c. by eapply zeros_like_off.
  - intros r c. rewrite (lor_on (rows g) (columns g)) by done.
    destruct (masked_hits g draws rate (sub8 1) i m Hwf Hm K0 K1) as (t & Ht & _ & Hon).
    unfold to_open in Hro. simplify_eq.
    split; (intros [?|H]; [by left|right]).
    + assert (is_Some (cell m r c)) as [z Hz].
      { apply (cell_shape _ _ m r c Sm). apply (cell_shape _ _ ro r c Sro).
        unfold on in H. by rewrite H. }
      destruct (proj1 (Hon r c z Hz) H) as [H1 H2]. split; [done|]. rewrite Hz. f_equal.
      destruct (cell_binary _ _ _ _ Bm Hz) as [E|E]; rewrite E in H2 |- *; [done|].
      by vm_compute in H2.
    + destruct H as [H1 H2]. by apply (Hon r c 0 H2).
Qed.

(** X9: [random_open] at the start of a game returns, loses no slot, leaves
    the flags alone, and reveals exactly the safe cells whose draw is below
    the rate. *)
Theorem random_open_never_loses draws rate g :
  wf g → Forall (λ b, b = true) (active_games g) →
  ∃ g' t, random_open draws rate g = Some (g', t) ∧
    ∀ i m o f,
      mines g !! i = Some m → open_cells g !! i = Some o → flags g !! i = Some f →
      ∃ o' w, open_cells g' !! i = Some o' ∧ flags g' !! i = Some f ∧
        (∀ r c, on o' r c ↔
                on o r c ∨ (below (draws i r c) rate = true ∧ cell m r c = Some 0)) ∧
        won g' !! i = Some w ∧ active_games g' !! i = Some (negb w).
Proof.
  intros Hwf Hact.
  destruct (random_open_slots draws rate g Hwf Hact) as (g' & t & H & _ & _ & _ & _ & _ & Hs).
  by exists g', t.
Qed.

Lemma random_open_never_loses_witness :
  wf demo_generated ∧ Forall (λ b, b = true) (active_games demo_generated) ∧
  ∃ g' t, random_open (λ _ _ _, 1) (1, 2%positive) demo_generated = Some (g', t) ∧
    ∀ i m o f,
      mines demo_generated !! i = Some m → open_cells demo_generated !! i = Some o →
      flags demo_generated !! i = Some f →
      ∃ o' w, open_cells g' !! i = Some o' ∧ flags g' !! i = Some f ∧
        (∀ r c, on o' r c ↔
                on o r c ∨ (below ((λ _ _ _, 1) i r c) (1, 2%positive) = true ∧
                            cell m r c = Some 0)) ∧
        won g' !! i = Some w ∧ active_games g' !! i = Some (negb w).
Proof.
  split; [apply wfb_wf; vm_compute; reflexivity|]. split; [repeat constructor|].
  apply (random_open_never_loses (λ _ _ _, 1) (1, 2%positive) demo_generated);
    [apply wfb_wf; vm_compute; reflexivity|repeat constructor].
Defined.

Lemma below_always d rate :
  0 ≤ d < 2 ^ 53 → Z.pos rate.2 ≤ rate.1 → below d rate = true.
Proof. intros Hd Hr. unfold below. apply Z.ltb_lt. nia. Qed.

Lemma below_never d rate : 0 ≤ d → rate.1 ≤ 0 → below d rate = false.
Proof. intros Hd Hr. unfold below. apply Z.ltb_ge. nia. Qed.

(** X10: with a rate of 1 or more [random_open] reveals every safe cell, so
    every slot is won and finished; with a rate of 0 or less it reveals
    nothing. *)
Theorem random_open_extremes draws rate g :
  wf g → Forall (λ b, b = true) (active_games g) →
  (∀ i r c, 0 ≤ draws i r c < 2 ^ 53) →
  ∃ g' t, random_open draws rate g = Some (g', t) ∧
    (Z.pos rate.2 ≤ rate.1 →
       Forall (λ w, w = true) (won g') ∧ Forall (λ a, a = false) (active_games g')) ∧
    (rate.1 ≤ 0 → open_cells g' = open_cells g).
Proof.
  intros Hwf Hact Hd.
  destruct (random_open_slots draws rate g Hwf Hact)
    as (g' & t & H & Hwf' & Hwd & Er & Ec & Em & Hs).
  exists g', t. split; [done|]. split.
  - intros Hrate.
    assert (∀ i, (i < length (mines g))%nat →
              won g' !! i = Some true ∧ active_games g' !! i = Some false) as Hall.
    { intros i Hi.
      destruct (slot_boards g Hwf i Hi) as (m & o & f & a & Hm & Ho & Hf & _ & [Sm Bm] & _).
      destruct (Hs i m o f Hm Ho Hf) as (o' & w & Ho' & _ & Hon & Hw & Ha).
      rewrite <- Em in Hm.
      destruct (Hwd i o' m Ho' Hm) as (w' & Hw' & Hiff & _).
      rewrite Hw in Hw'. injection Hw' as <-.
      assert (w = true) as ->; [|done].
      apply Hiff. intros r c Hr Hc. rewrite Er in Hr. rewrite Ec in Hc.
      destruct (proj2 (cell_shape _ _ m r c Sm)) as [z Hz]; [done|].
      destruct (cell_binary _ _ _ _ Bm Hz) as [->| ->]; [left|by right].
      apply Hon. right. split; [|done]. by apply below_always. }
    split; apply Forall_lookup; intros i x Hx.
    + destruct (Hall i) as [E _]; [|by simplify_eq].
      rewrite <- Em, <- (wf_len_won g' Hwf'). by eapply lookup_lt_Some.
    + destruct (Hall i) as [_ E]; [|by simplify_eq].
      rewrite <- Em, <- (wf_len_active g' Hwf'). by eapply lookup_lt_Some.
  - intros Hrate. apply list_eq. intros i.
    destruct (decide (i < length (mines g))%nat) as [Hi|Hi].
    + destruct (slot_boards g Hwf i Hi) as (m & o & f & a & Hm & Ho & Hf & _ & _ & [So Bo] & _).
      destruct (Hs i m o f Hm Ho Hf) as (o' & w & Ho' & _ & Hon & _).
      rewrite Ho, Ho'. f_equal.
      destruct (Forall_lookup_1 _ _ _ _ (wf_open g' Hwf') Ho') as [So' Bo'].
      rewrite Er, Ec in So'.
      apply (grid_ext (rows g) (columns g)); [done..|]. intros r c.
      destruct (cell o' r c) as [x'|] eqn:E'.
      * assert (is_Some (cell o r c)) as [x E].
        { apply (cell_shape _ _ o r c So). apply (cell_shape _ _ o' r c So'). by eexists. }
        rewrite E. f_equal.
        assert (on o' r c ↔ on o r c) as Hiff.
        { rewrite Hon. split; [|by left]. intros [?|[Hb _]]; [done|].
          by rewrite below_never in Hb by (done || apply Hd). }
        pose proof (cell_binary _ _ _ _ Bo E) as Bx.
        pose proof (cell_binary _ _ _ _ Bo' E') as Bx'.
        rewrite (on_binary o' r c x'), (on_binary o r c x) in Hiff by done.
        destruct Bx as [->| ->], Bx' as [->| ->]; try done.
        -- by destruct (proj1 Hiff eq_refl).
        -- by destruct (proj2 Hiff eq_refl).
      * destruct (cell o r c) as [x|] eqn:E; [|done]. exfalso.
        assert (is_Some (cell o' r c)) as [? ?]; [|by simplify_eq].
        apply (cell_shape _ _ o' r c So'). apply (cell_shape _ _ o r c So). by eexists.
    + rewrite !lookup_ge_None_2; [done| |].
      * rewrite (wf_len_open g Hwf). lia.
      * rewrite (wf_len_open g' Hwf'), Em. lia.
Qed.

Lemma random_open_extremes_witness :
  wf demo_generated ∧ Forall (λ b, b = true) (active_games demo_generated) ∧
  (∀ i r c : nat, 0 ≤ (λ _ _ _ : nat, 1) i r c < 2 ^ 53) ∧
  ∃ g' t, random_open (λ _ _ _, 1) (1, 1%positive) demo_generated = Some (g', t) ∧
    (Z.pos (1, 1%positive).2 ≤ (1, 1%positive).1 →
       Forall (λ w, w = true) (won g') ∧ Forall (λ a, a = false) (active_games g')) ∧
    ((1, 1%positive).1 ≤ 0 → open_cells g' = open_cells demo_generated).
Proof.
  split; [apply wfb_wf; vm_compute; reflexivity|]. split; [repeat constructor|]. split; [intros; cbn; lia|].
  apply (random_open_extremes (λ _ _ _, 1) (1, 1%positive) demo_generated);
    [apply wfb_wf; vm_compute; reflexivity|repeat constructor|intros; cbn; lia].
Defined.

(** X11: [random_flags] at the start of a game returns, loses no slot,
    reveals nothing, and flags exactly the mines whose draw is below the
    rate. *)
Theorem random_flags_only_mines draws rate g :
  wf g → Forall (λ b, b = true) (active_games g) →
  ∃ g' t, random_flags draws rate g = Some (g', t) ∧
    ∀ i m o f, mines g !! i = Some m → open_cells g !! i = Some o → flags g !! i = Some f →
      ∃ f' w, flags g' !! i = Some f' ∧ open_cells g' !! i = Some o ∧
        (∀ r c, on f' r c ↔ on f r c ∨ (below (draws i r c) rate = true ∧ on m r c)) ∧
        won g' !! i = Some w ∧ active_games g' !! i = Some (negb w).
Proof.
  intros Hwf Hact.
  assert (id 0 = 0 ∨ id 0 = 1) as K0 by auto.
  assert (id 1 = 0 ∨ id 1 = 1) as K1 by auto.
  set (to_flag := bmap2 mul8 (hits draws rate (mines g)) (mines g)).
  assert (bmap id (mines g) = mines g) as Eid.
  { unfold bmap. rewrite <- (list_fmap_id (mines g)) at 2. apply list_fmap_ext.
    intros _ b _. rewrite <- (list_fmap_id b) at 2. apply list_fmap_ext.
    intros _ row _. apply list_fmap_id. }
  pose proof (masked_request g draws rate id Hwf Hact K0 K1) as Hreq.
  rewrite Eid in Hreq. fold to_flag in Hreq.
  pose proof (default_request g Hwf) as Hreq0.
  set (to_open := zeros_like (gather (active_games g) (mines g))) in *.
  destruct (move_all_correct g to_open to_flag Hwf Hact Hreq0 Hreq)
    as (g' & correct & Hmove & _ & _ & Hslots).
  { intros i m ro rf Hm Hro Hrf.
    destruct (Forall_lookup_1 _ _ _ _ (wf_mines g Hwf) Hm) as [Sm Bm].
    destruct (Forall_lookup_1 _ _ _ _ (proj2 Hreq0) Hro) as [Sro Bro].
    destruct (Forall_lookup_1 _ _ _ _ (proj2 Hreq) Hrf) as [Srf Brf].
    split; [apply (correct_zero_board (rows g) (columns g) m ro); try done;
            intros r c; by eapply zeros_like_off|].
    rewrite (correct_flag_spec (rows g) (columns g)) by done. intros r c H1.
    destruct (masked_hits g draws rate id i m Hwf Hm K0 K1) as (t & Ht & _ & Hon).
    rewrite Eid in Ht. unfold to_flag in Hrf. simplify_eq.
    assert (is_Some (cell m r c)) as [z Hz].
    { apply (cell_shape _ _ m r c Sm). apply (cell_shape _ _ rf r c Srf).
      unfold on in H1. by rewrite H1. }
    destruct (proj1 (Hon r c z Hz) H1) as [_ H1']. unfold on. rewrite Hz. by rewrite <- H1'. }
  exists g', to_flag. split.
  { unfold random_flags. fold to_flag.
    change (move None (Some to_flag) g) with (move (Some to_open) (Some to_flag) g).
    by rewrite Hmove. }
  intros i m o f Hm Ho Hf.
  destruct (Hslots i m o f Hm Ho Hf) as (ro & rf & w & Hro & Hrf & [Sro Bro] & [Srf Brf] & Ho' & Hf' & Hw & Ha').
  destruct (slot_boards g Hwf i) as (m0 & o0 & f0 & a & ? & ? & ? & _ & [Sm Bm] & [So Bo] & [Sf Bf]).
  { by eapply lookup_lt_Some. }
  simplify_eq.
  exists (map2 Z.lor f rf), w. split_and!; [done| | |done..].
  - rewrite Ho'. f_equal. apply (lor_zero_board (rows g) (columns g)); try done.
    intros r c. by eapply zeros_like_off.
  - intros r c. rewrite (lor_on (rows g) (columns g)) by done.
    destruct (masked_hits g draws rate id i m Hwf Hm K0 K1) as (t & Ht & _ & Hon).
    rewrite Eid in Ht. unfold to_flag in Hrf. simplify_eq.
    split; (intros [?|H]; [by left|right]).
    + assert (is_Some (cell m r c)) as [z Hz].
      { apply (cell_shape _ _ m r c Sm). apply (cell_shape _ _ rf r c Srf).
        unfold on in H. by rewrite H. }
      destruct (proj1 (Hon r c z Hz) H) as [H1 H2]. split; [done|]. unfold on. rewrite Hz.
      by rewrite <- H2.
    + destruct H as [H1 H2]. by apply (Hon r c 1 H2).
Qed.

Lemma random_flags_only_mines_witness :
  wf demo_generated ∧ Forall (λ b, b = true) (active_games demo_generated) ∧
  ∃ g' t, random_flags (λ _ _ _, 1) (1, 2%positive) demo_generated = Some (g', t) ∧
    ∀ i m o f,
      mines demo_generated !! i = Some m → open_cells demo_generated !! i = Some o →
      flags demo_generated !! i = Some f →
      ∃ f' w, flags g' !! i = Some f' ∧ open_cells g' !! i = Some o ∧
        (∀ r c, on f' r c ↔
                on f r c ∨ (below ((λ _ _ _, 1) i r c) (1, 2%positive) = true ∧ on m r c)) ∧
        won g' !! i = Some w ∧ active_games g' !! i = Some (negb w).
Proof.
  split; [apply wfb_wf; vm_compute; reflexivity|]. split; [repeat constructor|].
  apply (random_flags_only_mines (λ _ _ _, 1) (1, 2%positive) demo_generated);
    [apply wfb_wf; vm_compute; reflexivity|repeat constructor].
Defined.

Lemma count_lt_length mask i : mask !! i = Some false → (count mask < length mask)%nat.
Proof.
  revert i. induction mask as [|b m IH]; intros [|i] H; simplify_eq/=.
  - rewrite count_cons. pose proof (count_le_length m). simpl. lia.
  - rewrite count_cons. pose proof (IH i H). destruct b; simpl; lia.
Qed.

Lemma request_ok_many g req :
  length req ≠ count (active_games g) → (2 ≤ length req)%nat → request_ok g req = false.
Proof.
  intros H1 H2. unfold request_ok.
  rewrite bool_decide_eq_false_2 by done. by rewrite bool_decide_eq_false_2 by lia.
Qed.

Lemma move_wrong_length g to_open to_flag :
  (length to_open ≠ count (active_games g) ∧ (2 ≤ length to_open)%nat) ∨
  (length to_flag ≠ count (active_games g) ∧ (2 ≤ length to_flag)%nat) →
  move (Some to_open) (Some to_flag) g = None.
Proof.
  intros H. unfold move. cbn [default from_option id].
  destruct H as [[H1 H2]|[H1 H2]]; rewrite (request_ok_many _ _ H1 H2); [done|].
  by rewrite andb_false_r.
Qed.

Lemma request_ok_one g req :
  count (active_games g) = 0%nat → length req = 1%nat → Forall (board_ok g) req →
  request_ok g req = true.
Proof.
  intros H0 H1 Hb. unfold request_ok. apply andb_true_iff. split.
  - rewrite (bool_decide_eq_true_2 (_ ∧ _)) by done. apply orb_true_r.
  - apply forallb_forall. intros b Hin. apply has_shapeb_true.
    apply list_elem_of_In in Hin. rewrite Forall_forall in Hb. by apply Hb.
Qed.

Lemma zeros_like_boards g (t : batch) :
  Forall (board_ok g) t → Forall (board_ok g) (zeros_like t).
Proof.
  intros Hb. apply Forall_lookup_2. intros i b Hi. rewrite zeros_like_lookup in Hi.
  destruct (t !! i) as [b0|] eqn:E; simplify_eq/=.
  apply zero_board_ok. by eapply (Forall_lookup_1 _ _ _ _ Hb).
Qed.

Lemma masked_boards g draws rate keep :
  wf g → (keep 0 = 0 ∨ keep 0 = 1) → (keep 1 = 0 ∨ keep 1 = 1) →
  length (bmap2 mul8 (hits draws rate (mines g)) (bmap keep (mines g))) = length (mines g) ∧
  Forall (board_ok g) (bmap2 mul8 (hits draws rate (mines g)) (bmap keep (mines g))).
Proof.
  intros Hwf K0 K1.
  assert (length (bmap2 mul8 (hits draws rate (mines g)) (bmap keep (mines g)))
          = length (mines g)) as Hl
    by (by rewrite length_bmap2, length_hits by (by rewrite length_hits, length_bmap)).
  split; [done|]. apply Forall_lookup. intros i t Ht.
  assert (is_Some (mines g !! i)) as [m Hm].
  { apply lookup_lt_is_Some. apply lookup_lt_Some in Ht. by rewrite Hl in Ht. }
  destruct (masked_hits g draws rate keep i m Hwf Hm K0 K1) as (t' & Ht' & Hok & _).
  by simplify_eq.
Qed.

Lemma count_zero_false mask : count mask = 0%nat → Forall (λ b, b = false) mask.
Proof.
  induction mask as [|b m IH]; intros H; [constructor|].
  rewrite count_cons in H. destruct b; [lia|]. constructor; [done|]. apply IH. lia.
Qed.

Lemma deactivate_none act wn :
  Forall (λ b, b = false) act → length act = length wn → deactivate act wn = act.
Proof.
  intros H. revert wn. induction H as [|b m -> _ IH]; intros [|w wn] Hl; simplify_eq/=; [done|].
  unfold deactivate in *. cbn [zip_with]. rewrite IH by done. by destruct w.
Qed.

(** With no active slot, a move that returns leaves the boards and the
    active slots as they are. *)
Lemma move_no_active g t f g' correct :
  wf g → count (active_games g) = 0%nat →
  move (Some t) (Some f) g = Some (g', correct) → untouched g g'.
Proof.
  intros Hwf H0 Hmove. unfold move in Hmove. cbn [default from_option id] in Hmove.
  destruct (request_ok g t && request_ok g f); [|done]. cbn [negb] in Hmove.
  injection Hmove as <- _. unfold untouched, merge. cbn.
  rewrite !(count_zero_scatter (active_games g)) by done.
  split_and!; [done..|].
  apply deactivate_none; [by apply count_zero_false|].
  unfold detect_won. rewrite length_map, length_zip_with.
  rewrite (wf_len_open g Hwf), (wf_len_active g Hwf). lia.
Qed.

Lemma move_taken g t f :
  request_ok g t = true → request_ok g f = true →
  ∃ g' correct, move (Some t) (Some f) g = Some (g', correct).
Proof.
  intros Ht Hf. unfold move. cbn [default from_option id]. rewrite Ht, Hf. cbn [andb negb].
  by eexists _, _.
Qed.

(** [demo_lost] is the game [__init__] builds with the mine drawn in the
    first cell, after a move that asked for that cell. *)
Lemma demo_lost_played :
  (g0 ← init id 2 2 (Scalar 1) 1; move (Some [[[1; 0]; [0; 0]]]) None g0)
  = Some (demo_lost, [false]).
Proof. vm_compute. reflexivity. Qed.

(** X12: [open_zero], [random_open] and [random_flags] build a request with
    one board per slot, which [move] takes for the active slots only. On a
    batch of two or more slots with a finished slot each of them raises. On
    a game of one slot that is finished each of them returns and leaves the
    boards as they are: the request of one board is broadcast onto the
    empty selection of active slots. *)
Theorem start_only_moves_raise zdraws draws rate g i :
  wf g → active_games g !! i = Some false →
  ((2 ≤ length (mines g))%nat →
     open_zero zdraws g = None ∧
     random_open draws rate g = None ∧
     random_flags draws rate g = None) ∧
  (length (mines g) = 1%nat →
     (∃ g' t, random_open draws rate g = Some (g', t) ∧ untouched g g') ∧
     (∃ g' t, random_flags draws rate g = Some (g', t) ∧ untouched g g') ∧
     (n g = 1%nat → (0 < rows g)%nat → (0 < columns g)%nat →
      ∃ g' t, open_zero zdraws g = Some (g', t) ∧ untouched g g')).
Proof.
  intros Hwf Hi.
  pose proof (count_lt_length _ _ Hi) as Hlt. rewrite (wf_len_active g Hwf) in Hlt.
  destruct keep_safe as [K0 K1].
  destruct (masked_boards g draws rate (sub8 1) Hwf K0 K1) as [Hlo Hbo].
  destruct (masked_boards g draws rate id Hwf ltac:(by left) ltac:(by right)) as [Hlf Hbf].
  assert (bmap id (mines g) = mines g) as Eid.
  { unfold bmap. rewrite <- (list_fmap_id (mines g)) at 2. apply list_fmap_ext.
    intros _ b _. rewrite <- (list_fmap_id b) at 2. apply list_fmap_ext.
    intros _ row _. apply list_fmap_id. }
  rewrite Eid in Hlf, Hbf.
  split.
  - intros H2. split_and!.
    + unfold open_zero. destruct (bool_decide (length (mines g) = n g)); [|done].
      destruct (bool_decide (n g = 0%nat)); [done|]. cbn [negb orb].
      destruct (mapM _ _) as [cells|] eqn:E; [|done]. cbn [mbind option_bind].
      apply length_mapM in E. rewrite length_imap, length_zip in E.
      rewrite (wf_len_numbers g Hwf), Nat.min_id in E.
      change (move (Some (one_cell_request cells (mines g))) None g)
        with (move (Some (one_cell_request cells (mines g)))
                   (Some (zeros_like (one_cell_request cells (mines g)))) g).
      rewrite move_wrong_length; [done|]. left.
      unfold one_cell_request, zeros_like. rewrite length_zip_with, length_map. lia.
    + unfold random_open.
      set (t := bmap2 mul8 (hits draws rate (mines g)) (bmap (sub8 1) (mines g))) in *.
      change (move (Some t) None g) with (move (Some t) (Some (zeros_like t)) g).
      rewrite move_wrong_length; [done|]. left. lia.
    + unfold random_flags.
      set (t := bmap2 mul8 (hits draws rate (mines g)) (mines g)) in *.
      change (move None (Some t) g)
        with (move (Some (zeros_like (gather (active_games g) (mines g)))) (Some t) g).
      rewrite move_wrong_length; [done|]. right. lia.
  - intros H1.
    assert (count (active_games g) = 0%nat) as H0 by lia.
    split_and!.
    3:{ intros Hn Hr Hc. unfold open_zero.
      rewrite bool_decide_eq_true_2 by lia. rewrite bool_decide_eq_false_2 by lia.
      cbn [negb orb].
      match goal with |- context [mapM ?f ?l] =>
        destruct (mapM_is_Some_2 f l) as [cells Hcells] end.
      { apply Forall_lookup_2. intros j [j' [num mine]] Hj.
        apply list_lookup_imap_Some in Hj as ([num' mine'] & Hzip & ?). simplify_eq.
        apply lookup_zip_with_Some in Hzip as (? & ? & ? & Hnum & Hmine). simplify_eq.
        simpl. eapply (select_cell_is_Some (columns g) _ (rows g)); [|  |done..].
        - by eapply (Forall_lookup_1 _ _ _ _ (wf_numbers g Hwf)).
        - by eapply (Forall_lookup_1 _ _ _ _ (wf_mines g Hwf)). }
      rewrite Hcells. cbn [mbind option_bind].
      set (t := one_cell_request cells (mines g)).
      assert (length t = 1%nat) as Hlt1.
      { apply length_mapM in Hcells. rewrite length_imap, length_zip in Hcells.
        rewrite (wf_len_numbers g Hwf), Nat.min_id in Hcells.
        unfold t, one_cell_request, zeros_like. rewrite length_zip_with, length_map. lia. }
      assert (request_ok g t = true) as Hok
        by (apply request_ok_one; [done..|by apply one_cell_request_ok]).
      assert (request_ok g (zeros_like t) = true) as Hok0.
      { apply request_ok_one; [done| |].
        - unfold zeros_like. by rewrite length_map.
        - apply zeros_like_boards. by apply one_cell_request_ok. }
      destruct (move_taken g t (zeros_like t) Hok Hok0) as (g1 & correct & Hmove).
      change (move (Some t) None g) with (move (Some t) (Some (zeros_like t)) g).
      rewrite Hmove. cbn [mbind option_bind]. exists g1, t. split; [done|].
      by apply (move_no_active g t (zeros_like t) g1 correct). }
    + unfold random_open.
      set (t := bmap2 mul8 (hits draws rate (mines g)) (bmap (sub8 1) (mines g))) in *.
      assert (request_ok g t = true) as Hok by (apply request_ok_one; [done|lia|done]).
      assert (request_ok g (zeros_like t) = true) as Hok0.
      { apply request_ok_one; [done| |by apply zeros_like_boards].
        unfold zeros_like. rewrite length_map. lia. }
      destruct (move_taken g t (zeros_like t) Hok Hok0) as (g2 & correct & Hmove).
      change (move (Some t) None g) with (move (Some t) (Some (zeros_like t)) g).
      rewrite Hmove. cbn [mbind option_bind]. exists g2, t. split; [done|].
      by apply (move_no_active g t (zeros_like t) g2 correct).
    + unfold random_flags.
      set (t := bmap2 mul8 (hits draws rate (mines g)) (mines g)) in *.
      assert (request_ok g t = true) as Hok by (apply request_ok_one; [done|lia|done]).
      assert (request_ok g (zeros_like (gather (active_games g) (mines g))) = true) as Hok0.
      { rewrite count_zero_gather by done. apply request_ok_true. by apply request_nil. }
      destruct (move_taken g (zeros_like (gather (active_games g) (mines g))) t Hok0 Hok)
        as (g3 & correct & Hmove).
      change (move None (Some t) g)
        with (move (Some (zeros_like (gather (active_games g) (mines g)))) (Some t) g).
      rewrite Hmove. cbn [mbind option_bind]. exists g3, t. split; [done|].
      by apply (move_no_active g (zeros_like (gather (active_games g) (mines g))) t
                  g3 correct).
Qed.

Lemma start_only_moves_raise_witness :
  wf demo_played ∧ active_games demo_played !! 1%nat = Some false ∧
  (2 ≤ length (mines demo_played))%nat ∧
  wf demo_lost ∧ active_games demo_lost !! 0%nat = Some false ∧
  length (mines demo_lost) = 1%nat ∧ n demo_lost = 1%nat ∧
  (0 < rows demo_lost)%nat ∧ (0 < columns demo_lost)%nat ∧
  (open_zero (λ _ _ _, 1) demo_played = None ∧
   random_open (λ _ _ _, 1) (1, 2%positive) demo_played = None ∧
   random_flags (λ _ _ _, 1) (1, 2%positive) demo_played = None) ∧
  (∃ g' t, random_open (λ _ _ _, 1) (1, 2%positive) demo_lost = Some (g', t) ∧
           untouched demo_lost g') ∧
  (∃ g' t, random_flags (λ _ _ _, 1) (1, 2%positive) demo_lost = Some (g', t) ∧
           untouched demo_lost g') ∧
  (∃ g' t, open_zero (λ _ _ _, 1) demo_lost = Some (g', t) ∧ untouched demo_lost g').
Proof.
  assert (wf demo_played) as Hwf1 by (apply wfb_wf; vm_compute; reflexivity).
  assert (wf demo_lost) as Hwf2 by (apply wfb_wf; vm_compute; reflexivity).
  split; [done|]. split; [reflexivity|]. split; [cbn; lia|].
  split; [done|]. split; [reflexivity|]. split; [reflexivity|]. split; [reflexivity|].
  split; [cbn; lia|]. split; [cbn; lia|].
  split.
  - apply (proj1 (start_only_moves_raise (λ _ _ _, 1) (λ _ _ _, 1) (1, 2%positive)
                    demo_played 1 Hwf1 eq_refl)).
    cbn. lia.
  - destruct (proj2 (start_only_moves_raise (λ _ _ _, 1) (λ _ _ _, 1) (1, 2%positive)
                       demo_lost 0 Hwf2 eq_refl) eq_refl) as (Ho & Hf & Hz).
    split; [exact Ho|]. split; [exact Hf|]. apply Hz; [reflexivity|cbn; lia|cbn; lia].
Defined.

End RandomFacts.

(** * A selection keeps [n = 0] *)
Module SelectionFacts.
Import Np.



End SelectionFacts.

(** * Scores *)
Module ScoreFacts.
Import Np Utils Engine Reports.
Import NpFacts EngineFacts GeneratorFacts OpenZeroFacts ReportsFacts.

(** *** Counting the cells of two boards that do not overlap *)

Local Abbreviation ones l := (length (filter (λ x : Z, x = 1) l)).

Lemma count_pair (l1 l2 : list Z) :
  length l1 = length l2 →
  Forall (λ x, x = 0 ∨ x = 1) l1 → Forall (λ x, x = 0 ∨ x = 1) l2 →
  (∀ p, l1 !! p = Some 1 → l2 !! p ≠ Some 1) →
  (ones l1 + ones l2 ≤ length l1)%nat ∧
  ((ones l1 + ones l2)%nat = length l1 ↔
   ∀ p, (p < length l1)%nat → l1 !! p = Some 1 ∨ l2 !! p = Some 1).
Proof.
  revert l2. induction l1 as [|x l1 IH]; intros [|y l2] Hl H1 H2 Hd; simplify_eq/=.
  - split; [done|]. split; [|done]. intros _ p Hp. lia.
  - apply Forall_cons in H1 as [Hx H1]. apply Forall_cons in H2 as [Hy H2].
    destruct (IH l2) as [Hle Hiff]; [done..| |].
    { intros p. apply (Hd (S p)). }
    rewrite !filter_cons.
    pose proof (Hd 0%nat) as Hd0. cbn in Hd0.
    destruct Hx as [->| ->], Hy as [->| ->];
      repeat (case_decide; try done); cbn [length].
    + split; [lia|]. split; [lia|]. intros Hall. destruct (Hall 0%nat) as [?|?]; [lia|done..].
    + split; [lia|]. rewrite Nat.add_succ_r. split.
      * intros E p Hp. destruct p as [|p]; [by right|]. apply Hiff; lia.
      * intros Hall. cut ((ones l1 + ones l2)%nat = length l1); [lia|]. apply Hiff. intros p Hp. apply (Hall (S p)). lia.
    + split; [lia|]. split.
      * intros E p Hp. destruct p as [|p]; [by left|]. apply Hiff; lia.
      * intros Hall. cut ((ones l1 + ones l2)%nat = length l1); [lia|]. apply Hiff. intros p Hp. apply (Hall (S p)). lia.
    + by destruct Hd0.
Qed.

Lemma index_cell h w (b : grid) p :
  has_shape h w b → (p < h * w)%nat →
  (p / w < h)%nat ∧ (p mod w < w)%nat ∧ flatten b !! p = cell b (p / w) (p mod w).
Proof.
  intros Hs Hp.
  assert (0 < w)%nat as Hw by (destruct w; lia).
  assert (p / w < h)%nat as Hr by (apply Nat.Div0.div_lt_upper_bound; lia).
  assert (p mod w < w)%nat as Hc by (apply Nat.mod_upper_bound; lia).
  split_and!; [done..|].
  rewrite <- (CascadeFacts.flatten_lookup h w b) by done. f_equal.
  rewrite (Nat.div_mod_eq p w) at 1. lia.
Qed.

Lemma flatten_binary (b : grid) : binary b → Forall (λ x, x = 0 ∨ x = 1) (flatten b).
Proof. intros H. unfold flatten. by apply Forall_concat. Qed.

(** Two boards that share no cell: together they hold at most all cells,
    and exactly all cells when every cell is on one of them. *)
Lemma count_ones_pair h w (o m : grid) :
  has_shape h w o → has_shape h w m → binary o → binary m →
  (∀ r c, on o r c → ¬ on m r c) →
  (count_ones o + count_ones m ≤ h * w)%nat ∧
  ((count_ones o + count_ones m = h * w)%nat ↔
   ∀ r c, (r < h)%nat → (c < w)%nat → on o r c ∨ on m r c).
Proof.
  intros So Sm Bo Bm Hd.
  pose proof (CascadeFacts.length_flatten h w o So) as Lo.
  pose proof (CascadeFacts.length_flatten h w m Sm) as Lm.
  destruct (count_pair (flatten o) (flatten m)) as [Hle Hiff].
  - lia.
  - by apply flatten_binary.
  - by apply flatten_binary.
  - intros p Hp.
    assert (p < h * w)%nat as Hlt by (rewrite <- Lo; by eapply lookup_lt_Some).
    destruct (index_cell h w o p So Hlt) as (_ & _ & Eo).
    destruct (index_cell h w m p Sm Hlt) as (_ & _ & Em).
    rewrite Eo in Hp. rewrite Em. by apply Hd.
  - unfold count_ones. rewrite Lo in Hle, Hiff. split; [done|]. rewrite Hiff. split.
    + intros H r c Hr Hc. unfold on.
      rewrite <- !(CascadeFacts.flatten_lookup h w) by done. apply H. nia.
    + intros H p Hp.
      destruct (index_cell h w o p So Hp) as (Hr & Hc & ->).
      destruct (index_cell h w m p Sm Hp) as (_ & _ & ->). by apply H.
Qed.

Lemma count_ones_zero_board (m : grid) : count_ones (map (map (λ _, 0)) m) = 0%nat.
Proof.
  unfold count_ones, flatten. induction m as [|row m IH]; [done|].
  cbn [map concat]. rewrite filter_app, length_app, IH, Nat.add_0_r.
  clear. induction row as [|x row IH]; [done|]. cbn [map].
  by rewrite filter_cons_False.
Qed.

(** *** [scores] *)

Lemma scores_lookup g :
  wf g → n g = length (mines g) → length (mines_n g) = length (mines g) →
  ∃ qs, scores false g = Some qs ∧
    ∀ i o k, open_cells g !! i = Some o → mines_n g !! i = Some k →
      qs !! i = Some (true_divide (Z.of_nat (count_ones o)) (Z.of_nat (size g) - k)).
Proof.
  intros Hwf Hn Hlen. unfold scores.
  pose proof (wf_len_open g Hwf) as Hlo.
  rewrite length_replicate, bool_decide_eq_true_2 by lia. cbn [negb].
  replace (n g) with (length (open_cells g)) by lia. rewrite gather_all.
  unfold broadcast2. rewrite decide_True by (rewrite !length_map; lia).
  eexists. split; [done|]. intros i o k Ho Hk.
  rewrite lookup_zip_with, !list_lookup_fmap, Ho, Hk. cbn.
  assert (binary o) as Hb by (by destruct (Forall_lookup_1 _ _ _ _ (wf_open g Hwf) Ho)).
  by rewrite (sum_binary o Hb).
Qed.

Lemma played_won g0 g :
  wf g0 → played g0 g → g = g0 ∨ win_detected g.
Proof.
  intros Hwf Hp. destruct Hp as [|g to_open to_flag g' correct Hp Ho Hf Hmove]; [by left|].
  right. apply (move_win_detected g to_open to_flag g' correct); [|done..].
  clear Hmove Ho Hf. induction Hp as [|g1 to_open1 to_flag1 g2 correct1 Hp IH Ho Hf Hmove];
    [done|]. by apply (move_wf g1 g2 to_open1 to_flag1 correct1).
Qed.

(** X14: on every game built by [__init__] and played by [move], the score
    of a slot with fewer mines than cells is a fraction between 0 and 1,
    and it is 1 exactly when the slot is won. *)
Theorem score_one_iff_won permuted rws cols mn nn g0 g :
  shuffles permuted → init permuted rws cols mn nn = Some g0 → played g0 g →
  length (mines_n g0) = nn →
  ∃ qs, scores false g = Some qs ∧
    ∀ i k w, mines_n g !! i = Some k → won g !! i = Some w →
      0 ≤ k < Z.of_nat (rws * cols) →
      ∃ a, qs !! i = Some (Ratio a (Z.of_nat (rws * cols) - k)) ∧
           0 ≤ a ≤ Z.of_nat (rws * cols) - k ∧
           (w = true ↔ a = Z.of_nat (rws * cols) - k).
Proof.
  intros Hsh Hinit Hp Hks.
  destruct (played_init _ _ _ _ _ _ _ Hsh Hinit Hp) as (Hs & Hr & Hc & Hlen & Hmn).
  destruct (played_frame g0 g Hp) as (_ & _ & _ & _ & Emn & Em & _).
  pose proof Hs as [Hwf Hmarks _ Hn Hsz _ _].
  destruct (scores_lookup g Hwf Hn) as (qs & Hqs & Hq); [by rewrite Emn, Hks|].
  exists qs. split; [done|]. intros i k w Hk Hw Hrange.
  destruct (slot_boards g Hwf i) as (m & o & f & a & Hm & Ho & Hf & _ & [Sm Bm] & [So Bo] & _).
  { rewrite <- (wf_len_won g Hwf). by eapply lookup_lt_Some. }
  rewrite (Hq i o k Ho Hk), Hsz, Hr, Hc.
  assert (count_ones m = Z.to_nat k) as Hcm.
  { rewrite Em in Hm. rewrite Emn in Hk.
    rewrite (generated_count _ _ _ _ _ _ i m k Hsh Hinit Hm Hk).
    unfold slice_stop. destruct (Z.ltb_spec k 0); lia. }
  rewrite Hr, Hc in Sm, So.
  destruct (count_ones_pair rws cols o m So Sm Bo Bm) as [Hle Hiff].
  { intros r c. by apply (Hmarks i m o f r c). }
  exists (Z.of_nat (count_ones o)). split_and!.
  - unfold true_divide. destruct (Z.eqb_spec (Z.of_nat (rws * cols) - k) 0); [lia|done].
  - lia.
  - lia.
  - assert (w = true ↔ covered g o m) as ->.
    { destruct (played_won g0 g) as [->|Hwd]; [by eapply init_wf|done| |].
      - destruct (init_inv _ _ _ _ _ _ Hinit) as (ms & _ & E0). rewrite E0 in Hw, Ho, Hm.
        cbn in Hw, Ho, Hm. rewrite lookup_replicate in Hw. destruct Hw as [-> _].
        split; [done|]. intros Hcov. exfalso.
        rewrite zeros_like_lookup, Hm in Ho. injection Ho as <-.
        pose proof (proj2 Hiff) as E. rewrite count_ones_zero_board in E.
        enough (0 + count_ones m = rws * cols)%nat by lia.
        apply E. intros r c Hr' Hc'. apply Hcov; [by rewrite Hr|by rewrite Hc].
      - destruct (Hwd i o m Ho Hm) as (w' & Hw' & Hiff' & _). by simplify_eq. }
    unfold covered. rewrite Hr, Hc, <- Hiff. lia.
Qed.

Lemma score_one_iff_won_witness :
  shuffles id ∧ init id 2 2 (PerSlot [1; 2]) 2 = Some demo_generated ∧
  played demo_generated demo_played ∧
  length (mines_n demo_generated) = 2%nat ∧
  ∃ qs, scores false demo_played = Some qs ∧
    ∀ i k w, mines_n demo_played !! i = Some k → won demo_played !! i = Some w →
      0 ≤ k < Z.of_nat (2 * 2) →
      ∃ a, qs !! i = Some (Ratio a (Z.of_nat (2 * 2) - k)) ∧
           0 ≤ a ≤ Z.of_nat (2 * 2) - k ∧
           (w = true ↔ a = Z.of_nat (2 * 2) - k).
Proof.
  split; [apply shuffles_id|]. split; [vm_compute; reflexivity|]. split; [apply demo_played_ok|]. split; [reflexivity|].
  apply (score_one_iff_won id 2 2 (PerSlot [1; 2]) 2 demo_generated demo_played);
    [apply shuffles_id|vm_compute; reflexivity|apply demo_played_ok|reflexivity].
Defined.

Lemma all_true_replicate (l : list bool) :
  Forall (λ b, b = true) l → l = replicate (length l) true.
Proof. induction 1 as [|b l -> _ IH]; [done|]. cbn. by f_equal. Qed.

Lemma gather_single {A} (mask : list bool) (xs : list A) j x :
  length mask = length xs → count mask = 1%nat →
  mask !! j = Some true → xs !! j = Some x → gather mask xs = [x].
Proof.
  intros Hl Hc Hj Hx.
  assert (length (gather mask xs) = 1%nat) as Hlen by (by rewrite length_gather).
  pose proof (lookup_gather mask xs j Hl Hj) as Hg. rewrite Hx in Hg.
  assert (rank mask j = 0%nat) as E.
  { pose proof (rank_lt mask j Hj). lia. }
  rewrite E in Hg. destruct (gather mask xs) as [|y [|??]]; simplify_eq/=. done.
Qed.

(** X15: [scores(final_only=True)] divides the revealed counts of the
    finished slots by the array of all slots' denominators: it is
    [scores()] when every slot is finished, it raises when the number of
    finished slots is neither [n] nor 1 (for [n] other than 1), and with
    one finished slot it returns [n] values, that slot's revealed count
    over each slot's denominator. *)
Theorem final_scores_broadcast g :
  wf g → n g = length (mines g) → length (mines_n g) = length (mines g) →
  let k := count (map negb (active_games g)) in
  (k = n g → scores true g = scores false g) ∧
  (k ≠ n g → k ≠ 1%nat → n g ≠ 1%nat → scores true g = None) ∧
  (k = 1%nat → n g ≠ 1%nat →
   ∀ j o, active_games g !! j = Some false → open_cells g !! j = Some o →
     scores true g
     = Some (map (λ kk, true_divide (sum o) (Z.of_nat (size g) - kk)) (mines_n g))).
Proof.
  intros Hwf Hn Hlen k.
  pose proof (wf_len_open g Hwf) as Hlo.
  pose proof (wf_len_active g Hwf) as Hla.
  assert (length (map negb (active_games g)) = length (open_cells g)) as Hmask
    by (rewrite length_map; lia).
  split_and!.
  - intros Hk. unfold scores. cbn [negb].
    assert (map negb (active_games g) = replicate (n g) true) as ->; [|done].
    rewrite (all_true_replicate (map negb (active_games g))).
    + by rewrite length_map, Hla, Hn.
    + apply count_full. fold k. rewrite length_map. lia.
  - intros H1 H2 H3. unfold scores.
    rewrite bool_decide_eq_true_2 by done. cbn [negb].
    unfold broadcast2.
    rewrite decide_False by (rewrite !length_map, length_gather by done; fold k; lia).
    assert (length (map sum (gather (map negb (active_games g)) (open_cells g))) = k) as Lx
      by (by rewrite length_map, length_gather).
    assert (length (map (λ k0, Z.of_nat (size g) - k0) (mines_n g)) = n g) as Ly
      by (rewrite length_map; lia).
    destruct (map sum _) as [|? [|??]], (map (λ k0, _ - k0) _) as [|? [|??]];
      cbn in Lx, Ly; try done; lia.
  - intros H1 H2 j o Hj Ho. unfold scores.
    rewrite bool_decide_eq_true_2 by done. cbn [negb].
    rewrite (gather_single _ _ j o); [|done|done| |done].
    + unfold broadcast2. rewrite decide_False by (cbn; rewrite length_map; lia).
      cbn [map]. by rewrite map_map.
    + by rewrite list_lookup_fmap, Hj.
Qed.

Lemma final_scores_broadcast_witness :
  wf demo_played ∧ n demo_played = length (mines demo_played) ∧
  length (mines_n demo_played) = length (mines demo_played) ∧
  let k := count (map negb (active_games demo_played)) in
  (k = n demo_played → scores true demo_played = scores false demo_played) ∧
  (k ≠ n demo_played → k ≠ 1%nat → n demo_played ≠ 1%nat →
   scores true demo_played = None) ∧
  (k = 1%nat → n demo_played ≠ 1%nat →
   ∀ j o, active_games demo_played !! j = Some false → open_cells demo_played !! j = Some o →
     scores true demo_played
     = Some (map (λ kk, true_divide (sum o) (Z.of_nat (size demo_played) - kk))
                 (mines_n demo_played))).
Proof.
  split; [apply wfb_wf; vm_compute; reflexivity|]. split; [reflexivity|]. split; [reflexivity|].
  apply (final_scores_broadcast demo_played);
    [apply wfb_wf; vm_compute; reflexivity|reflexivity|reflexivity].
Defined.

End ScoreFacts.

(** * The cell [open_zero] opens *)
Module PickFacts.
Import Np Utils Engine Reports.
Import NpFacts EngineFacts GeneratorFacts OpenZeroFacts ReportsFacts ScoreFacts RandomFacts.

Lemma foldl_min_spec l a :
  foldl Z.min a l ∈ a :: l ∧ ∀ x, x ∈ a :: l → foldl Z.min a l ≤ x.
Proof.
  revert a. induction l as [|y l IH]; intros a; cbn [foldl].
  - split; [by left|]. intros x Hx%list_elem_of_singleton. lia.
  - destruct (IH (Z.min a y)) as [Hin Hle].
    assert (foldl Z.min (Z.min a y) l ≤ Z.min a y) as H0 by (apply Hle; by left).
    split.
    + apply elem_of_cons in Hin as [E|Hin]; [|by do 2 right].
      rewrite E. destruct (Z.min_spec a y) as [[_ ->]|[_ ->]]; [by left|right; by left].
    + intros x Hx. apply elem_of_cons in Hx as [->|Hx]; [lia|].
      apply elem_of_cons in Hx as [->|Hx]; [lia|]. apply Hle. by right.
Qed.

Lemma minimum_spec l v : minimum l = Some v → v ∈ l ∧ ∀ x, x ∈ l → v ≤ x.
Proof. destruct l as [|a l]; [done|]. intros [= <-]. apply foldl_min_spec. Qed.

Lemma argmax_from_spec l : ∀ pre best besti,
  (pre ++ l) !! besti = Some best → (∀ x, x ∈ pre → x ≤ best) →
  ∃ v, (pre ++ l) !! argmax_from best besti (length pre) l = Some v ∧
       ∀ x, x ∈ pre ++ l → x ≤ v.
Proof.
  induction l as [|y l IH]; intros pre best besti Hb Hpre; cbn [argmax_from].
  - exists best. split; [done|]. rewrite app_nil_r. exact Hpre.
  - replace (pre ++ y :: l) with ((pre ++ [y]) ++ l) in * by (by rewrite <- app_assoc).
    replace (S (length pre)) with (length (pre ++ [y])) by (rewrite length_app; cbn; lia).
    destruct (Z.ltb_spec best y).
    + apply IH.
      * rewrite lookup_app_l by (rewrite length_app; cbn; lia).
        by rewrite lookup_app_r, Nat.sub_diag by lia.
      * intros x Hx. apply elem_of_app in Hx as [Hx|Hx]; [specialize (Hpre x Hx); lia|].
        apply list_elem_of_singleton in Hx. lia.
    + apply IH; [done|].
      intros x Hx. apply elem_of_app in Hx as [Hx|Hx]; [by apply Hpre|].
      apply list_elem_of_singleton in Hx. lia.
Qed.

Lemma argmax_spec l k :
  argmax l = Some k → ∃ v, l !! k = Some v ∧ ∀ x, x ∈ l → x ≤ v.
Proof.
  destruct l as [|a l]; [done|]. intros [= <-].
  apply (argmax_from_spec l [a] a 0%nat); [done|].
  intros x Hx. apply list_elem_of_singleton in Hx. lia.
Qed.

Lemma cell_imap2 (F : nat → nat → Z → Z) (b : grid) r c :
  cell (imap (λ r row, imap (λ c x, F r c x) row) b) r c = F r c <$> cell b r c.
Proof.
  unfold cell. rewrite list_lookup_imap. destruct (b !! r) as [row|]; [|done]. cbn.
  by rewrite list_lookup_imap.
Qed.

Lemma imap2_shape (F : nat → nat → Z → Z) h w (b : grid) :
  has_shape h w b → has_shape h w (imap (λ r row, imap (λ c x, F r c x) row) b).
Proof.
  intros [Hh Hw]. split; [by rewrite length_imap|].
  apply Forall_lookup. intros r row Hrow. rewrite list_lookup_imap in Hrow.
  destruct (b !! r) as [row0|] eqn:E; [|done]. injection Hrow as <-.
  rewrite length_imap. by apply (Forall_lookup_1 _ _ _ _ Hw E).
Qed.

Lemma flatten_elem h w (b : grid) x :
  has_shape h w b → x ∈ flatten b ↔ ∃ r c, (r < h)%nat ∧ (c < w)%nat ∧ cell b r c = Some x.
Proof.
  intros Hs. split.
  - intros Hx. apply list_elem_of_lookup in Hx as [p Hp].
    assert (p < h * w)%nat as Hlt.
    { rewrite <- (CascadeFacts.length_flatten h w b Hs). by eapply lookup_lt_Some. }
    destruct (index_cell h w b p Hs Hlt) as (Hr & Hc & E). rewrite E in Hp. eauto.
  - intros (r & c & Hr & Hc & Hx). apply list_elem_of_lookup. exists (r * w + c)%nat.
    by rewrite (CascadeFacts.flatten_lookup h w).
Qed.

(** The cell [open_zero] selects on a board that has a safe cell, when no
    draw is 0: a safe cell whose number is the least among the safe cells. *)
Lemma select_cell_least h w draw (num m : grid) r c :
  has_shape h w num → has_shape h w m → binary m →
  (∀ r c x z, cell num r c = Some x → cell m r c = Some z →
              (z = 0 → 0 ≤ x ≤ 8) ∧ (z = 1 → x = -1)) →
  (∀ r c, 0 < draw r c) →
  (∃ r0 c0, cell m r0 c0 = Some 0) →
  select_cell w draw num m = Some (r, c) →
  (r < h)%nat ∧ (c < w)%nat ∧
  ∃ v, cell num r c = Some v ∧ cell m r c = Some 0 ∧
    ∀ r' c' v', cell m r' c' = Some 0 → cell num r' c' = Some v' → v ≤ v'.
Proof.
  intros Sn Sm Bm Hnum Hdraw (r0 & c0 & H0) Hsel. unfold select_cell in Hsel.
  set (val := map2 (λ x m, add8 x (wrap8 (10 * m))) num m) in Hsel.
  assert (has_shape h w val) as Sv by (by apply map2_shape).
  assert (∀ r c x z, cell num r c = Some x → cell m r c = Some z →
            cell val r c = Some (x + 10 * z) ∧ (z = 0 ∨ z = 1)) as Hval.
  { intros r1 c1 x z Hx Hz. unfold val. rewrite cell_map2, Hx, Hz. cbn.
    destruct (Hnum r1 c1 x z Hx Hz) as [Ha Hb].
    destruct (cell_binary _ _ _ _ Bm Hz) as [->| ->]; (split; [|auto]); f_equal.
    - specialize (Ha eq_refl). unfold add8. rewrite (wrap8_small (10 * 0)) by lia.
      rewrite wrap8_small; lia.
    - rewrite (Hb eq_refl). reflexivity. }
  assert (∀ r c, (r < h)%nat → (c < w)%nat →
            ∃ x z, cell num r c = Some x ∧ cell m r c = Some z) as Hex.
  { intros r1 c1 Hr1 Hc1.
    destruct (proj2 (cell_shape _ _ num r1 c1 Sn)) as [x Hx]; [done|].
    destruct (proj2 (cell_shape _ _ m r1 c1 Sm)) as [z Hz]; [done|]. eauto. }
  destruct (minimum (flatten val)) as [mins|] eqn:Emin; [|done]. cbn in Hsel.
  apply minimum_spec in Emin as [Hin Hle].
  set (weighted := imap (λ r row, imap (λ c x, draw r c * (if x =? mins then 1 else 0)) row) num)
    in Hsel.
  destruct (argmax (flatten weighted)) as [k|] eqn:Emax; [|done]. cbn in Hsel.
  injection Hsel as <- <-.
  assert (has_shape h w weighted) as Sw by (by apply imap2_shape).
  apply argmax_spec in Emax as (v & Hk & Hmax).
  assert (k < h * w)%nat as Hlt.
  { rewrite <- (CascadeFacts.length_flatten h w weighted Sw). by eapply lookup_lt_Some. }
  destruct (index_cell h w weighted k Sw Hlt) as (Hr & Hc & E). rewrite E in Hk.
  unfold weighted in Hk. rewrite cell_imap2 in Hk.
  (* the least value is taken at a safe cell *)
  assert (is_Some (cell m r0 c0)) as Hin0 by (by eexists).
  apply (cell_shape _ _ m r0 c0 Sm) in Hin0 as [Hr0 Hc0].
  destruct (Hex r0 c0 Hr0 Hc0) as (x0 & z0 & Hx0 & Hz0). rewrite H0 in Hz0. injection Hz0 as <-.
  destruct (Hval r0 c0 x0 0 Hx0 H0) as [Hv0 _].
  destruct (Hnum r0 c0 x0 0 Hx0 H0) as [Hx0r _]. specialize (Hx0r eq_refl).
  assert (mins ≤ x0 + 10 * 0) as Hm0.
  { apply Hle. apply (flatten_elem h w val _ Sv). eauto. }
  apply (flatten_elem h w val _ Sv) in Hin as (r1 & c1 & Hr1 & Hc1 & Hv1).
  destruct (Hex r1 c1 Hr1 Hc1) as (x1 & z1 & Hx1 & Hz1).
  destruct (Hval r1 c1 x1 z1 Hx1 Hz1) as [Hv1' Bz1]. rewrite Hv1 in Hv1'. injection Hv1' as ->.
  destruct (Hnum r1 c1 x1 z1 Hx1 Hz1) as [Hs1 Hm1].
  assert (z1 = 0) as -> by (destruct Bz1 as [->| ->]; [done|]; specialize (Hm1 eq_refl); lia).
  specialize (Hs1 eq_refl).
  (* so some weight is positive, and the largest one is *)
  assert (0 < v) as Hpos.
  { pose proof (Hdraw r1 c1) as Hd.
    assert (draw r1 c1 * 1 ≤ v); [|lia].
    apply Hmax. apply (flatten_elem h w weighted _ Sw). exists r1, c1. split_and!; [done..|].
    unfold weighted. rewrite cell_imap2, Hx1. cbn. f_equal.
    rewrite (proj2 (Z.eqb_eq _ _)); lia. }
  destruct (Hex _ _ Hr Hc) as (x & z & Hx & Hz). rewrite Hx in Hk. cbn in Hk.
  injection Hk as Hk.
  destruct (Z.eqb_spec x (x1 + 10 * 0)) as [Ex|]; [|lia].
  destruct (Hval _ _ x z Hx Hz) as [Hv Bz].
  destruct (Hnum _ _ x z Hx Hz) as [_ Hmz].
  assert (z = 0) as -> by (destruct Bz as [->| ->]; [done|]; specialize (Hmz eq_refl); lia).
  split_and!; [done..|]. exists x. split_and!; [done..|].
  intros r' c' v' Hz' Hx'.
  destruct (Hval r' c' v' 0 Hx' Hz') as [Hv' _].
  assert (is_Some (cell m r' c')) as Hin' by (by eexists).
  apply (cell_shape _ _ m r' c' Sm) in Hin' as [Hr' Hc'].
  assert (x1 + 10 * 0 ≤ v' + 10 * 0); [|lia].
  apply Hle. apply (flatten_elem h w val _ Sv). eauto.
Qed.

Lemma open_zero_cells draws g g' t :
  open_zero draws g = Some (g', t) →
  ∃ cells,
    mapM (λ '(i, (num, mine)), select_cell (columns g) (draws i) num mine)
         (imap (λ i x, (i, x)) (zip (numbers g) (mines g))) = Some cells ∧
    t = one_cell_request cells (mines g).
Proof.
  intros H. unfold open_zero in H.
  destruct (bool_decide (length (mines g) = n g)); cbn in H; [|done].
  destruct (bool_decide (n g = 0%nat)); cbn in H; [done|].
  destruct (mapM _ _) as [cells|] eqn:Hcells; cbn in H; [|done].
  destruct (move _ None g) as [[g1 correct]|] eqn:Hmove; cbn in H; [|done].
  injection H as -> <-. by exists cells.
Qed.

(** X16: at the start of a game of one slot or more, with no draw equal to
    0, [open_zero] opens in every slot that has a safe cell a safe cell whose
    number is the least among the safe cells of the slot: a zero when there
    is one. *)
Theorem open_zero_opens_least_safe_cell permuted rws cols mn nn g draws :
  shuffles permuted → init permuted rws cols mn nn = Some g → (0 < nn)%nat →
  (0 < rws)%nat → (0 < cols)%nat → (∀ i r c, 0 < draws i r c) →
  ∃ g' t, open_zero draws g = Some (g', t) ∧
    ∀ i m num, mines g !! i = Some m → numbers g !! i = Some num →
      (∃ r0 c0, cell m r0 c0 = Some 0) →
      ∃ r c v ti o',
        t !! i = Some ti ∧ on ti r c ∧
        cell m r c = Some 0 ∧ cell num r c = Some v ∧
        (∀ r' c' v', cell m r' c' = Some 0 → cell num r' c' = Some v' → v ≤ v') ∧
        open_cells g' !! i = Some o' ∧ on o' r c.
Proof.
  intros Hsh Hinit Hnn Hrws Hcols Hdraw.
  destruct (played_init _ _ _ _ _ _ _ Hsh Hinit (played_start g)) as (Hs & Hr & Hc & Hlen & _).
  pose proof Hs as [Hwf _ Hnums Hn _ _ _].
  assert (Forall (λ b, b = true) (active_games g)) as Hact.
  { destruct (init_inv _ _ _ _ _ _ Hinit) as (ms & _ & ->). cbn. by apply Forall_replicate. }
  assert (mines g ≠ []) as Hne by (intros E; rewrite E in Hlen; cbn in Hlen; lia).
  destruct (open_zero_Some draws g Hwf Hn Hne Hact) as (g' & t & Hoz); [lia..|].
  exists g', t. split; [done|]. intros i m num Hm Hnum Hsafe.
  destruct (open_zero_cells draws g g' t Hoz) as (cells & Hcells & Ht).
  destruct (open_zero_inv draws g g' t Hwf Hoz)
    as (_ & t0 & correct & _ & _ & _ & _ & Hreq & Hreq0 & Hmove & Ht0).
  destruct Ht0 as [->|[H0 _]].
  2:{ rewrite (count_all_true _ Hact), (wf_len_active g Hwf) in H0. lia. }
  destruct (slot_boards g Hwf i) as (m0 & o & f & a & ? & Ho & Hf & Ha & [Sm Bm] & [So Bo] & _).
  { by eapply lookup_lt_Some. }
  simplify_eq.
  assert (a = true) as -> by (by apply (Forall_lookup_1 _ _ _ _ Hact Ha)).
  assert (rank (active_games g) i = i) as Hrank.
  { apply rank_full; [done|]. apply lookup_lt_Some in Ha. lia. }
  (* the cell selected for the slot *)
  apply mapM_Some_1 in Hcells.
  assert (imap (λ i x, (i, x)) (zip (numbers g) (mines g)) !! i = Some (i, (num, m))) as Hl.
  { apply list_lookup_imap_Some. exists (num, m). split; [|done].
    apply lookup_zip_with_Some. by exists num, m. }
  destruct (Forall2_lookup_l _ _ _ _ _ Hcells Hl) as ([r c] & Hcell & Hsel). cbn in Hsel.
  assert (num = number_cells (rows g) (columns g) m) as Enum.
  { rewrite Hnums in Hnum. unfold _compute_number_cells in Hnum.
    rewrite list_lookup_fmap, Hm in Hnum. by injection Hnum. }
  destruct (select_cell_least (rows g) (columns g) (draws i) num m r c) as (Hr' & Hc' & v & Hv & Hz & Hleast);
    [by rewrite Enum; apply number_cells_shape|done|done| |done|done|done|].
  { intros r1 c1 x z Hx Hz1.
    assert (is_Some (cell m r1 c1)) as Hin by (by eexists).
    apply (cell_shape _ _ m r1 c1 Sm) in Hin as [Hr1 Hc1].
    rewrite Enum, cell_number_cells, (cellZ_cell m r1 c1 z Hz1) in Hx by done.
    injection Hx as <-. pose proof (neighbour_mines_range m r1 c1 Bm).
    split; intros ->; [done|reflexivity]. }
  set (ti := set_cell r c 1 (map (map (λ _, 0)) m)).
  assert (one_cell_request cells (mines g) !! i = Some ti) as Hti.
  { unfold one_cell_request. by rewrite lookup_zip_with, Hcell, zeros_like_lookup, Hm. }
  assert (on ti r c) as Hon.
  { unfold on, ti. rewrite cell_set_cell, decide_True by done.
    by rewrite cell_zero_board, Hz. }
  destruct (slot_requests g _ _ Hreq Hreq0 i Ha) as (ro & rf & Hro & Hrf & [Sro Bro] & [Srf Brf]).
  rewrite Hrank in Hro, Hrf. rewrite Hti in Hro. injection Hro as <-.
  destruct (move_slot_active g g' _ _ correct Hwf Hreq Hreq0 Hmove i m o f ti rf)
    as (_ & Ho' & _); [done|done|done|done|by rewrite Hrank|by rewrite Hrank|].
  assert (correct_open m ti = true) as E1.
  { rewrite (correct_open_spec (rows g) (columns g)) by done. intros r' c' [H1 H2].
    apply on_set_cell_zero in H1 as [-> ->]. unfold on in H2. by rewrite Hz in H2. }
  assert (correct_flag m rf = true) as E2.
  { apply (correct_zero_board (rows g) (columns g) m rf); try done.
    intros r' c'. by eapply zeros_like_off. }
  rewrite E1, E2 in Ho'. cbn in Ho'.
  exists r, c, v, ti, (map2 Z.lor o ti). split_and!; try done.
  rewrite (lor_on (rows g) (columns g)) by done. by right.
Qed.

Lemma open_zero_opens_least_safe_cell_witness :
  shuffles id ∧ init id 2 2 (PerSlot [1; 2]) 2 = Some demo_generated ∧ (0 < 2)%nat ∧
  (0 < 2)%nat ∧ (0 < 2)%nat ∧ (∀ i r c : nat, 0 < (λ _ _ _ : nat, 1) i r c) ∧
  ∃ g' t, open_zero (λ _ _ _, 1) demo_generated = Some (g', t) ∧
    ∀ i m num, mines demo_generated !! i = Some m → numbers demo_generated !! i = Some num →
      (∃ r0 c0, cell m r0 c0 = Some 0) →
      ∃ r c v ti o',
        t !! i = Some ti ∧ on ti r c ∧
        cell m r c = Some 0 ∧ cell num r c = Some v ∧
        (∀ r' c' v', cell m r' c' = Some 0 → cell num r' c' = Some v' → v ≤ v') ∧
        open_cells g' !! i = Some o' ∧ on o' r c.
Proof.
  split; [apply shuffles_id|]. split; [vm_compute; reflexivity|]. split; [lia|].
  split; [lia|]. split; [lia|]. split; [intros; cbn; lia|].
  apply (open_zero_opens_least_safe_cell id 2 2 (PerSlot [1; 2]) 2 demo_generated (λ _ _ _, 1));
    [apply shuffles_id|vm_compute; reflexivity|lia|lia|lia|intros; cbn; lia].
Defined.

End PickFacts.

(** * Per-slot mine counts *)
Module CountsFacts.
Import Np Utils Engine Reports NpFacts EngineFacts GeneratorFacts ReportsFacts.

(** X17: a per-slot array of counts that is shorter than [n] leaves the
    remaining boards without a mine (and [mines_n] without an entry for
    them); one that is longer than [n] raises, unless [n] is 0. *)
Theorem per_slot_counts_short_or_long permuted rws cols ks nn :
  shuffles permuted →
  ((length ks ≤ nn)%nat →
   ∃ g, init permuted rws cols (PerSlot ks) nn = Some g ∧
     ∀ i m, (length ks ≤ i)%nat → mines g !! i = Some m →
       mines_n g !! i = None ∧ ∀ r c, cell m r c ≠ Some 1) ∧
  ((nn < length ks)%nat → (0 < nn)%nat → init permuted rws cols (PerSlot ks) nn = None).
Proof.
  intros Hsh. split.
  - intros Hle.
    destruct (init_Some permuted rws cols (PerSlot ks) nn) as [g Hg].
    { by intros ks' [= <-]. }
    exists g. split; [done|]. intros i m Hi Hm.
    destruct (init_inv _ _ _ _ _ _ Hg) as (ms & Hms & ->). cbn in Hm |- *.
    split; [by apply lookup_ge_None_2|].
    destruct (generated_rows _ _ _ _ _ _ Hsh Hms) as [_ Hrows].
    destruct (Hrows i m Hm) as (fm & row0 & row & Hfm & Hrow0 & Hperm & ->).
    unfold fill_rows in Hfm. rewrite decide_True in Hfm by done. injection Hfm as <-.
    rewrite lookup_app_r in Hrow0 by (by rewrite length_map).
    apply lookup_replicate in Hrow0 as [-> _].
    assert (Forall (λ x, x = 0) row) as Hz.
    { rewrite Hperm. by apply Forall_replicate. }
    intros r c Hc.
    pose proof (reshape_Forall (λ x, x = 0) rws cols row Hz) as Hall.
    unfold cell in Hc. destruct (reshape rws cols row !! r) as [rw|] eqn:Er; [|done].
    cbn in Hc. pose proof (Forall_lookup_1 _ _ _ _ Hall Er) as Hrw.
    by pose proof (Forall_lookup_1 _ _ _ _ Hrw Hc).
  - intros Hlt Hn. unfold init, random_binary_matrices, fill_rows.
    rewrite decide_False by lia. by rewrite decide_False by lia.
Qed.

Lemma per_slot_counts_short_or_long_witness :
  shuffles id ∧
  ((length [1] ≤ 2)%nat →
   ∃ g, init id 2 2 (PerSlot [1]) 2 = Some g ∧
     ∀ i m, (length [1] ≤ i)%nat → mines g !! i = Some m →
       mines_n g !! i = None ∧ ∀ r c, cell m r c ≠ Some 1) ∧
  ((2 < length [1])%nat → (0 < 2)%nat → init id 2 2 (PerSlot [1]) 2 = None).
Proof.
  split; [apply shuffles_id|].
  apply (per_slot_counts_short_or_long id 2 2 [1] 2). apply shuffles_id.
Defined.

End CountsFacts.

(** * Selections by a list of integers *)
Module CopyFacts.
Import Np Views ViewsFacts.

Lemma write_cells_other h v new b : b ≠ base v → write_cells h v new !! b = h !! b.
Proof.
  intros Hb. unfold write_cells. destruct (h !! base v) as [[?|?|?]|]; try done.
  by rewrite list_lookup_insert_ne.
Qed.

Lemma write_bools_other h v new b : b ≠ base v → write_bools h v new !! b = h !! b.
Proof.
  intros Hb. unfold write_bools. destruct (h !! base v) as [[?|?|?]|]; try done.
  by rewrite list_lookup_insert_ne.
Qed.

Lemma length_write_cells h v new : length (write_cells h v new) = length h.
Proof.
  unfold write_cells. destruct (h !! base v) as [[?|?|?]|]; try done.
  by rewrite length_insert.
Qed.

Lemma length_write_bools h v new : length (write_bools h v new) = length h.
Proof.
  unfold write_bools. destruct (h !! base v) as [[?|?|?]|]; try done.
  by rewrite length_insert.
Qed.

Lemma copy_cells_fresh idx v h v' h' :
  copy_cells idx v h = Some (v', h') → base v' = length h ∧ ∃ x, h' = h ++ [x].
Proof. unfold copy_cells. intros H. simplify_option_eq. eauto. Qed.

Lemma copy_bools_fresh idx v h v' h' :
  copy_bools idx v h = Some (v', h') → base v' = length h ∧ ∃ x, h' = h ++ [x].
Proof. unfold copy_bools. intros H. simplify_option_eq. eauto. Qed.

Lemma copy_ints_fresh idx v h v' h' :
  copy_ints idx v h = Some (v', h') → base v' = length h ∧ ∃ x, h' = h ++ [x].
Proof. unfold copy_ints. intros H. simplify_option_eq. eauto. Qed.

(** The arrays of the object [__getitem__] builds for a list of integers
    lie in buffers that were added to the store. *)
Lemma getitem_list_fresh idx o h s h1 :
  getitem (KList idx) o h = Some (s, h1) →
  (∀ b, (b < length h)%nat → h1 !! b = h !! b) ∧
  (length h ≤ base (last_opened s))%nat ∧ (length h ≤ base (last_flagged s))%nat ∧
  (length h ≤ base (active_games s))%nat ∧ (length h ≤ base (open_cells s))%nat ∧
  (length h ≤ base (flags s))%nat.
Proof.
  intros H. cbn in H.
  apply bind_Some in H as ([v1 h1'] & H1 & H). apply copy_ints_fresh in H1 as [B1 [x1 ->]].
  apply bind_Some in H as ([v2 h2'] & H2 & H). apply copy_cells_fresh in H2 as [B2 [x2 ->]].
  apply bind_Some in H as ([v3 h3'] & H3 & H). apply copy_cells_fresh in H3 as [B3 [x3 ->]].
  apply bind_Some in H as ([v4 h4'] & H4 & H). apply copy_cells_fresh in H4 as [B4 [x4 ->]].
  apply bind_Some in H as ([v5 h5'] & H5 & H). apply copy_cells_fresh in H5 as [B5 [x5 ->]].
  apply bind_Some in H as ([v6 h6'] & H6 & H). apply copy_bools_fresh in H6 as [B6 [x6 ->]].
  apply bind_Some in H as ([v7 h7'] & H7 & H). apply copy_bools_fresh in H7 as [B7 [x7 ->]].
  apply bind_Some in H as ([v8 h8'] & H8 & H). apply copy_cells_fresh in H8 as [B8 [x8 ->]].
  apply bind_Some in H as ([v9 h9'] & H9 & H). apply copy_cells_fresh in H9 as [B9 [x9 ->]].
  injection H as <- <-. cbn.
  rewrite ?length_app in *. cbn in *.
  split_and!; try lia.
  intros b Hb. rewrite <- !app_assoc. by rewrite lookup_app_l.
Qed.

(** X18: the object [__getitem__] returns for a list of integers holds
    copies: a move on it leaves every array of the store it was taken from
    as it was. *)
Theorem list_selection_is_a_copy idx o h s h1 to_open to_flag s' h2 correct v :
  getitem (KList idx) o h = Some (s, h1) →
  move to_open to_flag s h1 = Some (s', h2, correct) →
  (base v < length h)%nat →
  read_cells h2 v = read_cells h v ∧ read_bools h2 v = read_bools h v ∧
  read_ints h2 v = read_ints h v.
Proof.
  intros Hget Hmove Hv.
  destruct (getitem_list_fresh idx o h s h1 Hget) as (Hsame & B1 & B2 & B3 & B4 & B5).
  assert (length h ≤ length h1)%nat as Hlen.
  { destruct (decide (length h ≤ length h1)%nat) as [|Hn]; [done|].
    destruct h as [|x h]; [cbn; lia|].
    assert (length h < length (x :: h))%nat as Hl by (cbn; lia).
    pose proof (Hsame (length h) Hl) as E.
    rewrite (lookup_ge_None_2 h1) in E by (cbn in *; lia).
    symmetry in E. apply lookup_ge_None_1 in E. lia. }
  unfold move in Hmove.
  destruct (load h1 s) as [g|]; cbn in Hmove; [|done].
  destruct (Engine.move to_open to_flag g) as [[g' cr]|]; cbn in Hmove; [|done].
  injection Hmove as _ <- _.
  match goal with
  | |- context [read_cells (?hh ++ _) v] =>
      assert (hh !! base v = h !! base v) as E;
      [|assert ((hh ++ [Bools (Engine.won g')]) !! base v = h !! base v) as E'
          by (rewrite lookup_app_l; [done|];
              rewrite !length_write_cells, length_write_bools, !length_write_cells; lia)]
  end.
  { rewrite !write_cells_other, write_bools_other, !write_cells_other by lia.
    by apply Hsame. }
  unfold read_cells, read_bools, read_ints. by rewrite E'.
Qed.

Lemma list_selection_is_a_copy_witness :
  getitem (KList [1]) demo_object demo_store
    = Some (Copies.demo_list_selection.1, Copies.demo_list_selection.2) ∧
  move (Some [[[1; 0]; [0; 0]]]) None
       Copies.demo_list_selection.1 Copies.demo_list_selection.2
    = Some (Copies.demo_list_moved.1.1, Copies.demo_list_moved.1.2, Copies.demo_list_moved.2) ∧
  (base (open_cells demo_object) < length demo_store)%nat ∧
  read_cells Copies.demo_list_moved.1.2 (open_cells demo_object)
    = read_cells demo_store (open_cells demo_object) ∧
  read_bools Copies.demo_list_moved.1.2 (open_cells demo_object)
    = read_bools demo_store (open_cells demo_object) ∧
  read_ints Copies.demo_list_moved.1.2 (open_cells demo_object)
    = read_ints demo_store (open_cells demo_object).
Proof.
  split; [vm_compute; reflexivity|]. split; [vm_compute; reflexivity|]. split; [vm_compute; lia|].
  apply (list_selection_is_a_copy [1] demo_object demo_store
           Copies.demo_list_selection.1 Copies.demo_list_selection.2
           (Some [[[1; 0]; [0; 0]]]) None
           Copies.demo_list_moved.1.1 Copies.demo_list_moved.1.2 Copies.demo_list_moved.2);
    [vm_compute; reflexivity|vm_compute; reflexivity|vm_compute; lia].
Defined.

End CopyFacts.

(** * The boards of [game.py] *)
Module LegacyInitFacts.
Import Np Legacy Cascade NpFacts GeneratorFacts CascadeFacts.

Local Abbreviation ones l := (length (filter (λ x : Z, x = 1) l)).
Local Abbreviation set_ones := (foldr (λ (k : nat) (row : list Z), <[k := 1]> row)).

Lemma set_ones_lookup (l : list nat) (base : list Z) p :
  (p < length base)%nat →
  set_ones base l !! p = if decide (p ∈ l) then Some 1 else base !! p.
Proof.
  intros Hp. induction l as [|k l IH]; [done|]. cbn [foldr].
  destruct (decide (k = p)) as [->|Hne].
  - rewrite list_lookup_insert_eq by (by rewrite length_set_ones).
    rewrite decide_True; [done|by left].
  - rewrite list_lookup_insert_ne by done. rewrite IH.
    destruct (decide (p ∈ l)) as [Hin|Hin].
    + rewrite decide_True; [done|by right].
    + rewrite decide_False; [done|]. intros [->|?]%elem_of_cons; done.
Qed.

Lemma insert_one_count (row : list Z) k :
  row !! k = Some 0 → ones (<[k := 1]> row) = S (ones row).
Proof.
  revert k. induction row as [|x row IH]; intros [|k] H; simplify_eq/=.
  - rewrite !filter_cons. repeat case_decide; done.
  - rewrite !filter_cons. case_decide; cbn [length]; by rewrite IH.
Qed.

Lemma set_ones_count (l : list nat) size :
  NoDup l → Forall (λ k, (k < size)%nat) l →
  ones (set_ones (replicate size 0) l) = length l.
Proof.
  induction 1 as [|k l Hk _ IH]; intros Hall.
  - cbn. clear. induction size as [|s IH]; [done|]. cbn [replicate].
    by rewrite filter_cons_False.
  - apply Forall_cons in Hall as [Hks Hall]. cbn [foldr length].
    rewrite insert_one_count; [by rewrite IH|].
    rewrite set_ones_lookup by (by rewrite length_replicate).
    rewrite decide_False by done. by apply lookup_replicate_2.
Qed.

Lemma fields_inv choice n0 size mines0 fs s field :
  _compute_fields choice n0 size mines0 = Some fs → fs !! s = Some field →
  field = set_ones (replicate size 0) (choice s) ∧ (s < n0)%nat.
Proof.
  unfold _compute_fields. case_decide; [by intros [= <-]|].
  case_decide; [|done]. intros [= <-] Hs.
  apply list_lookup_fmap_Some in Hs as (i & -> & Hi).
  apply lookup_seq in Hi as [-> Hi]. done.
Qed.

Lemma compute_grid_lookup h w field (r c : nat) x :
  length field = (h * w)%nat → Forall (λ x, x = 0 ∨ x = 1) field →
  (r < h)%nat → (c < w)%nat → field !! (r * w + c)%nat = Some x →
  compute_grid h w field !! (r * w + c)%nat
  = Some (if x =? 0 then Engine.neighbour_mines (reshape h w field) r c else -1).
Proof.
  intros Hlen Hbin Hr Hc Hx.
  pose proof (reshape_shape h w field Hlen) as Hs.
  assert (binary (reshape h w field)) as Hb by (by apply reshape_Forall).
  pose proof (shift_sum_shape Z.add h w _ _ Hs (zeros_shape h w)) as Hsum.
  unfold compute_grid. rewrite lookup_zip_with, Hx. cbn [mbind option_bind].
  rewrite (flatten_lookup h w) by done.
  rewrite <- (cell_reshape h w) in Hx by done.
  pose proof (cellZ_cell _ r c x Hx) as Hx0.
  unfold shift_sum, offsets. cbn [foldl].
  rewrite !cell_map2. rewrite !cell_shifted by (done || lia).
  assert (cell (zeros h w) r c = Some 0) as Hzero.
  { unfold cell, zeros. rewrite lookup_replicate_2 by done. simpl.
    by rewrite lookup_replicate_2. }
  rewrite Hzero. cbn [mbind option_bind]. f_equal.
  destruct (Z.eqb_spec x 0) as [->|]; [|done].
  unfold Engine.neighbour_mines, Engine.neighbours. cbn [foldr].
  replace (cellZ (reshape h w field) (Z.of_nat r + 0) (Z.of_nat c + 0)) with 0
    by (by rewrite !Z.add_0_r). lia.
Qed.

(** X19: the boards [game.py] builds. When the draws are what
    [np.random.choice(size, mines, replace=False)] returns ([mines]
    different cells), every slot has exactly [mines] mines, on the drawn
    cells, and its grid holds -1 on a mine and on any other cell the number
    of mines among the neighbours. *)
Theorem legacy_generated_boards choice h w mines0 n0 g :
  init choice h w mines0 n0 = Some g →
  (∀ s, (s < n0)%nat →
     NoDup (choice s) ∧ Z.of_nat (length (choice s)) = mines0 ∧
     Forall (λ k, (k < h * w)%nat) (choice s)) →
  length (fields g) = n0 ∧ length (grids g) = n0 ∧
  ∀ s field grid, fields g !! s = Some field → grids g !! s = Some grid →
    Z.of_nat (ones field) = mines0 ∧
    ∀ r c, (r < h)%nat → (c < w)%nat →
      ∃ x, field !! (r * w + c)%nat = Some x ∧
        (x = 1 ∧ (r * w + c)%nat ∈ choice s ∨ x = 0 ∧ (r * w + c)%nat ∉ choice s) ∧
        grid !! (r * w + c)%nat
        = Some (if x =? 0 then Engine.neighbour_mines (reshape h w field) r c else -1).
Proof.
  intros Hinit Hchoice. unfold init, reset in Hinit. cbn in Hinit.
  destruct (_compute_fields choice n0 (h * w) mines0) as [fs|] eqn:Hfs; cbn in Hinit; [|done].
  injection Hinit as <-. cbn.
  assert (length fs = n0) as Hlen.
  { unfold _compute_fields in Hfs. case_decide; [by simplify_eq|].
    case_decide; [|done]. injection Hfs as <-. by rewrite length_map, length_seq. }
  split; [done|]. split; [by rewrite length_map|].
  intros s field grid Hf Hg.
  rewrite list_lookup_fmap, Hf in Hg. injection Hg as <-.
  destruct (fields_inv _ _ _ _ _ _ _ Hfs Hf) as [-> Hs].
  destruct (Hchoice s Hs) as (Hnd & Hmines & Hin).
  assert (length (set_ones (replicate (h * w) 0) (choice s)) = (h * w)%nat) as Hl
    by (by rewrite length_set_ones, length_replicate).
  assert (Forall (λ x, x = 0 ∨ x = 1) (set_ones (replicate (h * w) 0) (choice s))) as Hb
    by (apply set_ones_binary, Forall_replicate; by left).
  split; [by rewrite set_ones_count|].
  intros r c Hr Hc.
  assert (r * w + c < h * w)%nat as Hp by nia.
  pose proof (set_ones_lookup (choice s) (replicate (h * w) 0) _
                ltac:(by rewrite length_replicate)) as Hx.
  rewrite lookup_replicate_2 in Hx by done.
  destruct (decide ((r * w + c)%nat ∈ choice s)) as [Hel|Hel].
  - exists 1. split_and!; [done|by left|]. by apply compute_grid_lookup.
  - exists 0. split_and!; [done|by right|]. by apply compute_grid_lookup.
Qed.

Lemma legacy_generated_boards_witness :
  init (λ _, [8%nat]) 3 3 1 1 = Some demo_square ∧
  (∀ s, (s < 1)%nat →
     NoDup ((λ _ : nat, [8%nat]) s) ∧ Z.of_nat (length ((λ _ : nat, [8%nat]) s)) = 1 ∧
     Forall (λ k, (k < 3 * 3)%nat) ((λ _ : nat, [8%nat]) s)) ∧
  length (fields demo_square) = 1%nat ∧ length (grids demo_square) = 1%nat ∧
  ∀ s field grid, fields demo_square !! s = Some field → grids demo_square !! s = Some grid →
    Z.of_nat (ones field) = 1 ∧
    ∀ r c, (r < 3)%nat → (c < 3)%nat →
      ∃ x, field !! (r * 3 + c)%nat = Some x ∧
        (x = 1 ∧ (r * 3 + c)%nat ∈ (λ _ : nat, [8%nat]) s ∨
         x = 0 ∧ (r * 3 + c)%nat ∉ (λ _ : nat, [8%nat]) s) ∧
        grid !! (r * 3 + c)%nat
        = Some (if x =? 0 then Engine.neighbour_mines (reshape 3 3 field) r c else -1).
Proof.
  assert (∀ s, (s < 1)%nat →
            NoDup ((λ _ : nat, [8%nat]) s) ∧
            Z.of_nat (length ((λ _ : nat, [8%nat]) s)) = 1 ∧
            Forall (λ k, (k < 3 * 3)%nat) ((λ _ : nat, [8%nat]) s)) as Hchoice.
  { intros s _. split; [apply NoDup_singleton|]. split; [reflexivity|].
    constructor; [cbn; lia|constructor]. }
  split; [vm_compute; reflexivity|]. split; [exact Hchoice|].
  apply (legacy_generated_boards (λ _, [8%nat]) 3 3 1 1 demo_square);
    [vm_compute; reflexivity|exact Hchoice].
Defined.

(** X20: on a square board on which nothing is open yet, [open_zero] of
    [game.py] returns and opens no mine. *)
Theorem square_cascade_opens_no_mine choice k mines0 n0 g fuel :
  (0 < k)%nat → init choice k k mines0 n0 = Some g →
  (n0 * (k * k) < fuel)%nat →
  ∃ g', open_zero fuel g = Some g' ∧ fields g' = fields g ∧
    ∀ s r c, (s < n0)%nat → (r < k)%nat → (c < k)%nat →
      opened g' s r c → lcell g (fields g) s r c = Some 0.
Proof.
  intros Hk Hinit Hfuel.
  destruct (init_fresh choice k mines0 n0 g Hk Hinit) as [Hn Hfresh].
  destruct (open_zero_cascade g k Hfresh fuel) as (g' & Hopen & _ & _ & _ & Hf & _);
    [by rewrite Hn|].
  exists g'. split_and!; [done..|]. intros s r c Hs Hr Hc Hop.
  by apply (square_cascade_safe choice k mines0 n0 g fuel g' s r c).
Qed.

Lemma square_cascade_opens_no_mine_witness :
  (0 < 3)%nat ∧ init (λ _, [8%nat]) 3 3 1 1 = Some demo_square ∧
  (1 * (3 * 3) < 10)%nat ∧
  ∃ g', open_zero 10 demo_square = Some g' ∧ fields g' = fields demo_square ∧
    ∀ s r c, (s < 1)%nat → (r < 3)%nat → (c < 3)%nat →
      opened g' s r c → lcell demo_square (fields demo_square) s r c = Some 0.
Proof.
  split; [lia|]. split; [vm_compute; reflexivity|]. split; [cbn; lia|].
  apply (square_cascade_opens_no_mine (λ _, [8%nat]) 3 1 1 demo_square 10);
    [lia|vm_compute; reflexivity|cbn; lia].
Defined.

End LegacyInitFacts.

(** * [Game.open] of [game.py] *)
Module LegacyOpenFacts.
Import Np Legacy LegacyOpen NpFacts.

Lemma mapM_lookup {A B} (f : A → option B) l k j x :
  mapM f l = Some k → l !! j = Some x → ∃ y, k !! j = Some y ∧ f x = Some y.
Proof.
  intros H Hx. apply mapM_Some_1 in H.
  destruct (Forall2_lookup_l _ _ _ _ _ H Hx) as (y & ? & ?). eauto.
Qed.

Lemma at_index_Some {A} (l : list A) z p :
  py_index (length l) z = Some p → ∃ x, at_index l z = Some x ∧ l !! p = Some x.
Proof.
  intros Hp. unfold at_index. rewrite Hp. cbn.
  assert (p < length l)%nat as Hlt.
  { unfold py_index in Hp. repeat case_match; simplify_eq; lia. }
  destruct (lookup_lt_is_Some_2 l p Hlt) as [x Hx]. eauto.
Qed.

Lemma mapM_total {A B} (f : A → option B) l :
  (∀ j x, l !! j = Some x → is_Some (f x)) →
  ∃ k, mapM f l = Some k ∧ length k = length l ∧
    ∀ j x, l !! j = Some x → ∃ y, k !! j = Some y ∧ f x = Some y.
Proof.
  intros H. destruct (mapM_is_Some_2 f l) as [k Hk].
  { apply Forall_lookup_2. intros j x Hx. cbn. by apply (H j x). }
  exists k. split; [done|]. split; [symmetry; by eapply length_mapM|].
  intros j x Hx. by eapply mapM_lookup.
Qed.

(** [xs[act1] = F(xs[act1], ys[correct])] for [act1] the slots of [act]
    that were judged correct. *)
Lemma lookup_update_active {A B} (F : A → B → A) (act correct : list bool)
    (xs : list A) (ys : list B) i x y (ok : bool) :
  length act = length xs → length correct = count act → length ys = count act →
  act !! i = Some true → xs !! i = Some x →
  ys !! rank act i = Some y → correct !! rank act i = Some ok →
  scatter (scatter act correct act)
          (zip_with F (gather (scatter act correct act) xs) (gather correct ys)) xs !! i
  = Some (if ok then F x y else x).
Proof.
  intros Hxs Hc Hys Hi Hx Hy Hok.
  destruct ok.
  - assert (scatter act correct act !! i = Some true) as Hact1
      by (by apply scatter_mask_lookup).
    rewrite lookup_scatter_true; [| |  |done].
    + rewrite lookup_zip_with.
      rewrite lookup_gather by (by rewrite ?length_scatter). rewrite Hx. cbn.
      rewrite scatter_mask_rank by done.
      rewrite lookup_gather by (done || lia). by rewrite Hy.
    + by rewrite length_scatter.
    + rewrite length_zip_with, !length_gather by (rewrite ?length_scatter; lia).
      rewrite count_scatter_mask by done. lia.
  - rewrite lookup_scatter_false; [done|].
    rewrite scatter_mask_lookup by done. intros [_ ?]. congruence.
Qed.

Lemma lookup_update_inactive {A} (act correct : list bool) (vals xs : list A) i :
  length correct = count act → act !! i ≠ Some true →
  scatter (scatter act correct act) vals xs !! i = xs !! i.
Proof.
  intros Hc Hi. rewrite lookup_scatter_false; [done|].
  rewrite scatter_mask_lookup by done. by intros [? _].
Qed.

Lemma lookup_map_update_active {A} (F : A → A) (act correct : list bool)
    (xs : list A) i x (ok : bool) :
  length act = length xs → length correct = count act →
  act !! i = Some true → xs !! i = Some x → correct !! rank act i = Some ok →
  scatter (scatter act correct act)
          (map F (gather (scatter act correct act) xs)) xs !! i
  = Some (if ok then F x else x).
Proof.
  intros Hxs Hc Hi Hx Hok.
  destruct ok.
  - assert (scatter act correct act !! i = Some true) as Hact1
      by (by apply scatter_mask_lookup).
    rewrite lookup_scatter_true; [| |  |done].
    + rewrite list_lookup_fmap.
      rewrite lookup_gather by (by rewrite ?length_scatter). by rewrite Hx.
    + by rewrite length_scatter.
    + by rewrite length_map, !length_gather by (rewrite ?length_scatter; lia).
  - rewrite lookup_scatter_false; [done|].
    rewrite scatter_mask_lookup by done. intros [_ ?]. congruence.
Qed.

Lemma py_index_lt len z p : py_index len z = Some p → (p < len)%nat.
Proof. unfold py_index. intros H. repeat case_match; simplify_eq; lia. Qed.

Lemma existsb_false_lookup (l : list bool) j b :
  existsb id l = false → l !! j = Some b → b = false.
Proof.
  revert j. induction l as [|a l IH]; intros [|j] H Hj; simplify_eq/=.
  - by apply orb_false_iff in H as [-> _].
  - apply orb_false_iff in H as [_ H]. by apply (IH j).
Qed.

Section Open.
Context (g : Game) (c : list Z).
Hypothesis Hsh : shaped g.
Hypothesis Hc : length c = count (active_grids g).
Hypothesis Hidx : Forall (λ ci, is_Some (py_index (size g) ci)) c.

Local Abbreviation act := (active_grids g).

(** The rows of the active slots, next to their cell. *)
Lemma active_rows (xs : list (list Z)) j row ci :
  length xs = n g → Forall (λ row, length row = size g) xs →
  zip (gather act xs) c !! j = Some (row, ci) →
  ∃ p, py_index (length row) ci = Some p ∧ (p < length row)%nat.
Proof using Hidx.
  intros Hl Hrows Hj.
  apply lookup_zip_with_Some in Hj as (row' & ci' & [= <- <-] & Hrow & Hci).
  assert (length row = size g) as ->.
  { apply list_elem_of_lookup_2 in Hrow.
    pose proof (EngineFacts.gather_Forall _ act xs Hrows) as Hg.
    by apply (proj1 (Forall_forall _ _) Hg). }
  destruct (Forall_lookup_1 _ _ _ _ Hidx Hci) as [p Hp].
  exists p. split; [done|]. by eapply py_index_lt.
Qed.

Lemma read_cells_Some (xs : list (list Z)) :
  length xs = n g → Forall (λ row, length row = size g) xs →
  ∃ vals, mapM (λ '(row, ci), at_index row ci) (zip (gather act xs) c) = Some vals ∧
    length vals = count act ∧
    ∀ i row ci p, act !! i = Some true → xs !! i = Some row →
      c !! rank act i = Some ci → py_index (size g) ci = Some p →
      ∃ x, row !! p = Some x ∧ vals !! rank act i = Some x.
Proof using Hsh Hc Hidx.
  intros Hl Hrows.
  pose proof (sh_active g Hsh) as Hla.
  destruct (mapM_total (λ '(row, ci), at_index row ci) (zip (gather act xs) c))
    as (vals & Hvals & Hlen & Hlook).
  { intros j [row ci] Hj.
    destruct (active_rows xs j row ci Hl Hrows Hj) as (p & Hp & _).
    destruct (at_index_Some row ci p Hp) as (x & -> & _). by eexists. }
  exists vals. split; [done|]. split.
  { rewrite Hlen, length_zip_with, length_gather by lia. lia. }
  intros i row ci p Hi Hrow Hci Hp.
  assert (zip (gather act xs) c !! rank act i = Some (row, ci)) as Hj.
  { apply lookup_zip_with_Some. exists row, ci. split_and!; [done| |done].
    rewrite lookup_gather by (done || lia). done. }
  destruct (Hlook _ _ Hj) as (x & Hx & Hat). cbn in Hat.
  assert (length row = size g) as Hrl by (by apply (Forall_lookup_1 _ _ _ _ Hrows Hrow)).
  rewrite <- Hrl in Hp.
  destruct (at_index_Some row ci p Hp) as (x' & Hat' & Hx').
  rewrite Hat in Hat'. injection Hat' as <-. eauto.
Qed.

End Open.

Lemma open_slots g c fl :
  shaped g → length c = count (active_grids g) → length fl = count (active_grids g) →
  Forall (λ ci, is_Some (py_index (size g) ci)) c →
  ∃ g' r, open c (FArray fl) g = Some (g', r) ∧ shaped g' ∧
    (∀ i, active_grids g !! i = Some false →
       states g' !! i = states g !! i ∧
       visible_grids g' !! i = visible_grids g !! i ∧
       scores g' !! i = scores g !! i ∧
       mines_scores g' !! i = mines_scores g !! i ∧
       last_opened g' !! i = last_opened g !! i ∧
       active_grids g' !! i = Some false) ∧
    (∀ i ci p f field grid st vis s ms,
       active_grids g !! i = Some true →
       c !! rank (active_grids g) i = Some ci → py_index (size g) ci = Some p →
       fl !! rank (active_grids g) i = Some f →
       fields g !! i = Some field → grids g !! i = Some grid →
       states g !! i = Some st → visible_grids g !! i = Some vis →
       scores g !! i = Some s → mines_scores g !! i = Some ms →
       ∃ x v, field !! p = Some x ∧ grid !! p = Some v ∧
         let ok := negb (xorb f (negb (x =? 0))) in
         let s' := if ok then s - (if f then 0 else 1) else s in
         r !! rank (active_grids g) i = Some v ∧
         last_opened g' !! i = Some ci ∧
         states g' !! i = Some (if ok then <[p := 1]> st else st) ∧
         visible_grids g' !! i = Some (<[p := if ok then v else 0]> vis) ∧
         scores g' !! i = Some s' ∧
         mines_scores g' !! i = Some (if ok && f then ms - 1 else ms) ∧
         won g' !! i = Some (s' =? 0) ∧
         active_grids g' !! i = Some (ok && negb (s' =? 0))).
Proof.
  intros Hsh Hc Hfl Hidx.
  pose proof (sh_active g Hsh) as Hla.
  destruct (read_cells_Some g c Hsh Hc Hidx (fields g) (sh_fields g Hsh) (sh_field_rows g Hsh))
    as (fv & Hfv & Lfv & Ffv).
  destruct (read_cells_Some g c Hsh Hc Hidx (grids g) (sh_grids g Hsh) (sh_grid_rows g Hsh))
    as (gv & Hgv & Lgv & Fgv).
  set (wrong := zip_with xorb fl (map (λ v, negb (v =? 0)) fv)).
  set (correct := map negb wrong).
  assert (length wrong = count (active_grids g)) as Lw.
  { unfold wrong. rewrite length_zip_with, length_map. lia. }
  assert (length correct = count (active_grids g)) as Lc by (unfold correct; by rewrite length_map).
  set (act1 := scatter (active_grids g) correct (active_grids g)).
  (* the new states *)
  destruct (mapM_total
              (λ '(row, (ci, ok)), if ok : bool then set_at 1 row ci else Some row)
              (zip (gather (active_grids g) (states g)) (zip c correct)))
    as (st' & Hst' & Lst' & Fst').
  { intros j [row [ci ok]] Hj. destruct ok; [|by eexists].
    apply lookup_zip_with_Some in Hj as (row' & [ci' ok'] & [= <- <- <-] & Hrow & Hz).
    apply lookup_zip_with_Some in Hz as (ci' & ok' & [= <- <-] & Hci & _).
    destruct (active_rows g c Hidx (states g) j row ci
                (sh_states g Hsh) (sh_state_rows g Hsh)) as (p & Hp & _).
    { apply lookup_zip_with_Some. by exists row, ci. }
    unfold set_at. rewrite Hp. by eexists. }
  (* the new visible grids *)
  destruct (mapM_total
              (λ '(row, (ci, (v, w))), set_at (if w : bool then 0 else v) row ci)
              (zip (gather (active_grids g) (visible_grids g)) (zip c (zip gv wrong))))
    as (vis' & Hvis' & Lvis' & Fvis').
  { intros j [row [ci [v w]]] Hj.
    apply lookup_zip_with_Some in Hj as (row' & [ci' vw] & [= <- <- <-] & Hrow & Hz).
    apply lookup_zip_with_Some in Hz as (ci' & vw' & [= <- <-] & Hci & _).
    destruct (active_rows g c Hidx (visible_grids g) j row ci
                (sh_visible g Hsh) (sh_visible_rows g Hsh)) as (p & Hp & _).
    { apply lookup_zip_with_Some. by exists row, ci. }
    unfold set_at. rewrite Hp. by eexists. }
  assert (length st' = count (active_grids g)) as Lst.
  { rewrite Lst', !length_zip_with, length_gather by (rewrite (sh_states g Hsh); lia). lia. }
  assert (length vis' = count (active_grids g)) as Lvis.
  { rewrite Lvis', !length_zip_with, length_gather by (rewrite (sh_visible g Hsh); lia). lia. }
  (* the scores *)
  set (sc1 := scatter act1
                (zip_with (λ s (f : bool), s - (if f then 0 else 1))
                          (gather act1 (scores g)) (gather correct fl)) (scores g)).
  set (ms1 := scatter act1
                (zip_with (λ s (f : bool), s - Z.b2z f)
                          (gather act1 (mines_scores g)) (gather correct fl))
                (mines_scores g)).
  set (sc0 := scatter act1 (map (λ s, s - 1) (gather act1 (scores g))) (scores g)).
  set (sc' := if existsb id fl then sc1 else sc0).
  set (ms' := if existsb id fl then ms1 else mines_scores g).
  set (won' := map (λ s, s =? 0) sc').
  set (g' := {| n := n g; rows := rows g; columns := columns g; size := size g;
                mines := mines g; fields := fields g; grids := grids g;
                states := scatter (active_grids g) st' (states g);
                visible_grids := scatter (active_grids g) vis' (visible_grids g);
                scores := sc'; mines_scores := ms';
                active_grids := zip_with (λ a w : bool, if w then false else a) act1 won';
                won := won';
                last_opened := scatter (active_grids g) c (last_opened g) |}).
  exists g', gv. split.
  { unfold open. rewrite bool_decide_eq_true_2 by done. cbn [negb].
    rewrite Hfv. cbn [mbind option_bind].
    unfold flag_values. rewrite decide_True by done. cbn [mbind option_bind].
    fold wrong correct. rewrite Hst'. cbn [mbind option_bind].
    rewrite Hgv. cbn [mbind option_bind]. rewrite Hvis'. cbn [mbind option_bind].
    unfold g', won', sc', ms', sc1, ms1, sc0, act1. cbn [any_flag].
    by destruct (existsb id fl). }
  assert (length sc' = n g) as Lsc.
  { unfold sc', sc1, sc0. destruct (existsb id fl);
      by rewrite length_scatter, (sh_scores g Hsh). }
  split.
  { split; cbn; rewrite ?length_scatter; try apply Hsh; try done.
    - unfold ms', ms1. destruct (existsb id fl); rewrite ?length_scatter; apply Hsh.
    - rewrite length_zip_with. unfold won', act1. rewrite length_map, length_scatter, Lsc. lia.
    - apply ReportsFacts.scatter_Forall; [|apply Hsh].
      apply Forall_lookup. intros j y Hy.
      assert (is_Some (zip (gather (active_grids g) (states g)) (zip c correct) !! j))
        as [[row [ci ok]] Hj].
      { apply lookup_lt_is_Some. rewrite <- Lst'. by eapply lookup_lt_Some. }
      destruct (Fst' j _ Hj) as (y' & Hy' & Hset). rewrite Hy in Hy'. injection Hy' as <-.
      apply lookup_zip_with_Some in Hj as (row' & ? & [= <- <-] & Hrow & _).
      assert (length row = size g) as Hrl.
      { apply list_elem_of_lookup_2 in Hrow.
        pose proof (EngineFacts.gather_Forall _ (active_grids g) _ (sh_state_rows g Hsh)) as Hg.
        by apply (proj1 (Forall_forall _ _) Hg). }
      cbn in Hset. destruct ok; [|by injection Hset as <-].
      unfold set_at in Hset. apply bind_Some in Hset as (p & _ & [= <-]).
      by rewrite length_insert.
    - apply ReportsFacts.scatter_Forall; [|apply Hsh].
      apply Forall_lookup. intros j y Hy.
      assert (is_Some (zip (gather (active_grids g) (visible_grids g))
                           (zip c (zip gv wrong)) !! j)) as [[row [ci [v w]]] Hj].
      { apply lookup_lt_is_Some. rewrite <- Lvis'. by eapply lookup_lt_Some. }
      destruct (Fvis' j _ Hj) as (y' & Hy' & Hset). rewrite Hy in Hy'. injection Hy' as <-.
      apply lookup_zip_with_Some in Hj as (row' & ? & [= <- <-] & Hrow & _).
      assert (length row = size g) as Hrl.
      { apply list_elem_of_lookup_2 in Hrow.
        pose proof (EngineFacts.gather_Forall _ (active_grids g) _ (sh_visible_rows g Hsh)) as Hg.
        by apply (proj1 (Forall_forall _ _) Hg). }
      cbn in Hset. unfold set_at in Hset. apply bind_Some in Hset as (p & _ & [= <-]).
      by rewrite length_insert. }
  split.
  - intros i Hi.
    assert ((active_grids g) !! i ≠ Some true) as Hne by congruence.
    assert (sc' !! i = scores g !! i) as Esc.
    { unfold sc', sc1, sc0, act1. destruct (existsb id fl);
        by rewrite lookup_update_inactive. }
    cbn. split_and!.
    + by rewrite lookup_scatter_false.
    + by rewrite lookup_scatter_false.
    + done.
    + unfold ms', ms1, act1. destruct (existsb id fl); [|done].
      by rewrite lookup_update_inactive.
    + by rewrite lookup_scatter_false.
    + rewrite lookup_zip_with. unfold act1.
      rewrite lookup_scatter_false by done. rewrite Hi. cbn.
      unfold won'. rewrite list_lookup_fmap.
      destruct (lookup_lt_is_Some_2 sc' i) as [s Hs].
      { rewrite Lsc, <- Hla. by eapply lookup_lt_Some. }
      rewrite Hs. cbn. by destruct (s =? 0).
  - intros i ci p f field grid st vis s ms Hi Hci Hp Hf Hfield Hgrid Hst Hvis Hs Hms.
    destruct (Ffv i field ci p Hi Hfield Hci Hp) as (x & Hx & Hfx).
    destruct (Fgv i grid ci p Hi Hgrid Hci Hp) as (v & Hv & Hgx).
    exists x, v. split; [done|]. split; [done|].
    set (ok := negb (xorb f (negb (x =? 0)))).
    assert (wrong !! rank (active_grids g) i = Some (xorb f (negb (x =? 0)))) as Hwrong.
    { unfold wrong. by rewrite lookup_zip_with, Hf, list_lookup_fmap, Hfx. }
    assert (correct !! rank (active_grids g) i = Some ok) as Hok.
    { unfold correct. by rewrite list_lookup_fmap, Hwrong. }
    assert (length st = size g) as Lrow
      by (by apply (Forall_lookup_1 _ _ _ _ (sh_state_rows g Hsh) Hst)).
    assert (length vis = size g) as Lvrow
      by (by apply (Forall_lookup_1 _ _ _ _ (sh_visible_rows g Hsh) Hvis)).
    assert (sc' !! i = Some (if ok then s - (if f then 0 else 1) else s)) as Esc.
    { unfold sc'. destruct (existsb id fl) eqn:Eany.
      - unfold sc1, act1.
        by rewrite (lookup_update_active _ (active_grids g) correct (scores g) fl i s f ok)
          by (done || by rewrite (sh_scores g Hsh)).
      - rewrite (existsb_false_lookup fl _ f Eany Hf). unfold sc0, act1.
        by rewrite (lookup_map_update_active _ (active_grids g) correct (scores g) i s ok)
          by (done || by rewrite (sh_scores g Hsh)). }
    cbn zeta. split_and!.
    + done.
    + cbn. rewrite lookup_scatter_true by (done || by rewrite (sh_last g Hsh)). done.
    + cbn. rewrite lookup_scatter_true by (done || by rewrite (sh_states g Hsh)).
      destruct (Fst' (rank (active_grids g) i) (st, (ci, ok))) as (y & Hy & Hset).
      { apply lookup_zip_with_Some. exists st, (ci, ok). split_and!; [done| |].
        - rewrite lookup_gather by (done || by rewrite (sh_states g Hsh)). done.
        - apply lookup_zip_with_Some. by exists ci, ok. }
      rewrite Hy. f_equal. cbn in Hset. fold ok. destruct ok; [|by injection Hset].
      unfold set_at in Hset. rewrite Lrow, Hp in Hset. by injection Hset.
    + cbn. rewrite lookup_scatter_true by (done || by rewrite (sh_visible g Hsh)).
      destruct (Fvis' (rank (active_grids g) i) (vis, (ci, (v, xorb f (negb (x =? 0))))))
        as (y & Hy & Hset).
      { apply lookup_zip_with_Some. eexists vis, (ci, (v, _)). split_and!; [done| |].
        - rewrite lookup_gather by (done || by rewrite (sh_visible g Hsh)). done.
        - apply lookup_zip_with_Some. eexists ci, (v, _). split_and!; [done..|].
          apply lookup_zip_with_Some. by eexists v, _. }
      rewrite Hy. f_equal. cbn in Hset.
      unfold set_at in Hset. rewrite Lvrow, Hp in Hset. cbn in Hset.
      injection Hset as <-. fold ok. unfold ok. by destruct (xorb f (negb (x =? 0))).
    + done.
    + cbn. unfold ms'. destruct (existsb id fl) eqn:Eany.
      * unfold ms1, act1.
        rewrite (lookup_update_active _ (active_grids g) correct (mines_scores g) fl i ms f ok)
          by (done || by rewrite (sh_mines_scores g Hsh)).
        fold ok. destruct ok, f; cbn; f_equal; lia.
      * rewrite (existsb_false_lookup fl _ f Eany Hf). by rewrite andb_false_r.
    + cbn. unfold won'. by rewrite list_lookup_fmap, Esc.
    + cbn. rewrite lookup_zip_with. unfold act1.
      assert (scatter (active_grids g) correct (active_grids g) !! i = Some ok) as Ha1.
      { destruct ok eqn:E.
        - by apply scatter_mask_lookup.
        - destruct (lookup_lt_is_Some_2 (scatter (active_grids g) correct (active_grids g)) i) as [b Hb].
          { rewrite length_scatter. by eapply lookup_lt_Some. }
          destruct b; [|done].
          apply scatter_mask_lookup in Hb as [_ Hb]; [|done]. congruence. }
      rewrite Ha1. cbn. unfold won'. rewrite list_lookup_fmap, Esc. cbn. fold ok.
      f_equal. generalize ((if ok then s - (if f then 0 else 1) else s) =? 0).
      intros b. by destruct ok, b.
Qed.

(** A game built by [__init__] has its arrays in shape. *)
Lemma init_shaped choice h w mines0 n0 g :
  init choice h w mines0 n0 = Some g → shaped g.
Proof.
  unfold init, reset. cbn.
  destruct (_compute_fields choice n0 (h * w) mines0) as [fs|] eqn:Hfs; cbn; [|done].
  intros [= <-].
  assert (length fs = n0 ∧ Forall (λ row, length row = (h * w)%nat) fs) as [Hlen Hrows].
  { unfold _compute_fields in Hfs. case_decide; [simplify_eq; by split|].
    case_decide; [|done]. injection Hfs as <-.
    split; [by rewrite length_map, length_seq|].
    apply Forall_fmap, Forall_true. intros i. cbn.
    by rewrite CascadeFacts.length_set_ones, length_replicate. }
  split; cbn; rewrite ?length_map, ?length_replicate; try done.
  - apply Forall_fmap. eapply Forall_impl; [exact Hrows|].
    intros row Hrow. cbn in *. by apply CascadeFacts.length_compute_grid.
  - apply Forall_replicate. by rewrite length_replicate.
  - apply Forall_replicate. by rewrite length_replicate.
Qed.

Lemma open_default c g :
  open c (FScalar false) g = open c (FArray (replicate (count (active_grids g)) false)) g.
Proof.
  unfold open, flag_values, any_flag.
  rewrite decide_True by (by rewrite length_replicate).
  assert (existsb id (replicate (count (active_grids g)) false) = false) as ->; [|done].
  induction (count (active_grids g)) as [|k IH]; [done|]. done.
Qed.

(** X21: [Game.open] of [game.py] with one valid cell index per active slot
    and one flag per active slot returns. An active slot is judged correct
    when its flag says whether the cell is a mine; then the cell is marked
    in [states] and shown in [visible_grids], and an opening lowers the
    score by one, also when the cell was open before, while a flag lowers
    the count of mines left. A slot judged wrong is deactivated, its cell
    shown as 0. A slot is won, and deactivated, when its score reaches 0;
    the other slots are left as they are. *)
Theorem open_judges_each_slot g c flags fl :
  shaped g → length c = count (active_grids g) →
  Forall (λ ci, is_Some (py_index (size g) ci)) c →
  (flags = FScalar false ∧ fl = replicate (count (active_grids g)) false ∨
   flags = FArray fl ∧ length fl = count (active_grids g)) →
  ∃ g' r, open c flags g = Some (g', r) ∧ shaped g' ∧
    (∀ i, active_grids g !! i = Some false →
       states g' !! i = states g !! i ∧
       visible_grids g' !! i = visible_grids g !! i ∧
       scores g' !! i = scores g !! i ∧
       mines_scores g' !! i = mines_scores g !! i ∧
       last_opened g' !! i = last_opened g !! i ∧
       active_grids g' !! i = Some false) ∧
    (∀ i ci p f field grid st vis s ms,
       active_grids g !! i = Some true →
       c !! rank (active_grids g) i = Some ci → py_index (size g) ci = Some p →
       fl !! rank (active_grids g) i = Some f →
       fields g !! i = Some field → grids g !! i = Some grid →
       states g !! i = Some st → visible_grids g !! i = Some vis →
       scores g !! i = Some s → mines_scores g !! i = Some ms →
       ∃ x v, field !! p = Some x ∧ grid !! p = Some v ∧
         let ok := negb (xorb f (negb (x =? 0))) in
         let s' := if ok then s - (if f then 0 else 1) else s in
         r !! rank (active_grids g) i = Some v ∧
         last_opened g' !! i = Some ci ∧
         states g' !! i = Some (if ok then <[p := 1]> st else st) ∧
         visible_grids g' !! i = Some (<[p := if ok then v else 0]> vis) ∧
         scores g' !! i = Some s' ∧
         mines_scores g' !! i = Some (if ok && f then ms - 1 else ms) ∧
         won g' !! i = Some (s' =? 0) ∧
         active_grids g' !! i = Some (ok && negb (s' =? 0))).
Proof.
  intros Hsh Hc Hidx [[-> ->]|[-> Hfl]].
  - rewrite open_default. apply open_slots; [done..| |done]. by rewrite length_replicate.
  - by apply open_slots.
Qed.

Lemma demo_open_game_init : init demo_choice 2 2 1 2 = Some demo_open_game.
Proof. vm_compute. reflexivity. Qed.

Lemma open_judges_each_slot_witness :
  shaped demo_open_game ∧ length [2; 3] = count (active_grids demo_open_game) ∧
  Forall (λ ci, is_Some (py_index (size demo_open_game) ci)) [2; 3] ∧
  (FScalar false = FScalar false ∧
   replicate (count (active_grids demo_open_game)) false
   = replicate (count (active_grids demo_open_game)) false ∨
   FScalar false = FArray (replicate (count (active_grids demo_open_game)) false) ∧
   length (replicate (count (active_grids demo_open_game)) false)
   = count (active_grids demo_open_game)) ∧
  ∃ g' r, open [2; 3] (FScalar false) demo_open_game = Some (g', r) ∧ shaped g' ∧
    (∀ i, active_grids demo_open_game !! i = Some false →
       states g' !! i = states demo_open_game !! i ∧
       visible_grids g' !! i = visible_grids demo_open_game !! i ∧
       scores g' !! i = scores demo_open_game !! i ∧
       mines_scores g' !! i = mines_scores demo_open_game !! i ∧
       last_opened g' !! i = last_opened demo_open_game !! i ∧
       active_grids g' !! i = Some false) ∧
    (∀ i ci p f field grid st vis s ms,
       active_grids demo_open_game !! i = Some true →
       [2; 3] !! rank (active_grids demo_open_game) i = Some ci →
       py_index (size demo_open_game) ci = Some p →
       replicate (count (active_grids demo_open_game)) false
         !! rank (active_grids demo_open_game) i = Some f →
       fields demo_open_game !! i = Some field → grids demo_open_game !! i = Some grid →
       states demo_open_game !! i = Some st → visible_grids demo_open_game !! i = Some vis →
       scores demo_open_game !! i = Some s → mines_scores demo_open_game !! i = Some ms →
       ∃ x v, field !! p = Some x ∧ grid !! p = Some v ∧
         let ok := negb (xorb f (negb (x =? 0))) in
         let s' := if ok then s - (if f then 0 else 1) else s in
         r !! rank (active_grids demo_open_game) i = Some v ∧
         last_opened g' !! i = Some ci ∧
         states g' !! i = Some (if ok then <[p := 1]> st else st) ∧
         visible_grids g' !! i = Some (<[p := if ok then v else 0]> vis) ∧
         scores g' !! i = Some s' ∧
         mines_scores g' !! i = Some (if ok && f then ms - 1 else ms) ∧
         won g' !! i = Some (s' =? 0) ∧
         active_grids g' !! i = Some (ok && negb (s' =? 0))).
Proof.
  assert (shaped demo_open_game) as Hsh
    by (apply (init_shaped demo_choice 2 2 1 2), demo_open_game_init).
  assert (Forall (λ ci, is_Some (py_index (size demo_open_game) ci)) [2; 3]) as Hidx
    by (repeat constructor; by eexists).
  split; [done|]. split; [reflexivity|]. split; [done|]. split; [by left|].
  apply (open_judges_each_slot demo_open_game [2; 3] (FScalar false)
           (replicate (count (active_grids demo_open_game)) false));
    [done|reflexivity|done|by left].
Defined.

End LegacyOpenFacts.

(** * The scores through the cascade of [game.py] *)
Module TallyFacts.
Import Np Legacy Cascade Tally NpFacts GeneratorFacts CascadeFacts LegacyInitFacts.

Lemma gather_sublist {A} (mask : list bool) (xs : list A) : gather mask xs `sublist_of` xs.
Proof.
  revert xs. induction mask as [|b m IH]; intros [|x xs]; simpl; try done.
  - apply sublist_nil_l.
  - destruct b; [by apply sublist_skip|by apply sublist_cons].
Qed.

Lemma gather_fmap {A B} (f : A → B) (mask : list bool) (xs : list A) :
  f <$> gather mask xs = gather mask (f <$> xs).
Proof.
  revert xs. induction mask as [|b m IH]; intros [|x xs]; simpl; try done.
  destruct b; simpl; by rewrite IH.
Qed.

Lemma NoDup_fmap_eq {A B} (f : A → B) (l : list A) x y :
  NoDup (f <$> l) → x ∈ l → y ∈ l → f x = f y → x = y.
Proof.
  induction l as [|a l IH]; intros Hnd Hx Hy E; [by apply elem_of_nil in Hx|].
  rewrite fmap_cons in Hnd. apply NoDup_cons in Hnd as [Hna Hnd].
  apply elem_of_cons in Hx as [->|Hx]; apply elem_of_cons in Hy as [->|Hy]; try done.
  - exfalso. apply Hna. rewrite E. by apply list_elem_of_fmap_2.
  - exfalso. apply Hna. rewrite <- E. by apply list_elem_of_fmap_2.
  - by apply IH.
Qed.

(** [scores[slots] -= 1] takes one from every listed slot, once. *)
Lemma decrement_spec (sc : list Z) (slots : list Z) :
  Forall (λ z, 0 ≤ z < Z.of_nat (length sc)) slots →
  length (decrement sc slots) = length sc ∧
  ∀ i x, sc !! i = Some x →
    decrement sc slots !! i = Some (if decide (Z.of_nat i ∈ slots) then x - 1 else x).
Proof.
  intros Hs. unfold decrement.
  assert (∀ acc, length acc = length sc →
    length (foldl (λ a s, match py_index (length sc) s with
                          | Some i => <[i := default 0 (sc !! i) - 1]> a
                          | None => a end) acc slots) = length sc ∧
    ∀ i x, sc !! i = Some x →
      foldl (λ a s, match py_index (length sc) s with
                    | Some i => <[i := default 0 (sc !! i) - 1]> a
                    | None => a end) acc slots !! i
      = if decide (Z.of_nat i ∈ slots) then Some (x - 1) else acc !! i) as H.
  { induction Hs as [|z slots Hz _ IH]; intros acc Hacc.
    - split; [done|]. intros i x Hx. rewrite decide_False; [done|]. by intros ?%elem_of_nil.
    - cbn [foldl]. rewrite py_index_inside by done.
      destruct (IH (<[Z.to_nat z := default 0 (sc !! Z.to_nat z) - 1]> acc)) as [Hl Hv];
        [by rewrite length_insert|].
      split; [done|]. intros i x Hx. rewrite (Hv i x Hx).
      destruct (decide (Z.of_nat i ∈ slots)) as [Hin|Hin].
      + rewrite decide_True; [done|by right].
      + destruct (decide (Z.to_nat z = i)) as [<-|Hne].
        * rewrite decide_True by (apply elem_of_cons; left; lia).
          rewrite list_lookup_insert_eq by lia. by rewrite Hx.
        * rewrite decide_False by (intros [E|?]%elem_of_cons; [lia|done]).
          by rewrite list_lookup_insert_ne. }
  destruct (H sc eq_refl) as [Hl Hv]. split; [done|].
  intros i x Hx. rewrite (Hv i x Hx). by case_decide.
Qed.

Lemma filter_length_eq {A} (P Q : A → Prop) `{∀ x, Decision (P x)} `{∀ x, Decision (Q x)} l :
  (∀ x, x ∈ l → (Q x ↔ P x)) → length (filter Q l) = length (filter P l).
Proof.
  intros HPQ. apply Nat.le_antisymm; apply filter_length_le; intros x Hx; by apply HPQ.
Qed.

Lemma filter_length_one {A} (P Q : A → Prop) `{∀ x, Decision (P x)} `{∀ x, Decision (Q x)} l y :
  NoDup l → y ∈ l → P y → ¬ Q y → (∀ x, x ∈ l → x ≠ y → (Q x ↔ P x)) →
  length (filter P l) = S (length (filter Q l)).
Proof.
  induction l as [|a l IH]; intros Hnd Hy HP HQ HPQ; [by apply elem_of_nil in Hy|].
  apply NoDup_cons in Hnd as [Hna Hnd]. rewrite !filter_cons.
  apply elem_of_cons in Hy as [->|Hy].
  - rewrite decide_True by done. rewrite decide_False by done. cbn [length]. f_equal.
    symmetry. apply filter_length_eq. intros x Hx. apply HPQ; [by right|].
    intros ->. done.
  - assert (a ≠ y) as Hne by (intros ->; done).
    assert (length (filter P l) = S (length (filter Q l))) as E.
    { apply IH; try done. intros x Hx. apply HPQ. by right. }
    destruct (HPQ a) as [H1 H2]; [by left|done|].
    destruct (decide (P a)) as [Ha|Ha].
    + rewrite decide_True by auto. cbn [length]. by rewrite E.
    + rewrite decide_False by auto. done.
Qed.

Section Scores.
Context (n h w : nat) (G : batch).
Hypothesis HG : shape3 n (h + 2) (w + 2) G.
Hypothesis Hw : (0 < w)%nat.

Local Abbreviation inside' := (inside n (h + 2) (w + 2)).
Local Abbreviation interior' := (interior n h w).
Local Abbreviation padinv := (Cascade.padinv n h w).
Local Abbreviation kept := (Tally.kept h w).
Local Abbreviation closed_in := (Tally.closed_in h w).

Lemma kept_refl P sc : kept P sc P sc.
Proof. split; [done|]. intros s x Hx. by exists x. Qed.

Lemma kept_trans P1 sc1 P2 sc2 P3 sc3 :
  kept P1 sc1 P2 sc2 → kept P2 sc2 P3 sc3 → kept P1 sc1 P3 sc3.
Proof.
  intros [Hl1 H1] [Hl2 H2]. split; [congruence|].
  intros s x Hx. destruct (H1 s x Hx) as (x' & Hx' & E1).
  destruct (H2 s x' Hx') as (x'' & Hx'' & E2). exists x''. split; [done|lia].
Qed.

(** The board cell of a flat index. *)
Lemma flat_cell_interior s p :
  (s < n)%nat → (p < h * w)%nat → interior' (at_board s (p / w) (p mod w)).
Proof using Hw.
  intros Hs Hp. unfold interior, at_board. simpl.
  pose proof (Nat.mod_upper_bound p w ltac:(lia)).
  assert (p / w < h)%nat by (apply Nat.Div0.div_lt_upper_bound; lia). lia.
Qed.

Lemma interior_flat t :
  interior' t →
  ∃ s p, (s < n)%nat ∧ (p < h * w)%nat ∧ t = at_board s (p / w) (p mod w).
Proof using Hw.
  destruct t as [[s r] c]. unfold interior. simpl. intros (Hs & Hr & Hc).
  exists (Z.to_nat s), (Z.to_nat (r - 1) * w + Z.to_nat (c - 1))%nat.
  split; [lia|]. split; [nia|].
  rewrite <- (Nat.div_unique (Z.to_nat (r - 1) * w + Z.to_nat (c - 1)) w
                (Z.to_nat (r - 1)) (Z.to_nat (c - 1))) by lia.
  rewrite <- (Nat.mod_unique (Z.to_nat (r - 1) * w + Z.to_nat (c - 1)) w
                (Z.to_nat (r - 1)) (Z.to_nat (c - 1))) by lia.
  unfold at_board. f_equal; [f_equal|]; lia.
Qed.

Lemma flat_cell_inj s p s' p' :
  at_board s (p / w) (p mod w) = at_board s' (p' / w) (p' mod w) → s = s' ∧ p = p'.
Proof using Hw.
  intros E. apply at_board_inj in E as (-> & E1 & E2). split; [done|].
  rewrite (Nat.div_mod_eq p w), (Nat.div_mod_eq p' w). by rewrite E1, E2.
Qed.

(** One offset of the double loop keeps the tally. *)
Lemma step_tally i j c P sc t2 P1 sc1 :
  padinv P → (i, j) ∈ offsets9 → Forall interior' c → NoDup (slot <$> c) →
  length sc = n →
  step G i j c (P, sc) = Some (t2, (P1, sc1)) →
  kept P sc P1 sc1 ∧ NoDup (slot <$> t2).
Proof using HG Hw.
  intros HPI Ho Hc Hnd Hlen Hstep. pose proof HPI as [HS HP].
  unfold step in Hstep.
  set (t := map (shift i j) c) in *.
  assert (Forall inside' t) as Ht.
  { apply Forall_fmap. eapply Forall_impl; [exact Hc|]. intros x Hx. by apply shift_inside. }
  destruct (mapM (get3 P) t) as [vals|] eqn:Hvals; [|done]. cbn [mbind option_bind] in Hstep.
  set (t1 := gather (map (λ v, v =? 0) vals) t) in *.
  assert (∀ y, y ∈ t1 ↔ y ∈ t ∧ get3 P y = Some 0) as Ht1.
  { intros y. unfold t1. rewrite (gather_lookups _ _ _ _ Hvals). split.
    - intros [? (v & Hv & E)]. apply Z.eqb_eq in E. by subst.
    - intros [? ?]. split; [done|]. by exists 0. }
  assert (Forall inside' t1) as Hin1.
  { apply Forall_forall. intros y Hy. apply Ht1 in Hy as [Hy _].
    rewrite Forall_forall in Ht. by apply Ht. }
  destruct (mapM (get3 G) t1) as [gv|] eqn:Hgv; [|done]. cbn [mbind option_bind] in Hstep.
  injection Hstep as <- <- <-.
  assert (slot <$> t = slot <$> c) as Hslots.
  { unfold t. rewrite <- list_fmap_compose. apply list_fmap_ext.
    intros _ [[s r] c0] _. done. }
  assert (NoDup (slot <$> t1)) as Hnd1.
  { unfold t1. rewrite gather_fmap. eapply sublist_NoDup; [|apply gather_sublist].
    by rewrite Hslots. }
  split.
  2:{ rewrite gather_fmap. eapply sublist_NoDup; [exact Hnd1|apply gather_sublist]. }
  assert (Forall (λ z, 0 ≤ z < Z.of_nat (length sc)) (slot <$> t1)) as Hrange.
  { apply Forall_fmap. eapply Forall_impl; [exact Hin1|].
    intros [[s r] c0] (Hs & _). cbn in *. lia. }
  destruct (decrement_spec sc (slot <$> t1) Hrange) as [Hl Hdec].
  split; [done|]. intros s x Hx.
  assert (s < n)%nat as Hs by (apply lookup_lt_Some in Hx; lia).
  eexists. split; [exact (Hdec s x Hx)|].
  assert (∀ y, inside' y →
            get3 (foldl (set3 1) P t1) y = if decide (y ∈ t1) then Some 1 else get3 P y)
    as Hget.
  { intros y Hy. by apply (get3_foldl_set3 n (h + 2) (w + 2)). }
  unfold Tally.closed_in.
  destruct (decide (Z.of_nat s ∈ slot <$> t1)) as [Hin|Hin].
  - apply list_elem_of_fmap in Hin as (y & Hsy & Hy).
    pose proof (proj1 (Ht1 y) Hy) as [Hyt Hyh].
    assert (interior' y) as Hyi.
    { apply (hidden_interior n h w P); [done| |done].
      rewrite Forall_forall in Hin1. by apply Hin1. }
    destruct (interior_flat y Hyi) as (s' & p & Hs' & Hp & ->).
    assert (s' = s) as -> by (unfold slot, at_board in Hsy; simpl in Hsy; lia).
    rewrite (filter_length_one
               (λ p, get3 P (at_board s (p / w) (p mod w)) = Some 0)
               (λ p, get3 (foldl (set3 1) P t1) (at_board s (p / w) (p mod w)) = Some 0)
               (seq 0 (h * w)) p).
    + lia.
    + apply NoDup_seq.
    + apply elem_of_seq. lia.
    + done.
    + rewrite Hget by (by apply interior_inside). by rewrite decide_True.
    + intros q Hq Hne. apply elem_of_seq in Hq.
      rewrite Hget by (apply interior_inside, flat_cell_interior; lia).
      rewrite decide_False; [done|]. intros Hq1.
      apply Hne. symmetry.
      apply (flat_cell_inj s p s q).
      apply (NoDup_fmap_eq slot t1); done.
  - rewrite (filter_length_eq
               (λ p, get3 P (at_board s (p / w) (p mod w)) = Some 0)
               (λ p, get3 (foldl (set3 1) P t1) (at_board s (p / w) (p mod w)) = Some 0)).
    + lia.
    + intros q Hq. apply elem_of_seq in Hq.
      rewrite Hget by (apply interior_inside, flat_cell_interior; lia).
      rewrite decide_False; [done|]. intros Hq1. apply Hin.
      apply list_elem_of_fmap. eexists. split; [|exact Hq1]. done.
Qed.

Lemma foldl_body_None f c os : foldl (body G f c) None os = None.
Proof. induction os as [|[i j] os IH]; [done|]. cbn [foldl]. exact IH. Qed.

Lemma rec_tally fuel : ∀ c P sc P' sc',
  padinv P → Forall interior' c → NoDup (slot <$> c) → length sc = n →
  open_zero_rec fuel G c (P, sc) = Some (P', sc') →
  padinv P' ∧ kept P sc P' sc'.
Proof using HG Hw.
  induction fuel as [|f IH]; intros c P sc P' sc' HPI Hc Hnd Hlen Hrec; [done|].
  rewrite open_zero_rec_S in Hrec.
  assert (∀ os, os ⊆ offsets9 → ∀ P sc, padinv P → length sc = n →
            foldl (body G f c) (Some (P, sc)) os = Some (P', sc') →
            padinv P' ∧ kept P sc P' sc') as Hloop.
  { clear P sc HPI Hlen Hrec.
    induction os as [|[i j] os IHos]; intros Hos P sc HPI Hlen Hfold.
    - cbn in Hfold. injection Hfold as <- <-. split; [done|apply kept_refl].
    - assert ((i, j) ∈ offsets9) as Ho by (apply Hos; by left).
      assert (os ⊆ offsets9) as Hos' by (intros o Hin; apply Hos; by right).
      cbn [foldl] in Hfold.
      assert (Forall (λ x, interior' x ∧ True) c) as Hc'
        by (eapply Forall_impl; [exact Hc|]; by intros x ?).
      destruct (step_facts n h w G HG (λ _, True) ltac:(done) i j c P sc HPI Ho Hc')
        as (t2 & P1 & sc1 & Hstep & HPI1 & _ & _ & _ & Ht2 & _ & _).
      destruct (step_tally i j c P sc t2 P1 sc1 HPI Ho Hc Hnd Hlen Hstep) as [Hk1 Hnd2].
      assert (length sc1 = n) as Hlen1 by (destruct Hk1; lia).
      assert (∃ P2 sc2, body G f c (Some (P, sc)) (i, j) = Some (P2, sc2)) as (P2 & sc2 & Hb).
      { destruct (body G f c (Some (P, sc)) (i, j)) as [[P2 sc2]|] eqn:E; [by eauto|].
        by rewrite foldl_body_None in Hfold. }
      rewrite Hb in Hfold.
      assert (padinv P2 ∧ kept P1 sc1 P2 sc2) as [HPI2 Hk2].
      { unfold body in Hb. cbn [mbind option_bind] in Hb. rewrite Hstep in Hb.
        cbn [mbind option_bind] in Hb. destruct t2 as [|y t2'].
        - injection Hb as <- <-. split; [done|apply kept_refl].
        - apply (IH (y :: t2')); try done.
          eapply Forall_impl; [exact Ht2|]. by intros x [? _]. }
      assert (length sc2 = n) as Hlen2 by (destruct Hk2; lia).
      destruct (IHos Hos' P2 sc2 HPI2 Hlen2 Hfold) as [HPI' Hk'].
      split; [done|]. eapply kept_trans; [exact Hk1|]. eapply kept_trans; [exact Hk2|done]. }
  by apply (Hloop offsets9).
Qed.

End Scores.


(** *** Counting along the flat board *)

Lemma filter_length_all {A} (P : A → Prop) `{∀ x, Decision (P x)} l :
  (∀ x, x ∈ l → P x) → length (filter P l) = length l.
Proof.
  induction l as [|a l IH]; intros HP; [done|].
  rewrite filter_cons, decide_True by (apply HP; by left).
  cbn [length]. rewrite IH; [done|]. intros x Hx. apply HP. by right.
Qed.

Lemma filter_length_split {A} (P Q R : A → Prop)
    `{∀ x, Decision (P x)} `{∀ x, Decision (Q x)} `{∀ x, Decision (R x)} l :
  (∀ x, x ∈ l → (P x ∧ ¬ Q x ↔ R x)) →
  length (filter P l)
  = (length (filter (λ x, P x ∧ Q x) l) + length (filter R l))%nat.
Proof.
  induction l as [|a l IH]; intros HR; [done|].
  assert (length (filter P l)
          = (length (filter (λ x, P x ∧ Q x) l) + length (filter R l))%nat) as E.
  { apply IH. intros x Hx. apply HR. by right. }
  pose proof (HR a ltac:(by left)) as Ha.
  rewrite !filter_cons.
  destruct (decide (P a)) as [HP|HP], (decide (Q a)) as [HQ|HQ].
  - rewrite decide_True by done. rewrite decide_False by tauto. cbn [length]. lia.
  - rewrite decide_False by tauto. rewrite decide_True by tauto. cbn [length]. lia.
  - rewrite decide_False by tauto. rewrite decide_False by tauto. lia.
  - rewrite decide_False by tauto. rewrite decide_False by tauto. lia.
Qed.

(** The entries of a list that equal [a], counted by their indices. *)
Lemma filter_by_index (a : Z) (l : list Z) (f : nat → option Z) start :
  (∀ i, f (start + i)%nat = l !! i) →
  length (filter (λ p, f p = Some a) (seq start (length l)))
  = length (filter (λ v, v = a) l).
Proof.
  revert start. induction l as [|x l IH]; intros start Hf; [done|].
  cbn [length seq]. rewrite !filter_cons.
  pose proof (Hf 0%nat) as H0. rewrite Nat.add_0_r in H0. cbn in H0.
  assert (length (filter (λ p, f p = Some a) (seq (S start) (length l)))
          = length (filter (λ v, v = a) l)) as E.
  { apply IH. intros i.
    transitivity (f (start + S i)%nat); [f_equal; lia|exact (Hf (S i))]. }
  destruct (decide (x = a)) as [->|Hne].
  - rewrite decide_True by done. cbn [length]. by rewrite E.
  - rewrite decide_False by congruence. done.
Qed.

(** *** The first call *)

Lemma start_cells_slots g cs : start_cells g = Some cs → NoDup (slot <$> cs).
Proof.
  unfold start_cells.
  destruct (mapM (λ row, argmin (map Z.abs row)) (grids g)) as [cs0|]; [|done].
  cbn [mbind option_bind]. intros [= <-].
  rewrite <- list_fmap_compose.
  rewrite (list_fmap_ext _ (Z.of_nat ∘ fst)) by (by intros _ [i c] _).
  rewrite gather_fmap. eapply sublist_NoDup; [|apply gather_sublist].
  apply NoDup_alt. intros i j x Hi Hj.
  rewrite list_lookup_fmap, list_lookup_imap in Hi, Hj.
  destruct (cs0 !! i); [|done]. destruct (cs0 !! j); [|done].
  cbn in Hi, Hj. simplify_eq. lia.
Qed.

Lemma init_scores choice k mines0 n0 g :
  init choice k k mines0 n0 = Some g →
  scores g = replicate n0 (Z.of_nat (k * k) - mines0) ∧ size g = (k * k)%nat ∧
  ∃ fs, _compute_fields choice n0 (k * k) mines0 = Some fs ∧ fields g = fs.
Proof.
  unfold init, reset. cbn.
  destruct (_compute_fields choice n0 (k * k) mines0) as [fs|]; cbn; [|done].
  intros [= <-]. cbn. split_and!; [done..|]. by exists fs.
Qed.

Local Abbreviation ones l := (length (filter (λ x : Z, x = 1) l)).
Local Abbreviation set_ones := (foldr (λ (k : nat) (row : list Z), <[k := 1]> row)).

(** X22: the scores after the cascade of [game.py]. On a square board
    built by [__init__], with the mines drawn on [mines] different cells,
    [open_zero] leaves in [scores] the number of safe cells of the slot that
    are still closed; the slot is won when none is left and active
    otherwise. *)
Theorem cascade_scores_count_safe_cells choice k mines0 n0 g fuel :
  (0 < k)%nat → init choice k k mines0 n0 = Some g →
  (n0 * (k * k) < fuel)%nat →
  (∀ s, (s < n0)%nat →
     NoDup (choice s) ∧ Z.of_nat (length (choice s)) = mines0 ∧
     Forall (λ p, (p < k * k)%nat) (choice s)) →
  ∃ g', open_zero fuel g = Some g' ∧
    ∀ s, (s < n0)%nat →
      ∃ field st, fields g !! s = Some field ∧ states g' !! s = Some st ∧
        let left := Z.of_nat (closed_safe field st) in
        scores g' !! s = Some left ∧
        won g' !! s = Some (left =? 0) ∧
        active_grids g' !! s = Some (0 <? left).
Proof.
  intros Hk Hinit Hfuel Hchoice.
  destruct (init_fresh choice k mines0 n0 g Hk Hinit) as [Hn Hfresh].
  destruct (init_scores choice k mines0 n0 g Hinit) as (Hsc & Hsize & fs & Hfs & Hfields).
  destruct (open_zero_cascade g k Hfresh fuel) as (g' & Hopen & Hrows' & Hcols' & _);
    [by rewrite Hn|].
  exists g'. split; [done|]. intros s Hs.
  pose proof Hopen as Hrun. unfold open_zero in Hrun.
  destruct (start_cells g) as [cs|] eqn:Hcs; [|done]. cbn [mbind option_bind] in Hrun.
  destruct (open_zero_rec fuel (padded g (grids g)) cs (padded g (states g), scores g))
    as [[P' sc']|] eqn:Hrec; [|done].
  cbn [mbind option_bind] in Hrun. injection Hrun as Hg'.
  pose proof (G_shape g k Hfresh) as HG. pose proof (P0_padinv g k Hfresh) as HP0.
  destruct (start_cells_spec g k Hfresh) as (cs' & Hcs' & Hspec).
  rewrite Hcs in Hcs'. injection Hcs' as <-.
  assert (Forall (interior (n g) k k) cs) as Hfront.
  { apply Forall_forall. intros x Hx.
    destruct (Hspec x Hx) as (s0 & r & c & -> & ? & ? & ? & _).
    by apply at_board_interior. }
  destruct (rec_tally (n g) k k (padded g (grids g)) HG Hk fuel cs
              (padded g (states g)) (scores g) P' sc' HP0 Hfront
              (start_cells_slots g cs Hcs)) as [HP' [Hlen' Hkept]]; [|done|].
  { by rewrite Hsc, length_replicate. }
  (* the slot before and after *)
  destruct (Hkept s (Z.of_nat (k * k) - mines0)) as (x' & Hx' & Ex).
  { rewrite Hsc. by apply lookup_replicate_2. }
  assert (closed_in k k (padded g (states g)) s = (k * k)%nat) as Hall.
  { unfold closed_in. rewrite filter_length_all; [by rewrite length_seq|].
    intros p Hp. apply elem_of_seq in Hp.
    apply (P0_hidden g k Hfresh). apply flat_cell_interior; lia. }
  rewrite Hall in Ex.
  destruct HP' as [HS' HV'].
  destruct (lookup_lt_is_Some_2 P' s) as [pl Hpl]; [destruct HS'; lia|].
  pose proof (Forall_lookup_1 _ _ _ _ (proj2 HS') Hpl) as Hplshape.
  set (st := flatten (inner pl)).
  assert (states g' !! s = Some st) as Hst.
  { rewrite <- Hg'. cbn. by rewrite list_lookup_fmap, Hpl. }
  assert (length st = (k * k)%nat) as Hstlen
    by (apply (length_flatten k k), inner_shape; done).
  assert (∀ p, (p < k * k)%nat →
            st !! p = get3 P' (at_board s (p / k) (p mod k))) as Hcellst.
  { intros p Hp.
    pose proof (Nat.mod_upper_bound p k ltac:(lia)) as Hc.
    assert (p / k < k)%nat as Hr by (apply Nat.Div0.div_lt_upper_bound; lia).
    rewrite <- (lcell_states_result g k P' g' s (p / k) (p mod k));
      [|done|done|done|by rewrite <- Hg'|lia|done|done].
    unfold lcell. rewrite Hst, Hrows', Hcols'. cbn [mbind option_bind].
    rewrite cell_reshape by done. f_equal.
    pose proof (Nat.div_mod_eq p k). lia. }
  (* the mines of the slot *)
  destruct (lookup_lt_is_Some_2 fs s) as [field Hfield].
  { unfold _compute_fields in Hfs. case_decide; [lia|]. case_decide; [|done].
    injection Hfs as <-. by rewrite length_map, length_seq. }
  destruct (fields_inv _ _ _ _ _ _ _ Hfs Hfield) as [Efield _].
  destruct (Hchoice s Hs) as (Hnd & Hmines & Hin).
  assert (length field = (k * k)%nat) as Hflen
    by (by rewrite Efield, length_set_ones, length_replicate).
  assert (Forall (λ x, x = 0 ∨ x = 1) field) as Hbin
    by (rewrite Efield; apply set_ones_binary, Forall_replicate; by left).
  assert (Z.of_nat (ones field) = mines0) as Hones
    by (by rewrite Efield, set_ones_count).
  exists field, st. split; [by rewrite Hfields|]. split; [done|].
  (* counting *)
  assert (closed_in k k P' s
          = length (filter (λ p, st !! p = Some 0) (seq 0 (k * k)))) as Hclosed.
  { unfold closed_in. apply filter_length_eq. intros p Hp. apply elem_of_seq in Hp.
    by rewrite Hcellst by lia. }
  assert (length (filter (λ p, st !! p = Some 0) (seq 0 (k * k)))
          = (closed_safe field st + ones field)%nat) as Hsplit.
  { unfold closed_safe. rewrite Hstlen.
    rewrite <- (filter_by_index 1 field (λ p, field !! p) 0) by done.
    rewrite Hflen.
    apply (filter_length_split (λ p, st !! p = Some 0) (λ p, field !! p = Some 0)
             (λ p, field !! p = Some 1)).
    intros p Hp. apply elem_of_seq in Hp.
    destruct (lookup_lt_is_Some_2 field p) as [x Hx]; [lia|].
    pose proof (Forall_lookup_1 _ _ _ _ Hbin Hx) as Hx01. cbn in Hx01.
    pose proof (Nat.mod_upper_bound p k ltac:(lia)) as Hc.
    assert (p / k < k)%nat as Hr by (apply Nat.Div0.div_lt_upper_bound; lia).
    assert ((p / k * k + p mod k)%nat = p) as Ep
      by (pose proof (Nat.div_mod_eq p k); lia).
    rewrite Hx. split.
    - intros [_ Hne]. destruct Hx01 as [->| ->]; done.
    - intros [= ->]. split; [|done].
      assert (interior (n g) k k (at_board s (p / k) (p mod k))) as Hi
        by (apply at_board_interior; lia).
      pose proof (interior_inside _ _ _ _ Hi) as Hii.
      destruct (get3_is_Some _ _ _ P' _ HS' Hii) as [v Hv].
      rewrite Hcellst by lia. rewrite Hv.
      destruct (HV' _ v Hii Hv) as [[->| ->] _]; [done..|].
      exfalso.
      assert (opened g' s (p / k) (p mod k)) as Hop.
      { unfold opened.
        rewrite (lcell_states_result g k P' g' s (p / k) (p mod k));
          [done|done|done|done|by rewrite <- Hg'|lia|done|done]. }
      pose proof (square_cascade_safe choice k mines0 n0 g fuel g' s (p / k) (p mod k)
                    Hk Hinit Hfuel Hopen Hs Hr Hc Hop) as Hsafe.
      unfold lcell in Hsafe. rewrite Hfields, Hfield in Hsafe.
      rewrite (fresh_rows g k Hfresh), (fresh_columns g k Hfresh) in Hsafe.
      cbn [mbind option_bind] in Hsafe.
      rewrite cell_reshape, Ep, Hx in Hsafe by done. done. }
  assert (x' = Z.of_nat (closed_safe field st)) as -> by lia.
  assert (scores g' = sc') as Esc by (by rewrite <- Hg').
  assert (won g' = map (λ s, s =? 0) sc') as Ewon by (by rewrite <- Hg').
  assert (active_grids g' = map (λ s, 0 <? s) sc') as Eact by (by rewrite <- Hg').
  cbv zeta. rewrite Esc, Ewon, Eact, !list_lookup_fmap, Hx'. done.
Qed.

Lemma cascade_scores_count_safe_cells_witness :
  (0 < 3)%nat ∧ init (λ _, [8%nat]) 3 3 1 1 = Some demo_square ∧
  (1 * (3 * 3) < 10)%nat ∧
  (∀ s, (s < 1)%nat →
     NoDup ((λ _ : nat, [8%nat]) s) ∧ Z.of_nat (length ((λ _ : nat, [8%nat]) s)) = 1 ∧
     Forall (λ p, (p < 3 * 3)%nat) ((λ _ : nat, [8%nat]) s)) ∧
  ∃ g', open_zero 10 demo_square = Some g' ∧
    ∀ s, (s < 1)%nat →
      ∃ field st, fields demo_square !! s = Some field ∧ states g' !! s = Some st ∧
        let left := Z.of_nat (closed_safe field st) in
        scores g' !! s = Some left ∧
        won g' !! s = Some (left =? 0) ∧
        active_grids g' !! s = Some (0 <? left).
Proof.
  assert (∀ s, (s < 1)%nat →
            NoDup ((λ _ : nat, [8%nat]) s) ∧
            Z.of_nat (length ((λ _ : nat, [8%nat]) s)) = 1 ∧
            Forall (λ p, (p < 3 * 3)%nat) ((λ _ : nat, [8%nat]) s)) as Hchoice.
  { intros s _. split; [apply NoDup_singleton|]. split; [reflexivity|].
    constructor; [cbn; lia|constructor]. }
  split; [lia|]. split; [vm_compute; reflexivity|]. split; [cbn; lia|].
  split; [exact Hchoice|].
  apply (cascade_scores_count_safe_cells (λ _, [8%nat]) 3 1 1 demo_square 10);
    [lia|vm_compute; reflexivity|cbn; lia|exact Hchoice].
Defined.

End TallyFacts.
